(* ===== verification/_CoqProject ===== *)
-Q . S2P
Prelude.v
Endian.v
Buffer.v
OS.v
Descriptors.v
Double.v
Objects.v
Poller.v
LoopCore.v
Channel.v
TimerQueue.v
Sockets.v
Calls.v
Addresses.v
TcpConnection.v
ByteStream.v
Lifecycle.v
EventLoop.v
Threads.v
Interleaving.v
Acceptor.v
Connector.v
TcpServer.v
TcpClient.v
Program.v
PingPong.v
Isolation.v
Connecting.v
Serving.v
Lifetimes.v
Bench.v
Echo.v
Running.v
Startup.v
Table.v
Events.v
Service.v
Welcome.v
Rounds.v
Opening.v
Handover.v
Roster.v
Crew.v
CrewEvents.v
CrewRounds.v
Muster.v
Launch.v
Monitor.v
Base.v
