(* ===== verification/Prelude.v ===== *)
(** * Siren: a verification development of the siren network library

    The repository is a C++17 network library in the style of muduo: event loops
    that each belong to one thread, channels (one per descriptor), a multiplexer,
    timers, buffers, TCP connections, servers and clients; with thread utilities
    under deps/sirenlib and three example programs under example/pingpong.  This
    development translates the library, the thread utilities and the examples into
    executable definitions, and proves what makes them correct.  This file is its
    root: this header, and the vocabulary, tactics and lemmas the others share.

    ** The program, and how its parts interact

    A loop ([EventLoop]) sleeps in [epoll_wait] ([EPollPoller]).  It hands each
    ready descriptor to its [Channel], which calls what the owner of the channel
    bound to it: [Acceptor::handleRead], [Connector::handleWrite],
    [TcpConnection::handleRead] and [handleWrite], [TimerQueue::handleRead], or the
    loop's own [handleRead] for its wakeup descriptor.  At the end of each round it
    runs the functors that were queued on it, from its own or other threads, which
    is how other threads reach a loop's objects.  [TcpServer] owns an acceptor and
    spreads its connections over the loops of an [EventLoopThreadPool]; [TcpClient]
    owns a [Connector] and one connection.  A [TcpConnection] owns its socket, its
    channel and two [Buffer]s, and tells the program that uses the library of its
    events.

    ** State, effects and the parameters of the model

    - The monad [M S A] (this file): a state, and an outcome that is a value or a
      fault.  A fault is what stops the C++ program or is undefined there: a failed
      [assert], [abort], an exception that nothing catches, a dangling or null
      pointer, an index out of range, a data race.  A theorem that concludes
      [= Ok ...] says that none of these happens.  [wp m Q s] is total correctness:
      [m] returns from [s] and [Q] holds; [wpx E m Q s] allows for the faults of [E].
    - The heap (Objects.v): a [World] maps pointers to one record per class, with
      the members of the header in order; fresh pointers count upwards.  What a
      [std::function] is bound to is a value ([Callback], [Functor],
      [TimerCallback], ...), and Program.v says what each of these values runs.
      Connections are shared: [owners] (TcpConnection.v) reads off the heap who
      holds a [TcpConnectionPtr], [release] gives one up and destroys what nobody
      holds any more, and [w_held] keeps the local pointers of running members.
    - The operating system (OS.v): one function [os_call] from a call and the
      kernel's state to a result and a new state, for every system call the code
      makes.  [OSLaws], [EpollLaws] and [FdLaws] (Descriptors.v) state what the
      manual pages promise of the results, the last of which descriptors are open.
      That the kernel grants a request of [epoll_ctl] on open descriptors is a
      hypothesis of its own, [EpollRoom] (Descriptors.v), of the theorems on whole
      programs: the code only logs a failure.  [sim] is an executable kernel that keeps
      epoll interest lists and answers everything else from a script; [fsim] keeps
      the open descriptors too, and satisfies all the laws and [EpollRoom].  The trace of calls
      with their results is part of the state: most theorems speak of it.
    - SIGPIPE: [as_process] (LoopCore.v) runs a computation as a process that was
      started with the signal at its default or ignored ([disposition]); the code
      itself never changes that.
    - Data races: the two members that use a loop's queue of functors are steps of
      the monad, and [push_access] and [swap_access] (LoopCore.v) are what they lock
      meanwhile.  Steps of two threads at the same time whose accesses conflict are
      the fault [DataRace].
    - [Inet] (Sockets.v): [inet_ntop] and [inet_pton], with their laws.
    - The program that uses the library is a parameter [user], called with a
      [UserCall]; PingPong.v and Bench.v instantiate it with the examples.
    - Machine integers are [Z] with the wrap-around written out ([wrap],
      [to_signed]); [double]s are the Standard Library's [SpecFloat] (Double.v).
    - Assertions are enabled, as in the repository's debug builds.

    ** Files

    Library components, in the order of their dependencies:
    - Endian.v: Endian.h.
    - Buffer.v: Buffer.h, Buffer.cpp.
    - OS.v, Double.v: the system calls and floating point the code uses.
      Descriptors.v: which descriptors are open, what [epoll_wait] may report, and
      [EpollRoom].
    - Objects.v: the members of every class, and the callables.
    - Poller.v: Poller.h, Poller.cpp, EPollPoller, PollPoller.  The class [Poller]
      is the interface, [PollerLaws] what it promises to the components above;
      both pollers are instances that discharge the laws.
    - LoopCore.v: the members of EventLoop that other classes call (threads, channel
      registration, the functor queue, wakeup, quit).
    - Channel.v: Channel.h, Channel.cpp.
    - TimerQueue.v: Timer, TimerId, TimerQueue, and the timers of EventLoop.cpp.
    - Sockets.v: SocketsOps, Socket, InetAddress.  Calls.v: rules for following the
      system calls of a member.  Addresses.v: what an InetAddress holds.
    - TcpConnection.v: TcpConnection.h, TcpConnection.cpp.
    - EventLoop.v: constructor, destructor and [loop()].
    - Threads.v: EventLoopThread, EventLoopThreadPool.  Interleaving.v: the round of
      [loop()] cut into the steps between which other threads run, and schedules, in
      which steps of two threads may overlap.
    - Acceptor.v, Connector.v, TcpServer.v, TcpClient.v: the classes of these names.
    - Program.v: the tables that tie callables to members, and [loop].

    Programs and utilities:
    - PingPong.v: server.cc and client.cc.  Bench.v: bench.cc, with its theorem.
    - Monitor.v: a mutex and a condition variable as a transition system whose runs
      are the interleavings of threads.  Base.v: CountDownLatch and BlockingQueue as
      instances of it, and Singleton, with their theorems.

    Properties of the components together:
    - ByteStream.v: a connection's output is a first-in first-out byte stream.
    - Lifecycle.v: the states of a connection.
    - Connecting.v: what becomes of a connection attempt.
    - Serving.v: a server's connections from accept to removal.
    - Echo.v: the example server returns what it reads; pending output drains; the
      two ways of echoing agree; the whole server program run on [sim].
    - Running.v: [loop()] returns after, and only after, a [quit()].
    - Startup.v: what the loop's constructor establishes.
    - Lifetimes.v: when connections are destroyed, and where the code gets it wrong.
    - Isolation.v: what a member of one connection cannot touch.

    The example server as a whole, one invariant over the heap and the kernel:
    - Table.v: each channel of the loop has its owner, each connection its name.
    - Service.v: the server in service, in the middle of a round ([serving]);
      reading, writing and closing a connection keep it so.
    - Events.v: how an event reaches its connection through [handleEvent].
    - Welcome.v: the acceptor's event, with and without descriptors to spare.
    - Rounds.v: a whole round, with the destruction of what it closed ([resting]),
      and any number of them.
    - Opening.v: [main] up to the first round, and the theorem on the program.

    The example server with several threads, one invariant for any moment between two
    steps of its threads:
    - Handover.v: the members that pass a connection from one loop to another.
    - Roster.v: where each connection is on its way between the loops ([status]), and
      which functor is due for it in which loop's queue ([queues]).
    - Crew.v: the threads' places in their rounds, their queues and the pointers they
      hold ([staffed]); the loops' pollers and the server ([equipped]); together
      [crewed].  CrewEvents.v: the events of channels keep it.  CrewRounds.v: so do
      the other steps, and with them every schedule.
    - Muster.v: making loops in threads of their own.  Launch.v: [main] up to
      [loop.loop()] with a pool of threads, and the theorem on the program.

    ** What the theorems show

    Refinement: a buffer is a byte queue (Buffer.v); a loop's functors are a queue
    served a round at a time, unless two threads are at it (LoopCore.v); a connection
    is a byte stream (ByteStream.v); the example server is the identity on byte streams
    (Echo.v).  Equivalence: sending a buffer is sending its text (Echo.v).
    Safety of the whole program: the example server makes as many rounds as there
    are connection numbers, and the connections and descriptors at the end are those it
    should have, unless SIGPIPE ends it or a hang-up is handled twice: no other
    assertion, no dangling pointer, no overflow (Opening.v); the same of the server with
    several threads, however their steps are interleaved, where a connection exists
    exactly as long as something points to it, and where overlapping steps can also be
    a data race (Launch.v); a closed connection is destroyed
    and its descriptor closed exactly once (Lifetimes.v).  Invariants: an
    [InetAddress] keeps the family and port it was given (Addresses.v), epoll's
    interest list is what the channels ask for while [epoll_ctl] succeeds (Channel.v),
    the timer set is ordered and the timerfd armed for its first (TimerQueue.v), a new
    loop satisfies both (Startup.v).  Functional behaviour on every branch: polling,
    dispatching events, timer rounds, sending, draining, closing, accepting,
    connecting and retrying, dealing out loops.  Progress: a quit ends [loop()]
    (Running.v), pending bytes leave (Echo.v), a benchmark round ends exactly when
    everything sent was read (Bench.v), the latch opens and no take sleeps over a
    value (Base.v).  Bounds: buffer growth, the timespec of the timerfd, the text of
    addresses.  Round trips: byte order, addresses and their text.  And theorems
    that hold of the code although they should not (a retry timer that aborts, a
    timer that is lost, a repetition that does not repeat, a pointer that outlives
    its string, a functor that outlives its connection, a loop that is destroyed
    before its connections, a connection handed over in a data race, a write that ends
    the process, a hang-up that is handled twice): each is one of the development's
    findings.

    ** Bounds and fuel

    [loop()] runs until [quit_] is set, so it takes the number of rounds it may
    make and tells whether it returned; [Running.loop_returns_after_quit] shows that
    any number beyond the round of the first quit gives the same result.  Nothing
    else needs fuel: the loops of the code go over lists that exist when they start.
    A round accepts at most one connection, so the [int] that numbers them lasts
    for [2 ^ 31 - 2] rounds: the bound of [Opening.server_main_keeps_serving], and, with
    steps for rounds, of [Launch.server_threads_keep_serving], whose [roomy] asks of the
    kernel that the calls by which [main] and its threads get descriptors succeed: ten
    calls for the first loop and the server, five for each thread.
    Sizes are bounded by [Buffer.max_size], what [std::vector] can hold.

    ** Not modelled, and why

    - Log lines other than those of [LOG_ERROR], and what the examples print: output
      only.  Logger.h and Logger.cpp wrap the logging library.
    - Local [TcpConnectionPtr]s whose connection something else holds all the while
      (the guard in [handleClose], [conn] in the two [newConnection]s).  A
      [weak_ptr] that [lock]s is one whose object is in the heap.
    - Threads below the level of steps: a step of a thread (Interleaving.v) is a poll,
      the events of one channel, taking the queued functors, one functor, or giving up
      one pointer.  What a step uses besides its own loop's objects is another loop's
      queue and wakeup descriptor, and the count of a connection's pointers; so steps
      of two threads either conflict over a queue, which is the fault [DataRace], or
      come down to one after the other.  A thread that is started runs up to its
      notification within [startLoop] (Threads.v), and calls [loop()] in a step of its
      own.
    - What a program does after SIGPIPE was raised and before it ends: [as_process] looks
      at the finished run, so a fault of a run that SIGPIPE had ended before is still
      that fault.
    - The end of a connector that outlives its client: [~TcpClient] destroys
      [connector_] unless a timer has it ([reap_connector]); the timer's own release
      of it, when the timer queue deletes the timer, is not followed.
    - Time is the kernel's clock reading in nanoseconds, an unbounded [Z], where the
      code's 64 bits could overflow, as in [Timer_restart].
    - Types.h (casts), noncopyable.h, and test/main.cpp (a scratch program without
      assertions).

    ** What could come next

    The client's life from connect to reconnect as one invariant, with the pair of its
    connection and its connector, as Launch.v has the server's; the end of a server of
    several threads ([~TcpServer] and the joins of its pool); members called from
    threads that run no loop, as [send] and [quit] may be. *)
From stdpp Require Export base tactics option list strings gmap sets relations pretty.
From Stdlib Require Export ZArith Lia.
From Stdlib Require Export Strings.Byte.

Set Default Goal Selector "!".
Open Scope Z_scope.

(** ** Machine integers

    A [w]-bit unsigned integer is a [Z] in [0, 2^w); the wrap-around of the C++
    conversions and of unsigned arithmetic is written with [wrap]; [to_signed]
    is the conversion to the signed type of the same width (two's complement,
    what the supported compilers do). *)

Definition wrap (w z : Z) : Z := z `mod` 2 ^ w.

Definition to_signed (w z : Z) : Z :=
  let m := wrap w z in if m <? 2 ^ (w - 1) then m else m - 2 ^ w.

Abbreviation u16 := (wrap 16).
Abbreviation u32 := (wrap 32).
Abbreviation u64 := (wrap 64).
Abbreviation i32 := (to_signed 32).
Abbreviation i64 := (to_signed 64).

Lemma wrap_small w z : 0 ≤ z < 2 ^ w → wrap w z = z.
Proof. apply Z.mod_small. Qed.

Lemma wrap_range w z : 0 ≤ w → 0 ≤ wrap w z < 2 ^ w.
Proof. intros Hw. apply Z.mod_pos_bound. apply Z.pow_pos_nonneg; lia. Qed.

Lemma wrap_idemp w z : wrap w (wrap w z) = wrap w z.
Proof. apply Zmod_mod. Qed.

Lemma to_signed_small w z : 0 < w → 0 ≤ z < 2 ^ (w - 1) → to_signed w z = z.
Proof.
  intros Hw Hz. unfold to_signed.
  assert (2 ^ w = 2 * 2 ^ (w - 1)) as E.
  { rewrite <- Z.pow_succ_r by lia. f_equal. lia. }
  rewrite wrap_small by lia. destruct (Z.ltb_spec z (2 ^ (w - 1))); lia.
Qed.

(** A C++ [bool] made from an integer. *)
Definition nonzero (z : Z) : bool := negb (z =? 0).

(** ** Outcomes of the code

    The library is built in debug mode (CMakeLists.txt sets the build type
    [Debug]), so an [assert] that fails stops the process; the model keeps that,
    and the other ways the code can stop or leave defined behaviour, as values
    of an error type. *)

Inductive fault : Type :=
  | AssertFailed (site : string)
  | NullDeref (what : string)
  | OutOfBounds (what : string)
  | LengthError
  | DataRace (what : string)
  | Terminated (why : string).

#[export] Instance fault_eq_dec : EqDecision fault.
Proof. solve_decision. Defined.

Inductive outcome (A : Type) : Type :=
  | Ok (a : A)
  | Fault (e : fault).
Arguments Ok {A} a.
Arguments Fault {A} e.

(** ** The state-and-error monad the components are written in *)

Definition M (S A : Type) : Type := S → outcome (A * S).

#[export] Instance M_ret S : MRet (M S) := λ A a s, Ok (a, s).

#[export] Instance M_bind S : MBind (M S) := λ A B k m s,
  match m s with
  | Ok (a, s') => k a s'
  | Fault e => Fault e
  end.

Definition fail {S A} (e : fault) : M S A := λ _, Fault e.
Definition get {S} : M S S := λ s, Ok (s, s).
Definition gets {S A} (f : S → A) : M S A := λ s, Ok (f s, s).
Definition modify {S} (f : S → S) : M S unit := λ s, Ok (tt, f s).
Definition assert_ {S} (site : string) (b : bool) : M S unit :=
  if b then mret tt else fail (AssertFailed site).
Definition when {S} (b : bool) (m : M S unit) : M S unit :=
  if b then m else mret tt.

(** Reading something that may be absent (a dereference). *)
Definition gets_some {S A} (what : string) (f : S → option A) : M S A := λ s,
  match f s with
  | Some a => Ok (a, s)
  | None => Fault (NullDeref what)
  end.

(** [for (auto x : l) f(x);] *)
Fixpoint for_each {S A} (l : list A) (f : A → M S unit) : M S unit :=
  match l with
  | [] => mret tt
  | x :: l' => f x;; for_each l' f
  end.

(** Running a member function of an object that lives inside a larger state. *)
Definition zoom {S T A} (what : string) (look : S → option T) (put : T → S → S)
    (m : M T A) : M S A := λ s,
  match look s with
  | None => Fault (NullDeref what)
  | Some t =>
      match m t with
      | Ok (a, t') => Ok (a, put t' s)
      | Fault e => Fault e
      end
  end.

(** *** Weakest preconditions

    [wp m Q s]: from [s], [m] returns without a fault and [Q] holds of its
    result and final state.  [wlp] is the same without the promise that there
    is no fault. *)

Definition wp {S A} (m : M S A) (Q : A → S → Prop) (s : S) : Prop :=
  match m s with
  | Ok (a, s') => Q a s'
  | Fault _ => False
  end.

Definition wlp {S A} (m : M S A) (Q : A → S → Prop) (s : S) : Prop :=
  match m s with
  | Ok (a, s') => Q a s'
  | Fault _ => True
  end.

Section wp_rules.
Context {S : Type}.
Implicit Types s : S.

Lemma bind_run {A B} (m : M S A) (k : A → M S B) s :
  (m ≫= k) s = match m s with Ok (a, s') => k a s' | Fault e => Fault e end.
Proof. reflexivity. Qed.

Lemma wp_ret {A} (a : A) (Q : A → S → Prop) s : Q a s → wp (mret a) Q s.
Proof. done. Qed.

Lemma wp_bind {A B} (m : M S A) (k : A → M S B) Q s :
  wp m (λ a s', wp (k a) Q s') s → wp (m ≫= k) Q s.
Proof. unfold wp. rewrite bind_run. by destruct (m s) as [[a s']|e]. Qed.

Lemma wp_mono {A} (m : M S A) (P Q : A → S → Prop) s :
  wp m P s → (∀ a s', P a s' → Q a s') → wp m Q s.
Proof. unfold wp. destruct (m s) as [[a s']|e]; auto. Qed.

Lemma wp_run {A} (m : M S A) (Q : A → S → Prop) s :
  wp m Q s ↔ ∃ a s', m s = Ok (a, s') ∧ Q a s'.
Proof.
  unfold wp. destruct (m s) as [[a s']|e]; split.
  - intros H. by exists a, s'.
  - intros (a' & s'' & [= -> ->] & H). done.
  - done.
  - by intros (a' & s'' & [=] & _).
Qed.

Lemma wp_ok {A} (m : M S A) (Q : A → S → Prop) s a s' :
  m s = Ok (a, s') → Q a s' → wp m Q s.
Proof. unfold wp. by intros ->. Qed.

Lemma wp_get (Q : S → S → Prop) s : Q s s → wp get Q s.
Proof. done. Qed.

Lemma wp_gets {A} (f : S → A) (Q : A → S → Prop) s : Q (f s) s → wp (gets f) Q s.
Proof. done. Qed.

Lemma wp_gets_some {A} what (f : S → option A) a (Q : A → S → Prop) s :
  f s = Some a → Q a s → wp (gets_some what f) Q s.
Proof. unfold wp, gets_some. by intros ->. Qed.

Lemma wp_modify (f : S → S) (Q : unit → S → Prop) s :
  Q tt (f s) → wp (modify f) Q s.
Proof. done. Qed.

Lemma wp_assert site b (Q : unit → S → Prop) s :
  b = true → Q tt s → wp (assert_ site b) Q s.
Proof. by intros ->. Qed.

Lemma wp_when b (m : M S unit) (Q : unit → S → Prop) s :
  (b = true → wp m Q s) → (b = false → Q tt s) → wp (when b m) Q s.
Proof. destruct b; [intros H _; by apply H|intros _ H; by apply H]. Qed.

Lemma wp_wlp {A} (m : M S A) (Q : A → S → Prop) s : wp m Q s → wlp m Q s.
Proof. unfold wp, wlp. by destruct (m s) as [[a s']|e]. Qed.

Lemma wlp_bind {A B} (m : M S A) (k : A → M S B) Q s :
  wlp m (λ a s', wlp (k a) Q s') s → wlp (m ≫= k) Q s.
Proof. unfold wlp. rewrite bind_run. by destruct (m s) as [[a s']|e]. Qed.

Lemma wlp_mono {A} (m : M S A) (P Q : A → S → Prop) s :
  wlp m P s → (∀ a s', P a s' → Q a s') → wlp m Q s.
Proof. unfold wlp. destruct (m s) as [[a s']|e]; auto. Qed.

(** *** With faults that are allowed for: [wpx E m Q s], where [m] may also stop with a
    fault of [E]. *)

Definition wpx {A} (E : fault → Prop) (m : M S A) (Q : A → S → Prop) s : Prop :=
  match m s with
  | Ok (a, s') => Q a s'
  | Fault e => E e
  end.

Lemma wpx_wp {A} E (m : M S A) (Q : A → S → Prop) s : wp m Q s → wpx E m Q s.
Proof. unfold wp, wpx. by destruct (m s) as [[a s']|e]. Qed.

Lemma wpx_run {A} E (m : M S A) (Q : A → S → Prop) s :
  wpx E m Q s ↔ (∃ a s', m s = Ok (a, s') ∧ Q a s') ∨ ∃ e, m s = Fault e ∧ E e.
Proof.
  unfold wpx. destruct (m s) as [[a s']|e]; split; [eauto| |eauto|].
  - by intros [(? & ? & [= <- <-] & ?)|(? & [=] & _)].
  - by intros [(? & ? & [=] & _)|(? & [= <-] & ?)].
Qed.

Lemma wpx_fault {A} E (m : M S A) (Q : A → S → Prop) s e : m s = Fault e → E e → wpx E m Q s.
Proof. unfold wpx. by intros ->. Qed.

Lemma wpx_ret {A} E (a : A) (Q : A → S → Prop) s : Q a s → wpx E (mret a) Q s.
Proof. done. Qed.

Lemma wpx_bind {A B} E (m : M S A) (k : A → M S B) Q s :
  wpx E m (λ a s', wpx E (k a) Q s') s → wpx E (m ≫= k) Q s.
Proof. unfold wpx. rewrite bind_run. by destruct (m s) as [[a s']|e]. Qed.

(** A first step that does not fail. *)
Lemma wpx_bind_wp {A B} E (m : M S A) (k : A → M S B) Q s :
  wp m (λ a s', wpx E (k a) Q s') s → wpx E (m ≫= k) Q s.
Proof. intros H. apply wpx_bind. by apply wpx_wp. Qed.

Lemma wpx_mono {A} E (m : M S A) (P Q : A → S → Prop) s :
  wpx E m P s → (∀ a s', P a s' → Q a s') → wpx E m Q s.
Proof. unfold wpx. destruct (m s) as [[a s']|e]; auto. Qed.

Lemma wpx_weaken {A} (E E' : fault → Prop) (m : M S A) (Q : A → S → Prop) s :
  wpx E m Q s → (∀ e, E e → E' e) → wpx E' m Q s.
Proof. unfold wpx. destruct (m s) as [[a s']|e]; auto. Qed.

Lemma wpx_when E b (m : M S unit) (Q : unit → S → Prop) s :
  (b = true → wpx E m Q s) → (b = false → Q tt s) → wpx E (when b m) Q s.
Proof. destruct b; [intros H _; by apply H|intros _ H; by apply H]. Qed.

Lemma wpx_for_each {A} E (l : list A) (f : A → M S unit) (I : list A → S → Prop)
    (Q : unit → S → Prop) s :
  I l s →
  (∀ x l' s', I (x :: l') s' → wpx E (f x) (λ _ s'', I l' s'') s') →
  (∀ s', I [] s' → Q tt s') →
  wpx E (for_each l f) Q s.
Proof.
  intros Hl Hstep Hend. revert s Hl.
  induction l as [|x l IH]; intros s Hl; simpl; [by apply Hend|].
  apply wpx_bind. eapply wpx_mono; [by apply Hstep|]. intros [] s' Hs'. by apply IH.
Qed.

(** Replacing the rest of a program by one that agrees where it will run. *)
Lemma bind_ext {A B} (m : M S A) (k k' : A → M S B) (P : A → S → Prop) s :
  wlp m P s → (∀ a s', P a s' → k a s' = k' a s') → (m ≫= k) s = (m ≫= k') s.
Proof. unfold wlp. rewrite !bind_run. destruct (m s) as [[a s']|e]; auto. Qed.

(** The loop rule: an invariant indexed by what is left to visit. *)
Lemma wp_for_each {A} (l : list A) (f : A → M S unit) (I : list A → S → Prop)
    (Q : unit → S → Prop) s :
  I l s →
  (∀ x l' s', I (x :: l') s' → wp (f x) (λ _ s'', I l' s'') s') →
  (∀ s', I [] s' → Q tt s') →
  wp (for_each l f) Q s.
Proof.
  intros Hl Hstep Hend. revert s Hl.
  induction l as [|x l IH]; intros s Hl; simpl.
  - by apply Hend.
  - apply wp_bind. eapply wp_mono; [by apply Hstep|]. intros [] s' Hs'. by apply IH.
Qed.

Lemma wp_zoom {T A} what (look : S → option T) put (m : M T A) t Q s :
  look s = Some t →
  wp m (λ a t', Q a (put t' s)) t →
  wp (zoom what look put m) Q s.
Proof. unfold wp, zoom. intros ->. by destruct (m t) as [[a t']|e]. Qed.
End wp_rules.

(** Two postconditions of one run. *)
Lemma wp_and {S A} (m : M S A) (Q R : A → S → Prop) s :
  wp m Q s → wp m R s → wp m (λ a s', Q a s' ∧ R a s') s.
Proof. unfold wp. destruct (m s) as [[a s']|e]; [done|by intros []]. Qed.

Lemma wlp_and {S A} (m : M S A) (Q R : A → S → Prop) s :
  wlp m Q s → wlp m R s → wlp m (λ a s', Q a s' ∧ R a s') s.
Proof. unfold wlp. by destruct (m s) as [[a s']|e]. Qed.

(** *** Running up to a call into unknown code

    [leads_to m R k s]: running [m] from [s] is running [k] from a state
    satisfying [R]; nothing is asked of [k]. *)

Definition leads_to {S A} (m : M S A) (R : S → Prop) (k : M S A) (s : S) : Prop :=
  ∃ s', R s' ∧ m s = k s'.

Lemma leads_to_end {S A} (k : M S A) (R : S → Prop) s : R s → leads_to k R k s.
Proof. intros H. by exists s. Qed.

Lemma leads_to_bind {S A B} (m : M S B) (f : B → M S A) (R : S → Prop) (k : M S A) s :
  wp m (λ b s', leads_to (f b) R k s') s → leads_to (m ≫= f) R k s.
Proof.
  intros (b & s1 & Hm & s2 & HR & Hk)%wp_run. exists s2. split; [done|].
  by rewrite bind_run, Hm.
Qed.

Lemma leads_to_assoc {S A B C} (m : M S A) (f : A → M S B) (g : B → M S C) (R : S → Prop)
    (k : M S C) s :
  leads_to (m ≫= λ a, f a ≫= g) R k s → leads_to ((m ≫= f) ≫= g) R k s.
Proof.
  intros (s' & HR & E). exists s'. split; [done|]. rewrite <- E, !bind_run.
  by destruct (m s) as [[a s1]|].
Qed.

(** *** Following the structure of a program

    [steady I R m Φ]: from a state of [I], [m] ends, if it ends without a fault, in
    a state of [I] that is related to the first by [R], with a result of [Φ].  The
    rules need to know of a program only what its leaves do. *)

Section steady.
Context {S : Type} (I : S → Prop) (R : S → S → Prop) `{!PreOrder R}.

Definition steady {A} (m : M S A) (Φ : A → Prop) : Prop :=
  ∀ s, I s → wlp m (λ a s', Φ a ∧ I s' ∧ R s s') s.

Lemma steady_ret {A} (a : A) (Φ : A → Prop) : Φ a → steady (mret a) Φ.
Proof using PreOrder0. intros Ha s Hs. by split_and!. Qed.

Lemma steady_fail {A} e (Φ : A → Prop) : steady (fail e) Φ.
Proof. by intros s Hs. Qed.

Lemma steady_mono {A} (m : M S A) (Φ Ψ : A → Prop) :
  steady m Φ → (∀ a, Φ a → Ψ a) → steady m Ψ.
Proof.
  intros Hm HΨ s Hs. eapply wlp_mono; [by apply Hm|]. intros a s' (Ha & ? & ?). eauto.
Qed.

Lemma steady_bind {A B} (m : M S A) (k : A → M S B) (Φ : A → Prop) (Ψ : B → Prop) :
  steady m Φ → (∀ a, Φ a → steady (k a) Ψ) → steady (m ≫= k) Ψ.
Proof using PreOrder0.
  intros Hm Hk s Hs. apply wlp_bind. eapply wlp_mono; [by apply Hm|].
  intros a s1 (Ha & H1 & R1). eapply wlp_mono; [by apply (Hk a Ha)|].
  intros b s2 (Hb & H2 & R2). split_and!; [done..|by trans s1].
Qed.

Lemma steady_when b (m : M S unit) :
  (b = true → steady m (λ _, True)) → steady (when b m) (λ _, True).
Proof using PreOrder0. destruct b; [intros H; by apply H|intros _; by apply steady_ret]. Qed.

Lemma steady_assert site b : steady (assert_ site b) (λ _, b = true).
Proof using PreOrder0. destruct b; [by apply steady_ret|apply steady_fail]. Qed.

Lemma steady_gets {A} (f : S → A) : steady (gets f) (λ _, True).
Proof using PreOrder0. intros s Hs. by split_and!. Qed.

Lemma steady_gets_some {A} what (f : S → option A) : steady (gets_some what f) (λ _, True).
Proof using PreOrder0. intros s Hs. unfold wlp, gets_some. by destruct (f s). Qed.

Lemma steady_modify f : (∀ s, I s → I (f s) ∧ R s (f s)) → steady (modify f) (λ _, True).
Proof. intros Hf s Hs. split; [done|by apply Hf]. Qed.

Lemma steady_for_each {A} (l : list A) (f : A → M S unit) :
  (∀ a, steady (f a) (λ _, True)) → steady (for_each l f) (λ _, True).
Proof using PreOrder0.
  intros Hf. induction l as [|a l IH]; [by apply steady_ret|].
  cbn [for_each]. by eapply steady_bind; [apply Hf|].
Qed.
End steady.

(** One symbolic step of a monadic program. *)
Ltac wp_step :=
  lazymatch goal with
  | |- wp (mbind _ _) _ _ => apply wp_bind
  | |- wp (mret _) _ _ => apply wp_ret
  | |- wp get _ _ => apply wp_get
  | |- wp (gets _) _ _ => apply wp_gets
  | |- wp (modify _) _ _ => apply wp_modify
  | |- wp (gets_some _ _) _ _ =>
      eapply wp_gets_some; [first [eassumption|by simplify_map_eq|idtac]|]
  | |- wp (if ?b then _ else _) _ _ => destruct b eqn:?
  | |- wp (let _ := _ in _) _ _ => cbv zeta
  end.
Ltac wp_steps := repeat (wp_step; cbn beta iota).

(** ** Reachability

    [reachable step init s]: [s] is met by a run of [step] from a state
    satisfying [init]. *)

Definition reachable {S} (step : S → S → Prop) (init : S → Prop) (s : S) : Prop :=
  ∃ s0, init s0 ∧ rtc step s0 s.

Lemma reachable_invariant {S} (step : S → S → Prop) (init I : S → Prop) :
  (∀ s, init s → I s) →
  (∀ s s', I s → step s s' → I s') →
  ∀ s, reachable step init s → I s.
Proof.
  intros Hinit Hstep s (s0 & H0 & Hrun).
  assert (I s0) as HI by auto. clear H0.
  induction Hrun as [|x y z Hxy _ IH]; eauto.
Qed.

(** ** Lists *)

(** Taking one occurrence of [x] out. *)
Fixpoint drop_one `{EqDecision A} (x : A) (l : list A) : list A :=
  match l with
  | [] => []
  | y :: l => if decide (y = x) then l else y :: drop_one x l
  end.

Lemma drop_one_sublist `{EqDecision A} (x : A) l : drop_one x l `sublist_of` l.
Proof.
  induction l as [|y l IH]; simpl; [done|]. case_decide; [by apply sublist_cons|by apply sublist_skip].
Qed.

Lemma drop_one_other `{EqDecision A} (x y : A) l : y ≠ x → y ∈ drop_one x l ↔ y ∈ l.
Proof.
  intros Hne. induction l as [|z l IH]; simpl; [done|].
  case_decide as E; rewrite !elem_of_cons; [|by rewrite IH].
  split; [by right|]. intros [->|?]; congruence.
Qed.

Section list_lemmas.
Context {A : Type}.
Implicit Types l k : list A.

Lemma take_drop_app_split l (i j : nat) :
  (i ≤ j)%nat → drop i l = take (j - i) (drop i l) ++ drop j l.
Proof.
  intros H. rewrite <- (take_drop (j - i) (drop i l)) at 1.
  rewrite drop_drop. do 2 f_equal. lia.
Qed.

Lemma drop_take_drop l (i j n : nat) :
  drop n (take j (drop i l)) = take (j - n) (drop (i + n) l).
Proof. rewrite skipn_firstn_comm, drop_drop. do 2 f_equal; lia. Qed.

Lemma filter_all (Q : A → Prop) `{∀ x, Decision (Q x)} l : Forall Q l → filter Q l = l.
Proof.
  induction 1 as [|x l Hx _ IH]; [done|]. by rewrite filter_cons, decide_True, IH by done.
Qed.

Lemma filter_none (Q : A → Prop) `{∀ x, Decision (Q x)} l :
  Forall (λ x, ¬ Q x) l → filter Q l = [].
Proof.
  induction 1 as [|x l Hx _ IH]; [done|]. by rewrite filter_cons, decide_False by done.
Qed.
End list_lemmas.

(** A cell of memory overwritten from position [i] with [src] ([std::copy] into
    a vector's storage; the caller has checked the bounds). *)
Definition overwrite {A} (i : nat) (src l : list A) : list A :=
  take i l ++ src ++ drop (i + length src) l.

Lemma length_overwrite {A} i (src l : list A) :
  (i + length src ≤ length l)%nat → length (overwrite i src l) = length l.
Proof.
  intros H. unfold overwrite. rewrite !length_app, length_take, length_drop. lia.
Qed.

Lemma take_overwrite {A} i n (src l : list A) :
  (n ≤ i)%nat → (i + length src ≤ length l)%nat →
  take n (overwrite i src l) = take n l.
Proof.
  intros Hn H. unfold overwrite. rewrite take_app_le by (rewrite length_take; lia).
  rewrite take_take. f_equal. lia.
Qed.

Lemma drop_overwrite {A} i (src l : list A) :
  (i + length src ≤ length l)%nat →
  drop i (overwrite i src l) = src ++ drop (i + length src) l.
Proof.
  intros H. unfold overwrite. rewrite drop_app_length'; [done|].
  rewrite length_take. lia.
Qed.

(** ** Strings and decimal digits *)

Lemma string_length_app (s t : string) :
  String.length (s +:+ t) = (String.length s + String.length t)%nat.
Proof. induction s as [|c s IH]; simpl; [done|by rewrite IH]. Qed.

Lemma pretty_N_go_length (k : nat) : ∀ (x : N) (s : string), (x < 10 ^ N.of_nat k)%N →
  (String.length (pretty_N_go x s) ≤ k + String.length s)%nat.
Proof.
  induction k as [|k IH]; intros x s Hx.
  - replace x with 0%N by (simpl in Hx; lia). by rewrite pretty_N_go_0.
  - destruct (decide (x = 0%N)) as [->|Hx0]; [rewrite pretty_N_go_0; lia|].
    rewrite pretty_N_go_step by lia. etrans; [apply IH|simpl; lia].
    apply N.Div0.div_lt_upper_bound.
    by rewrite Nat2N.inj_succ, N.pow_succ_r' in Hx.
Qed.

Lemma string_app_assoc (s t u : string) : s +:+ (t +:+ u) = (s +:+ t) +:+ u.
Proof. induction s as [|c s IH]; [done|]. exact (f_equal (String c) IH). Qed.

(** A number below [10^k] prints in at most [k] digits. *)
Lemma pretty_Z_digits (k : nat) (n : Z) :
  (0 < k)%nat → 0 ≤ n < 10 ^ Z.of_nat k → (String.length (pretty n) ≤ k)%nat.
Proof.
  intros Hk Hn. destruct n as [|p|p]; [simpl; lia| |lia].
  change (pretty (Zpos p)) with (pretty_N_go (Npos p) EmptyString).
  etrans; [apply (pretty_N_go_length k)|simpl; lia].
  apply N2Z.inj_lt. rewrite N2Z.inj_pow, nat_N_Z. apply Hn.
Qed.

(** ** Automation *)

Create HintDb siren.
Create Rewrite HintDb siren_len.
#[export] Hint Resolve wrap_small wrap_range to_signed_small : siren.
#[export] Hint Rewrite @length_app @length_take @length_drop @length_replicate : siren_len.

Ltac len := autorewrite with siren_len in *; try lia.
