(* ===== verification/Endian.v ===== *)
(** * Endian: byte order conversions (include/siren/net/Endian.h)

    The functions of the header are the C library's [htobeN]/[beNtoh], which are
    the identity on a big-endian host and a byte swap on a little-endian one;
    [host] says which.  The template [hostToNetwork<T>] selects by [sizeof(T)]
    with a chain of [if constexpr]; [size] is that [sizeof(T)] and the value is
    the object's [8 * size]-bit pattern. *)
From S2P Require Import Prelude.

Set Default Goal Selector "!".

(** ** Object representations *)

#[export] Instance byte_eq_decision : EqDecision byte := Byte.byte_eq_dec.

Definition byte_of_Z (z : Z) : byte := default x00 (Byte.of_N (Z.to_N (z `mod` 256))).
Definition Z_of_byte (b : byte) : Z := Z.of_N (Byte.to_N b).

(** The [n] bytes of [z], least significant first, and back. *)
Fixpoint le_split (n : nat) (z : Z) : list byte :=
  match n with
  | O => []
  | S n' => byte_of_Z z :: le_split n' (z `div` 256)
  end.

Fixpoint le_join (bs : list byte) : Z :=
  match bs with
  | [] => 0
  | b :: bs' => Z_of_byte b + 256 * le_join bs'
  end.

Inductive endianness : Type := LittleEndian | BigEndian.

(** How a host stores an [n]-byte integer in memory, and reads it. *)
Definition store (host : endianness) (n : nat) (z : Z) : list byte :=
  match host with
  | LittleEndian => le_split n z
  | BigEndian => rev (le_split n z)
  end.

Definition load (host : endianness) (bs : list byte) : Z :=
  match host with
  | LittleEndian => le_join bs
  | BigEndian => le_join (rev bs)
  end.

(** [bswap_N]: the bytes of the integer in reverse order. *)
Definition bswap (n : nat) (z : Z) : Z := le_join (rev (le_split n z)).

Definition htobe (host : endianness) (n : nat) (z : Z) : Z :=
  match host with
  | LittleEndian => bswap n z
  | BigEndian => wrap (8 * Z.of_nat n) z
  end.

Definition betoh (host : endianness) (n : nat) (z : Z) : Z := htobe host n z.

(** ** The header's functions *)

Section endian.
Context (host : endianness).

Definition hostToNetwork64 (host64 : Z) : Z := htobe host 8 host64.
Definition hostToNetwork32 (host32 : Z) : Z := htobe host 4 host32.
Definition hostToNetwork16 (host16 : Z) : Z := htobe host 2 host16.
Definition networkToHost64 (net64 : Z) : Z := betoh host 8 net64.
Definition networkToHost32 (net32 : Z) : Z := betoh host 4 net32.
Definition networkToHost16 (net16 : Z) : Z := betoh host 2 net16.

Definition hostToNetwork (size : nat) (t : Z) : Z :=
  if (size =? 2)%nat then htobe host 2 t
  else if (size =? 4)%nat then htobe host 4 t
  else if (size =? 8)%nat then htobe host 8 t
  else t.

Definition NetworkToHost (size : nat) (t : Z) : Z :=
  if (size =? 2)%nat then betoh host 2 t
  else if (size =? 4)%nat then betoh host 4 t
  else if (size =? 8)%nat then betoh host 8 t
  else t.
End endian.

(** ** Lemmas on representations *)

Lemma Z_of_byte_range b : 0 ≤ Z_of_byte b < 256.
Proof.
  unfold Z_of_byte. pose proof (Byte.to_N_bounded b). lia.
Qed.

Lemma Z_of_byte_of_Z z : Z_of_byte (byte_of_Z z) = z `mod` 256.
Proof.
  unfold Z_of_byte, byte_of_Z.
  assert (0 ≤ z `mod` 256 < 256) as Hz by (apply Z.mod_pos_bound; lia).
  destruct (Byte.of_N (Z.to_N (z `mod` 256))) as [b|] eqn:E; simpl.
  - apply Byte.to_of_N in E. rewrite E. lia.
  - apply Byte.of_N_None_iff in E. lia.
Qed.

Lemma byte_of_Z_of_byte b : byte_of_Z (Z_of_byte b) = b.
Proof.
  unfold byte_of_Z. rewrite Z.mod_small by apply Z_of_byte_range.
  unfold Z_of_byte. rewrite N2Z.id, Byte.of_to_N. done.
Qed.

Lemma length_le_split n z : length (le_split n z) = n.
Proof. revert z. induction n as [|n IH]; intros z; simpl; auto. Qed.

Lemma le_join_split n z : le_join (le_split n z) = wrap (8 * Z.of_nat n) z.
Proof.
  revert z. induction n as [|n IH]; intros z; simpl.
  - unfold wrap. by rewrite Z.mod_1_r.
  - rewrite IH, Z_of_byte_of_Z. unfold wrap.
    replace (8 * Z.of_nat (S n)) with (8 + 8 * Z.of_nat n) by lia.
    rewrite Z.pow_add_r by lia. change (2 ^ 8) with 256.
    rewrite Z.rem_mul_r by (try lia; apply Z.pow_nonzero; lia). lia.
Qed.

Lemma le_split_join bs : le_split (length bs) (le_join bs) = bs.
Proof.
  induction bs as [|b bs IH]; simpl; [done|].
  pose proof (Z_of_byte_range b) as Hb. f_equal.
  - rewrite <- (byte_of_Z_of_byte b) at 2. unfold byte_of_Z. do 3 f_equal.
    rewrite Z.mul_comm, Z.mod_add by lia. done.
  - rewrite Z.mul_comm, Z.div_add, Z.div_small by lia. by rewrite Z.add_0_l.
Qed.

Lemma length_store host n z : length (store host n z) = n.
Proof. destruct host; simpl; rewrite ?length_rev; apply length_le_split. Qed.

Lemma load_store host n z : load host (store host n z) = wrap (8 * Z.of_nat n) z.
Proof. destruct host; simpl; rewrite ?rev_involutive; apply le_join_split. Qed.

Lemma store_load host bs : store host (length bs) (load host bs) = bs.
Proof.
  destruct host; simpl; [apply le_split_join|].
  rewrite <- (length_rev bs), le_split_join. apply rev_involutive.
Qed.

Lemma le_join_range bs : 0 ≤ le_join bs < 2 ^ (8 * Z.of_nat (length bs)).
Proof.
  rewrite <- (le_split_join bs) at 1 2. rewrite le_join_split. apply wrap_range. lia.
Qed.

Lemma bswap_involutive n z : bswap n (bswap n z) = wrap (8 * Z.of_nat n) z.
Proof.
  unfold bswap.
  assert (length (rev (le_split n z)) = n) as L.
  { by rewrite length_rev, length_le_split. }
  rewrite <- L at 1. rewrite le_split_join, rev_involutive. apply le_join_split.
Qed.

Lemma htobe_betoh host n z : betoh host n (htobe host n z) = wrap (8 * Z.of_nat n) z.
Proof.
  destruct host; unfold betoh, htobe; [apply bswap_involutive|apply wrap_idemp].
Qed.

Lemma store_htobe host n z : store host n (htobe host n z) = rev (le_split n z).
Proof.
  destruct host; simpl.
  - unfold bswap.
    assert (length (rev (le_split n z)) = n) as L.
    { by rewrite length_rev, length_le_split. }
    rewrite <- L at 1. apply le_split_join.
  - f_equal. rewrite <- le_join_split, <- (length_le_split n z) at 1.
    apply le_split_join.
Qed.

(** ** Properties *)

(** Converting a value to network order and back gives the value, for every
    object size the template is instantiated at (the sizes it does not know are
    passed through) and on either kind of host. *)
Theorem hostToNetwork_roundtrip (host : endianness) (size : nat) (t : Z)
    (Ht : 0 ≤ t < 2 ^ (8 * Z.of_nat size)) :
  NetworkToHost host size (hostToNetwork host size t) = t.
Proof.
  unfold NetworkToHost, hostToNetwork.
  destruct (Nat.eqb_spec size 2) as [->|N2]; simpl.
  { rewrite htobe_betoh. by apply wrap_small. }
  destruct (Nat.eqb_spec size 4) as [->|N4]; simpl.
  { rewrite htobe_betoh. by apply wrap_small. }
  destruct (Nat.eqb_spec size 8) as [->|N8]; simpl; [|done].
  rewrite htobe_betoh. by apply wrap_small.
Qed.

Lemma hostToNetwork_roundtrip_witness :
  (0 ≤ 51966 < 2 ^ (8 * Z.of_nat 2))
  ∧ NetworkToHost LittleEndian 2 (hostToNetwork LittleEndian 2 51966) = 51966.
Proof.
  split; [simpl; lia|]. apply (hostToNetwork_roundtrip LittleEndian 2 51966). simpl; lia.
Defined.

(** What [hostToNetworkN] leaves in memory is the value's bytes most
    significant first, whatever the host: the number [256*b0 + ...] read from
    the first byte on is the value. *)
Theorem hostToNetwork_is_big_endian (host : endianness) (size : nat) (t : Z) :
  size = 2%nat ∨ size = 4%nat ∨ size = 8%nat →
  store host size (hostToNetwork host size t) = store BigEndian size t.
Proof.
  intros H. unfold hostToNetwork.
  destruct H as [->|[->| ->]]; simpl; apply store_htobe.
Qed.

Lemma hostToNetwork_is_big_endian_witness :
  (2 = 2 ∨ 2 = 4 ∨ 2 = 8)%nat
  ∧ store LittleEndian 2 (hostToNetwork LittleEndian 2 8080) = [x1f; x90].
Proof.
  split; [by left|].
  rewrite (hostToNetwork_is_big_endian LittleEndian 2 8080 (or_introl eq_refl)).
  reflexivity.
Defined.
