(* ===== verification/Buffer.v ===== *)
(** * Buffer: the connection's byte buffer (include/siren/net/Buffer.h, src/net/Buffer.cpp)

    The state is the class's three members: the vector's bytes and the two
    indices, which are [size_t]: every [size_t] operation wraps at 64 bits, and
    the [int] parameter of [retrieve] keeps its 32 bits.  Writing outside the
    vector's storage is a fault, and [std::vector::resize] throws beyond
    [max_size].  [content] is what the buffer promises: the readable bytes, a
    queue of bytes. *)
From S2P Require Import Prelude Endian.

Set Default Goal Selector "!".

Definition kCheapPrepend : Z := 8.
Definition kInitialSize : Z := 1024.

(** [std::vector<char>::max_size()] *)
Definition max_size : Z := 2 ^ 63 - 1.

Record Buffer : Type := mkBuffer {
  buffer_ : list byte;
  readerIndex_ : Z;
  writerIndex_ : Z
}.

(** [buffer_.size()] *)
Definition bsize (b : Buffer) : Z := Z.of_nat (length (buffer_ b)).

(** A buffer of [initialSize] zero bytes behind the prependable ones. *)
Definition fresh_buffer (initialSize : Z) : Buffer :=
  mkBuffer (replicate (Z.to_nat (u64 (kCheapPrepend + initialSize))) x00)
           kCheapPrepend kCheapPrepend.

Definition swap (b rhs : Buffer) : Buffer * Buffer :=
  (mkBuffer (buffer_ rhs) (readerIndex_ rhs) (writerIndex_ rhs),
   mkBuffer (buffer_ b) (readerIndex_ b) (writerIndex_ b)).

Definition readableBytes (b : Buffer) : Z := u64 (writerIndex_ b - readerIndex_ b).
Definition writableBytes (b : Buffer) : Z := u64 (bsize b - writerIndex_ b).
Definition prependableBytes (b : Buffer) : Z := readerIndex_ b.

(** [explicit Buffer(size_t initialSize = kInitialSize)]: the vector's constructor
    value-initialises its bytes, or throws when there are too many. *)
Definition Buffer_ctor {S} (initialSize : Z) : M S Buffer :=
  when (max_size <? u64 (kCheapPrepend + initialSize)) (fail LengthError);;
  let b := fresh_buffer initialSize in
  assert_ "Buffer.h:31" (readableBytes b =? 0);;
  assert_ "Buffer.h:32" (writableBytes b =? initialSize);;
  assert_ "Buffer.h:33" (prependableBytes b =? kCheapPrepend);;
  mret b.

Definition set_indices (r w : Z) (b : Buffer) : Buffer := mkBuffer (buffer_ b) r w.

(** [std::copy(src, src + n, begin() + at)] *)
Definition copy_in (pos : Z) (src : list byte) : M Buffer unit := λ b,
  if (0 <=? pos) && (pos + Z.of_nat (length src) <=? bsize b) then
    Ok (tt, mkBuffer (overwrite (Z.to_nat pos) src (buffer_ b))
                     (readerIndex_ b) (writerIndex_ b))
  else Fault (OutOfBounds "std::copy").

(** [n] bytes read from [begin() + pos]. *)
Definition bytes_at (pos n : Z) (b : Buffer) : list byte :=
  take (Z.to_nat n) (drop (Z.to_nat pos) (buffer_ b)).

Definition retrieveAll : M Buffer unit := modify (set_indices kCheapPrepend kCheapPrepend).

(** [void retrieve(int len)]: [len < readableBytes()] and [readerIndex_ += len]
    convert the [int] to [size_t]. *)
Definition retrieve (len : Z) : M Buffer unit :=
  b ← get;
  if u64 len <? readableBytes b then
    modify (set_indices (u64 (readerIndex_ b + u64 len)) (writerIndex_ b))
  else retrieveAll.

(** [std::string retrieveAsString(size_t len)]: [retrieve(len)] narrows [len] to
    [int]. *)
Definition retrieveAsString (len : Z) : M Buffer (list byte) :=
  b ← get;
  assert_ "Buffer.h:73" (len <=? readableBytes b);;
  let result := bytes_at (readerIndex_ b) len b in
  retrieve (i32 len);;
  mret result.

Definition retrieveAllAsString : M Buffer (list byte) :=
  b ← get; retrieveAsString (readableBytes b).

Definition hasWritten (len : Z) : M Buffer unit :=
  b ← get;
  assert_ "Buffer.h:82" (len <=? writableBytes b);;
  modify (set_indices (readerIndex_ b) (u64 (writerIndex_ b + len))).

(** [buffer_.resize(n)]: new bytes are zero; too large a size throws. *)
Definition resize (n : Z) : M Buffer unit := λ b,
  if max_size <? n then Fault LengthError
  else Ok (tt, mkBuffer (take (Z.to_nat n) (buffer_ b)
                         ++ replicate (Z.to_nat n - length (buffer_ b)) x00)
                        (readerIndex_ b) (writerIndex_ b)).

Definition makeSpace (len : Z) : M Buffer unit :=
  b ← get;
  if u64 (writableBytes b + prependableBytes b) <? u64 (len + kCheapPrepend) then
    resize (u64 (writerIndex_ b + len))
  else
    assert_ "Buffer.h:108" (kCheapPrepend <? readerIndex_ b);;
    let readable := readableBytes b in
    copy_in kCheapPrepend
      (bytes_at (readerIndex_ b) (writerIndex_ b - readerIndex_ b) b);;
    modify (set_indices kCheapPrepend (u64 (kCheapPrepend + readable)));;
    b' ← get;
    assert_ "Buffer.h:114" (readable =? readableBytes b').

Definition ensureWritableBytes (len : Z) : M Buffer unit :=
  b ← get;
  when (writableBytes b <? len) (makeSpace len);;
  b' ← get;
  assert_ "Buffer.h:122" (len <=? writableBytes b').

(** [void append(const char* data, size_t len)]; [data] is the [len] bytes. *)
Definition append (data : list byte) : M Buffer unit :=
  ensureWritableBytes (Z.of_nat (length data));;
  b ← get;
  copy_in (writerIndex_ b) data;;
  hasWritten (Z.of_nat (length data)).

Definition prepend (data : list byte) : M Buffer unit :=
  b ← get;
  assert_ "Buffer.h:97" (Z.of_nat (length data) <=? prependableBytes b);;
  modify (set_indices (u64 (readerIndex_ b - Z.of_nat (length data))) (writerIndex_ b));;
  copy_in (u64 (readerIndex_ b - Z.of_nat (length data))) data.

(** *** readFd

    [readv(2)] is the system's: given the capacities of the buffers it either
    fails or returns some bytes, at most as many as fit, which it has stored in
    the buffers in order, filling each before the next.  [readv] is that
    function here. *)
Definition sizeof_extrabuf : Z := 65536.

Definition readFd_iov (b : Buffer) : list Z :=
  let writable := writableBytes b in
  if writable <? sizeof_extrabuf then [writable; sizeof_extrabuf] else [writable].

(** The part of [readFd] after the system call; [res] is what the call put in
    the buffers, [None] when it returned -1. *)
Definition readFd_store (writable : Z) (res : option (list byte)) : M Buffer Z :=
  match res with
  | None => mret (-1)
  | Some data =>
      let n := Z.of_nat (length data) in
      let in_vec0 := take (Z.to_nat writable) data in
      let extrabuf := drop (Z.to_nat writable) data in
      b ← get;
      copy_in (writerIndex_ b) in_vec0;;
      (if n <=? writable then
         modify (set_indices (readerIndex_ b) (u64 (writerIndex_ b + n)))
       else
         modify (set_indices (readerIndex_ b) (bsize b));;
         append extrabuf);;
      mret n
  end.

Definition readFd (readv : list Z → option (list byte)) : M Buffer Z :=
  b ← get;
  readFd_store (writableBytes b) (readv (readFd_iov b)).

(** ** What the buffer promises *)

Definition content (b : Buffer) : list byte :=
  bytes_at (readerIndex_ b) (writerIndex_ b - readerIndex_ b) b.

Definition wf (b : Buffer) : Prop :=
  0 ≤ readerIndex_ b ≤ writerIndex_ b ∧ writerIndex_ b ≤ bsize b ≤ max_size.

(** ** Lemmas *)

Lemma bsize_nonneg b : 0 ≤ bsize b.
Proof. unfold bsize. lia. Qed.

Ltac buf_sizes :=
  unfold wf, max_size, kCheapPrepend, prependableBytes in * |-; simpl in * |-;
  repeat match goal with
  | b : Buffer |- _ =>
      lazymatch goal with
      | _ : 0 ≤ bsize b |- _ => fail
      | _ => pose proof (bsize_nonneg b)
      end
  end.

Lemma readableBytes_wf b : wf b → readableBytes b = writerIndex_ b - readerIndex_ b.
Proof. intros. unfold readableBytes. apply wrap_small. buf_sizes. lia. Qed.

Lemma writableBytes_wf b : wf b → writableBytes b = bsize b - writerIndex_ b.
Proof. intros. unfold writableBytes. apply wrap_small. buf_sizes. lia. Qed.

Lemma length_content b : wf b → Z.of_nat (length (content b)) = readableBytes b.
Proof.
  intros Hwf. rewrite readableBytes_wf by done. unfold content, bytes_at.
  unfold wf, bsize in Hwf. len.
Qed.

#[export] Hint Resolve readableBytes_wf writableBytes_wf length_content : siren.

Lemma fresh_buffer_wf n :
  0 ≤ n → n + kCheapPrepend ≤ max_size →
  wf (fresh_buffer n) ∧ content (fresh_buffer n) = [] ∧ writableBytes (fresh_buffer n) = n.
Proof.
  intros H0 Hn. unfold max_size, kCheapPrepend in Hn.
  assert (bsize (fresh_buffer n) = 8 + n) as Hs.
  { unfold bsize, fresh_buffer; simpl. rewrite length_replicate. unfold kCheapPrepend.
    rewrite wrap_small by lia. lia. }
  split; [|split].
  - unfold wf. rewrite Hs. simpl. unfold kCheapPrepend, max_size. lia.
  - unfold content, bytes_at. simpl. by rewrite Z.sub_diag.
  - unfold writableBytes. rewrite Hs. simpl. unfold kCheapPrepend.
    rewrite wrap_small; lia.
Qed.

(** The constructor gives it: no assertion fails, and nothing is thrown in the
    vector's range. *)
Lemma Buffer_ctor_wp {S} n (Q : Buffer → S → Prop) (s : S) :
  0 ≤ n → n + kCheapPrepend ≤ max_size → Q (fresh_buffer n) s → wp (Buffer_ctor n) Q s.
Proof.
  intros H0 Hn HQ. destruct (fresh_buffer_wf n H0 Hn) as (_ & _ & Hw).
  unfold Buffer_ctor. rewrite Hw. unfold max_size, kCheapPrepend in *.
  apply wp_bind, wp_when; [rewrite wrap_small by lia; lia|]. intros _.
  do 3 (apply wp_bind, wp_assert; [first [done|lia]|]). by apply wp_ret.
Qed.

(** The bytes between two positions only depend on the storage before the second. *)
Lemma bytes_at_ext pos n b b' :
  0 ≤ pos → 0 ≤ n →
  take (Z.to_nat (pos + n)) (buffer_ b) = take (Z.to_nat (pos + n)) (buffer_ b') →
  bytes_at pos n b = bytes_at pos n b'.
Proof.
  intros Hp Hn H. unfold bytes_at.
  rewrite !firstn_skipn_comm.
  replace (Z.to_nat pos + Z.to_nat n)%nat with (Z.to_nat (pos + n)) by lia.
  by rewrite H.
Qed.

Lemma bytes_at_app pos n m b :
  0 ≤ pos → 0 ≤ n → 0 ≤ m →
  bytes_at pos (n + m) b = bytes_at pos n b ++ bytes_at (pos + n) m b.
Proof.
  intros Hp Hn Hm. unfold bytes_at.
  rewrite !Z2Nat.inj_add, <- drop_drop by lia. symmetry. apply take_take_drop.
Qed.

(** Writing just behind [n] bytes at [pos] leaves those bytes followed by what
    was written. *)
Lemma bytes_at_overwrite pos n src b b' :
  0 ≤ pos → 0 ≤ n → pos + n + Z.of_nat (length src) ≤ bsize b →
  buffer_ b' = overwrite (Z.to_nat (pos + n)) src (buffer_ b) →
  bytes_at pos (n + Z.of_nat (length src)) b' = bytes_at pos n b ++ src.
Proof.
  intros Hp Hn Hle Hb'. unfold bsize in Hle.
  rewrite bytes_at_app by lia. f_equal.
  - apply bytes_at_ext; [lia..|]. rewrite Hb'. apply take_overwrite; lia.
  - unfold bytes_at. rewrite Hb', drop_overwrite by lia.
    rewrite Nat2Z.id. apply take_app_length.
Qed.

(** Appending a [copy_in] and the index move that publishes it. *)
Lemma publish_spec b data :
  wf b → writerIndex_ b + Z.of_nat (length data) ≤ bsize b →
  wp (copy_in (writerIndex_ b) data)
     (λ _ b', readerIndex_ b' = readerIndex_ b ∧ writerIndex_ b' = writerIndex_ b
              ∧ bsize b' = bsize b
              ∧ content (set_indices (readerIndex_ b)
                           (writerIndex_ b + Z.of_nat (length data)) b')
                = content b ++ data) b.
Proof.
  intros Hwf Hle. unfold wp, copy_in.
  destruct (0 <=? writerIndex_ b) eqn:E1; [|unfold wf in *; lia].
  destruct (_ <=? bsize b) eqn:E2; [simpl|lia].
  destruct Hwf as [[H0 Hrw] Hws].
  repeat split; unfold bsize in *; simpl.
  - by rewrite length_overwrite by lia.
  - unfold content; simpl.
    replace (writerIndex_ b + Z.of_nat (length data) - readerIndex_ b)
      with (writerIndex_ b - readerIndex_ b + Z.of_nat (length data)) by lia.
    apply bytes_at_overwrite; simpl; [lia|lia|unfold bsize; lia|].
    do 2 f_equal. lia.
Qed.

(** *** Room for new bytes *)

(** Whether the storage as it is holds [len] more bytes, after moving the
    readable ones to the front if need be. *)
Definition fits (len : Z) (b : Buffer) : bool :=
  len + kCheapPrepend <=? writableBytes b + prependableBytes b.

Lemma resize_spec b len :
  wf b → bsize b ≤ writerIndex_ b + len ≤ max_size →
  wp (resize (u64 (writerIndex_ b + len)))
     (λ _ b', wf b' ∧ content b' = content b ∧ readerIndex_ b' = readerIndex_ b
              ∧ writerIndex_ b' = writerIndex_ b ∧ bsize b' = writerIndex_ b + len) b.
Proof.
  intros Hwf Hle. buf_sizes. rewrite wrap_small by lia. unfold wp, resize.
  unfold max_size. destruct (_ <? _) eqn:E; [lia|]. simpl.
  assert (bsize (mkBuffer (take (Z.to_nat (writerIndex_ b + len)) (buffer_ b)
            ++ replicate (Z.to_nat (writerIndex_ b + len) - length (buffer_ b)) x00)
            (readerIndex_ b) (writerIndex_ b)) = writerIndex_ b + len) as Hs.
  { unfold bsize in *; simpl. len. }
  split_and!; [|  |done|done|done].
  { unfold wf. rewrite Hs. unfold max_size. simpl. lia. }
  unfold content; simpl. apply bytes_at_ext; [lia..|]. simpl.
  unfold bsize in *. rewrite take_app_le by len.
  rewrite take_take. f_equal. lia.
Qed.

Lemma compact_spec b len :
  wf b → writableBytes b < len → fits len b = true →
  wp (makeSpace len)
     (λ _ b', wf b' ∧ content b' = content b ∧ bsize b' = bsize b
              ∧ len ≤ writableBytes b' ∧ prependableBytes b' = kCheapPrepend) b.
Proof.
  intros Hwf Hlt Hfits. unfold fits in Hfits. unfold makeSpace. wp_steps.
  - exfalso. rewrite writableBytes_wf in * by done. buf_sizes.
    rewrite !wrap_small in Heqb0 by lia. lia.
  - rewrite writableBytes_wf in * by done. buf_sizes.
    apply wp_assert; [unfold kCheapPrepend; lia|].
    assert (Z.of_nat (length (bytes_at (readerIndex_ b) (writerIndex_ b - readerIndex_ b) b))
            = writerIndex_ b - readerIndex_ b) as HL.
    { unfold bytes_at. unfold bsize in *. len. }
    set (src := bytes_at _ _ b) in *.
    wp_steps. unfold copy_in. unfold wp at 1.
    destruct (0 <=? kCheapPrepend) eqn:E1; [|done].
    unfold kCheapPrepend in *. rewrite HL.
    destruct (_ <=? bsize b) eqn:E2; [simpl|lia].
    wp_steps. rewrite readableBytes_wf by (unfold wf, max_size; lia).
    assert (u64 (8 + (writerIndex_ b - readerIndex_ b))
            = 8 + (writerIndex_ b - readerIndex_ b)) as -> by (apply wrap_small; lia).
    set (b' := set_indices _ _ _).
    assert (bsize b' = bsize b) as Hs.
    { unfold b', bsize in *; simpl. by rewrite length_overwrite by lia. }
    assert (wf b') as Hwf'.
    { unfold wf, max_size. rewrite Hs. simpl. lia. }
    apply wp_assert.
    { rewrite readableBytes_wf by done. simpl. lia. }
    split_and!; [done| |done| |done].
    + unfold content at 1. simpl.
      replace (8 + (writerIndex_ b - readerIndex_ b) - 8)
        with (0 + Z.of_nat (length src)) by lia.
      rewrite (bytes_at_overwrite 8 0 src b b'); [|lia..|done].
      done.
    + rewrite writableBytes_wf, Hs by done. simpl. lia.
Qed.

Lemma ensureWritableBytes_spec b len :
  wf b → 0 ≤ len → writerIndex_ b + len ≤ max_size →
  wp (ensureWritableBytes len)
     (λ _ b', wf b' ∧ content b' = content b ∧ len ≤ writableBytes b'
              ∧ Z.min kCheapPrepend (prependableBytes b) ≤ prependableBytes b'
              ∧ bsize b' = if (len <=? writableBytes b) || fits len b
                           then bsize b else writerIndex_ b + len) b.
Proof.
  intros Hwf H0 Hmax. unfold ensureWritableBytes. wp_steps.
  apply wp_when; intros Hlt.
  - destruct (fits len b) eqn:Hf.
    + eapply wp_mono; [apply compact_spec; auto; lia|].
      intros [] b' (Hwf' & Hc & Hs & Hw & Hp). wp_steps. apply wp_assert; [lia|].
      rewrite orb_true_r. split_and!; [done..|lia|done].
    + unfold makeSpace. wp_steps.
      2:{ exfalso. unfold fits in Hf. rewrite writableBytes_wf in * by done. buf_sizes.
          rewrite !wrap_small in Heqb0 by lia. lia. }
      rewrite writableBytes_wf in * by done.
      eapply wp_mono; [apply resize_spec; [done|lia]|].
      intros [] b' (Hwf' & Hc & Hr & Hw & Hs). wp_steps.
      assert (len ≤ writableBytes b') as Hle.
      { rewrite writableBytes_wf, Hs, Hw by done. lia. }
      apply wp_assert; [lia|]. unfold prependableBytes.
      split_and!; [done..|lia|]. destruct (_ <=? _) eqn:E; [lia|done].
  - wp_steps. apply wp_assert; [lia|]. split_and!; [done|done|lia|lia|].
    destruct (len <=? writableBytes b) eqn:E; [done|lia].
Qed.

(** *** The operations, one by one *)

Lemma append_wp b data :
  wf b → writerIndex_ b + Z.of_nat (length data) ≤ max_size →
  wp (append data)
     (λ _ b', wf b' ∧ content b' = content b ++ data
              ∧ Z.min kCheapPrepend (prependableBytes b) ≤ prependableBytes b'
              ∧ bsize b' = if (Z.of_nat (length data) <=? writableBytes b)
                              || fits (Z.of_nat (length data)) b
                           then bsize b
                           else writerIndex_ b + Z.of_nat (length data)) b.
Proof.
  intros Hwf Hmax. unfold append. wp_steps.
  eapply wp_mono; [apply ensureWritableBytes_spec; auto; lia|].
  intros [] b1 (Hwf1 & Hc1 & Hw1 & Hp1 & Hs1). wp_steps.
  rewrite writableBytes_wf in Hw1 by done.
  eapply wp_mono; [apply publish_spec; [done|lia]|].
  intros [] b2 (Hr2 & Hwr2 & Hs2 & Hc2). unfold hasWritten. wp_steps.
  assert (wf b2) as Hwf2 by (unfold wf in *; rewrite Hr2, Hwr2, Hs2; done).
  rewrite writableBytes_wf by done. apply wp_assert; [lia|]. wp_steps.
  rewrite wrap_small by (unfold wf, max_size in *; lia).
  rewrite Hr2, Hwr2, <- Hc1, <- Hs1. split_and!.
  - unfold wf, max_size in *. unfold bsize in *; simpl. lia.
  - done.
  - unfold prependableBytes in *. simpl. lia.
  - unfold bsize in *; simpl. lia.
Qed.

Lemma retrieveAll_wp b :
  wf b → kCheapPrepend ≤ bsize b →
  wp retrieveAll (λ _ b', wf b' ∧ content b' = [] ∧ prependableBytes b' = kCheapPrepend
                          ∧ bsize b' = bsize b) b.
Proof.
  intros Hwf Hs. unfold retrieveAll. wp_steps. buf_sizes. split_and!.
  - unfold wf, max_size, kCheapPrepend. unfold bsize in *; simpl. lia.
  - unfold content, bytes_at; simpl. by rewrite Z.sub_diag.
  - done.
  - done.
Qed.

Lemma bytes_at_drop pos n m b :
  0 ≤ pos → 0 ≤ n → n ≤ m → bytes_at (pos + n) (m - n) b = drop (Z.to_nat n) (bytes_at pos m b).
Proof.
  intros Hp Hn Hm. unfold bytes_at. rewrite skipn_firstn_comm, drop_drop.
  rewrite Z2Nat.inj_add, Z2Nat.inj_sub by lia. done.
Qed.

(** The argument of [retrieve] as the code compares it: a negative [int] counts
    as more than any buffer holds. *)
Lemma retrieve_wp b len :
  wf b → kCheapPrepend ≤ bsize b → - 2 ^ 31 ≤ len < 2 ^ 31 →
  wp (retrieve len)
     (λ _ b', wf b' ∧ bsize b' = bsize b
              ∧ content b' = (if len <? 0 then [] else drop (Z.to_nat len) (content b))
              ∧ Z.min kCheapPrepend (prependableBytes b) ≤ prependableBytes b') b.
Proof.
  intros Hwf Hs Hlen. unfold retrieve. wp_steps.
  - rewrite readableBytes_wf in * by done. buf_sizes.
    destruct (Z.ltb_spec len 0) as [Hneg|Hpos].
    { exfalso. replace len with (len + 2 ^ 64 + (-1) * 2 ^ 64) in Heqb0 by lia.
      unfold wrap in Heqb0. rewrite Z.mod_add in Heqb0 by lia.
      rewrite Z.mod_small in Heqb0 by lia. lia. }
    rewrite (wrap_small 64 len) in * by lia.
    rewrite (wrap_small 64 (_ + _)) by lia. split_and!.
    + unfold wf, max_size. unfold bsize in *; simpl. lia.
    + done.
    + unfold content; simpl.
      replace (writerIndex_ b - (readerIndex_ b + len))
        with (writerIndex_ b - readerIndex_ b - len) by lia.
      etrans; [|apply bytes_at_drop; lia]. done.
    + unfold prependableBytes; simpl. lia.
  - eapply wp_mono; [apply retrieveAll_wp; done|].
    intros [] b' (Hwf' & Hc & Hp & Hs'). split_and!; [done|done| |lia].
    rewrite Hc. destruct (Z.ltb_spec len 0) as [Hneg|Hpos]; [done|].
    rewrite wrap_small in * by lia.
    rewrite drop_ge; [done|]. pose proof (length_content b Hwf). lia.
Qed.

Lemma take_content b n :
  wf b → n ≤ readableBytes b →
  bytes_at (readerIndex_ b) n b = take (Z.to_nat n) (content b).
Proof.
  intros Hwf Hn. rewrite readableBytes_wf in Hn by done.
  unfold content, bytes_at. rewrite take_take. f_equal. lia.
Qed.

Lemma i32_range len : - 2 ^ 31 ≤ i32 len < 2 ^ 31.
Proof.
  unfold to_signed. pose proof (wrap_range 32 len). 
  destruct (Z.ltb_spec (wrap 32 len) (2 ^ (32 - 1))); simpl in *; lia.
Qed.

Lemma retrieveAsString_wp b len :
  wf b → kCheapPrepend ≤ bsize b → 0 ≤ len ≤ readableBytes b →
  wp (retrieveAsString len)
     (λ s b', s = take (Z.to_nat len) (content b) ∧ wf b' ∧ bsize b' = bsize b
              ∧ content b' = (if i32 len <? 0 then []
                              else drop (Z.to_nat (i32 len)) (content b))
              ∧ Z.min kCheapPrepend (prependableBytes b) ≤ prependableBytes b') b.
Proof.
  intros Hwf Hs Hlen. unfold retrieveAsString. wp_steps.
  apply wp_assert; [lia|]. wp_steps.
  eapply wp_mono; [apply retrieve_wp; [done|done|apply i32_range]|].
  intros [] b' H. wp_steps. split; [|tauto]. apply take_content; [done|lia].
Qed.

Lemma prepend_wp b data :
  wf b → Z.of_nat (length data) ≤ prependableBytes b →
  wp (prepend data)
     (λ _ b', wf b' ∧ content b' = data ++ content b ∧ bsize b' = bsize b
              ∧ prependableBytes b' = prependableBytes b - Z.of_nat (length data)) b.
Proof.
  intros Hwf Hlen. unfold prepend. wp_steps. apply wp_assert; [lia|]. wp_steps.
  buf_sizes. rewrite !wrap_small by lia.
  set (n := Z.of_nat (length data)) in *.
  unfold wp, copy_in. simpl.
  destruct (0 <=? readerIndex_ b - n) eqn:E1; [|lia].
  unfold bsize in *; simpl. fold n.
  destruct (_ <=? Z.of_nat _) eqn:E2; [simpl|lia].
  assert (length (overwrite (Z.to_nat (readerIndex_ b - n)) data (buffer_ b))
          = length (buffer_ b)) as HL by (apply length_overwrite; lia).
  split_and!.
  - unfold wf, max_size. unfold bsize; simpl. rewrite HL. lia.
  - unfold content, bytes_at; simpl. rewrite drop_overwrite by lia.
    replace (Z.to_nat (readerIndex_ b - n) + length data)%nat
      with (Z.to_nat (readerIndex_ b)) by lia.
    replace (Z.to_nat (writerIndex_ b - (readerIndex_ b - n)))
      with (length data + Z.to_nat (writerIndex_ b - readerIndex_ b))%nat by lia.
    apply take_app_add.
  - by rewrite HL.
  - done.
Qed.

Lemma writable_nonneg b : wf b → 0 ≤ writableBytes b.
Proof. intros Hwf. rewrite writableBytes_wf by done. unfold wf in Hwf. lia. Qed.

(** What [readv] stored in the first buffer is published by moving the write
    index, the rest is appended from [extrabuf]. *)
Lemma readFd_store_wp b res :
  wf b → kCheapPrepend ≤ bsize b →
  bsize b + Z.of_nat (length (default [] res)) ≤ max_size →
  wp (readFd_store (writableBytes b) res)
     (λ n b', wf b'
        ∧ bsize b ≤ bsize b'
            ≤ bsize b + Z.max 0 (Z.of_nat (length (default [] res)) - writableBytes b)
        ∧ content b' = content b ++ default [] res
        ∧ n = match res with Some data => Z.of_nat (length data) | None => -1 end
        ∧ Z.min kCheapPrepend (prependableBytes b) ≤ prependableBytes b') b.
Proof.
  intros Hwf Hs8 Hmax. destruct res as [data|]; simpl in *.
  2:{ wp_steps. rewrite app_nil_r. split_and!; try done; lia. }
  wp_steps. pose proof (writableBytes_wf b Hwf) as Hw.
  pose proof (bsize_nonneg b) as Hb0. destruct (Hwf) as [Hrw Hws].
  set (w := writableBytes b) in *.
  assert (Z.of_nat (length (take (Z.to_nat w) data)) = Z.min w (Z.of_nat (length data))) as HL
    by len.
  eapply wp_mono; [apply publish_spec; [done|rewrite HL; lia]|].
  intros [] b1 (Hr1 & Hw1 & Hs1 & Hc1). rewrite HL in Hc1. unfold prependableBytes.
  destruct (_ <=? w) eqn:E; wp_steps.
  - rewrite wrap_small by (unfold max_size in *; lia).
    rewrite Z.min_r in Hc1 by lia. rewrite take_ge in Hc1 by lia.
    unfold wf, bsize in *; simpl. split_and!; try done; lia.
  - replace (writerIndex_ b + _) with (bsize b) in Hc1 by lia. rewrite <- Hs1 in Hc1 |- *.
    set (b2 := set_indices _ _ b1) in *.
    assert (wf b2) as Hwf2.
    { unfold wf. change (bsize b2) with (bsize b1). simpl. lia. }
    assert (writableBytes b2 = 0) as Hw2.
    { rewrite writableBytes_wf by done. change (bsize b2) with (bsize b1). simpl. lia. }
    eapply wp_mono; [apply append_wp; [done|simpl; len]|].
    intros [] b' (Hwf' & Hc' & Hp' & Hs'). wp_steps. unfold prependableBytes in Hp'.
    change (bsize b2) with (bsize b1) in Hs'. simpl in Hs', Hp'.
    assert (bsize b1 ≤ bsize b' ≤ bsize b1 + Z.of_nat (length (drop (Z.to_nat w) data)))
      as Hbs by (rewrite Hs'; destruct (_ || _); lia).
    rewrite length_drop in Hbs.
    split_and!; [done|lia|lia| |done|lia].
    rewrite Hc', Hc1, <- app_assoc. by rewrite take_drop.
Qed.

(** ** The abstract buffer: a queue of bytes with room for a header

    [q_headroom] is how much may still be prepended: [kCheapPrepend] bytes when
    the queue is empty, less what has been prepended since. *)

Record queue : Type := mkQueue { q_bytes : list byte; q_headroom : Z }.

Inductive buffer_op : Type :=
  | OpAppend (data : list byte)
  | OpPrepend (data : list byte)
  | OpRetrieve (len : Z)
  | OpRetrieveAll
  | OpRetrieveAsString (len : Z)
  | OpRetrieveAllAsString
  | OpEnsureWritable (len : Z)
  | OpReadFd (res : option (list byte)).

(** One call on the concrete buffer, with the bytes it returns. *)
Definition run_op (op : buffer_op) : M Buffer (list byte) :=
  match op with
  | OpAppend data => append data;; mret []
  | OpPrepend data => prepend data;; mret []
  | OpRetrieve len => retrieve len;; mret []
  | OpRetrieveAll => retrieveAll;; mret []
  | OpRetrieveAsString len => retrieveAsString len
  | OpRetrieveAllAsString => retrieveAllAsString
  | OpEnsureWritable len => ensureWritableBytes len;; mret []
  | OpReadFd res => readFd (λ _, res);; mret []
  end.

Fixpoint run_ops (ops : list buffer_op) : M Buffer (list (list byte)) :=
  match ops with
  | [] => mret []
  | op :: ops' => out ← run_op op; outs ← run_ops ops'; mret (out :: outs)
  end.

(** The same call on the queue; [None] when the caller may not make it. *)
Definition spec_op (op : buffer_op) (q : queue) : option (list byte * queue) :=
  match op with
  | OpAppend data => Some ([], mkQueue (q_bytes q ++ data) (q_headroom q))
  | OpPrepend data =>
      let n := Z.of_nat (length data) in
      if n <=? q_headroom q
      then Some ([], mkQueue (data ++ q_bytes q) (q_headroom q - n)) else None
  | OpRetrieve len =>
      if (0 <=? len) && (len <? 2 ^ 31)
      then Some ([], mkQueue (drop (Z.to_nat len) (q_bytes q)) (q_headroom q)) else None
  | OpRetrieveAll => Some ([], mkQueue [] kCheapPrepend)
  | OpRetrieveAsString len =>
      if (0 <=? len) && (len <=? Z.of_nat (length (q_bytes q))) && (len <? 2 ^ 31)
      then Some (take (Z.to_nat len) (q_bytes q),
                 mkQueue (drop (Z.to_nat len) (q_bytes q)) (q_headroom q)) else None
  | OpRetrieveAllAsString =>
      if Z.of_nat (length (q_bytes q)) <? 2 ^ 31
      then Some (q_bytes q, mkQueue [] (q_headroom q)) else None
  | OpEnsureWritable len => if 0 <=? len then Some ([], q) else None
  | OpReadFd res => Some ([], mkQueue (q_bytes q ++ default [] res) (q_headroom q))
  end.

Fixpoint spec_ops (ops : list buffer_op) (q : queue) : option (list (list byte) * queue) :=
  match ops with
  | [] => Some ([], q)
  | op :: ops' =>
      '(out, q1) ← spec_op op q; '(outs, q2) ← spec_ops ops' q1; Some (out :: outs, q2)
  end.

(** How much storage a call may add. *)
Definition growth (op : buffer_op) : Z :=
  match op with
  | OpAppend data => Z.of_nat (length data)
  | OpEnsureWritable len => Z.max 0 len
  | OpReadFd res => Z.of_nat (length (default [] res))
  | _ => 0
  end.

Definition total_growth (ops : list buffer_op) : Z :=
  foldr (λ op n, growth op + n) 0 ops.

(** A buffer implements a queue. *)
Definition implements (b : Buffer) (q : queue) : Prop :=
  wf b ∧ kCheapPrepend ≤ bsize b ∧ content b = q_bytes q
  ∧ q_headroom q ≤ Z.min kCheapPrepend (prependableBytes b).

Lemma growth_nonneg op : 0 ≤ growth op.
Proof. destruct op; simpl; lia. Qed.

Lemma total_growth_nonneg ops : 0 ≤ total_growth ops.
Proof. induction ops as [|op ops IH]; simpl; [lia|]. pose proof (growth_nonneg op). lia. Qed.

(** What is left of a simulation step once the operation's lemma is applied:
    rewrite with its facts [H : _ ∧ _] and close the arithmetic. *)
Ltac sim_done :=
  wp_steps;
  repeat match goal with
  | H : content ?b' = _ |- context [content ?b'] => rewrite H
  | H : content ?b = q_bytes _ |- context [content ?b] => rewrite H
  | H : bsize ?b' = _ |- context [bsize ?b'] => rewrite H
  end; simpl; split_and!; simpl; try done; lia.

(** One call: the simulation diagram. *)
Lemma run_op_simulates b q op out q' :
  implements b q → spec_op op q = Some (out, q') → bsize b + growth op ≤ max_size →
  wp (run_op op) (λ o b', o = out ∧ implements b' q' ∧ bsize b' ≤ bsize b + growth op) b.
Proof.
  intros (Hwf & H8 & Hc & Hh) Hspec Hmax. unfold implements.
  pose proof (length_content b Hwf) as HL.
  assert (writerIndex_ b ≤ bsize b) as Hws by (unfold wf in Hwf; lia).
  destruct op as [data|data|len| |len| |len|res]; simpl in *; simplify_option_eq;
    repeat match goal with H : (if ?c then _ else _) = Some _ |- _ =>
             destruct c eqn:?; simplify_eq end; wp_steps.
  - eapply wp_mono; [apply append_wp; [done|lia]|]. rewrite writableBytes_wf by done.
    intros [] b' (? & ? & ? & Hs'). destruct (_ || _) eqn:?; sim_done.
  - eapply wp_mono; [apply prepend_wp; [done|lia]|].
    intros [] b' (? & ? & ? & ?). sim_done.
  - eapply wp_mono; [apply retrieve_wp; [done|done|lia]|].
    destruct (Z.ltb_spec len 0); [lia|]. intros [] b' (? & ? & ? & ?). sim_done.
  - eapply wp_mono; [by apply retrieveAll_wp|]. intros [] b' (? & ? & ? & ?). sim_done.
  - eapply wp_mono; [apply retrieveAsString_wp; [done|done|rewrite <- HL, Hc; lia]|].
    rewrite to_signed_small by lia. destruct (Z.ltb_spec len 0); [lia|].
    intros s b' (-> & ? & ? & ? & ?). sim_done.
  - unfold retrieveAllAsString. wp_steps. rewrite <- HL, Hc in *.
    eapply wp_mono; [apply retrieveAsString_wp; [done|done|rewrite <- HL; lia]|].
    rewrite to_signed_small by lia. rewrite Nat2Z.id, Hc, firstn_all, drop_all.
    destruct (Z.ltb_spec (Z.of_nat (length (q_bytes q))) 0); [lia|].
    intros s b' (-> & ? & ? & ? & ?). sim_done.
  - eapply wp_mono; [apply ensureWritableBytes_spec; [done|lia|lia]|].
    rewrite writableBytes_wf by done.
    intros [] b' (? & ? & ? & ? & ?). destruct (_ || _) eqn:?; sim_done.
  - pose proof (writableBytes_wf b ltac:(done)). pose proof (writable_nonneg b ltac:(done)).
    unfold readFd. wp_steps. eapply wp_mono; [by apply readFd_store_wp|].
    intros n b' (? & ? & ? & ? & ?). sim_done.
Qed.

Lemma run_ops_simulates ops : ∀ b q outs q',
  implements b q → spec_ops ops q = Some (outs, q') →
  bsize b + total_growth ops ≤ max_size →
  wp (run_ops ops) (λ o b', o = outs ∧ implements b' q') b.
Proof.
  induction ops as [|op ops IH]; intros b q outs q' Hb Hspec Hmax; simpl in *.
  { by simplify_eq. }
  pose proof (total_growth_nonneg ops).
  destruct (spec_op op q) as [[out q1]|] eqn:E1; simpl in *; [|done].
  destruct (spec_ops ops q1) as [[outs1 q2]|] eqn:E2; simpl in *; [|done].
  simplify_eq. wp_steps.
  eapply wp_mono; [eapply run_op_simulates; eauto; lia|].
  intros o b1 (-> & Hb1 & Hs1). wp_steps.
  eapply wp_mono; [eapply IH; eauto; lia|]. intros o b2 (-> & Hb2). by wp_steps.
Qed.

(** ** Properties *)

(** C4: a buffer is a queue of bytes.  From a newly constructed buffer, any sequence of
    the class's operations that is allowed on the queue (with lengths an [int] holds where
    the class takes an [int], and growth within the vector's range) runs without an assertion
    failure, an out-of-bounds copy or an exception, returns exactly the bytes
    the queue returns, and leaves the queue's bytes readable: no growth,
    compaction or [readFd] loses, reorders or invents a byte. *)
Theorem Buffer_refines_byte_queue (n : Z) (ops : list buffer_op) outs (q' : queue)
    (Hn : 0 ≤ n)
    (Hspec : spec_ops ops (mkQueue [] kCheapPrepend) = Some (outs, q'))
    (Hmax : kCheapPrepend + n + total_growth ops ≤ max_size) :
  ∃ b0 b', Buffer_ctor n tt = Ok (b0, tt) ∧ run_ops ops b0 = Ok (outs, b')
        ∧ content b' = q_bytes q' ∧ readableBytes b' = Z.of_nat (length (q_bytes q')).
Proof.
  pose proof (total_growth_nonneg ops).
  destruct (fresh_buffer_wf n) as (Hwf & Hc & Hw); [lia..|].
  assert (bsize (fresh_buffer n) = kCheapPrepend + n) as Hs.
  { rewrite writableBytes_wf in Hw by done. simpl in Hw. lia. }
  assert (implements (fresh_buffer n) (mkQueue [] kCheapPrepend)) as Hi.
  { split_and!; [done|lia|done|done]. }
  destruct (proj1 (wp_run _ _ _) (run_ops_simulates ops _ _ outs q' Hi Hspec ltac:(lia)))
    as (o & b' & Hrun & -> & Hwf' & _ & Hc' & _).
  exists (fresh_buffer n), b'. rewrite <- Hc'. split_and!; [|done|done|by rewrite length_content].
  assert (wp (Buffer_ctor n) (λ b u, b = fresh_buffer n) tt) as Hnew by (apply Buffer_ctor_wp; [lia..|done]).
  destruct (proj1 (wp_run _ _ _) Hnew) as (b0 & [] & -> & ->). done.
Qed.

(** A run with a growth, a prepended length field, a read that overflows into
    [extrabuf] and two retrievals. *)
Definition sample_ops : list buffer_op :=
  [OpAppend [x61; x62]; OpReadFd (Some [x63; x64; x65]); OpPrepend [x00; x05];
   OpRetrieveAsString 2; OpRetrieve 1; OpAppend [x66]; OpRetrieveAllAsString].

Lemma Buffer_refines_byte_queue_witness :
  ∃ b0 b', Buffer_ctor 1 tt = Ok (b0, tt) ∧ run_ops sample_ops b0
          = Ok ([[]; []; []; [x00; x05]; []; []; [x62; x63; x64; x65; x66]], b')
        ∧ content b' = [] ∧ readableBytes b' = 0.
Proof.
  apply (Buffer_refines_byte_queue 1 sample_ops
           [[]; []; []; [x00; x05]; []; []; [x62; x63; x64; x65; x66]] (mkQueue [] 6)).
  - lia.
  - reflexivity.
  - vm_compute. discriminate.
Defined.

(** C18: [append] always succeeds up to the vector's size limit, adds exactly its
    bytes behind the readable ones, and the storage grows only when neither the
    free tail nor the space gained by moving the readable bytes to the front is
    enough - then to exactly what is needed. *)
Theorem append_grows_only_when_needed (b : Buffer) (data : list byte)
    (Hwf : wf b) (Hmax : writerIndex_ b + Z.of_nat (length data) ≤ max_size) :
  ∃ b', append data b = Ok (tt, b') ∧ wf b' ∧ content b' = content b ++ data
    ∧ let len := Z.of_nat (length data) in
      (len ≤ writableBytes b ∨ len + kCheapPrepend ≤ writableBytes b + prependableBytes b →
       bsize b' = bsize b)
      ∧ (writableBytes b < len ∧ writableBytes b + prependableBytes b < len + kCheapPrepend →
         bsize b' = writerIndex_ b + len).
Proof.
  destruct (proj1 (wp_run _ _ _) (append_wp b data Hwf Hmax))
    as ([] & b' & Hrun & Hwf' & Hc & _ & Hs).
  exists b'. split_and!; [done..|]. unfold fits in Hs. cbv zeta. rewrite Hs.
  destruct (Z.leb_spec (Z.of_nat (length data)) (writableBytes b)),
    (Z.leb_spec (Z.of_nat (length data) + kCheapPrepend)
                (writableBytes b + prependableBytes b)); simpl; intuition lia.
Qed.

Lemma append_grows_only_when_needed_witness :
  ∃ b', append [x61; x62; x63] (mkBuffer (replicate 12 x00) 11 12) = Ok (tt, b')
        ∧ wf b' ∧ content b' = [x00; x61; x62; x63]
        ∧ bsize b' = 12.
Proof.
  edestruct (append_grows_only_when_needed (mkBuffer (replicate 12 x00) 11 12) [x61; x62; x63])
    as (b' & Hrun & Hwf & Hc & Hfit & _).
  - vm_compute. repeat split; discriminate.
  - vm_compute. discriminate.
  - exists b'. split; [exact Hrun|]. split; [exact Hwf|]. split; [exact Hc|].
    apply Hfit. right. vm_compute. discriminate.
Defined.

(** C19: one [readFd] offers the system the free tail and, when that is below 64
    KiB, a 64 KiB stack buffer, so at least 64 KiB in all; whatever the system
    returns within that offer is behind the readable bytes afterwards, in order,
    and the call returns its length; on a failed read it returns -1 and the
    buffer is unchanged. *)
Theorem readFd_keeps_every_byte (b : Buffer) (readv : list Z → option (list byte))
    (Hwf : wf b) (H8 : kCheapPrepend ≤ bsize b)
    (Hmax : bsize b + (writableBytes b + sizeof_extrabuf) ≤ max_size)
    (readv_fits : ∀ iov data, readv iov = Some data →
       Z.of_nat (length data) ≤ foldr Z.add 0 iov) :
  sizeof_extrabuf ≤ foldr Z.add 0 (readFd_iov b)
  ∧ match readv (readFd_iov b) with
    | Some data => ∃ b', readFd readv b = Ok (Z.of_nat (length data), b')
        ∧ wf b' ∧ content b' = content b ++ data
        ∧ bsize b ≤ bsize b' ≤ bsize b + Z.of_nat (length data)
    | None => readFd readv b = Ok (-1, b)
    end.
Proof.
  pose proof (writableBytes_wf b Hwf) as Hw. unfold sizeof_extrabuf in *.
  assert (0 ≤ writableBytes b) as Hw0 by (unfold wf in Hwf; lia).
  split.
  { unfold readFd_iov, sizeof_extrabuf. destruct (Z.ltb_spec (writableBytes b) 65536); simpl; lia. }
  unfold readFd. destruct (readv (readFd_iov b)) as [data|] eqn:E.
  2:{ rewrite bind_run. simpl. by rewrite E. }
  assert (Z.of_nat (length data) ≤ writableBytes b + 65536) as Hfit.
  { apply readv_fits in E. unfold readFd_iov, sizeof_extrabuf in E.
    destruct (Z.ltb_spec (writableBytes b) 65536); simpl in E; lia. }
  rewrite bind_run. simpl. rewrite E.
  destruct (proj1 (wp_run _ _ _)
      (readFd_store_wp b (Some data) Hwf H8 ltac:(simpl; lia)))
    as (n & b' & Hrun & Hwf' & Hs & Hc & -> & _).
  exists b'. split_and!; try done; simpl in *; lia.
Qed.

Lemma readFd_keeps_every_byte_witness :
  ∃ b', readFd (λ _, Some [x61; x62; x63]) (fresh_buffer 2) = Ok (3, b')
        ∧ content b' = [x61; x62; x63].
Proof.
  edestruct (readFd_keeps_every_byte (fresh_buffer 2)
    (λ iov, if 3 <=? foldr Z.add 0 iov then Some [x61; x62; x63] else None))
    as (_ & b' & Hrun & _ & Hc & _).
  - vm_compute. repeat split; discriminate.
  - vm_compute. discriminate.
  - vm_compute. discriminate.
  - intros iov data. destruct (Z.leb_spec 3 (foldr Z.add 0 iov)); [|discriminate].
    intros [= <-]. simpl. lia.
  - exists b'. split; [exact Hrun|exact Hc].
Defined.

(** [prepend] puts its bytes in front of the readable ones exactly when the
    space before them is enough, and otherwise stops at its assertion. *)
Theorem prepend_exactly_when_room (b : Buffer) (data : list byte) (Hwf : wf b) :
  if Z.of_nat (length data) <=? prependableBytes b
  then ∃ b', prepend data b = Ok (tt, b') ∧ wf b' ∧ content b' = data ++ content b
  else prepend data b = Fault (AssertFailed "Buffer.h:97").
Proof.
  destruct (Z.leb_spec (Z.of_nat (length data)) (prependableBytes b)) as [Hle|Hgt].
  - destruct (proj1 (wp_run _ _ _) (prepend_wp b data Hwf Hle))
      as ([] & b' & Hrun & ? & ? & _). eauto.
  - unfold prepend. rewrite bind_run. simpl. rewrite bind_run. unfold assert_.
    by destruct (Z.leb_spec (Z.of_nat (length data)) (prependableBytes b)); [lia|].
Qed.

Lemma prepend_exactly_when_room_witness :
  wf (fresh_buffer 4)
  ∧ ∃ b', prepend [x00; x00; x00; x04] (fresh_buffer 4) = Ok (tt, b')
          ∧ wf b' ∧ content b' = [x00; x00; x00; x04].
Proof.
  assert (wf (fresh_buffer 4)) as Hwf by (vm_compute; repeat split; discriminate).
  split; [exact Hwf|].
  exact (prepend_exactly_when_room (fresh_buffer 4) [x00; x00; x00; x04] Hwf).
Defined.

(** [retrieveAsString] narrows its [size_t] length to the [int] of
    [retrieve].  For a length from 2^31 to 2^32 - 1 that is below what is
    readable it returns the right string but discards the whole buffer: the
    bytes behind the string are lost. *)
Theorem retrieveAsString_loses_bytes_above_2GiB (b : Buffer) (len : Z)
    (Hwf : wf b) (H8 : kCheapPrepend ≤ bsize b)
    (Hbig : 2 ^ 31 ≤ len < 2 ^ 32) (Hlen : len < readableBytes b) :
  ∃ b', retrieveAsString len b = Ok (take (Z.to_nat len) (content b), b')
        ∧ content b' = [] ∧ drop (Z.to_nat len) (content b) ≠ [].
Proof.
  destruct (proj1 (wp_run _ _ _) (retrieveAsString_wp b len Hwf H8 ltac:(lia)))
    as (s & b' & Hrun & -> & _ & _ & Hc & _).
  exists b'. split; [done|]. rewrite Hc. split.
  - unfold to_signed. rewrite wrap_small by lia.
    destruct (Z.ltb_spec len (2 ^ (32 - 1))); [lia|].
    destruct (Z.ltb_spec (len - 2 ^ 32) 0); [done|lia].
  - intros Hnil%(f_equal length). rewrite length_drop in Hnil. simpl in Hnil.
    pose proof (length_content b Hwf). lia.
Qed.

Definition two_gib_buffer : Buffer :=
  mkBuffer (replicate (Z.to_nat (2 ^ 31 + 9)) x00) 8 (2 ^ 31 + 9).

Lemma retrieveAsString_loses_bytes_above_2GiB_witness :
  readableBytes two_gib_buffer = 2 ^ 31 + 1
  ∧ ∃ b', retrieveAsString (2 ^ 31) two_gib_buffer
            = Ok (take (Z.to_nat (2 ^ 31)) (content two_gib_buffer), b')
          ∧ content b' = [] ∧ drop (Z.to_nat (2 ^ 31)) (content two_gib_buffer) ≠ [].
Proof.
  assert (bsize two_gib_buffer = 2 ^ 31 + 9) as Hs.
  { unfold bsize, two_gib_buffer. cbn [buffer_]. rewrite length_replicate. lia. }
  assert (wf two_gib_buffer) as Hwf.
  { unfold wf. rewrite Hs. unfold max_size. cbn [two_gib_buffer readerIndex_ writerIndex_]. lia. }
  assert (readableBytes two_gib_buffer = 2 ^ 31 + 1) as Hr.
  { rewrite readableBytes_wf by exact Hwf. cbn [two_gib_buffer readerIndex_ writerIndex_]. lia. }
  split; [exact Hr|].
  apply (retrieveAsString_loses_bytes_above_2GiB two_gib_buffer (2 ^ 31)).
  - exact Hwf.
  - rewrite Hs. unfold kCheapPrepend. lia.
  - lia.
  - rewrite Hr. lia.
Defined.
