(* ===== verification/OS.v ===== *)
(** * OS: the operating system as the code sees it

    The code talks to Linux through system calls, which are not part of the
    repository: one function [os_call] stands for all of them.  It takes the
    call with its arguments and the kernel's own state (of an abstract type)
    and gives the result: the return value, [errno], the bytes and the ready
    list the call stored through its pointer arguments.  [IO] carries the
    kernel state, the trace of calls made with their results, [errno] and the
    error log.  What the code relies on of the kernel is stated by the classes
    [OSLaws] (the manual pages' bounds on return values) and [EpollLaws] (what a
    successful or failed [epoll_ctl] does to the interest list).  [disposition] and
    [raises_sigpipe] say when a write ends the process. *)
From S2P Require Import Prelude Endian.

Set Default Goal Selector "!".

(** ** Constants of the system headers the code names (Linux, x86-64) *)

Definition POLLIN : Z := 1.
Definition POLLPRI : Z := 2.
Definition POLLOUT : Z := 4.
Definition POLLERR : Z := 8.
Definition POLLHUP : Z := 16.
Definition POLLNVAL : Z := 32.
Definition POLLRDHUP : Z := 8192.

Definition EPOLL_CTL_ADD : Z := 1.
Definition EPOLL_CTL_DEL : Z := 2.
Definition EPOLL_CTL_MOD : Z := 3.

Definition AF_INET : Z := 2.
Definition AF_INET6 : Z := 10.
Definition INET_ADDRSTRLEN : Z := 16.
Definition INET6_ADDRSTRLEN : Z := 46.

Definition EPERM : Z := 1.
Definition EINTR : Z := 4.
Definition EBADF : Z := 9.
Definition EAGAIN : Z := 11.
Definition EWOULDBLOCK : Z := EAGAIN.
Definition ENOMEM : Z := 12.
Definition EACCES : Z := 13.
Definition EFAULT : Z := 14.
Definition EINVAL : Z := 22.
Definition ENFILE : Z := 23.
Definition EMFILE : Z := 24.
Definition EPIPE : Z := 32.
Definition EPROTO : Z := 71.
Definition ENOTSOCK : Z := 88.
Definition EOPNOTSUPP : Z := 95.
Definition EAFNOSUPPORT : Z := 97.
Definition EADDRINUSE : Z := 98.
Definition EADDRNOTAVAIL : Z := 99.
Definition ENETUNREACH : Z := 101.
Definition ECONNABORTED : Z := 103.
Definition ECONNRESET : Z := 104.
Definition ENOBUFS : Z := 105.
Definition EISCONN : Z := 106.
Definition ECONNREFUSED : Z := 111.
Definition EALREADY : Z := 114.
Definition EINPROGRESS : Z := 115.

(** ** Calls and results *)

(** Addresses of C++ objects (what [epoll_event.data.ptr] holds). *)
Abbreviation ptr := nat.

Inductive syscall : Type :=
  | SysNow                                   (* system_clock::now(), in ns *)
  | SysRead (fd count : Z)
  | SysReadv (fd : Z) (iov : list Z)         (* the capacities of the buffers *)
  | SysWrite (fd : Z) (data : list byte)
  | SysClose (fd : Z)
  | SysShutdownWr (fd : Z)
  | SysEpollCreate
  | SysEpollCtl (epfd op fd : Z) (events : Z) (data : ptr)
  | SysEpollWait (epfd maxevents timeout : Z)
  | SysEventfd
  | SysTimerfdCreate
  | SysTimerfdSettime (fd sec nsec : Z)
  | SysSocket (family : Z)
  | SysBind (fd : Z) (addr : list byte)
  | SysListen (fd : Z)
  | SysAccept4 (fd : Z)                      (* with the peer's address *)
  | SysAccept (fd : Z)                       (* address not wanted *)
  | SysConnect (fd : Z) (addr : list byte)
  | SysSoError (fd : Z)                      (* getsockopt SO_ERROR *)
  | SysGetsockname (fd : Z)
  | SysGetpeername (fd : Z)
  | SysSetsockopt (fd : Z) (opt : string) (val : Z)
  | SysOpenDevNull
  | SysTcpInfo (fd : Z)                      (* getsockopt TCP_INFO *)
  | SysGethostbyname (name : string)         (* gethostbyname_r: h_addr in [payload], h_addrtype in [err] *)
  | SysRecv (fd count : Z)
  | SysSend (fd : Z) (data : list byte)
  | SysSocketpair                            (* the two descriptors in [payload] *)
  | SysSetrlimitNofile (n : Z).

#[export] Instance syscall_eq_dec : EqDecision syscall.
Proof. solve_decision. Defined.

Record sysres : Type := mkRes {
  ret : Z;
  err : Z;
  payload : list byte;
  ready : list (ptr * Z)
}.

Class OS (K : Type) : Type := os_call : syscall → K → sysres * K.

Definition MAX_RW_COUNT : Z := 2147479552.

(** What the manual pages promise of the results the code uses. *)
Class OSLaws (K : Type) `{!OS K} : Prop := {
  write_bound : ∀ fd data k,
    -1 ≤ ret (os_call (SysWrite fd data) k).1 ≤ Z.of_nat (length data);
  (** on Linux a write transfers at most this many bytes *)
  write_limit : ∀ fd data k, ret (os_call (SysWrite fd data) k).1 ≤ MAX_RW_COUNT;
  readv_bound : ∀ fd iov k,
    Forall (Z.le 0) iov →
    let r := (os_call (SysReadv fd iov) k).1 in
    ret r = -1 ∨
    (ret r = Z.of_nat (length (payload r)) ∧ ret r ≤ foldr Z.add 0 iov);
  epoll_wait_bound : ∀ epfd n t k,
    let r := (os_call (SysEpollWait epfd n t) k).1 in
    ret r = -1 ∨ (ret r = Z.of_nat (length (ready r)) ∧ ret r ≤ n);
  recv_bound : ∀ fd n k, -1 ≤ ret (os_call (SysRecv fd n) k).1 ≤ Z.max 0 n;
  now_positive : ∀ k, 0 ≤ ret (os_call SysNow k).1
}.

(** The calls that have nothing to do with interest lists. *)
Definition keeps_interest (c : syscall) : bool :=
  match c with
  | SysEpollCtl _ _ _ _ _ | SysClose _ | SysEpollCreate => false
  | _ => true
  end.

(** What a successful [epoll_ctl] makes of the interest list: ADD and MOD set the
    entry of the descriptor, DEL takes it off. *)
Definition ctl_effect (op fd ev : Z) (p : ptr) (m : gmap Z (Z * ptr)) : gmap Z (Z * ptr) :=
  if op =? EPOLL_CTL_DEL then delete fd m else <[fd := (ev, p)]> m.

(** epoll_ctl(2): the interest list of an epoll instance maps a descriptor to
    the events asked for and the user data; a call that returns 0 changes it, one
    that fails, for any of the reasons of the manual page, does not, and other
    instances are not concerned; closing a descriptor takes it off; no
    other call changes the list. *)
Class EpollLaws (K : Type) `{!OS K} : Type := {
  interest : K → Z → gmap Z (Z * ptr);
  epoll_ctl_done : ∀ k ep op fd ev p,
    let rk := os_call (SysEpollCtl ep op fd ev p) k in
    ret rk.1 = 0 → interest rk.2 ep = ctl_effect op fd ev p (interest k ep);
  epoll_ctl_failed : ∀ k ep op fd ev p,
    let rk := os_call (SysEpollCtl ep op fd ev p) k in
    ret rk.1 ≠ 0 → interest rk.2 ep = interest k ep;
  epoll_ctl_other : ∀ k ep op fd ev p ep', ep' ≠ ep →
    interest (os_call (SysEpollCtl ep op fd ev p) k).2 ep' = interest k ep';
  (** epoll_wait(2) hands back the user data of registered descriptors *)
  epoll_wait_registered : ∀ k ep n t c e,
    (c, e) ∈ ready (os_call (SysEpollWait ep n t) k).1 →
    ∃ fd ev, interest k ep !! fd = Some (ev, c);
  (** ... each of them once *)
  epoll_wait_few : ∀ k ep n t,
    (length (ready (os_call (SysEpollWait ep n t) k).1) ≤ size (interest k ep))%nat;
  (** a new instance watches nothing *)
  epoll_create_empty : ∀ k, let rk := os_call SysEpollCreate k in
    0 ≤ ret rk.1 → interest rk.2 (ret rk.1) = ∅;
  epoll_create_other : ∀ k ep', let rk := os_call SysEpollCreate k in
    0 ≤ ret rk.1 → ep' ≠ ret rk.1 → interest rk.2 ep' = interest k ep';
  interest_frame : ∀ k c ep,
    keeps_interest c = true → interest (os_call c k).2 ep = interest k ep
}.

(** ** SIGPIPE

    A write to a socket that cannot be written any more (the peer has reset the
    connection) raises the signal, and gives EPIPE only in a process that ignores it
    (write(2), send(2)).  A process begins with the disposition its parent had
    (execve(2)), and no code of the repository changes it: by default the signal ends
    the process. *)

Inductive disposition : Type := SIG_DFL | SIG_IGN.

#[export] Instance disposition_eq_dec : EqDecision disposition.
Proof. solve_decision. Defined.

Definition raises_sigpipe (cr : syscall * sysres) : bool :=
  match cr.1 with
  | SysWrite _ _ | SysSend _ _ => (ret cr.2 <? 0) && (err cr.2 =? EPIPE)
  | _ => false
  end.

(** ** The I/O state of the process *)

Record IO (K : Type) : Type := mkIO {
  io_k : K;
  io_trace : list (syscall * sysres);   (* oldest first *)
  io_errno : Z;
  io_log : list string                  (* LOG_ERROR, oldest first *)
}.
Arguments mkIO {K}.
Arguments io_k {K}.
Arguments io_trace {K}.
Arguments io_errno {K}.
Arguments io_log {K}.

Section io.
Context {K : Type} `{!OS K}.

(** One system call: [errno] is set when it fails. *)
Definition sys (c : syscall) : M (IO K) sysres := λ io,
  let '(r, k) := os_call c (io_k io) in
  Ok (r, mkIO k (io_trace io ++ [(c, r)])
              (if ret r <? 0 then err r else io_errno io) (io_log io)).

Definition log_error (msg : string) : M (IO K) unit :=
  modify (λ io, mkIO (io_k io) (io_trace io) (io_errno io) (io_log io ++ [msg])).

Lemma sys_wp c (Q : sysres → IO K → Prop) io :
  (∀ r k, os_call c (io_k io) = (r, k) →
     Q r (mkIO k (io_trace io ++ [(c, r)])
               (if ret r <? 0 then err r else io_errno io) (io_log io))) →
  wp (sys c) Q io.
Proof. unfold wp, sys. intros H. destruct (os_call c (io_k io)) as [r k]. by apply H. Qed.
End io.

(** ** A simulated kernel

    For the concrete runs of the development: it keeps the epoll interest lists
    and answers every other call from a script of results, cut to the bounds
    the manual pages give (an exhausted script answers -1 with EAGAIN). *)

Record sim : Type := mkSim {
  sim_script : list sysres;
  sim_interest : gmap Z (gmap Z (Z * ptr))
}.

Definition would_block : sysres := mkRes (-1) EAGAIN [] [].
Definition done_res : sysres := mkRes 0 0 [] [].

Definition sim_list (s : sim) (ep : Z) : gmap Z (Z * ptr) :=
  default ∅ (sim_interest s !! ep).

Definition sim_set (s : sim) (ep : Z) (m : gmap Z (Z * ptr)) : sim :=
  mkSim (sim_script s) (<[ep := m]> (sim_interest s)).

Definition sim_next (s : sim) : sysres * sim :=
  match sim_script s with
  | [] => (would_block, s)
  | r :: l => (r, mkSim l (sim_interest s))
  end.

(** The user data of a list's entries. *)
Definition registered_data (m : gmap Z (Z * ptr)) : list ptr :=
  (λ x, x.2.2) <$> map_to_list m.

Definition clamp (s : sim) (c : syscall) (r : sysres) : sysres :=
  match c with
  | SysNow => mkRes (Z.max 0 (ret r)) 0 [] []
  | SysWrite _ data =>
      mkRes (Z.max (-1) (Z.min (ret r) (Z.min (Z.of_nat (length data)) MAX_RW_COUNT)))
        (err r) [] []
  | SysRecv _ n => mkRes (Z.max (-1) (Z.min (ret r) (Z.max 0 n))) (err r) (payload r) []
  | SysReadv _ iov =>
      if ret r <? 0 then mkRes (-1) (err r) [] [] else
      let p := take (Z.to_nat (foldr Z.add 0 iov)) (payload r) in
      mkRes (Z.of_nat (length p)) 0 p []
  | SysEpollWait ep n _ =>
      if (ret r <? 0) || (n <? 0) then mkRes (-1) (err r) [] [] else
      let l := take (Z.to_nat n `min` size (sim_list s ep))
                 (filter (λ ce, ce.1 ∈ registered_data (sim_list s ep)) (ready r)) in
      mkRes (Z.of_nat (length l)) 0 [] l
  | _ => r
  end.

#[export] Instance sim_os : OS sim := λ c s,
  match c with
  | SysEpollCtl ep op fd ev p =>
      let m := sim_list s ep in
      match m !! fd with
      | None => if op =? EPOLL_CTL_ADD
                then (done_res, sim_set s ep (<[fd := (ev, p)]> m))
                else (mkRes (-1) 2 [] [], s)
      | Some _ => if op =? EPOLL_CTL_MOD
                  then (done_res, sim_set s ep (<[fd := (ev, p)]> m))
                  else if op =? EPOLL_CTL_DEL
                  then (done_res, sim_set s ep (delete fd m))
                  else (mkRes (-1) 17 [] [], s)
      end
  | SysEpollCreate => let '(r, s') := sim_next s in (r, sim_set s' (ret r) ∅)
  | _ => let '(r, s') := sim_next s in (clamp s c r, s')
  end.

Lemma foldr_add_nonneg (iov : list Z) : Forall (Z.le 0) iov → 0 ≤ foldr Z.add 0 iov.
Proof. induction 1; simpl; lia. Qed.

#[export] Instance sim_laws : OSLaws sim.
Proof.
  split.
  - intros fd data k. unfold os_call, sim_os.
    destruct (sim_next k) as [r s']. simpl. unfold MAX_RW_COUNT. lia.
  - intros fd data k. unfold os_call, sim_os.
    destruct (sim_next k) as [r s']. simpl. unfold MAX_RW_COUNT. lia.
  - intros fd iov k Hiov. unfold os_call, sim_os.
    destruct (sim_next k) as [r s']. simpl.
    pose proof (foldr_add_nonneg iov Hiov).
    destruct (ret r <? 0); simpl; [by left|right]. split; [done|]. len.
  - intros epfd n t k. unfold os_call, sim_os.
    destruct (sim_next k) as [r s']. simpl.
    destruct (ret r <? 0); simpl; [by left|].
    destruct (Z.ltb_spec n 0); [by left|right]. split; [done|]. simpl. len.
  - intros fd n k. unfold os_call, sim_os. destruct (sim_next k) as [r s']. simpl. lia.
  - intros k. unfold os_call, sim_os. destruct (sim_next k) as [r s']. simpl. lia.
Qed.

Lemma sim_next_interest s : sim_interest (sim_next s).2 = sim_interest s.
Proof. unfold sim_next. by destruct (sim_script s). Qed.

#[export] Instance sim_epoll : EpollLaws sim.
Proof.
  refine {| interest := sim_list |}.
  - intros k ep op fd ev p. unfold os_call, sim_os, ctl_effect.
    destruct (sim_list k ep !! fd), (Z.eqb_spec op EPOLL_CTL_ADD), (Z.eqb_spec op EPOLL_CTL_MOD),
      (Z.eqb_spec op EPOLL_CTL_DEL); subst; try done; simpl; intros _;
      unfold sim_list at 1, sim_set; simpl; by rewrite lookup_insert_eq.
  - intros k ep op fd ev p. unfold os_call, sim_os.
    by destruct (sim_list k ep !! fd), (op =? EPOLL_CTL_ADD), (op =? EPOLL_CTL_MOD), (op =? EPOLL_CTL_DEL).
  - intros k ep op fd ev p ep' Hne. unfold os_call, sim_os.
    destruct (sim_list k ep !! fd), (op =? EPOLL_CTL_ADD), (op =? EPOLL_CTL_MOD), (op =? EPOLL_CTL_DEL);
      simpl; unfold sim_list at 1, sim_set; simpl; by rewrite ?lookup_insert_ne.
  - intros k ep n t c e. unfold os_call, sim_os. destruct (sim_next k) as [r s']. simpl.
    destruct (_ || _); simpl; [by intros ?%elem_of_nil|].
    intros (i & Hi & _)%elem_of_take. apply list_elem_of_lookup_2 in Hi.
    apply list_elem_of_filter in Hi as [Hi _]. simpl in Hi.
    apply list_elem_of_fmap in Hi as ([fd [ev p]] & -> & Hin).
    exists fd, ev. by apply elem_of_map_to_list in Hin.
  - intros k ep n t. unfold os_call, sim_os. destruct (sim_next k) as [r s'] eqn:E. simpl.
    pose proof (sim_next_interest k) as Hi. rewrite E in Hi. simpl in Hi.
    assert (sim_list s' ep = sim_list k ep) as Hl by (unfold sim_list; by rewrite Hi).
    unfold clamp. rewrite ?Hl. destruct (_ || _); simpl; [lia|]. rewrite length_take. lia.
  - intros k. unfold os_call, sim_os. destruct (sim_next k) as [r s']. intros _. simpl.
    unfold sim_list, sim_set. simpl. by rewrite lookup_insert_eq.
  - intros k ep'. unfold os_call, sim_os. pose proof (sim_next_interest k).
    destruct (sim_next k) as [r s']. intros _ Hne. simpl in *.
    unfold sim_list, sim_set. simpl. by rewrite lookup_insert_ne, H.
  - intros k c ep Hc. unfold os_call, sim_os.
    pose proof (sim_next_interest k). destruct (sim_next k) as [r s'].
    unfold sim_list in *. destruct c; try discriminate Hc; simpl in *; by rewrite H.
Defined.
