(* ===== verification/Descriptors.v ===== *)
(** * Descriptors: what the kernel promises about descriptors and readiness

    The manual pages on which descriptor a call returns and what [close] does
    ([FdLaws]); the reports of [epoll_wait] on which a channel would close and then read
    ([mixed_hangups]), which nothing excludes; the hypothesis that [epoll_ctl] does what
    is asked of it ([EpollRoom]); with a simulated kernel, [fsim], that keeps the set of
    open descriptors besides what [sim] keeps. *)
From S2P Require Import Prelude OS.

Set Default Goal Selector "!".

(** The calls that return a new descriptor. *)
Definition opens (c : syscall) : bool :=
  match c with
  | SysEpollCreate | SysEventfd | SysTimerfdCreate | SysSocket _ | SysAccept4 _ | SysAccept _
  | SysOpenDevNull => true
  | _ => false
  end.

(** The calls that neither open nor close one. *)
Definition keeps_fds (c : syscall) : bool :=
  match c with SysClose _ | SysSocketpair => false | c => negb (opens c) end.

(** A report on which [Channel::handleEvent] does not call both the close and the read
    callback: where there is a hang-up ([POLLHUP]) without anything to read ([POLLIN]),
    there is no other event that is read on. *)
Definition has_event (e ev : Z) : bool := nonzero (Z.land e ev).
Definition hangup_sane (e : Z) : Prop :=
  has_event e POLLHUP = true → has_event e POLLIN = false →
  has_event e (Z.lor (Z.lor POLLIN POLLPRI) POLLRDHUP) = false.

(** Whether the kernel ever reports anything else; no manual page excludes it. *)
Class Hangups : Type := mixed_hangups : Prop.
#[export] Instance kernel_hangups {K} `{!OS K} : Hangups :=
  ∃ (k : K) ep n t c e, (c, e) ∈ ready (os_call (SysEpollWait ep n t) k).1 ∧ ¬ hangup_sane e.

(** What is known of a report. *)
Definition reportable `{Hangups} (e : Z) : Prop := hangup_sane e ∨ mixed_hangups.

Lemma reportable_none `{Hangups} : reportable 0.
Proof. by left. Qed.

#[export] Instance hangup_sane_dec e : Decision (hangup_sane e).
Proof. unfold hangup_sane. apply _. Defined.

Lemma report_reportable {K} `{!OS K} (k : K) ep n t c e :
  (c, e) ∈ ready (os_call (SysEpollWait ep n t) k).1 → reportable e.
Proof. intros Hin. destruct (decide (hangup_sane e)); [by left|right]. by exists k, ep, n, t, c, e. Qed.

(** The fault that such a report can lead to: [handleClose] of a closed connection. *)
Definition closed_twice `{Hangups} (e : fault) : Prop :=
  e = AssertFailed "TcpConnection.cpp:198" ∧ mixed_hangups.

(** A call that concerns neither an interest list nor what is open. *)
Definition harmless (c : syscall) : bool := keeps_interest c && keeps_fds c.

(** proc(5), [/proc/sys/fs/nr_open]: descriptors are below this number. *)
Definition NR_OPEN : Z := 1024 * 1024.

(** open(2), accept(2) and the like return a descriptor that is not open; close(2)
    closes it and takes it off the interest lists; epoll_wait(2) reports a
    registration once. *)
Class FdLaws (K : Type) `{!OS K} `{!EpollLaws K} : Type := {
  open_fds : K → gset Z;
  open_fds_range : ∀ k fd, fd ∈ open_fds k → 0 ≤ fd < NR_OPEN;
  opens_new : ∀ c k, opens c = true →
    let rk := os_call c k in
    if 0 <=? ret rk.1
    then (¬ (ret rk.1 ∈ open_fds k) ∧ open_fds rk.2 = {[ret rk.1]} ∪ open_fds k)
    else open_fds rk.2 = open_fds k;
  close_fds : ∀ fd k, open_fds (os_call (SysClose fd) k).2 = open_fds k ∖ {[fd]};
  close_interest : ∀ fd k ep, fd ≠ ep →
    interest (os_call (SysClose fd) k).2 ep = delete fd (interest k ep);
  fds_frame : ∀ c k, keeps_fds c = true → open_fds (os_call c k).2 = open_fds k;
  epoll_wait_once : ∀ k ep n t,
    (∀ fd fd' ev ev' c, interest k ep !! fd = Some (ev, c) → interest k ep !! fd' = Some (ev', c) →
       fd = fd') →
    NoDup (ready (os_call (SysEpollWait ep n t) k).1).*1
}.

(** A kernel that grants what is asked of it: of the errors of epoll_ctl(2), it gives
    those of a wrong call only (EBADF: a descriptor that is not open; EEXIST, ENOENT:
    one that is, or is not, registered), never ENOMEM, ENOSPC or EPERM.  No law: a
    theorem that needs it says so. *)
Class EpollRoom (K : Type) `{!OS K} `{!EpollLaws K} `{!FdLaws K} : Prop := {
  epoll_add_room : ∀ k ep fd ev p, ep ∈ open_fds k → fd ∈ open_fds k →
    interest k ep !! fd = None → ret (os_call (SysEpollCtl ep EPOLL_CTL_ADD fd ev p) k).1 = 0;
  epoll_mod_room : ∀ k ep fd ev p,
    is_Some (interest k ep !! fd) → ret (os_call (SysEpollCtl ep EPOLL_CTL_MOD fd ev p) k).1 = 0;
  epoll_del_room : ∀ k ep fd ev p,
    is_Some (interest k ep !! fd) → ret (os_call (SysEpollCtl ep EPOLL_CTL_DEL fd ev p) k).1 = 0
}.

(** ** A simulated kernel *)

Record fsim : Type := mkFsim { fs_sim : sim; fs_open : gset Z }.

(** The first report of each. *)
Fixpoint once (seen : list ptr) (l : list (ptr * Z)) : list (ptr * Z) :=
  match l with
  | [] => []
  | ce :: l => if decide (ce.1 ∈ seen) then once seen l else ce :: once (ce.1 :: seen) l
  end.

Definition forget_fd (fd : Z) (s : sim) : sim :=
  mkSim (sim_script s) (delete fd <$> sim_interest s).

#[export] Instance fsim_os : OS fsim := λ c k,
  let rs := os_call c (fs_sim k) in
  match c with
  | SysClose fd => (rs.1, mkFsim (forget_fd fd rs.2) (fs_open k ∖ {[fd]}))
  | SysEpollWait _ _ _ =>
      let l := once [] (ready rs.1) in
      (if ret rs.1 <? 0 then mkRes (-1) (err rs.1) [] []
       else mkRes (Z.of_nat (length l)) 0 [] l, mkFsim rs.2 (fs_open k))
  | _ =>
      if opens c && (0 <=? ret rs.1) then
        if decide (ret rs.1 ∈ fs_open k ∨ NR_OPEN ≤ ret rs.1)
        then (mkRes (-1) EMFILE [] [], mkFsim rs.2 (fs_open k))
        else (rs.1, mkFsim rs.2 ({[ret rs.1]} ∪ fs_open k))
      else (rs.1, mkFsim rs.2 (fs_open k))
  end.

Lemma once_sublist l : ∀ seen, once seen l `sublist_of` l.
Proof.
  induction l as [|ce l IH]; intros seen; simpl; [done|].
  case_decide; [by apply sublist_cons|by apply sublist_skip].
Qed.

Lemma once_not_seen l : ∀ seen c, c ∈ (once seen l).*1 → c ∉ seen.
Proof.
  induction l as [|ce l IH]; intros seen c; simpl; [by intros ?%elem_of_nil|].
  case_decide; [by apply IH|]. intros [->|Hin]%elem_of_cons; [done|].
  intros Hs. apply (IH _ _ Hin). by right.
Qed.

Lemma once_NoDup l : ∀ seen, NoDup (once seen l).*1.
Proof.
  induction l as [|ce l IH]; intros seen; simpl; [constructor|].
  case_decide; [apply IH|]. constructor; [|apply IH].
  intros Hin. apply (once_not_seen _ _ _ Hin). by left.
Qed.

(** Calls that neither open nor close and are no [epoll_wait] are [sim]'s. *)
Lemma fsim_plain c k :
  keeps_fds c = true → (∀ ep n t, c ≠ SysEpollWait ep n t) →
  os_call c k = ((os_call c (fs_sim k)).1, mkFsim (os_call c (fs_sim k)).2 (fs_open k)).
Proof.
  intros Hc Hw. unfold os_call at 1, fsim_os.
  destruct c; try done; by destruct (Hw epfd maxevents timeout).
Qed.

Lemma fsim_opens c k :
  opens c = true →
  let rs := os_call c (fs_sim k) in
  os_call c k = if 0 <=? ret rs.1 then
      (if decide (ret rs.1 ∈ fs_open k ∨ NR_OPEN ≤ ret rs.1) then (mkRes (-1) EMFILE [] [], mkFsim rs.2 (fs_open k))
       else (rs.1, mkFsim rs.2 ({[ret rs.1]} ∪ fs_open k)))
    else (rs.1, mkFsim rs.2 (fs_open k)).
Proof. intros Hc. by destruct c. Qed.

#[export] Instance fsim_laws : OSLaws fsim.
Proof.
  split.
  - intros fd data k. rewrite fsim_plain by done. apply write_bound.
  - intros fd data k. rewrite fsim_plain by done. apply write_limit.
  - intros fd iov k. rewrite fsim_plain by done. apply readv_bound.
  - intros ep n t k. pose proof (epoll_wait_bound ep n t (fs_sim k)) as Hb. cbv zeta in *.
    unfold os_call at 1 2 3 4, fsim_os. cbn [fst].
    destruct (Z.ltb_spec (ret (os_call (SysEpollWait ep n t) (fs_sim k)).1) 0); [by left|].
    right. simpl. split; [done|]. destruct Hb as [?|[E ?]]; [lia|].
    pose proof (sublist_length _ _ (once_sublist (ready (os_call (SysEpollWait ep n t) (fs_sim k)).1) [])). lia.
  - intros fd n k. rewrite fsim_plain by done. apply recv_bound.
  - intros k. rewrite fsim_plain by done. apply now_positive.
Qed.

Lemma fsim_ctl ep op fd ev p k :
  (os_call (SysEpollCtl ep op fd ev p) k).1 = (os_call (SysEpollCtl ep op fd ev p) (fs_sim k)).1
  ∧ fs_sim (os_call (SysEpollCtl ep op fd ev p) k).2 = (os_call (SysEpollCtl ep op fd ev p) (fs_sim k)).2.
Proof. by rewrite fsim_plain by done. Qed.

Lemma fsim_state c k :
  (∀ fd, c ≠ SysClose fd) → fs_sim (os_call c k).2 = (os_call c (fs_sim k)).2.
Proof.
  intros Hc. unfold os_call at 1, fsim_os.
  destruct c; try done; simpl;
    try (destruct (0 <=? _); [case_decide|]; done). by destruct (Hc fd).
Qed.

(** A new epoll instance has the number that [sim] gives it. *)
Lemma fsim_epoll_create k :
  0 ≤ ret (os_call SysEpollCreate k).1 →
  (os_call SysEpollCreate k).1 = (os_call SysEpollCreate (fs_sim k)).1.
Proof.
  intros Hr. rewrite fsim_opens in Hr |- * by done. cbv zeta in *. destruct (0 <=? _); [|done].
  case_decide; simpl in *; [lia|done].
Qed.

#[export] Instance fsim_epoll : EpollLaws fsim.
Proof.
  refine {| interest := λ k, interest (fs_sim k) |}.
  - intros k ep op fd ev p. cbv zeta. destruct (fsim_ctl ep op fd ev p k) as [-> ->].
    by apply epoll_ctl_done.
  - intros k ep op fd ev p. cbv zeta. destruct (fsim_ctl ep op fd ev p k) as [-> ->].
    by apply epoll_ctl_failed.
  - intros k ep op fd ev p ep' Hne. destruct (fsim_ctl ep op fd ev p k) as [_ ->].
    by apply epoll_ctl_other.
  - intros k ep n t c e. unfold os_call at 1, fsim_os. simpl.
    destruct (_ <? 0); simpl; [by intros ?%elem_of_nil|]. intros Hin.
    eapply elem_of_sublist in Hin; [|apply once_sublist].
    exact (epoll_wait_registered (fs_sim k) ep n t c e Hin).
  - intros k ep n t. pose proof (epoll_wait_few (fs_sim k) ep n t) as Hf.
    unfold os_call at 1, fsim_os. simpl. destruct (_ <? 0); simpl; [lia|].
    etrans; [apply sublist_length, once_sublist|done].
  - intros k rk Hr. unfold rk in *. rewrite fsim_state by done. rewrite fsim_epoll_create in * by done.
    by apply (epoll_create_empty (fs_sim k)).
  - intros k ep' rk Hr Hne. unfold rk in *. rewrite fsim_state by done. rewrite fsim_epoll_create in * by done.
    by apply (epoll_create_other (fs_sim k)).
  - intros k c ep Hc. rewrite fsim_state by (by intros fd ->). by apply interest_frame.
Defined.

Lemma sim_close_list fd s ep : sim_list (os_call (SysClose fd) s).2 ep = sim_list s ep.
Proof.
  unfold os_call, sim_os, sim_list. pose proof (sim_next_interest s) as Hi.
  destruct (sim_next s) as [r s']. simpl in *. by rewrite Hi.
Qed.

#[export] Instance fsim_fds : FdLaws fsim.
Proof.
  refine {| open_fds := λ k, filter (λ fd, 0 ≤ fd < NR_OPEN) (fs_open k) |}.
  - by intros k fd [? _]%elem_of_filter.
  - intros c k Hc. rewrite fsim_opens by done. cbv zeta.
    set (rs := os_call c (fs_sim k)).
    destruct (Z.leb_spec 0 (ret rs.1)) as [Hr|Hr]; cbn [fst snd].
    2:{ by rewrite (proj2 (Z.leb_gt _ _)). }
    case_decide as Hd; cbn [fst snd ret fs_open]; [done|]. rewrite (proj2 (Z.leb_le _ _)) by done.
    assert (¬ ret rs.1 ∈ fs_open k ∧ ¬ NR_OPEN ≤ ret rs.1) as [Hd0 Hlt] by tauto. clear Hd. split; [by intros [_ ?]%elem_of_filter|].
    set_unfold. intros fd. split; [tauto|]. intros [->|?]; [|tauto]. split; [lia|by left].
  - intros fd k. set_unfold. intros fd'. simpl. set_unfold. tauto.
  - intros fd k ep Hne. change (sim_list (forget_fd fd (os_call (SysClose fd) (fs_sim k)).2) ep
      = delete fd (sim_list (fs_sim k) ep)).
    rewrite <- (sim_close_list fd (fs_sim k)). unfold sim_list. simpl. rewrite lookup_fmap.
    destruct (sim_interest _ !! ep); simpl; [done|by rewrite delete_empty].
  - intros c k Hc. unfold os_call, fsim_os. by destruct c.
  - intros k ep n t _. unfold os_call, fsim_os. simpl.
    destruct (_ <? 0); simpl; [constructor|apply once_NoDup].
Defined.

#[export] Instance fsim_room : EpollRoom fsim.
Proof.
  split; intros k ep fd ev p; [intros _ _|..]; rewrite (proj1 (fsim_ctl _ _ _ _ _ _));
    unfold os_call, sim_os; simpl; [by intros ->|by intros [x ->]..].
Qed.
