(* ===== verification/Double.v ===== *)
(** * Double: the C++ [double]s of the timers

    Delays and intervals are [double]s (IEEE 754 binary64); the arithmetic is
    the Standard Library's executable [SpecFloat] at precision 53 and maximal
    exponent 1024, rounding to nearest even as the target does. *)
From S2P Require Import Prelude.
From Stdlib Require Export SpecFloat.

Set Default Goal Selector "!".

Definition double : Type := spec_float.

Definition d_prec : Z := 53.
Definition d_emax : Z := 1024.

(** [static_cast<double>] of an integer (and the usual arithmetic conversions). *)
Definition double_of_Z (z : Z) : double := binary_normalize d_prec d_emax z 0 false.

Definition double_mul (x y : double) : double := SFmul d_prec d_emax x y.
Definition double_div (x y : double) : double := SFdiv d_prec d_emax x y.

(** [x > 0.0] *)
Definition double_pos (x : double) : bool := SFltb (S754_zero false) x.

(** [static_cast<int64_t>(x)]: truncation towards zero; undefined behaviour when
    the value is not representable. *)
Definition double_trunc (x : double) : option Z :=
  match x with
  | S754_zero _ => Some 0
  | S754_finite s m e =>
      let a := if 0 <=? e then Zpos m * 2 ^ e else Zpos m `div` 2 ^ (- e) in
      let z := if s then - a else a in
      if (- 2 ^ 63 <=? z) && (z <? 2 ^ 63) then Some z else None
  | S754_infinity _ | S754_nan => None
  end.

(** A positive finite double below one: what a fraction of a second is. *)
Definition proper_fraction (x : double) : Prop :=
  ∃ m e, x = S754_finite false m e ∧ e < 0 ∧ Zpos m < 2 ^ (- e).

Lemma proper_fraction_trunc x : proper_fraction x → double_trunc x = Some 0.
Proof.
  intros (m & e & -> & He & Hm). unfold double_trunc.
  destruct (Z.leb_spec 0 e); [lia|]. rewrite Z.div_small by lia. done.
Qed.

Lemma proper_fraction_pos x : proper_fraction x → double_pos x = true.
Proof. by intros (m & e & -> & He & Hm). Qed.

Example half_is_fraction : proper_fraction (double_div (double_of_Z 1) (double_of_Z 2)).
Proof. vm_compute. exists 4503599627370496%positive, (-53). done. Qed.
