(* ===== verification/Objects.v ===== *)
(** * Objects: the classes' members (the headers under include/siren/net)

    One [Record] per class, with its data members in the order of the header,
    and the enumerations.  A [std::function] made with [std::bind] or a lambda
    is represented by what it calls and with which arguments: [Callback] for the
    channels' callbacks, [Functor] for what is queued on a loop, [TimerCallback]
    for timers; functions supplied by the program that uses the library are
    numbers there.  Objects live in a heap by pointer, because channels, loops,
    connections and timers refer to each other by pointer and are shared.

    [Reactor] is the part of the state the pollers touch (the I/O state, the
    channels, the pollers); [World] adds the objects above it. *)
From S2P Require Import Prelude Endian Buffer OS Double.

Set Default Goal Selector "!".

(** A thread, as [std::this_thread::get_id()] names it. *)
Abbreviation tid := nat.

(** The bytes of a [sockaddr_in6], large enough for either address family. *)
Abbreviation sockaddr := (list byte).

(** ** Enumerations *)

(** [TcpConnection::StateE] *)
Inductive StateE : Type := kDisconnected | kConnecting | kConnected | kDisconnecting.

#[export] Instance StateE_eq_dec : EqDecision StateE.
Proof. solve_decision. Defined.

(** [Connector::States] *)
Inductive States : Type := cDisconnected | cConnecting | cConnected.

#[export] Instance States_eq_dec : EqDecision States.
Proof. solve_decision. Defined.

(** ** Callables *)

(** What a channel's callbacks are bound to. *)
Inductive Callback : Type :=
  | CbTimerQueue_handleRead (loop : ptr)
  | CbEventLoop_handleRead (loop : ptr)
  | CbAcceptor_handleRead (acceptor : ptr)
  | CbConnector_handleWrite (connector : ptr)
  | CbConnector_handleError (connector : ptr)
  | CbTcpConnection_handleRead (conn : ptr)
  | CbTcpConnection_handleWrite (conn : ptr)
  | CbTcpConnection_handleClose (conn : ptr)
  | CbTcpConnection_handleError (conn : ptr)
  | CbUser (id : nat).

(** [TcpConnection::closeCallback_]: [TcpServer::removeConnection],
    [TcpClient::removeConnection] or [detail::removeConnection]. *)
Inductive CloseCallback : Type :=
  | CcTcpServer_removeConnection (server : ptr)
  | CcTcpClient_removeConnection (client : ptr)
  | CcDetail_removeConnection (loop : ptr).

(** What is queued on a loop ([Functor] of EventLoop.h). *)
Inductive Functor : Type :=
  | FnEmpty
  | FnTimerQueue_addTimerInLoop (loop timer : ptr)
  | FnTcpConnection_sendInLoop_raw (conn message : ptr) (len : Z)
  | FnTcpConnection_sendInLoop_string (conn : ptr) (message : list byte)
  | FnTcpConnection_shutdownInLoop (conn : ptr)
  | FnTcpConnection_forceCloseInLoop (conn : ptr)
  | FnTcpConnection_startReadInLoop (conn : ptr)
  | FnTcpConnection_stopReadInLoop (conn : ptr)
  | FnTcpConnection_connectEstablished (conn : ptr)
  | FnTcpConnection_connectDestroyed (conn : ptr)
  | FnTcpConnection_setCloseCallback (conn : ptr) (cb : CloseCallback)
  | FnWriteCompleteCallback (id : nat) (conn : ptr)
  | FnHighWaterMarkCallback (id : nat) (conn : ptr) (len : Z)
  | FnTcpServer_removeConnectionInLoop (server conn : ptr)
  | FnAcceptor_listen (acceptor : ptr)
  | FnConnector_startInLoop (connector : ptr)
  | FnConnector_stopInLoop (connector : ptr)
  | FnConnector_resetChannel (connector : ptr)
  | FnEventLoop_quit (loop : ptr)
  | FnUser (id : nat).

#[export] Instance CloseCallback_eq_dec : EqDecision CloseCallback.
Proof. solve_decision. Defined.
#[export] Instance Functor_eq_dec : EqDecision Functor.
Proof. solve_decision. Defined.

(** The [TcpConnectionPtr] a functor has bound.  Those made with [this] hold none. *)
Definition functor_holds (f : Functor) : option ptr :=
  match f with
  | FnTcpConnection_shutdownInLoop conn
  | FnTcpConnection_forceCloseInLoop conn
  | FnTcpConnection_connectEstablished conn
  | FnTcpConnection_connectDestroyed conn
  | FnTcpConnection_setCloseCallback conn _
  | FnWriteCompleteCallback _ conn
  | FnHighWaterMarkCallback _ conn _
  | FnTcpServer_removeConnectionInLoop _ conn => Some conn
  | _ => None
  end.

Inductive TimerCallback : Type :=
  | TcbEmpty                                  (* []() {} *)
  | TcbConnector_startInLoop (connector : ptr)
  | TcbTcpConnection_forceClose_weak (conn : ptr)
  | TcbDetail_removeConnector (connector : ptr)
  | TcbUser (id : nat).

Inductive ConnectionCallback : Type :=
  | defaultConnectionCallback
  | UserConnectionCallback (id : nat).

Inductive MessageCallback : Type :=
  | defaultMessageCallback
  | UserMessageCallback (id : nat).

(** A call the library makes into the program that uses it. *)
Inductive UserCall : Type :=
  | UcConnection (id : nat) (conn : ptr) (connected : bool)
  | UcMessage (id : nat) (conn : ptr) (receiveTime : Z)
  | UcWriteComplete (id : nat) (conn : ptr)
  | UcHighWaterMark (id : nat) (conn : ptr) (len : Z)
  | UcChannel (id : nat) (receiveTime : Z)
  | UcTimer (id : nat)
  | UcFunctor (id : nat)
  | UcThreadInit (id : nat) (loop : ptr).

(** ** Classes *)

(** A [Channel].  [ch_tie] is the [weak_ptr]: in this program it always refers to a
    [TcpConnection]. *)
Record Channel : Type := mkChannel {
  ch_loop : ptr;
  ch_fd : Z;
  ch_events : Z;
  ch_revents : Z;
  ch_index : Z;
  ch_logHup : bool;
  ch_tie : option ptr;
  ch_tied : bool;
  ch_eventHandling : bool;
  ch_addedToLoop : bool;
  ch_readCallback : option Callback;
  ch_writeCallback : option Callback;
  ch_closeCallback : option Callback;
  ch_errorCallback : option Callback
}.

Definition set_ch_events (v : Z) (x : Channel) : Channel :=
  mkChannel (ch_loop x) (ch_fd x) v (ch_revents x) (ch_index x) (ch_logHup x) (ch_tie x)
    (ch_tied x) (ch_eventHandling x) (ch_addedToLoop x) (ch_readCallback x) (ch_writeCallback x)
    (ch_closeCallback x) (ch_errorCallback x).
Definition set_ch_revents (v : Z) (x : Channel) : Channel :=
  mkChannel (ch_loop x) (ch_fd x) (ch_events x) v (ch_index x) (ch_logHup x) (ch_tie x)
    (ch_tied x) (ch_eventHandling x) (ch_addedToLoop x) (ch_readCallback x) (ch_writeCallback x)
    (ch_closeCallback x) (ch_errorCallback x).
Definition set_ch_index (v : Z) (x : Channel) : Channel :=
  mkChannel (ch_loop x) (ch_fd x) (ch_events x) (ch_revents x) v (ch_logHup x) (ch_tie x)
    (ch_tied x) (ch_eventHandling x) (ch_addedToLoop x) (ch_readCallback x) (ch_writeCallback x)
    (ch_closeCallback x) (ch_errorCallback x).
Definition set_ch_logHup (v : bool) (x : Channel) : Channel :=
  mkChannel (ch_loop x) (ch_fd x) (ch_events x) (ch_revents x) (ch_index x) v (ch_tie x)
    (ch_tied x) (ch_eventHandling x) (ch_addedToLoop x) (ch_readCallback x) (ch_writeCallback x)
    (ch_closeCallback x) (ch_errorCallback x).
Definition set_ch_tie (v : option ptr) (x : Channel) : Channel :=
  mkChannel (ch_loop x) (ch_fd x) (ch_events x) (ch_revents x) (ch_index x) (ch_logHup x) v
    (ch_tied x) (ch_eventHandling x) (ch_addedToLoop x) (ch_readCallback x) (ch_writeCallback x)
    (ch_closeCallback x) (ch_errorCallback x).
Definition set_ch_tied (v : bool) (x : Channel) : Channel :=
  mkChannel (ch_loop x) (ch_fd x) (ch_events x) (ch_revents x) (ch_index x) (ch_logHup x)
    (ch_tie x) v (ch_eventHandling x) (ch_addedToLoop x) (ch_readCallback x) (ch_writeCallback
    x) (ch_closeCallback x) (ch_errorCallback x).
Definition set_ch_eventHandling (v : bool) (x : Channel) : Channel :=
  mkChannel (ch_loop x) (ch_fd x) (ch_events x) (ch_revents x) (ch_index x) (ch_logHup x)
    (ch_tie x) (ch_tied x) v (ch_addedToLoop x) (ch_readCallback x) (ch_writeCallback x)
    (ch_closeCallback x) (ch_errorCallback x).
Definition set_ch_addedToLoop (v : bool) (x : Channel) : Channel :=
  mkChannel (ch_loop x) (ch_fd x) (ch_events x) (ch_revents x) (ch_index x) (ch_logHup x)
    (ch_tie x) (ch_tied x) (ch_eventHandling x) v (ch_readCallback x) (ch_writeCallback x)
    (ch_closeCallback x) (ch_errorCallback x).
Definition set_ch_readCallback (v : option Callback) (x : Channel) : Channel :=
  mkChannel (ch_loop x) (ch_fd x) (ch_events x) (ch_revents x) (ch_index x) (ch_logHup x)
    (ch_tie x) (ch_tied x) (ch_eventHandling x) (ch_addedToLoop x) v (ch_writeCallback x)
    (ch_closeCallback x) (ch_errorCallback x).
Definition set_ch_writeCallback (v : option Callback) (x : Channel) : Channel :=
  mkChannel (ch_loop x) (ch_fd x) (ch_events x) (ch_revents x) (ch_index x) (ch_logHup x)
    (ch_tie x) (ch_tied x) (ch_eventHandling x) (ch_addedToLoop x) (ch_readCallback x) v
    (ch_closeCallback x) (ch_errorCallback x).
Definition set_ch_closeCallback (v : option Callback) (x : Channel) : Channel :=
  mkChannel (ch_loop x) (ch_fd x) (ch_events x) (ch_revents x) (ch_index x) (ch_logHup x)
    (ch_tie x) (ch_tied x) (ch_eventHandling x) (ch_addedToLoop x) (ch_readCallback x)
    (ch_writeCallback x) v (ch_errorCallback x).
Definition set_ch_errorCallback (v : option Callback) (x : Channel) : Channel :=
  mkChannel (ch_loop x) (ch_fd x) (ch_events x) (ch_revents x) (ch_index x) (ch_logHup x)
    (ch_tie x) (ch_tied x) (ch_eventHandling x) (ch_addedToLoop x) (ch_readCallback x)
    (ch_writeCallback x) (ch_closeCallback x) v.

(** An [EPollPoller] with its base's [channels_]; [ep_nevents] is [events_.size()]
    (the entries are written by the kernel and read back in the same [poll]). *)
Record EPollPoller : Type := mkEPollPoller {
  ep_channels : gmap Z ptr;
  ep_epollfd : Z;
  ep_nevents : Z
}.

Definition set_ep_channels (v : gmap Z ptr) (x : EPollPoller) : EPollPoller :=
  mkEPollPoller v (ep_epollfd x) (ep_nevents x).
Definition set_ep_nevents (v : Z) (x : EPollPoller) : EPollPoller :=
  mkEPollPoller (ep_channels x) (ep_epollfd x) v.

(** A [Timer]; time points are nanoseconds of [system_clock]. *)
Record Timer : Type := mkTimer {
  tm_callback : TimerCallback;
  tm_expiration : Z;
  tm_interval : double;
  tm_repeat : bool;
  tm_sequence : Z
}.

Definition set_tm_expiration (v : Z) (x : Timer) : Timer :=
  mkTimer (tm_callback x) v (tm_interval x) (tm_repeat x) (tm_sequence x).

(** A [TimerQueue]; [tq_timers] lists the elements of the [std::set] in its order. *)
Record TimerQueue : Type := mkTimerQueue {
  tq_callingExpiredTimers : bool;
  tq_timerfd : Z;
  tq_timerfdChannel : ptr;
  tq_timers : list ptr
}.

Definition set_tq_callingExpiredTimers (v : bool) (x : TimerQueue) : TimerQueue :=
  mkTimerQueue v (tq_timerfd x) (tq_timerfdChannel x) (tq_timers x).
Definition set_tq_timers (v : list ptr) (x : TimerQueue) : TimerQueue :=
  mkTimerQueue (tq_callingExpiredTimers x) (tq_timerfd x) (tq_timerfdChannel x) v.

(** An [EventLoop]; its [poller_] is in the reactor below, under the loop's pointer. *)
Record EventLoop : Type := mkEventLoop {
  el_threadId : tid;
  el_looping : bool;
  el_callingPendingFunctors : bool;
  el_quit : bool;
  el_eventHandling : bool;
  el_activeChannels : list ptr;
  el_currentActiveChannel : option ptr;
  el_pollReturnTime : Z;
  el_timerQueue : TimerQueue;
  el_wakeupFd : Z;
  el_wakeupChannel : ptr;
  el_pendingFunctors : list Functor
}.

Definition set_el_looping (v : bool) (x : EventLoop) : EventLoop :=
  mkEventLoop (el_threadId x) v (el_callingPendingFunctors x) (el_quit x) (el_eventHandling x)
    (el_activeChannels x) (el_currentActiveChannel x) (el_pollReturnTime x) (el_timerQueue x)
    (el_wakeupFd x) (el_wakeupChannel x) (el_pendingFunctors x).
Definition set_el_callingPendingFunctors (v : bool) (x : EventLoop) : EventLoop :=
  mkEventLoop (el_threadId x) (el_looping x) v (el_quit x) (el_eventHandling x)
    (el_activeChannels x) (el_currentActiveChannel x) (el_pollReturnTime x) (el_timerQueue x)
    (el_wakeupFd x) (el_wakeupChannel x) (el_pendingFunctors x).
Definition set_el_quit (v : bool) (x : EventLoop) : EventLoop :=
  mkEventLoop (el_threadId x) (el_looping x) (el_callingPendingFunctors x) v (el_eventHandling
    x) (el_activeChannels x) (el_currentActiveChannel x) (el_pollReturnTime x) (el_timerQueue x)
    (el_wakeupFd x) (el_wakeupChannel x) (el_pendingFunctors x).
Definition set_el_eventHandling (v : bool) (x : EventLoop) : EventLoop :=
  mkEventLoop (el_threadId x) (el_looping x) (el_callingPendingFunctors x) (el_quit x) v
    (el_activeChannels x) (el_currentActiveChannel x) (el_pollReturnTime x) (el_timerQueue x)
    (el_wakeupFd x) (el_wakeupChannel x) (el_pendingFunctors x).
Definition set_el_activeChannels (v : list ptr) (x : EventLoop) : EventLoop :=
  mkEventLoop (el_threadId x) (el_looping x) (el_callingPendingFunctors x) (el_quit x)
    (el_eventHandling x) v (el_currentActiveChannel x) (el_pollReturnTime x) (el_timerQueue x)
    (el_wakeupFd x) (el_wakeupChannel x) (el_pendingFunctors x).
Definition set_el_currentActiveChannel (v : option ptr) (x : EventLoop) : EventLoop :=
  mkEventLoop (el_threadId x) (el_looping x) (el_callingPendingFunctors x) (el_quit x)
    (el_eventHandling x) (el_activeChannels x) v (el_pollReturnTime x) (el_timerQueue x)
    (el_wakeupFd x) (el_wakeupChannel x) (el_pendingFunctors x).
Definition set_el_pollReturnTime (v : Z) (x : EventLoop) : EventLoop :=
  mkEventLoop (el_threadId x) (el_looping x) (el_callingPendingFunctors x) (el_quit x)
    (el_eventHandling x) (el_activeChannels x) (el_currentActiveChannel x) v (el_timerQueue x)
    (el_wakeupFd x) (el_wakeupChannel x) (el_pendingFunctors x).
Definition set_el_timerQueue (v : TimerQueue) (x : EventLoop) : EventLoop :=
  mkEventLoop (el_threadId x) (el_looping x) (el_callingPendingFunctors x) (el_quit x)
    (el_eventHandling x) (el_activeChannels x) (el_currentActiveChannel x) (el_pollReturnTime x)
    v (el_wakeupFd x) (el_wakeupChannel x) (el_pendingFunctors x).
Definition set_el_pendingFunctors (v : list Functor) (x : EventLoop) : EventLoop :=
  mkEventLoop (el_threadId x) (el_looping x) (el_callingPendingFunctors x) (el_quit x)
    (el_eventHandling x) (el_activeChannels x) (el_currentActiveChannel x) (el_pollReturnTime x)
    (el_timerQueue x) (el_wakeupFd x) (el_wakeupChannel x) v.

(** A [TcpConnection]; [tc_socket] is the descriptor its [Socket] owns, and an empty
    [std::function] is [None]. *)
Record TcpConnection : Type := mkTcpConnection {
  tc_loop : ptr;
  tc_name : string;
  tc_state : StateE;
  tc_reading : bool;
  tc_socket : Z;
  tc_channel : ptr;
  tc_localAddr : sockaddr;
  tc_peerAddr : sockaddr;
  tc_connectionCallback : option ConnectionCallback;
  tc_messageCallback : option MessageCallback;
  tc_writeCompleteCallback : option nat;
  tc_highWaterMarkCallback : option nat;
  tc_closeCallback : option CloseCallback;
  tc_highWaterMark : Z;
  tc_inputBuffer : Buffer;
  tc_outputBuffer : Buffer
}.

Definition set_tc_state (v : StateE) (x : TcpConnection) : TcpConnection :=
  mkTcpConnection (tc_loop x) (tc_name x) v (tc_reading x) (tc_socket x) (tc_channel x)
    (tc_localAddr x) (tc_peerAddr x) (tc_connectionCallback x) (tc_messageCallback x)
    (tc_writeCompleteCallback x) (tc_highWaterMarkCallback x) (tc_closeCallback x)
    (tc_highWaterMark x) (tc_inputBuffer x) (tc_outputBuffer x).
Definition set_tc_reading (v : bool) (x : TcpConnection) : TcpConnection :=
  mkTcpConnection (tc_loop x) (tc_name x) (tc_state x) v (tc_socket x) (tc_channel x)
    (tc_localAddr x) (tc_peerAddr x) (tc_connectionCallback x) (tc_messageCallback x)
    (tc_writeCompleteCallback x) (tc_highWaterMarkCallback x) (tc_closeCallback x)
    (tc_highWaterMark x) (tc_inputBuffer x) (tc_outputBuffer x).
Definition set_tc_connectionCallback (v : option ConnectionCallback) (x : TcpConnection) : TcpConnection :=
  mkTcpConnection (tc_loop x) (tc_name x) (tc_state x) (tc_reading x) (tc_socket x)
    (tc_channel x) (tc_localAddr x) (tc_peerAddr x) v (tc_messageCallback x)
    (tc_writeCompleteCallback x) (tc_highWaterMarkCallback x) (tc_closeCallback x)
    (tc_highWaterMark x) (tc_inputBuffer x) (tc_outputBuffer x).
Definition set_tc_messageCallback (v : option MessageCallback) (x : TcpConnection) : TcpConnection :=
  mkTcpConnection (tc_loop x) (tc_name x) (tc_state x) (tc_reading x) (tc_socket x)
    (tc_channel x) (tc_localAddr x) (tc_peerAddr x) (tc_connectionCallback x) v
    (tc_writeCompleteCallback x) (tc_highWaterMarkCallback x) (tc_closeCallback x)
    (tc_highWaterMark x) (tc_inputBuffer x) (tc_outputBuffer x).
Definition set_tc_writeCompleteCallback (v : option nat) (x : TcpConnection) : TcpConnection :=
  mkTcpConnection (tc_loop x) (tc_name x) (tc_state x) (tc_reading x) (tc_socket x)
    (tc_channel x) (tc_localAddr x) (tc_peerAddr x) (tc_connectionCallback x)
    (tc_messageCallback x) v (tc_highWaterMarkCallback x) (tc_closeCallback x) (tc_highWaterMark
    x) (tc_inputBuffer x) (tc_outputBuffer x).
Definition set_tc_highWaterMarkCallback (v : option nat) (x : TcpConnection) : TcpConnection :=
  mkTcpConnection (tc_loop x) (tc_name x) (tc_state x) (tc_reading x) (tc_socket x)
    (tc_channel x) (tc_localAddr x) (tc_peerAddr x) (tc_connectionCallback x)
    (tc_messageCallback x) (tc_writeCompleteCallback x) v (tc_closeCallback x) (tc_highWaterMark
    x) (tc_inputBuffer x) (tc_outputBuffer x).
Definition set_tc_closeCallback (v : option CloseCallback) (x : TcpConnection) : TcpConnection :=
  mkTcpConnection (tc_loop x) (tc_name x) (tc_state x) (tc_reading x) (tc_socket x)
    (tc_channel x) (tc_localAddr x) (tc_peerAddr x) (tc_connectionCallback x)
    (tc_messageCallback x) (tc_writeCompleteCallback x) (tc_highWaterMarkCallback x) v
    (tc_highWaterMark x) (tc_inputBuffer x) (tc_outputBuffer x).
Definition set_tc_highWaterMark (v : Z) (x : TcpConnection) : TcpConnection :=
  mkTcpConnection (tc_loop x) (tc_name x) (tc_state x) (tc_reading x) (tc_socket x)
    (tc_channel x) (tc_localAddr x) (tc_peerAddr x) (tc_connectionCallback x)
    (tc_messageCallback x) (tc_writeCompleteCallback x) (tc_highWaterMarkCallback x)
    (tc_closeCallback x) v (tc_inputBuffer x) (tc_outputBuffer x).
Definition set_tc_inputBuffer (v : Buffer) (x : TcpConnection) : TcpConnection :=
  mkTcpConnection (tc_loop x) (tc_name x) (tc_state x) (tc_reading x) (tc_socket x)
    (tc_channel x) (tc_localAddr x) (tc_peerAddr x) (tc_connectionCallback x)
    (tc_messageCallback x) (tc_writeCompleteCallback x) (tc_highWaterMarkCallback x)
    (tc_closeCallback x) (tc_highWaterMark x) v (tc_outputBuffer x).
Definition set_tc_outputBuffer (v : Buffer) (x : TcpConnection) : TcpConnection :=
  mkTcpConnection (tc_loop x) (tc_name x) (tc_state x) (tc_reading x) (tc_socket x)
    (tc_channel x) (tc_localAddr x) (tc_peerAddr x) (tc_connectionCallback x)
    (tc_messageCallback x) (tc_writeCompleteCallback x) (tc_highWaterMarkCallback x)
    (tc_closeCallback x) (tc_highWaterMark x) (tc_inputBuffer x) v.

(** An [Acceptor]; [ac_socket] is the descriptor of [acceptSocket_] and the callback
    names the server whose [newConnection] it is bound to. *)
Record Acceptor : Type := mkAcceptor {
  ac_loop : ptr;
  ac_socket : Z;
  ac_channel : ptr;
  ac_newConnectionCallback : option ptr;
  ac_listening : bool;
  ac_idleFd : Z
}.

Definition set_ac_newConnectionCallback (v : option ptr) (x : Acceptor) : Acceptor :=
  mkAcceptor (ac_loop x) (ac_socket x) (ac_channel x) v (ac_listening x) (ac_idleFd x).
Definition set_ac_listening (v : bool) (x : Acceptor) : Acceptor :=
  mkAcceptor (ac_loop x) (ac_socket x) (ac_channel x) (ac_newConnectionCallback x) v
    (ac_idleFd x).
Definition set_ac_idleFd (v : Z) (x : Acceptor) : Acceptor :=
  mkAcceptor (ac_loop x) (ac_socket x) (ac_channel x) (ac_newConnectionCallback x)
    (ac_listening x) v.

(** A [Connector]; the callback names the client whose [newConnection] it is bound to. *)
Record Connector : Type := mkConnector {
  cn_loop : ptr;
  cn_serverAddr : sockaddr;
  cn_connect : bool;
  cn_state : States;
  cn_channel : option ptr;
  cn_newConnectionCallback : option ptr;
  cn_retryDelayMs : Z
}.

Definition set_cn_connect (v : bool) (x : Connector) : Connector :=
  mkConnector (cn_loop x) (cn_serverAddr x) v (cn_state x) (cn_channel x)
    (cn_newConnectionCallback x) (cn_retryDelayMs x).
Definition set_cn_state (v : States) (x : Connector) : Connector :=
  mkConnector (cn_loop x) (cn_serverAddr x) (cn_connect x) v (cn_channel x)
    (cn_newConnectionCallback x) (cn_retryDelayMs x).
Definition set_cn_channel (v : option ptr) (x : Connector) : Connector :=
  mkConnector (cn_loop x) (cn_serverAddr x) (cn_connect x) (cn_state x) v
    (cn_newConnectionCallback x) (cn_retryDelayMs x).
Definition set_cn_newConnectionCallback (v : option ptr) (x : Connector) : Connector :=
  mkConnector (cn_loop x) (cn_serverAddr x) (cn_connect x) (cn_state x) (cn_channel x) v
    (cn_retryDelayMs x).
Definition set_cn_retryDelayMs (v : Z) (x : Connector) : Connector :=
  mkConnector (cn_loop x) (cn_serverAddr x) (cn_connect x) (cn_state x) (cn_channel x)
    (cn_newConnectionCallback x) v.

(** An [EventLoopThreadPool]. *)
Record EventLoopThreadPool : Type := mkEventLoopThreadPool {
  pl_baseLoop : ptr;
  pl_name : string;
  pl_started : bool;
  pl_numThreads : Z;
  pl_next : Z;
  pl_threads : list ptr;
  pl_loops : list ptr
}.

Definition set_pl_started (v : bool) (x : EventLoopThreadPool) : EventLoopThreadPool :=
  mkEventLoopThreadPool (pl_baseLoop x) (pl_name x) v (pl_numThreads x) (pl_next x)
    (pl_threads x) (pl_loops x).
Definition set_pl_numThreads (v : Z) (x : EventLoopThreadPool) : EventLoopThreadPool :=
  mkEventLoopThreadPool (pl_baseLoop x) (pl_name x) (pl_started x) v (pl_next x) (pl_threads
    x) (pl_loops x).
Definition set_pl_next (v : Z) (x : EventLoopThreadPool) : EventLoopThreadPool :=
  mkEventLoopThreadPool (pl_baseLoop x) (pl_name x) (pl_started x) (pl_numThreads x) v
    (pl_threads x) (pl_loops x).
Definition set_pl_threads (v : list ptr) (x : EventLoopThreadPool) : EventLoopThreadPool :=
  mkEventLoopThreadPool (pl_baseLoop x) (pl_name x) (pl_started x) (pl_numThreads x) (pl_next
    x) v (pl_loops x).
Definition set_pl_loops (v : list ptr) (x : EventLoopThreadPool) : EventLoopThreadPool :=
  mkEventLoopThreadPool (pl_baseLoop x) (pl_name x) (pl_started x) (pl_numThreads x) (pl_next
    x) (pl_threads x) v.

(** An [EventLoopThread]; [et_thread] is the thread its [std::thread] runs, [None] when
    there is none to join. *)
Record EventLoopThread : Type := mkEventLoopThread {
  et_loop : option ptr;
  et_exiting : bool;
  et_thread : option tid;
  et_callback : option nat
}.

Definition set_et_loop (v : option ptr) (x : EventLoopThread) : EventLoopThread :=
  mkEventLoopThread v (et_exiting x) (et_thread x) (et_callback x).
Definition set_et_exiting (v : bool) (x : EventLoopThread) : EventLoopThread :=
  mkEventLoopThread (et_loop x) v (et_thread x) (et_callback x).
Definition set_et_thread (v : option tid) (x : EventLoopThread) : EventLoopThread :=
  mkEventLoopThread (et_loop x) (et_exiting x) v (et_callback x).

(** A [TcpServer]; it owns its thread pool. *)
Record TcpServer : Type := mkTcpServer {
  sv_loop : ptr;
  sv_ipPort : string;
  sv_name : string;
  sv_acceptor : ptr;
  sv_threadPool : ptr;
  sv_connectionCallback : ConnectionCallback;
  sv_messageCallback : MessageCallback;
  sv_writeCompleteCallback : option nat;
  sv_threadInitCallback : option nat;
  sv_started : Z;
  sv_nextConnId : Z;
  sv_connections : gmap string ptr
}.

Definition set_sv_connectionCallback (v : ConnectionCallback) (x : TcpServer) : TcpServer :=
  mkTcpServer (sv_loop x) (sv_ipPort x) (sv_name x) (sv_acceptor x) (sv_threadPool x) v
    (sv_messageCallback x) (sv_writeCompleteCallback x) (sv_threadInitCallback x) (sv_started x)
    (sv_nextConnId x) (sv_connections x).
Definition set_sv_messageCallback (v : MessageCallback) (x : TcpServer) : TcpServer :=
  mkTcpServer (sv_loop x) (sv_ipPort x) (sv_name x) (sv_acceptor x) (sv_threadPool x)
    (sv_connectionCallback x) v (sv_writeCompleteCallback x) (sv_threadInitCallback x)
    (sv_started x) (sv_nextConnId x) (sv_connections x).
Definition set_sv_writeCompleteCallback (v : option nat) (x : TcpServer) : TcpServer :=
  mkTcpServer (sv_loop x) (sv_ipPort x) (sv_name x) (sv_acceptor x) (sv_threadPool x)
    (sv_connectionCallback x) (sv_messageCallback x) v (sv_threadInitCallback x) (sv_started x)
    (sv_nextConnId x) (sv_connections x).
Definition set_sv_threadInitCallback (v : option nat) (x : TcpServer) : TcpServer :=
  mkTcpServer (sv_loop x) (sv_ipPort x) (sv_name x) (sv_acceptor x) (sv_threadPool x)
    (sv_connectionCallback x) (sv_messageCallback x) (sv_writeCompleteCallback x) v (sv_started
    x) (sv_nextConnId x) (sv_connections x).
Definition set_sv_started (v : Z) (x : TcpServer) : TcpServer :=
  mkTcpServer (sv_loop x) (sv_ipPort x) (sv_name x) (sv_acceptor x) (sv_threadPool x)
    (sv_connectionCallback x) (sv_messageCallback x) (sv_writeCompleteCallback x)
    (sv_threadInitCallback x) v (sv_nextConnId x) (sv_connections x).
Definition set_sv_nextConnId (v : Z) (x : TcpServer) : TcpServer :=
  mkTcpServer (sv_loop x) (sv_ipPort x) (sv_name x) (sv_acceptor x) (sv_threadPool x)
    (sv_connectionCallback x) (sv_messageCallback x) (sv_writeCompleteCallback x)
    (sv_threadInitCallback x) (sv_started x) v (sv_connections x).
Definition set_sv_connections (v : gmap string ptr) (x : TcpServer) : TcpServer :=
  mkTcpServer (sv_loop x) (sv_ipPort x) (sv_name x) (sv_acceptor x) (sv_threadPool x)
    (sv_connectionCallback x) (sv_messageCallback x) (sv_writeCompleteCallback x)
    (sv_threadInitCallback x) (sv_started x) (sv_nextConnId x) v.

(** A [TcpClient]. *)
Record TcpClient : Type := mkTcpClient {
  cl_loop : ptr;
  cl_connector : ptr;
  cl_name : string;
  cl_connectionCallback : ConnectionCallback;
  cl_messageCallback : MessageCallback;
  cl_writeCompleteCallback : option nat;
  cl_retry : bool;
  cl_connect : bool;
  cl_nextConnId : Z;
  cl_connection : option ptr
}.

Definition set_cl_connectionCallback (v : ConnectionCallback) (x : TcpClient) : TcpClient :=
  mkTcpClient (cl_loop x) (cl_connector x) (cl_name x) v (cl_messageCallback x)
    (cl_writeCompleteCallback x) (cl_retry x) (cl_connect x) (cl_nextConnId x) (cl_connection
    x).
Definition set_cl_messageCallback (v : MessageCallback) (x : TcpClient) : TcpClient :=
  mkTcpClient (cl_loop x) (cl_connector x) (cl_name x) (cl_connectionCallback x) v
    (cl_writeCompleteCallback x) (cl_retry x) (cl_connect x) (cl_nextConnId x) (cl_connection
    x).
Definition set_cl_writeCompleteCallback (v : option nat) (x : TcpClient) : TcpClient :=
  mkTcpClient (cl_loop x) (cl_connector x) (cl_name x) (cl_connectionCallback x)
    (cl_messageCallback x) v (cl_retry x) (cl_connect x) (cl_nextConnId x) (cl_connection x).
Definition set_cl_retry (v : bool) (x : TcpClient) : TcpClient :=
  mkTcpClient (cl_loop x) (cl_connector x) (cl_name x) (cl_connectionCallback x)
    (cl_messageCallback x) (cl_writeCompleteCallback x) v (cl_connect x) (cl_nextConnId x)
    (cl_connection x).
Definition set_cl_connect (v : bool) (x : TcpClient) : TcpClient :=
  mkTcpClient (cl_loop x) (cl_connector x) (cl_name x) (cl_connectionCallback x)
    (cl_messageCallback x) (cl_writeCompleteCallback x) (cl_retry x) v (cl_nextConnId x)
    (cl_connection x).
Definition set_cl_nextConnId (v : Z) (x : TcpClient) : TcpClient :=
  mkTcpClient (cl_loop x) (cl_connector x) (cl_name x) (cl_connectionCallback x)
    (cl_messageCallback x) (cl_writeCompleteCallback x) (cl_retry x) (cl_connect x) v
    (cl_connection x).
Definition set_cl_connection (v : option ptr) (x : TcpClient) : TcpClient :=
  mkTcpClient (cl_loop x) (cl_connector x) (cl_name x) (cl_connectionCallback x)
    (cl_messageCallback x) (cl_writeCompleteCallback x) (cl_retry x) (cl_connect x)
    (cl_nextConnId x) v.

(** ** The state of the process *)

Record Reactor (K : Type) : Type := mkReactor {
  r_io : IO K;
  r_chans : gmap ptr Channel;
  r_pollers : gmap ptr EPollPoller        (* by the loop that owns it *)
}.
Arguments mkReactor {K}.
Arguments r_io {K}.
Arguments r_chans {K}.
Arguments r_pollers {K}.

Definition set_r_io {K} (v : IO K) (x : Reactor K) : Reactor K :=
  mkReactor v (r_chans x) (r_pollers x).
Definition set_r_chans {K} (v : gmap ptr Channel) (x : Reactor K) : Reactor K :=
  mkReactor (r_io x) v (r_pollers x).
Definition set_r_pollers {K} (v : gmap ptr EPollPoller) (x : Reactor K) : Reactor K :=
  mkReactor (r_io x) (r_chans x) v.

(** ** The example programs

    The objects of example/pingpong/client.cc and the globals of bench.cc. *)

(** A [Session]; [ss_client] is its [TcpClient]. *)
Record Session : Type := mkSession {
  ss_client : ptr;
  ss_owner : ptr;
  ss_bytesRead : Z;
  ss_bytesWritten : Z;
  ss_messagesRead : Z
}.

Definition set_ss_bytesRead (v : Z) (x : Session) : Session :=
  mkSession (ss_client x) (ss_owner x) v (ss_bytesWritten x) (ss_messagesRead x).
Definition set_ss_bytesWritten (v : Z) (x : Session) : Session :=
  mkSession (ss_client x) (ss_owner x) (ss_bytesRead x) v (ss_messagesRead x).
Definition set_ss_messagesRead (v : Z) (x : Session) : Session :=
  mkSession (ss_client x) (ss_owner x) (ss_bytesRead x) (ss_bytesWritten x) v.

(** A [Client]; [pp_message] is where its [message_] is in memory. *)
Record Client : Type := mkClient {
  pp_loop : ptr;
  pp_threadPool : ptr;
  pp_sessionCount : Z;
  pp_timeout : Z;
  pp_sessions : list ptr;
  pp_message : ptr;
  pp_numConnected : Z
}.

Definition set_pp_sessions (v : list ptr) (x : Client) : Client :=
  mkClient (pp_loop x) (pp_threadPool x) (pp_sessionCount x) (pp_timeout x) v (pp_message x)
    (pp_numConnected x).
Definition set_pp_numConnected (v : Z) (x : Client) : Client :=
  mkClient (pp_loop x) (pp_threadPool x) (pp_sessionCount x) (pp_timeout x) (pp_sessions x)
    (pp_message x) v.

(** The globals of bench.cc. *)
Record Bench : Type := mkBench {
  bn_pipes : list Z;
  bn_numPipes : Z;
  bn_numActive : Z;
  bn_numWrites : Z;
  bn_loop : ptr;
  bn_channels : list ptr;
  bn_reads : Z;
  bn_writes : Z;
  bn_fired : Z
}.

Definition set_bn_pipes (v : list Z) (x : Bench) : Bench :=
  mkBench v (bn_numPipes x) (bn_numActive x) (bn_numWrites x) (bn_loop x) (bn_channels x)
    (bn_reads x) (bn_writes x) (bn_fired x).
Definition set_bn_numPipes (v : Z) (x : Bench) : Bench :=
  mkBench (bn_pipes x) v (bn_numActive x) (bn_numWrites x) (bn_loop x) (bn_channels x)
    (bn_reads x) (bn_writes x) (bn_fired x).
Definition set_bn_numActive (v : Z) (x : Bench) : Bench :=
  mkBench (bn_pipes x) (bn_numPipes x) v (bn_numWrites x) (bn_loop x) (bn_channels x)
    (bn_reads x) (bn_writes x) (bn_fired x).
Definition set_bn_numWrites (v : Z) (x : Bench) : Bench :=
  mkBench (bn_pipes x) (bn_numPipes x) (bn_numActive x) v (bn_loop x) (bn_channels x)
    (bn_reads x) (bn_writes x) (bn_fired x).
Definition set_bn_loop (v : ptr) (x : Bench) : Bench :=
  mkBench (bn_pipes x) (bn_numPipes x) (bn_numActive x) (bn_numWrites x) v (bn_channels x)
    (bn_reads x) (bn_writes x) (bn_fired x).
Definition set_bn_channels (v : list ptr) (x : Bench) : Bench :=
  mkBench (bn_pipes x) (bn_numPipes x) (bn_numActive x) (bn_numWrites x) (bn_loop x) v
    (bn_reads x) (bn_writes x) (bn_fired x).
Definition set_bn_reads (v : Z) (x : Bench) : Bench :=
  mkBench (bn_pipes x) (bn_numPipes x) (bn_numActive x) (bn_numWrites x) (bn_loop x)
    (bn_channels x) v (bn_writes x) (bn_fired x).
Definition set_bn_writes (v : Z) (x : Bench) : Bench :=
  mkBench (bn_pipes x) (bn_numPipes x) (bn_numActive x) (bn_numWrites x) (bn_loop x)
    (bn_channels x) (bn_reads x) v (bn_fired x).
Definition set_bn_fired (v : Z) (x : Bench) : Bench :=
  mkBench (bn_pipes x) (bn_numPipes x) (bn_numActive x) (bn_numWrites x) (bn_loop x)
    (bn_channels x) (bn_reads x) (bn_writes x) v.

(** What the example programs keep. *)
Record App : Type := mkApp {
  ap_sessions : gmap ptr Session;
  ap_clients : gmap ptr Client;
  ap_bench : Bench
}.

Definition set_ap_sessions (v : gmap ptr Session) (x : App) : App :=
  mkApp v (ap_clients x) (ap_bench x).
Definition set_ap_clients (v : gmap ptr Client) (x : App) : App :=
  mkApp (ap_sessions x) v (ap_bench x).
Definition set_ap_bench (v : Bench) (x : App) : App :=
  mkApp (ap_sessions x) (ap_clients x) v.

Definition no_app : App := mkApp ∅ ∅ (mkBench [] 0 0 0 0%nat [] 0 0 0).

(** [w_tid] is the running thread, [w_mem] the memory of the program that uses
    the library (what [const void* message] points to), [w_app] the objects of the
    example programs, [w_calls] the calls made
    into that program, oldest first, [w_next] the next free address,
    [w_numCreated] the static [Timer::s_numCreated_], [w_nextTid] the id the
    system gives the next thread and [w_held] the connections that local variables,
    and the program that uses the library, hold a [TcpConnectionPtr] to (once for
    each such pointer). *)
Record World (K : Type) : Type := mkWorld {
  w_r : Reactor K;
  w_tid : tid;
  w_loops : gmap ptr EventLoop;
  w_timers : gmap ptr Timer;
  w_conns : gmap ptr TcpConnection;
  w_acceptors : gmap ptr Acceptor;
  w_connectors : gmap ptr Connector;
  w_servers : gmap ptr TcpServer;
  w_clients : gmap ptr TcpClient;
  w_pools : gmap ptr EventLoopThreadPool;
  w_threads : gmap ptr EventLoopThread;
  w_app : App;
  w_mem : gmap ptr (list byte);
  w_calls : list UserCall;
  w_next : ptr;
  w_numCreated : Z;
  w_nextTid : tid;
  w_held : list ptr
}.
Arguments mkWorld {K}.
Arguments w_r {K}.
Arguments w_tid {K}.
Arguments w_loops {K}.
Arguments w_timers {K}.
Arguments w_conns {K}.
Arguments w_acceptors {K}.
Arguments w_connectors {K}.
Arguments w_servers {K}.
Arguments w_clients {K}.
Arguments w_pools {K}.
Arguments w_threads {K}.
Arguments w_app {K}.
Arguments w_mem {K}.
Arguments w_calls {K}.
Arguments w_next {K}.
Arguments w_numCreated {K}.
Arguments w_nextTid {K}.
Arguments w_held {K}.

Definition set_w_r {K} (v : Reactor K) (x : World K) : World K :=
  mkWorld v (w_tid x) (w_loops x) (w_timers x) (w_conns x) (w_acceptors x) (w_connectors x)
    (w_servers x) (w_clients x) (w_pools x) (w_threads x) (w_app x) (w_mem x) (w_calls x)
    (w_next x) (w_numCreated x) (w_nextTid x) (w_held x).
Definition set_w_tid {K} (v : tid) (x : World K) : World K :=
  mkWorld (w_r x) v (w_loops x) (w_timers x) (w_conns x) (w_acceptors x) (w_connectors x)
    (w_servers x) (w_clients x) (w_pools x) (w_threads x) (w_app x) (w_mem x) (w_calls x)
    (w_next x) (w_numCreated x) (w_nextTid x) (w_held x).
Definition set_w_loops {K} (v : gmap ptr EventLoop) (x : World K) : World K :=
  mkWorld (w_r x) (w_tid x) v (w_timers x) (w_conns x) (w_acceptors x) (w_connectors x)
    (w_servers x) (w_clients x) (w_pools x) (w_threads x) (w_app x) (w_mem x) (w_calls x)
    (w_next x) (w_numCreated x) (w_nextTid x) (w_held x).
Definition set_w_timers {K} (v : gmap ptr Timer) (x : World K) : World K :=
  mkWorld (w_r x) (w_tid x) (w_loops x) v (w_conns x) (w_acceptors x) (w_connectors x)
    (w_servers x) (w_clients x) (w_pools x) (w_threads x) (w_app x) (w_mem x) (w_calls x)
    (w_next x) (w_numCreated x) (w_nextTid x) (w_held x).
Definition set_w_conns {K} (v : gmap ptr TcpConnection) (x : World K) : World K :=
  mkWorld (w_r x) (w_tid x) (w_loops x) (w_timers x) v (w_acceptors x) (w_connectors x)
    (w_servers x) (w_clients x) (w_pools x) (w_threads x) (w_app x) (w_mem x) (w_calls x)
    (w_next x) (w_numCreated x) (w_nextTid x) (w_held x).
Definition set_w_acceptors {K} (v : gmap ptr Acceptor) (x : World K) : World K :=
  mkWorld (w_r x) (w_tid x) (w_loops x) (w_timers x) (w_conns x) v (w_connectors x)
    (w_servers x) (w_clients x) (w_pools x) (w_threads x) (w_app x) (w_mem x) (w_calls x)
    (w_next x) (w_numCreated x) (w_nextTid x) (w_held x).
Definition set_w_connectors {K} (v : gmap ptr Connector) (x : World K) : World K :=
  mkWorld (w_r x) (w_tid x) (w_loops x) (w_timers x) (w_conns x) (w_acceptors x) v
    (w_servers x) (w_clients x) (w_pools x) (w_threads x) (w_app x) (w_mem x) (w_calls x)
    (w_next x) (w_numCreated x) (w_nextTid x) (w_held x).
Definition set_w_servers {K} (v : gmap ptr TcpServer) (x : World K) : World K :=
  mkWorld (w_r x) (w_tid x) (w_loops x) (w_timers x) (w_conns x) (w_acceptors x)
    (w_connectors x) v (w_clients x) (w_pools x) (w_threads x) (w_app x) (w_mem x) (w_calls
    x) (w_next x) (w_numCreated x) (w_nextTid x) (w_held x).
Definition set_w_clients {K} (v : gmap ptr TcpClient) (x : World K) : World K :=
  mkWorld (w_r x) (w_tid x) (w_loops x) (w_timers x) (w_conns x) (w_acceptors x)
    (w_connectors x) (w_servers x) v (w_pools x) (w_threads x) (w_app x) (w_mem x) (w_calls
    x) (w_next x) (w_numCreated x) (w_nextTid x) (w_held x).
Definition set_w_pools {K} (v : gmap ptr EventLoopThreadPool) (x : World K) : World K :=
  mkWorld (w_r x) (w_tid x) (w_loops x) (w_timers x) (w_conns x) (w_acceptors x)
    (w_connectors x) (w_servers x) (w_clients x) v (w_threads x) (w_app x) (w_mem x)
    (w_calls x) (w_next x) (w_numCreated x) (w_nextTid x) (w_held x).
Definition set_w_threads {K} (v : gmap ptr EventLoopThread) (x : World K) : World K :=
  mkWorld (w_r x) (w_tid x) (w_loops x) (w_timers x) (w_conns x) (w_acceptors x)
    (w_connectors x) (w_servers x) (w_clients x) (w_pools x) v (w_app x) (w_mem x) (w_calls
    x) (w_next x) (w_numCreated x) (w_nextTid x) (w_held x).
Definition set_w_app {K} (v : App) (x : World K) : World K :=
  mkWorld (w_r x) (w_tid x) (w_loops x) (w_timers x) (w_conns x) (w_acceptors x)
    (w_connectors x) (w_servers x) (w_clients x) (w_pools x) (w_threads x) v (w_mem x)
    (w_calls x) (w_next x) (w_numCreated x) (w_nextTid x) (w_held x).
Definition set_w_mem {K} (v : gmap ptr (list byte)) (x : World K) : World K :=
  mkWorld (w_r x) (w_tid x) (w_loops x) (w_timers x) (w_conns x) (w_acceptors x)
    (w_connectors x) (w_servers x) (w_clients x) (w_pools x) (w_threads x) (w_app x) v
    (w_calls x) (w_next x) (w_numCreated x) (w_nextTid x) (w_held x).
Definition set_w_calls {K} (v : list UserCall) (x : World K) : World K :=
  mkWorld (w_r x) (w_tid x) (w_loops x) (w_timers x) (w_conns x) (w_acceptors x)
    (w_connectors x) (w_servers x) (w_clients x) (w_pools x) (w_threads x) (w_app x) (w_mem
    x) v (w_next x) (w_numCreated x) (w_nextTid x) (w_held x).
Definition set_w_next {K} (v : ptr) (x : World K) : World K :=
  mkWorld (w_r x) (w_tid x) (w_loops x) (w_timers x) (w_conns x) (w_acceptors x)
    (w_connectors x) (w_servers x) (w_clients x) (w_pools x) (w_threads x) (w_app x) (w_mem
    x) (w_calls x) v (w_numCreated x) (w_nextTid x) (w_held x).
Definition set_w_numCreated {K} (v : Z) (x : World K) : World K :=
  mkWorld (w_r x) (w_tid x) (w_loops x) (w_timers x) (w_conns x) (w_acceptors x)
    (w_connectors x) (w_servers x) (w_clients x) (w_pools x) (w_threads x) (w_app x) (w_mem
    x) (w_calls x) (w_next x) v (w_nextTid x) (w_held x).
Definition set_w_nextTid {K} (v : tid) (x : World K) : World K :=
  mkWorld (w_r x) (w_tid x) (w_loops x) (w_timers x) (w_conns x) (w_acceptors x)
    (w_connectors x) (w_servers x) (w_clients x) (w_pools x) (w_threads x) (w_app x) (w_mem
    x) (w_calls x) (w_next x) (w_numCreated x) v (w_held x).

Definition set_w_held {K} (v : list ptr) (x : World K) : World K :=
  mkWorld (w_r x) (w_tid x) (w_loops x) (w_timers x) (w_conns x) (w_acceptors x)
    (w_connectors x) (w_servers x) (w_clients x) (w_pools x) (w_threads x) (w_app x) (w_mem
    x) (w_calls x) (w_next x) (w_numCreated x) (w_nextTid x) v.

(** ** Access *)

Section access.
Context {K : Type}.

Definition in_io {A} (m : M (IO K) A) : M (Reactor K) A :=
  zoom "io" (λ r, Some (r_io r)) set_r_io m.

Definition in_reactor {A} (m : M (Reactor K) A) : M (World K) A :=
  zoom "reactor" (λ w, Some (w_r w)) set_w_r m.

Definition get_chan (c : ptr) : M (Reactor K) Channel :=
  gets_some "Channel" (λ r, r_chans r !! c).
Definition put_chan (c : ptr) (ch : Channel) : M (Reactor K) unit :=
  modify (λ r, set_r_chans (<[c := ch]> (r_chans r)) r).
Definition get_poller (l : ptr) : M (Reactor K) EPollPoller :=
  gets_some "Poller" (λ r, r_pollers r !! l).
Definition put_poller (l : ptr) (p : EPollPoller) : M (Reactor K) unit :=
  modify (λ r, set_r_pollers (<[l := p]> (r_pollers r)) r).

Definition get_loop (l : ptr) : M (World K) EventLoop :=
  gets_some "EventLoop" (λ w, w_loops w !! l).
Definition put_loop (l : ptr) (x : EventLoop) : M (World K) unit :=
  modify (λ w, set_w_loops (<[l := x]> (w_loops w)) w).
Definition upd_loop (l : ptr) (f : EventLoop → EventLoop) : M (World K) unit :=
  x ← get_loop l; put_loop l (f x).

Definition get_timer (t : ptr) : M (World K) Timer :=
  gets_some "Timer" (λ w, w_timers w !! t).
Definition put_timer (t : ptr) (x : Timer) : M (World K) unit :=
  modify (λ w, set_w_timers (<[t := x]> (w_timers w)) w).

Definition get_conn (c : ptr) : M (World K) TcpConnection :=
  gets_some "TcpConnection" (λ w, w_conns w !! c).
Definition put_conn (c : ptr) (x : TcpConnection) : M (World K) unit :=
  modify (λ w, set_w_conns (<[c := x]> (w_conns w)) w).
Definition upd_conn (c : ptr) (f : TcpConnection → TcpConnection) : M (World K) unit :=
  x ← get_conn c; put_conn c (f x).

Definition get_acceptor (a : ptr) : M (World K) Acceptor :=
  gets_some "Acceptor" (λ w, w_acceptors w !! a).
Definition put_acceptor (a : ptr) (x : Acceptor) : M (World K) unit :=
  modify (λ w, set_w_acceptors (<[a := x]> (w_acceptors w)) w).
Definition upd_acceptor (a : ptr) (f : Acceptor → Acceptor) : M (World K) unit :=
  x ← get_acceptor a; put_acceptor a (f x).

Definition get_connector (c : ptr) : M (World K) Connector :=
  gets_some "Connector" (λ w, w_connectors w !! c).
Definition put_connector (c : ptr) (x : Connector) : M (World K) unit :=
  modify (λ w, set_w_connectors (<[c := x]> (w_connectors w)) w).
Definition upd_connector (c : ptr) (f : Connector → Connector) : M (World K) unit :=
  x ← get_connector c; put_connector c (f x).

Definition get_server (s : ptr) : M (World K) TcpServer :=
  gets_some "TcpServer" (λ w, w_servers w !! s).
Definition put_server (s : ptr) (x : TcpServer) : M (World K) unit :=
  modify (λ w, set_w_servers (<[s := x]> (w_servers w)) w).
Definition upd_server (s : ptr) (f : TcpServer → TcpServer) : M (World K) unit :=
  x ← get_server s; put_server s (f x).

Definition get_client (c : ptr) : M (World K) TcpClient :=
  gets_some "TcpClient" (λ w, w_clients w !! c).
Definition put_client (c : ptr) (x : TcpClient) : M (World K) unit :=
  modify (λ w, set_w_clients (<[c := x]> (w_clients w)) w).
Definition upd_client (c : ptr) (f : TcpClient → TcpClient) : M (World K) unit :=
  x ← get_client c; put_client c (f x).

Definition get_pool (p : ptr) : M (World K) EventLoopThreadPool :=
  gets_some "EventLoopThreadPool" (λ w, w_pools w !! p).
Definition put_pool (p : ptr) (x : EventLoopThreadPool) : M (World K) unit :=
  modify (λ w, set_w_pools (<[p := x]> (w_pools w)) w).
Definition upd_pool (p : ptr) (f : EventLoopThreadPool → EventLoopThreadPool) : M (World K) unit :=
  x ← get_pool p; put_pool p (f x).

Definition get_thread (t : ptr) : M (World K) EventLoopThread :=
  gets_some "EventLoopThread" (λ w, w_threads w !! t).
Definition put_thread (t : ptr) (x : EventLoopThread) : M (World K) unit :=
  modify (λ w, set_w_threads (<[t := x]> (w_threads w)) w).
Definition upd_thread (t : ptr) (f : EventLoopThread → EventLoopThread) : M (World K) unit :=
  x ← get_thread t; put_thread t (f x).

(** A channel read from above the reactor. *)
Definition chan_at (c : ptr) : M (World K) Channel := in_reactor (get_chan c).
Definition upd_chan (c : ptr) (f : Channel → Channel) : M (World K) unit :=
  in_reactor (ch ← get_chan c; put_chan c (f ch)).

Definition syscall_ `{!OS K} (c : syscall) : M (World K) sysres := in_reactor (in_io (sys c)).
Definition LOG_ERROR (msg : string) : M (World K) unit := in_reactor (in_io (log_error msg)).
Definition errno : M (World K) Z := gets (λ w, io_errno (r_io (w_r w))).

Definition user_call (u : UserCall) : M (World K) unit :=
  modify (λ w, set_w_calls (w_calls w ++ [u]) w).

(** Taking shared pointers to connections. *)
Definition hold (conns : list ptr) : M (World K) unit :=
  modify (λ w, set_w_held (conns ++ w_held w) w).

(** [new T(...)]: a fresh address. *)
Definition fresh : M (World K) ptr :=
  λ w, Ok (w_next w, set_w_next (S (w_next w)) w).
End access.
