(* ===== verification/Poller.v ===== *)
(** * Poller: the multiplexers (Poller.h, Poller.cpp and the two classes of poller/)

    The abstract class [Poller] is a type class of operations; [EPollPoller]
    implements it over [epoll(7)] and is the default, [PollPoller] is the
    repository's empty one.  [PollerLaws] states what the components above
    (loops, channels, connections) rely on; both instances discharge it.
    [synced] is the invariant of the epoll implementation: the kernel's interest
    list is exactly what the registered channels ask for.  The thread check the
    members begin with only logs; it is made by their callers in LoopCore.v. *)
From S2P Require Import Prelude Endian OS Descriptors Objects.

Set Default Goal Selector "!".

(** ** The abstract class *)

Class Poller (K : Type) : Type := {
  poller_new : ptr → M (Reactor K) unit;
  poller_delete : ptr → M (Reactor K) unit;
  (** returns the time and the active channels appended to [activeChannels] *)
  poller_poll : ptr → Z → M (Reactor K) (Z * list ptr);
  poller_updateChannel : ptr → ptr → M (Reactor K) unit;
  poller_removeChannel : ptr → ptr → M (Reactor K) unit
}.

Definition isNoneEvent (ch : Channel) : bool := ch_events ch =? 0.

(** [Poller::hasChannel]: defined in the base class over [channels_]. *)
Definition hasChannel {K} (loop channel : ptr) : M (Reactor K) bool :=
  p ← get_poller loop;
  ch ← get_chan channel;
  mret (bool_decide (ep_channels p !! ch_fd ch = Some channel)).

(** ** EPollPoller *)

Module EPollPoller.

Definition kNew : Z := -1.
Definition kAdded : Z := 1.
Definition kDeleted : Z := 2.
Definition kInitEventListSize : Z := 16.

Section epoll.
Context {K : Type} `{!OS K}.

Definition ctor (loop : ptr) : M (Reactor K) unit :=
  r ← in_io (sys SysEpollCreate);
  when (ret r <? 0) (in_io (log_error "EPollPoller::EPollPoller"));;
  put_poller loop (mkEPollPoller ∅ (ret r) kInitEventListSize).

Definition dtor (loop : ptr) : M (Reactor K) unit :=
  p ← get_poller loop;
  _ ← in_io (sys (SysClose (ep_epollfd p)));
  modify (λ r, set_r_pollers (delete loop (r_pollers r)) r).

Definition operationToString (op : Z) : outcome string :=
  if op =? EPOLL_CTL_ADD then Ok "ADD"
  else if op =? EPOLL_CTL_DEL then Ok "DEL"
  else if op =? EPOLL_CTL_MOD then Ok "MOD"
  else Fault (AssertFailed "EPollPoller.cpp:140").

(** [channel->set_revents(revents); activeChannels->push_back(channel)] for
    each entry the kernel filled in. *)
Fixpoint fillActiveChannels (events : list (ptr * Z)) : M (Reactor K) (list ptr) :=
  match events with
  | [] => mret []
  | (channel, revents) :: events' =>
      ch ← get_chan channel;
      put_chan channel (set_ch_revents revents ch);;
      active ← fillActiveChannels events';
      mret (channel :: active)
  end.

Definition poll (loop : ptr) (timeoutMs : Z) : M (Reactor K) (Z * list ptr) :=
  p ← get_poller loop;
  r ← in_io (sys (SysEpollWait (ep_epollfd p) (i32 (ep_nevents p)) timeoutMs));
  now ← in_io (sys SysNow);
  active ←
    (if 0 <? ret r then
       active ← fillActiveChannels (take (Z.to_nat (ret r)) (ready r));
       when (ret r =? ep_nevents p)
         (put_poller loop (set_ep_nevents (ep_nevents p * 2) p));;
       mret active
     else if ret r =? 0 then mret []
     else in_io (log_error "EPollPoller::poll()");; mret []);
  mret (ret now, active).

Definition update (loop : ptr) (operation : Z) (channel : ptr) : M (Reactor K) unit :=
  p ← get_poller loop;
  ch ← get_chan channel;
  r ← in_io (sys (SysEpollCtl (ep_epollfd p) operation (ch_fd ch) (ch_events ch) channel));
  when (ret r <? 0) (in_io (log_error "epoll_ctl")).

Definition updateChannel (loop channel : ptr) : M (Reactor K) unit :=
  p ← get_poller loop;
  ch ← get_chan channel;
  let index := ch_index ch in
  let fd := ch_fd ch in
  if (index =? kNew) || (index =? kDeleted) then
    (if index =? kNew then
       assert_ "EPollPoller.cpp:68" (bool_decide (ep_channels p !! fd = None));;
       put_poller loop (set_ep_channels (<[fd := channel]> (ep_channels p)) p)
     else
       assert_ "EPollPoller.cpp:71" (bool_decide (is_Some (ep_channels p !! fd)));;
       assert_ "EPollPoller.cpp:72" (bool_decide (ep_channels p !! fd = Some channel)));;
    put_chan channel (set_ch_index kAdded ch);;
    update loop EPOLL_CTL_ADD channel
  else
    if isNoneEvent ch then
      update loop EPOLL_CTL_DEL channel;;
      put_chan channel (set_ch_index kDeleted ch)
    else update loop EPOLL_CTL_MOD channel.

Definition removeChannel (loop channel : ptr) : M (Reactor K) unit :=
  p ← get_poller loop;
  ch ← get_chan channel;
  let fd := ch_fd ch in
  assert_ "EPollPoller.cpp:91" (bool_decide (is_Some (ep_channels p !! fd)));;
  assert_ "EPollPoller.cpp:92" (bool_decide (ep_channels p !! fd = Some channel));;
  assert_ "EPollPoller.cpp:93" (isNoneEvent ch);;
  let index := ch_index ch in
  assert_ "EPollPoller.cpp:95" ((index =? kAdded) || (index =? kDeleted));;
  put_poller loop (set_ep_channels (delete fd (ep_channels p)) p);;
  when (index =? kAdded) (update loop EPOLL_CTL_DEL channel);;
  put_chan channel (set_ch_index kNew ch).
End epoll.

End EPollPoller.

(** [Poller::newDefaultPoller] makes an [EPollPoller]. *)
#[export] Instance newDefaultPoller {K} `{!OS K} : Poller K := {|
  poller_new := EPollPoller.ctor;
  poller_delete := EPollPoller.dtor;
  poller_poll := EPollPoller.poll;
  poller_updateChannel := EPollPoller.updateChannel;
  poller_removeChannel := EPollPoller.removeChannel
|}.

(** ** PollPoller: the repository's stub, whose methods do nothing *)

Module PollPoller.
Section poll.
Context {K : Type}.
Definition ctor (loop : ptr) : M (Reactor K) unit := put_poller loop (mkEPollPoller ∅ (-1) 0).
Definition dtor (loop : ptr) : M (Reactor K) unit :=
  modify (λ r, set_r_pollers (delete loop (r_pollers r)) r).
Definition poll (loop : ptr) (timeoutMs : Z) : M (Reactor K) (Z * list ptr) := mret (0, []).
Definition updateChannel (loop channel : ptr) : M (Reactor K) unit := mret tt.
Definition removeChannel (loop channel : ptr) : M (Reactor K) unit := mret tt.
End poll.
End PollPoller.

Definition PollPoller_poller {K} : Poller K := {|
  poller_new := PollPoller.ctor;
  poller_delete := PollPoller.dtor;
  poller_poll := PollPoller.poll;
  poller_updateChannel := PollPoller.updateChannel;
  poller_removeChannel := PollPoller.removeChannel
|}.

(** ** The interface the rest of the library is proved against *)

(** A step that only made [epoll_ctl] calls and logged: it wrote nothing to any
    socket. *)
Definition is_epoll_ctl (c : syscall) : bool :=
  match c with SysEpollCtl _ _ _ _ _ => true | _ => false end.

Definition quiet {K} (io io' : IO K) : Prop :=
  ∃ l, io_trace io' = io_trace io ++ l ∧ Forall (λ x, is_epoll_ctl x.1 = true) l.

#[export] Instance quiet_preorder {K} : PreOrder (@quiet K).
Proof.
  split.
  - intros io. exists []. by rewrite app_nil_r.
  - intros io1 io2 io3 (l1 & E1 & H1) (l2 & E2 & H2). exists (l1 ++ l2).
    rewrite E2, E1, <- app_assoc. split; [done|]. by apply Forall_app.
Qed.

(** The other channels' registrations survive a change to [ch] on loop [l]: those
    on other loops, and those of other descriptors. *)
Definition others_ok {K} (ok : Reactor K → ptr → ptr → Prop) (r r' : Reactor K) (l c : ptr)
    (ch : Channel) : Prop :=
  ∀ l0 c0 ch0, c0 ≠ c → ok r l0 c0 → r_chans r !! c0 = Some ch0 →
    l0 ≠ l ∨ ch_fd ch0 ≠ ch_fd ch → ok r' l0 c0.

Class PollerLaws (K : Type) `{!OS K} (P : Poller K) : Type := {
  (** the channel and the loop's poller agree on the channel's registration *)
  poller_ok : Reactor K → ptr → ptr → Prop;
  (** ... which is in a state in which [remove] may be called *)
  poller_attached : Channel → Prop;

  (** ... or in which it has not been registered, or no longer is *)
  poller_detached : Channel → Prop;

  poller_attached_index : ∀ ch ch',
    ch_index ch' = ch_index ch → poller_attached ch → poller_attached ch';
  poller_detached_index : ∀ ch ch',
    ch_index ch' = ch_index ch → poller_detached ch → poller_detached ch';

  (** only the descriptors and indices of channels matter ... *)
  poller_ok_chan : ∀ r l c c0 ch ch',
    r_chans r !! c = Some ch → ch_fd ch' = ch_fd ch → ch_index ch' = ch_index ch →
    poller_ok r l c0 → poller_ok (set_r_chans (<[c := ch']> (r_chans r)) r) l c0;

  (** ... and the poller's own state *)
  poller_ok_io : ∀ r l c io, poller_ok r l c → poller_ok (set_r_io io r) l c;

  (** ... of the channel itself *)
  poller_ok_delete : ∀ r l c c0, c0 ≠ c → poller_ok r l c0 →
    poller_ok (set_r_chans (delete c (r_chans r)) r) l c0;

  poller_updateChannel_ok : ∀ r l c ch,
    r_chans r !! c = Some ch → poller_ok r l c →
    wp (poller_updateChannel l c) (λ _ r', ∃ i,
      r_chans r' = <[c := set_ch_index i ch]> (r_chans r)
      ∧ poller_ok r' l c ∧ poller_attached (set_ch_index i ch)
      ∧ quiet (r_io r) (r_io r') ∧ others_ok poller_ok r r' l c ch) r;

  (** no channel is registered under the descriptor *)
  poller_free : Reactor K → ptr → Z → Prop;

  poller_removeChannel_ok : ∀ r l c ch,
    r_chans r !! c = Some ch → poller_ok r l c → isNoneEvent ch = true →
    poller_attached ch →
    wp (poller_removeChannel l c) (λ _ r', ∃ i,
      r_chans r' = <[c := set_ch_index i ch]> (r_chans r)
      ∧ poller_ok r' l c ∧ quiet (r_io r) (r_io r')
      ∧ others_ok poller_ok r r' l c ch ∧ poller_free r' l (ch_fd ch)
      ∧ poller_detached (set_ch_index i ch)) r;

  poller_detached_free : ∀ r l c ch,
    r_chans r !! c = Some ch → poller_ok r l c → poller_detached ch → poller_free r l (ch_fd ch);

  (** [channels_] has no channel for a free descriptor *)
  poller_free_hasChannel : ∀ r l c ch,
    r_chans r !! c = Some ch → poller_free r l (ch_fd ch) →
    wp (hasChannel l c) (λ b r', b = false ∧ r' = r) r;

  (** a new channel for a free descriptor agrees with the poller *)
  poller_free_frame : ∀ r r' l fd,
    r_pollers r' = r_pollers r → poller_free r l fd → poller_free r' l fd;
  poller_ok_new : ∀ r l c ch,
    r_chans r !! c = Some ch → ch_index ch = -1 → poller_free r l (ch_fd ch) → poller_ok r l c
}.

(** Its [channels_] stays empty. *)
Definition no_channels {K} (r : Reactor K) (l : ptr) : Prop :=
  ∃ p, r_pollers r !! l = Some p ∧ ep_channels p = ∅.

#[export] Instance PollPoller_laws {K} `{!OS K} : PollerLaws K PollPoller_poller.
Proof.
  assert (∀ (r : Reactor K) c ch, r_chans r !! c = Some ch →
    r_chans r = <[c := set_ch_index (ch_index ch) ch]> (r_chans r)) as Hid.
  { intros r c ch Hch. rewrite insert_id; [done|]. rewrite Hch. by destruct ch. }
  refine {| poller_ok := λ r l _, no_channels r l; poller_attached := λ _, True;
            poller_detached := λ _, True; poller_free := λ r l _, no_channels r l |}; try done.
  - intros r l c ch Hch Hok. apply wp_ret. exists (ch_index ch). split_and!; first [done|by apply Hid|by intros ?].
  - intros r l c ch Hch Hok _ _. apply wp_ret. exists (ch_index ch). split_and!; first [done|by apply Hid|by intros ?].
  - intros r l c ch Hch (p & Hp & Hnone). apply wp_bind. eapply wp_gets_some; [exact Hp|].
    apply wp_bind. eapply wp_gets_some; [exact Hch|]. apply wp_ret. by rewrite Hnone.
  - unfold no_channels. by intros r r' l fd ->.
Qed.

(** ** EPollPoller: proofs *)

Section epoll_proofs.
Context {K : Type} `{!OS K}.
Implicit Types r : Reactor K.
Import EPollPoller.

Lemma get_poller_wp l p (Q : EPollPoller → Reactor K → Prop) r :
  r_pollers r !! l = Some p → Q p r → wp (get_poller l) Q r.
Proof. intros H HQ. by eapply wp_gets_some. Qed.

Lemma get_chan_wp c ch (Q : Channel → Reactor K → Prop) r :
  r_chans r !! c = Some ch → Q ch r → wp (get_chan c) Q r.
Proof. intros H HQ. by eapply wp_gets_some. Qed.

Lemma in_io_wp {A} (m : M (IO K) A) (Q : A → Reactor K → Prop) r :
  wp m (λ a io, Q a (set_r_io io r)) (r_io r) → wp (in_io m) Q r.
Proof. intros H. by eapply wp_zoom. Qed.

(** [update] makes one [epoll_ctl] call, with the channel's current events. *)
Lemma update_wp l op c p ch (Q : unit → Reactor K → Prop) r :
  r_pollers r !! l = Some p → r_chans r !! c = Some ch →
  (∀ res k err log,
     os_call (SysEpollCtl (ep_epollfd p) op (ch_fd ch) (ch_events ch) c) (io_k (r_io r))
       = (res, k) →
     Q tt (set_r_io (mkIO k (io_trace (r_io r) ++
               [(SysEpollCtl (ep_epollfd p) op (ch_fd ch) (ch_events ch) c, res)])
               err log) r)) →
  wp (update l op c) Q r.
Proof.
  intros Hp Hch HQ. unfold update.
  apply wp_bind. eapply get_poller_wp; [done|].
  apply wp_bind. eapply get_chan_wp; [done|].
  apply wp_bind. apply in_io_wp, sys_wp. intros res k Hk.
  apply wp_when; intros _.
  - apply in_io_wp. unfold log_error. wp_steps. simpl. by eapply HQ.
  - by eapply HQ.
Qed.

Lemma quiet_epoll_ctl (io : IO K) k l ep op fd ev p res e log :
  l = io_trace io →
  quiet io (mkIO k (l ++ [(SysEpollCtl ep op fd ev p, res)]) e log).
Proof.
  intros ->. exists [(SysEpollCtl ep op fd ev p, res)]. split; [done|]. by constructor.
Qed.

(** *** The local contract *)

Definition registration (p : EPollPoller) (c : ptr) (ch : Channel) : Prop :=
  (ch_index ch = kNew ∧ ep_channels p !! ch_fd ch = None)
  ∨ ((ch_index ch = kAdded ∨ ch_index ch = kDeleted)
     ∧ ep_channels p !! ch_fd ch = Some c).

Definition epoll_ok r (l c : ptr) : Prop :=
  ∃ p ch, r_pollers r !! l = Some p ∧ r_chans r !! c = Some ch ∧ registration p c ch.

Definition epoll_attached (ch : Channel) : Prop :=
  ch_index ch = kAdded ∨ ch_index ch = kDeleted.

Lemma epoll_ok_intro r l c p ch :
  r_pollers r !! l = Some p → r_chans r !! c = Some ch → registration p c ch →
  epoll_ok r l c.
Proof. intros. by exists p, ch. Qed.

(** What [updateChannel] does, branch by branch: the index it leaves, the
    control operation it asks the kernel for. *)
Definition next_index (ch : Channel) : Z :=
  if (ch_index ch =? kNew) || (ch_index ch =? kDeleted) then kAdded
  else if isNoneEvent ch then kDeleted else kAdded.

Definition control (ch : Channel) : Z :=
  if (ch_index ch =? kNew) || (ch_index ch =? kDeleted) then EPOLL_CTL_ADD
  else if isNoneEvent ch then EPOLL_CTL_DEL else EPOLL_CTL_MOD.

Lemma set_ch_index_id (ch : Channel) : set_ch_index (ch_index ch) ch = ch.
Proof. by destruct ch. Qed.

Lemma updateChannel_wp l c p ch (Q : unit → Reactor K → Prop) r :
  r_pollers r !! l = Some p → r_chans r !! c = Some ch → registration p c ch →
  (∀ res k err log,
     os_call (SysEpollCtl (ep_epollfd p) (control ch) (ch_fd ch) (ch_events ch) c)
       (io_k (r_io r)) = (res, k) →
     Q tt (mkReactor
       (mkIO k (io_trace (r_io r) ++
          [(SysEpollCtl (ep_epollfd p) (control ch) (ch_fd ch) (ch_events ch) c, res)])
          err log)
       (<[c := set_ch_index (next_index ch) ch]> (r_chans r))
       (<[l := set_ep_channels (<[ch_fd ch := c]> (ep_channels p)) p]> (r_pollers r)))) →
  wp (updateChannel l c) Q r.
Proof.
  intros Hp Hch Hreg HQ. unfold updateChannel, control, next_index in *.
  apply wp_bind. eapply get_poller_wp; [done|].
  apply wp_bind. eapply get_chan_wp; [done|]. cbv zeta.
  assert (∀ m : gmap ptr EPollPoller, ep_channels p !! ch_fd ch = Some c →
            <[l := set_ep_channels (<[ch_fd ch := c]> (ep_channels p)) p]> m
            = <[l := p]> m) as Hsame.
  { intros m H. rewrite (insert_id (ep_channels p)) by done. by destruct p. }
  destruct Hreg as [[Hi Hnone]|[[Hi|Hi] Hsome]]; rewrite Hi in *; simpl in *.
  - apply wp_bind, wp_bind, wp_assert; [by apply bool_decide_eq_true|].
    unfold put_poller, put_chan. wp_steps.
    eapply update_wp; simpl; [by rewrite lookup_insert_eq|by rewrite lookup_insert_eq|].
    intros res k err log Hk. eapply HQ. exact Hk.
  - destruct (isNoneEvent ch).
    + apply wp_bind. eapply update_wp; [done..|].
      intros res k err log Hk. unfold put_chan. wp_steps.
      specialize (HQ res k err log Hk).
      by rewrite Hsame, (insert_id (r_pollers r)) in HQ.
    + eapply update_wp; [done..|]. intros res k err log Hk.
      specialize (HQ res k err log Hk).
      rewrite Hsame, (insert_id (r_pollers r)) in HQ by done.
      rewrite <- Hi, set_ch_index_id, insert_id in HQ by done. done.
  - apply wp_bind, wp_bind, wp_assert; [apply bool_decide_eq_true; by eexists|].
    apply wp_assert; [by apply bool_decide_eq_true|].
    unfold put_chan. wp_steps.
    eapply update_wp; simpl; [done|by rewrite lookup_insert_eq|].
    intros res k err log Hk. specialize (HQ res k err log Hk).
    by rewrite Hsame, (insert_id (r_pollers r)) in HQ.
Qed.

Lemma next_index_attached ch : epoll_attached (set_ch_index (next_index ch) ch).
Proof.
  unfold epoll_attached, next_index. simpl.
  destruct (_ || _); [by left|]. destruct (isNoneEvent ch); [by right|by left].
Qed.

Lemma removeChannel_wp l c p ch (Q : unit → Reactor K → Prop) r :
  r_pollers r !! l = Some p → r_chans r !! c = Some ch →
  ep_channels p !! ch_fd ch = Some c → epoll_attached ch → isNoneEvent ch = true →
  (∀ io, (if ch_index ch =? kAdded
          then ∃ res k err log,
            os_call (SysEpollCtl (ep_epollfd p) EPOLL_CTL_DEL (ch_fd ch) (ch_events ch) c)
              (io_k (r_io r)) = (res, k)
            ∧ io = mkIO k (io_trace (r_io r) ++
                [(SysEpollCtl (ep_epollfd p) EPOLL_CTL_DEL (ch_fd ch) (ch_events ch) c, res)])
                err log
          else io = r_io r) →
     Q tt (mkReactor io (<[c := set_ch_index kNew ch]> (r_chans r))
             (<[l := set_ep_channels (delete (ch_fd ch) (ep_channels p)) p]> (r_pollers r)))) →
  wp (removeChannel l c) Q r.
Proof.
  intros Hp Hch Hsome Hatt Hnone HQ. unfold removeChannel.
  apply wp_bind. eapply get_poller_wp; [done|].
  apply wp_bind. eapply get_chan_wp; [done|]. cbv zeta.
  apply wp_bind, wp_assert; [apply bool_decide_eq_true; by eexists|].
  apply wp_bind, wp_assert; [by apply bool_decide_eq_true|].
  apply wp_bind, wp_assert; [done|].
  apply wp_bind, wp_assert; [destruct Hatt as [-> | ->]; done|].
  unfold put_poller, put_chan. wp_steps.
  apply wp_when; intros Hi; rewrite Hi in HQ.
  - eapply update_wp; simpl; [by rewrite lookup_insert_eq|done|].
    intros res k err log Hk. simpl. eapply HQ. by exists res, k, err, log.
  - wp_steps. by apply HQ.
Qed.

(** A change of the [channels_] entry of [ch]'s descriptor does not concern the
    other channels. *)
Lemma epoll_others_ok r io l c i p ch m :
  r_pollers r !! l = Some p → r_chans r !! c = Some ch →
  (∀ fd, fd ≠ ch_fd ch → m !! fd = ep_channels p !! fd) →
  others_ok epoll_ok r
    (mkReactor io (<[c := set_ch_index i ch]> (r_chans r))
       (<[l := set_ep_channels m p]> (r_pollers r))) l c ch.
Proof.
  intros Hp Hch Hm l0 c0 ch0 Hcc (p0 & ch1 & Hp0 & Hch1 & Hreg) Hch0 Hne.
  assert (ch1 = ch0) as -> by congruence.
  destruct (decide (l0 = l)) as [->|Hll].
  - destruct Hne as [Hne|Hne]; [done|]. assert (p0 = p) as -> by congruence.
    exists (set_ep_channels m p), ch0. simpl.
    rewrite lookup_insert_eq, lookup_insert_ne by done. split_and!; [done..|].
    unfold registration in *. simpl. by rewrite Hm.
  - exists p0, ch0. simpl. by rewrite !lookup_insert_ne by done.
Qed.

#[export] Instance epoll_laws : PollerLaws K newDefaultPoller.
Proof.
  refine {| poller_ok := epoll_ok; poller_attached := epoll_attached;
    poller_detached := λ ch, ch_index ch = kNew;
    poller_free := λ r l fd, ∃ p, r_pollers r !! l = Some p ∧ ep_channels p !! fd = None |}.
  - unfold epoll_attached. by intros ch ch' ->.
  - by intros ch ch' ->.
  - intros r l c c0 ch ch' Hch Hfd Hidx (p & ch0 & Hp & Hch0 & Hreg).
    destruct (decide (c0 = c)) as [->|Hne].
    + assert (ch0 = ch) as -> by congruence. eapply (epoll_ok_intro _ _ _ p ch'); simpl; [done|by rewrite lookup_insert_eq|].
      unfold registration in *. by rewrite Hfd, Hidx.
    + eapply (epoll_ok_intro _ _ _ p ch0); simpl; [done|by rewrite lookup_insert_ne|done].
  - by intros r l c io H.
  - intros r l c c0 Hne (p & ch & Hp & Hch & Hreg). eapply (epoll_ok_intro _ _ _ p ch); [done| |done].
    simpl. by rewrite lookup_delete_ne.
  - intros r l c ch Hch (p & ch0 & Hp & Hch0 & Hreg). assert (ch0 = ch) as -> by congruence.
    eapply updateChannel_wp; [done..|]. intros res k err log Hk.
    exists (next_index ch). split_and!; [done| | |by apply quiet_epoll_ctl|].
    + eapply epoll_ok_intro; simpl; [by rewrite lookup_insert_eq..|].
      right. simpl. rewrite lookup_insert_eq. split; [apply next_index_attached|done].
    + apply next_index_attached.
    + apply epoll_others_ok; [done..|]. intros fd Hfd. by rewrite lookup_insert_ne.
  - intros r l c ch Hch (p & ch0 & Hp & Hch0 & Hreg) Hnone Hatt. assert (ch0 = ch) as -> by congruence.
    eapply removeChannel_wp; [done..| |done|done|].
    { destruct Hreg as [[Hi _]|[_ Hsome]]; [|done].
      destruct Hatt as [H|H]; rewrite H in Hi; done. }
    intros io Hio. exists kNew. split_and!; [done| | | | |done].
    + eapply epoll_ok_intro; simpl; [by rewrite lookup_insert_eq..|].
      left. simpl. by rewrite lookup_delete_eq.
    + destruct (ch_index ch =? kAdded); [|by subst].
      destruct Hio as (res & k & err & log & _ & ->). by apply quiet_epoll_ctl.
    + apply epoll_others_ok; [done..|]. intros fd Hfd. by rewrite lookup_delete_ne.
    + eexists. simpl. rewrite lookup_insert_eq. split; [done|]. simpl. by rewrite lookup_delete_eq.
  - intros r l c ch Hch (p & ch0 & Hp & Hch0 & Hreg) Hnew. assert (ch0 = ch) as -> by congruence.
    exists p. split; [done|]. destruct Hreg as [[_ Hnone]|[[Hi|Hi] _]]; [done|..];
      rewrite Hnew in Hi; done.
  - intros r l c ch Hch (p & Hp & Hnone). apply wp_bind. eapply get_poller_wp; [done|].
    apply wp_bind. eapply get_chan_wp; [done|]. apply wp_ret. by rewrite Hnone.
  - by intros r r' l fd ->.
  - intros r l c ch Hch Hi (p & Hp & Hfree). eapply epoll_ok_intro; [done..|]. by left.
Defined.
End epoll_proofs.

(** ** The epoll invariant *)

Section synced.
Context {K : Type} `{!OS K} `{!EpollLaws K}.
Implicit Types r : Reactor K.
Import EPollPoller.

Definition kernel_list r (p : EPollPoller) : gmap Z (Z * ptr) :=
  interest (io_k (r_io r)) (ep_epollfd p).

(** A registered channel and the kernel: with index [kAdded] the kernel watches
    its descriptor for its events and hands back its pointer, with [kDeleted]
    the kernel does not know the descriptor and the channel wants nothing.
    While an update of the channel is under way ([dirty]) its events may
    differ from what the kernel was told. *)
Definition watched (kl : gmap Z (Z * ptr)) (dirty : bool) (c : ptr) (ch : Channel) : Prop :=
  (ch_index ch = kAdded ∧ is_Some (kl !! ch_fd ch)
   ∧ (dirty = false → kl !! ch_fd ch = Some (ch_events ch, c)))
  ∨ (ch_index ch = kDeleted ∧ kl !! ch_fd ch = None
     ∧ (dirty = false → ch_events ch = 0)).

Record synced_with (l : ptr) (dirty : option ptr) (p : EPollPoller) r : Prop := {
  sy_poller : r_pollers r !! l = Some p;
  sy_registered : ∀ fd c, ep_channels p !! fd = Some c →
    ∃ ch, r_chans r !! c = Some ch ∧ ch_fd ch = fd ∧ ch_loop ch = l
          ∧ watched (kernel_list r p) (bool_decide (dirty = Some c)) c ch;
  sy_unknown : ∀ fd, ep_channels p !! fd = None → kernel_list r p !! fd = None;
  sy_new : ∀ c ch, r_chans r !! c = Some ch → ch_loop ch = l →
    ep_channels p !! ch_fd ch ≠ Some c → ch_index ch = kNew
}.

Definition synced (l : ptr) (dirty : option ptr) r : Prop := ∃ p, synced_with l dirty p r.

Lemma synced_registration l d p r c ch :
  synced_with l d p r → r_chans r !! c = Some ch → ch_loop ch = l →
  ep_channels p !! ch_fd ch = None ∨ ep_channels p !! ch_fd ch = Some c →
  registration p c ch.
Proof.
  intros Hs Hch Hl [Hn|Hsome].
  - left. split; [|done]. eapply sy_new; eauto. by rewrite Hn.
  - right. split; [|done]. destruct (sy_registered _ _ _ _ Hs _ _ Hsome) as (ch' & ? & _ & _ & Hw).
    simplify_eq. destruct Hw as [(?&_)|(?&_)]; auto.
Qed.

(** What the kernel's list is after [updateChannel]'s control call. *)
Definition list_after (ch : Channel) (c : ptr) (kl : gmap Z (Z * ptr)) : gmap Z (Z * ptr) :=
  if next_index ch =? kDeleted then delete (ch_fd ch) kl
  else <[ch_fd ch := (ch_events ch, c)]> kl.

Lemma control_effect (p : EPollPoller) r c ch res k :
  os_call (SysEpollCtl (ep_epollfd p) (control ch) (ch_fd ch) (ch_events ch) c) (io_k (r_io r)) = (res, k) →
  ret res = 0 → interest k (ep_epollfd p) = list_after ch c (kernel_list r p).
Proof.
  intros Hk Hret.
  pose proof (epoll_ctl_done (io_k (r_io r)) (ep_epollfd p) (control ch) (ch_fd ch) (ch_events ch) c) as Hd.
  rewrite Hk in Hd. cbv zeta in Hd. simpl in Hd. rewrite (Hd Hret). unfold ctl_effect, list_after, control, next_index, kernel_list.
  destruct (_ || _); [done|]. by destruct (isNoneEvent ch).
Qed.

Lemma list_after_other ch c kl fd :
  fd ≠ ch_fd ch → list_after ch c kl !! fd = kl !! fd.
Proof.
  intros Hne. unfold list_after.
  destruct (_ =? _); [by rewrite lookup_delete_ne|by rewrite lookup_insert_ne].
Qed.

Lemma list_after_watched ch c kl d :
  watched (list_after ch c kl) d c (set_ch_index (next_index ch) ch).
Proof.
  unfold watched, list_after, next_index. simpl.
  destruct (_ || _); simpl.
  { left. rewrite lookup_insert_eq. split_and!; [done|by eexists|done]. }
  destruct (isNoneEvent ch) eqn:E; simpl.
  - right. rewrite lookup_delete_eq. split_and!; [done..|]. intros _.
    unfold isNoneEvent in E. lia.
  - left. rewrite lookup_insert_eq. split_and!; [done|by eexists|done].
Qed.

(** A call of [updateChannel] that succeeds brings the kernel in step with the
    channel's events. *)
Lemma synced_told l r c ch p res k err log :
  synced_with l (Some c) p r → r_chans r !! c = Some ch → ch_loop ch = l →
  ep_channels p !! ch_fd ch = None ∨ ep_channels p !! ch_fd ch = Some c →
  os_call (SysEpollCtl (ep_epollfd p) (control ch) (ch_fd ch) (ch_events ch) c) (io_k (r_io r)) = (res, k) →
  ret res = 0 →
  synced_with l None (set_ep_channels (<[ch_fd ch := c]> (ep_channels p)) p)
    (mkReactor
       (mkIO k (io_trace (r_io r) ++
          [(SysEpollCtl (ep_epollfd p) (control ch) (ch_fd ch) (ch_events ch) c, res)]) err log)
       (<[c := set_ch_index (next_index ch) ch]> (r_chans r))
       (<[l := set_ep_channels (<[ch_fd ch := c]> (ep_channels p)) p]> (r_pollers r))).
Proof.
  intros Hs Hch Hl Hfree Hk Hret. pose proof (control_effect _ _ _ _ _ _ Hk Hret) as Hkl.
  split; simpl.
  - by rewrite lookup_insert_eq.
  - intros fd c'. unfold kernel_list. simpl. rewrite Hkl.
    destruct (decide (fd = ch_fd ch)) as [->|Hne].
    + rewrite lookup_insert_eq. intros [= <-]. eexists. rewrite lookup_insert_eq.
      split_and!; [done..|]. apply list_after_watched.
    + rewrite lookup_insert_ne by done. intros Hc'.
      destruct (sy_registered _ _ _ _ Hs _ _ Hc') as (ch' & Hch' & Hfd & Hl' & Hw).
      assert (c' ≠ c) as Hcc by (intros ->; simplify_eq).
      exists ch'. rewrite lookup_insert_ne by done. split_and!; [done..|].
      rewrite bool_decide_false in Hw by congruence.
      unfold watched in *. rewrite list_after_other by congruence. done.
  - intros fd. unfold kernel_list. simpl. rewrite Hkl.
    destruct (decide (fd = ch_fd ch)) as [->|Hne]; [by rewrite lookup_insert_eq|].
    rewrite lookup_insert_ne, list_after_other by done. by eapply sy_unknown.
  - intros c' ch'. destruct (decide (c' = c)) as [->|Hne].
    + rewrite lookup_insert_eq. intros [= <-]. simpl. by rewrite lookup_insert_eq.
    + rewrite lookup_insert_ne by done. intros Hch' Hl' Hnot.
      eapply sy_new; eauto. intros Hc'. apply Hnot.
      rewrite lookup_insert_ne; [done|]. intros E.
      rewrite <- E in Hc'. destruct Hfree as [H|H]; congruence.
Qed.

Context `{!FdLaws K} `{!EpollRoom K}.

(** What an ADD needs: both descriptors are open. *)
Definition can_watch (p : EPollPoller) (fd : Z) (k : K) : Prop :=
  ep_epollfd p ∈ open_fds k ∧ fd ∈ open_fds k.

(** A kernel with room grants it. *)
Lemma control_room l d p r c ch :
  synced_with l d p r → r_chans r !! c = Some ch → registration p c ch →
  ch_index ch = kAdded ∨ can_watch p (ch_fd ch) (io_k (r_io r)) →
  ret (os_call (SysEpollCtl (ep_epollfd p) (control ch) (ch_fd ch) (ch_events ch) c) (io_k (r_io r))).1 = 0.
Proof.
  intros Hs Hch Hreg Hopen. unfold control.
  assert (interest (io_k (r_io r)) (ep_epollfd p) !! ch_fd ch = None
          ∧ (ch_index ch = kNew ∨ ch_index ch = kDeleted)
          ∨ is_Some (interest (io_k (r_io r)) (ep_epollfd p) !! ch_fd ch)
            ∧ ch_index ch = kAdded) as [[Hn Hi]|[Hsome Hi]].
  { destruct Hreg as [[Hi Hn]|[Hi Hc]].
    - left. split; [|by left]. by eapply sy_unknown.
    - destruct (sy_registered _ _ _ _ Hs _ _ Hc) as (ch' & ? & Hfd & _ & Hw). simplify_eq.
      destruct Hw as [(Hi' & ? & _)|(Hi' & ? & _)]; [by right|left; auto]. }
  - destruct Hopen as [E|[? ?]]; [rewrite E in Hi; by destruct Hi|].
    destruct Hi as [Hi|Hi]; rewrite Hi; simpl; by apply epoll_add_room.
  - rewrite Hi. simpl. destruct (isNoneEvent ch); [by apply epoll_del_room|by apply epoll_mod_room].
Qed.

(** [removeChannel] takes it off both lists. *)
Lemma removeChannel_synced l r c ch p :
  synced_with l None p r → r_chans r !! c = Some ch → ch_loop ch = l →
  ep_channels p !! ch_fd ch = Some c → isNoneEvent ch = true →
  wp (removeChannel l c) (λ _ r',
    synced_with l None (set_ep_channels (delete (ch_fd ch) (ep_channels p)) p) r'
    ∧ r_chans r' = <[c := set_ch_index kNew ch]> (r_chans r)
    ∧ kernel_list r' p !! ch_fd ch = None) r.
Proof.
  intros Hs Hch Hl Hc Hnone.
  destruct (sy_registered _ _ _ _ Hs _ _ Hc) as (ch0 & ? & _ & _ & Hw). simplify_eq.
  eapply removeChannel_wp; [by eapply sy_poller|done..| |done|].
  { destruct Hw as [(?&_)|(?&_)]; [by left|by right]. }
  intros io Hio. simpl.
  assert (interest (io_k io) (ep_epollfd p)
          = delete (ch_fd ch) (kernel_list r p)) as Hkl.
  { destruct Hw as [(Hi & Hsome & _)|(Hi & Hn & _)]; rewrite Hi in Hio; simpl in Hio.
    - destruct Hio as (res & k & err & log & Hk & ->). simpl.
      pose proof (epoll_del_room _ _ _ (ch_events ch) c Hsome) as Hret.
      pose proof (epoll_ctl_done _ _ _ _ _ _ Hret) as E2. unfold kernel_list in E2. by rewrite Hk in E2.
    - subst. by rewrite delete_id. }
  assert (kernel_list (mkReactor io (<[c := set_ch_index kNew ch]> (r_chans r))
    (<[ch_loop ch := set_ep_channels (delete (ch_fd ch) (ep_channels p)) p]> (r_pollers r))) p
    = delete (ch_fd ch) (kernel_list r p)) as Hkl' by exact Hkl.
  split_and!; [|done|by rewrite Hkl', lookup_delete_eq].
  split; simpl.
  - by rewrite lookup_insert_eq.
  - intros fd c' Hc'. destruct (decide (fd = ch_fd ch)) as [->|Hne].
    { by rewrite lookup_delete_eq in Hc'. }
    rewrite lookup_delete_ne in Hc' by done.
    destruct (sy_registered _ _ _ _ Hs _ _ Hc') as (ch' & Hch' & Hfd & Hl' & Hw').
    assert (c' ≠ c) as Hcc by (intros ->; simplify_eq).
    exists ch'. rewrite lookup_insert_ne by done. split_and!; [done..|].
    unfold watched, kernel_list in *. simpl. rewrite Hkl, lookup_delete_ne by congruence.
    done.
  - intros fd Hfd. simpl in Hfd. unfold kernel_list. simpl. rewrite Hkl.
    destruct (decide (fd = ch_fd ch)) as [->|Hne]; [by rewrite lookup_delete_eq|].
    rewrite lookup_delete_ne in Hfd by done. rewrite lookup_delete_ne by done. by eapply sy_unknown.
  - intros c' ch'. destruct (decide (c' = c)) as [->|Hne].
    + rewrite lookup_insert_eq. by intros [= <-].
    + rewrite lookup_insert_ne by done. intros Hch' Hl' Hnot.
      eapply sy_new; eauto. intros Hc'. apply Hnot.
      rewrite lookup_delete_ne; [done|]. congruence.
Qed.
End synced.

(** ** poll *)

Section poll_proofs.
Context {K : Type} `{!OS K} `{!OSLaws K} `{!EpollLaws K}.
Implicit Types r : Reactor K.
Import EPollPoller.

(** The channels after the kernel's report: each entry's [revents]. *)
Definition reported (events : list (ptr * Z)) (chans : gmap ptr Channel) : gmap ptr Channel :=
  foldl (λ m ce, alter (set_ch_revents ce.2) ce.1 m) chans events.

(** The events the kernel's report has for a channel: the last entry counts. *)
Definition last_report (c : ptr) (events : list (ptr * Z)) : option Z :=
  last (filter (λ ce, ce.1 = c) events).*2.

Lemma last_cons_default {A} (x d : A) l : default d (last (x :: l)) = default x (last l).
Proof. rewrite last_cons. by destruct (last l). Qed.

Lemma reported_lookup events : ∀ chans c ch,
  chans !! c = Some ch →
  reported events chans !! c
    = Some (set_ch_revents (default (ch_revents ch) (last_report c events)) ch).
Proof.
  unfold last_report.
  induction events as [|[c0 e0] events IH]; intros chans c ch Hc; simpl.
  { rewrite Hc. by destruct ch. }
  destruct (decide (c0 = c)) as [->|Hne].
  - rewrite filter_cons_True, fmap_cons, last_cons_default by done.
    rewrite (IH _ c (set_ch_revents e0 ch)); [done|]. by rewrite lookup_alter_eq, Hc.
  - rewrite filter_cons_False by done. apply IH. by rewrite lookup_alter_ne.
Qed.

Lemma alter_insert_some (c : ptr) (ch : Channel) (f : Channel → Channel)
    (m : gmap ptr Channel) :
  m !! c = Some ch → alter f c m = <[c := f ch]> m.
Proof.
  intros Hch. apply map_eq. intros c'. destruct (decide (c' = c)) as [->|Hne].
  - by rewrite lookup_insert_eq, lookup_alter_eq, Hch.
  - by rewrite lookup_insert_ne, lookup_alter_ne.
Qed.

Lemma fillActiveChannels_wp events r :
  Forall (λ ce, is_Some (r_chans r !! ce.1)) events →
  wp (fillActiveChannels events) (λ active r',
    active = events.*1 ∧ r' = set_r_chans (reported events (r_chans r)) r) r.
Proof.
  revert r. induction events as [|[c e] events IH]; intros r Hall; simpl.
  { wp_steps. split; [done|]. by destruct r. }
  apply Forall_cons in Hall as [[ch Hch] Hall]. simpl in Hch.
  apply wp_bind. eapply get_chan_wp; [done|]. unfold put_chan. wp_steps.
  eapply wp_mono; [apply IH|].
  - simpl. eapply Forall_impl; [exact Hall|]. intros [c' e'] H'. simpl in *.
    destruct (decide (c' = c)) as [->|]; [rewrite lookup_insert_eq; by eexists|].
    by rewrite lookup_insert_ne.
  - intros active r' [-> ->]. wp_steps. split; [done|]. unfold set_r_chans. simpl.
    rewrite <- (alter_insert_some c ch) by done. done.
Qed.

(** The reactor after [epoll_wait] and the clock reading. *)
Lemma poll_wp l t p r (Q : Z * list ptr → Reactor K → Prop) :
  r_pollers r !! l = Some p →
  0 < ep_nevents p < 2 ^ 31 →
  (let w := os_call (SysEpollWait (ep_epollfd p) (ep_nevents p) t) (io_k (r_io r)) in
   let n := os_call SysNow w.2 in
   Forall (λ ce, is_Some (r_chans r !! ce.1)) (ready w.1)
   ∧ ∀ err log,
     let io := mkIO n.2 (io_trace (r_io r) ++
                 [(SysEpollWait (ep_epollfd p) (ep_nevents p) t, w.1); (SysNow, n.1)])
                 err log in
     if 0 <? ret w.1
     then Q (ret n.1, (ready w.1).*1)
            (mkReactor io (reported (ready w.1) (r_chans r))
               (if ret w.1 =? ep_nevents p
                then <[l := set_ep_nevents (ep_nevents p * 2) p]> (r_pollers r)
                else r_pollers r))
     else Q (ret n.1, []) (mkReactor io (r_chans r) (r_pollers r))) →
  wp (poll l t) Q r.
Proof.
  intros Hp Hn HQ. unfold poll.
  apply wp_bind. eapply get_poller_wp; [done|].
  rewrite to_signed_small by (simpl; lia).
  pose proof (epoll_wait_bound (ep_epollfd p) (ep_nevents p) t (io_k (r_io r))) as Hb.
  apply wp_bind, in_io_wp, sys_wp. intros w k Hw. rewrite Hw in *. simpl in HQ, Hb |- *.
  apply wp_bind, in_io_wp, sys_wp. intros n k' Hnow. simpl in Hnow.
  rewrite Hnow in HQ. simpl in HQ. destruct HQ as [Hall HQ]. cbn beta.
  destruct (Z.ltb_spec 0 (ret w)).
  - destruct Hb as [Hb|[Hb Hle]]; [lia|].
    rewrite take_ge by lia.
    apply wp_bind, wp_bind. eapply wp_mono; [by apply fillActiveChannels_wp|].
    intros active r' [-> ->]. apply wp_bind. simpl.
    apply wp_when; intros E; unfold put_poller; wp_steps; rewrite E in HQ; simpl;
      rewrite <- app_assoc; apply HQ.
  - apply wp_bind. destruct (ret w =? 0); wp_steps.
    + unfold set_r_io. simpl. rewrite <- app_assoc. apply HQ.
    + apply in_io_wp. unfold log_error. wp_steps. unfold set_r_io. simpl.
      rewrite <- app_assoc. apply HQ.
Qed.

Lemma synced_reported l p r io events pollers p' :
  synced_with l None p r →
  interest (io_k io) (ep_epollfd p) = kernel_list r p →
  pollers !! l = Some p' → ep_channels p' = ep_channels p → ep_epollfd p' = ep_epollfd p →
  synced_with l None p' (mkReactor io (reported events (r_chans r)) pollers).
Proof.
  intros [Hp Hreg Hunk Hnew] Hk Hp' Hch Hfd.
  assert (kernel_list (mkReactor io (reported events (r_chans r)) pollers) p'
          = kernel_list r p) as Hkl by (unfold kernel_list; simpl; by rewrite Hfd).
  split; simpl.
  - done.
  - intros fd c Hc. rewrite Hch in Hc. destruct (Hreg fd c Hc) as (ch & Hl & H1 & H2 & Hw).
    pose proof (reported_lookup events _ _ _ Hl) as He. eexists. rewrite Hkl. split; [exact He|done].
  - intros fd. rewrite Hch, Hkl. apply Hunk.
  - intros c ch Hc Hl Hnot. rewrite Hch in Hnot.
    destruct (r_chans r !! c) as [ch0|] eqn:E.
    + pose proof (reported_lookup events _ _ _ E). simplify_eq.
      by eapply (Hnew c ch0).
    + exfalso. revert Hc. clear - E. revert E. generalize (r_chans r) as m.
      induction events as [|[c0 e0] events IH]; intros m Hm; simpl; [by rewrite Hm|].
      apply IH. rewrite lookup_alter. case_decide; simplify_eq; by rewrite Hm.
Qed.
End poll_proofs.

Section dirty.
Context {K : Type} `{!OS K} `{!EpollLaws K}.

(** A channel member other than the descriptor and the index may change: the
    poller is out of step with that channel at most. *)
Lemma synced_touch l p (r : Reactor K) c ch ch' d :
  synced_with l d p r → (d = None ∨ d = Some c) → r_chans r !! c = Some ch →
  ch_fd ch' = ch_fd ch → ch_loop ch' = ch_loop ch → ch_index ch' = ch_index ch →
  synced_with l (Some c) p (set_r_chans (<[c := ch']> (r_chans r)) r).
Proof.
  intros [Hp Hreg Hunk Hnew] Hd Hch Hfd Hl Hidx. split; simpl.
  - done.
  - intros fd c' Hc'. destruct (Hreg fd c' Hc') as (ch0 & Hl0 & H1 & H2 & Hw).
    destruct (decide (c' = c)) as [->|Hne].
    + simplify_eq. exists ch'. rewrite lookup_insert_eq. split_and!; try congruence.
      rewrite bool_decide_true by done. unfold watched, kernel_list in *. simpl in *.
      rewrite Hfd, Hidx. destruct Hw as [(?&?&?)|(?&?&?)]; [left|right]; done.
    + exists ch0. rewrite lookup_insert_ne by done. split_and!; [done..|].
      rewrite bool_decide_false in Hw |- * by (destruct Hd; congruence). done.
  - done.
  - intros c' ch0 Hc' Hl0 Hnot. destruct (decide (c' = c)) as [->|Hne].
    + rewrite lookup_insert_eq in Hc'. simplify_eq. rewrite Hidx.
      eapply Hnew; eauto; congruence.
    + rewrite lookup_insert_ne in Hc' by done. eauto.
Qed.

(** The same for members the poller does not look at: nothing is out of step. *)
Lemma synced_touch_events l p (r : Reactor K) c ch ch' :
  synced_with l None p r → r_chans r !! c = Some ch →
  ch_fd ch' = ch_fd ch → ch_loop ch' = ch_loop ch → ch_index ch' = ch_index ch →
  ch_events ch' = ch_events ch →
  synced_with l None p (set_r_chans (<[c := ch']> (r_chans r)) r).
Proof.
  intros [Hp Hreg Hunk Hnew] Hch Hfd Hl Hidx Hev. split; simpl.
  - done.
  - intros fd c' Hc'. destruct (Hreg fd c' Hc') as (ch0 & Hl0 & H1 & H2 & Hw).
    destruct (decide (c' = c)) as [->|Hne].
    + simplify_eq. exists ch'. rewrite lookup_insert_eq. split_and!; try congruence.
      unfold watched, kernel_list in *. simpl in *. by rewrite Hfd, Hidx, Hev.
    + exists ch0. by rewrite lookup_insert_ne by done.
  - done.
  - intros c' ch0 Hc' Hl0 Hnot. destruct (decide (c' = c)) as [->|Hne].
    + rewrite lookup_insert_eq in Hc'. simplify_eq. rewrite Hidx.
      eapply Hnew; eauto; congruence.
    + rewrite lookup_insert_ne in Hc' by done. eauto.
Qed.
End dirty.

(** ** Properties *)

Section properties.
Context {K : Type} `{!OS K} `{!OSLaws K} `{!EpollLaws K}.
Implicit Types r : Reactor K.

(** C12: [EPollPoller::poll] returns the time and one active channel per entry
    the kernel reported, in the kernel's order; the [revents] of every channel with
    an entry is the event mask of its (last) entry, that of every other channel and
    all other members are as before, and so is everything after a timeout or an
    error, when nothing is active.  The active channels are live channels of this
    loop, the interest list still matches, and the event array doubles exactly when
    it was filled. *)
Theorem EPollPoller_poll_reports (l : ptr) (t : Z) (p : EPollPoller) r
    (Hs : synced_with l None p r) (Hn : 0 < ep_nevents p < 2 ^ 31) :
  let res := (os_call (SysEpollWait (ep_epollfd p) (ep_nevents p) t) (io_k (r_io r))).1 in
  let events := if 0 <? ret res then ready res else [] in
  ∃ now active r', EPollPoller.poll l t r = Ok ((now, active), r')
    ∧ active = events.*1
    ∧ (∀ c ch, r_chans r !! c = Some ch →
         r_chans r' !! c
         = Some (set_ch_revents (default (ch_revents ch) (last (filter (λ ce, ce.1 = c) events).*2)) ch))
    ∧ (∀ c, c ∈ active → ∃ ch, r_chans r' !! c = Some ch ∧ ch_loop ch = l)
    ∧ synced_with l None
        (if ret res =? ep_nevents p then set_ep_nevents (ep_nevents p * 2) p else p) r'.
Proof.
  cbv zeta.
  set (w := os_call (SysEpollWait (ep_epollfd p) (ep_nevents p) t) (io_k (r_io r))).
  assert (∀ ce, ce ∈ ready w.1 → ∃ ch, r_chans r !! ce.1 = Some ch ∧ ch_loop ch = l)
    as Hlive.
  { intros [c e] (fd & ev & Hin)%epoll_wait_registered.
    destruct (ep_channels p !! fd) as [c'|] eqn:Hc'.
    2:{ apply (sy_unknown _ _ _ _ Hs) in Hc'. unfold kernel_list in Hc'. congruence. }
    destruct (sy_registered _ _ _ _ Hs _ _ Hc') as (ch & Hch & Hfd & Hl & Hw).
    unfold watched, kernel_list in Hw. rewrite Hfd in Hw.
    destruct Hw as [(_ & _ & Hw)|(_ & Hw & _)]; [|congruence].
    specialize (Hw eq_refl). simplify_eq. eauto. }
  pose proof (Hp := sy_poller _ _ _ _ Hs).
  set (events := if 0 <? ret w.1 then ready w.1 else []).
  cut (wp (EPollPoller.poll l t) (λ a r',
    a.2 = events.*1
    ∧ r_chans r' = reported events (r_chans r)
    ∧ synced_with l None
        (if ret w.1 =? ep_nevents p then set_ep_nevents (ep_nevents p * 2) p else p) r') r).
  { intros H. destruct (proj1 (wp_run _ _ _) H) as ([now active] & r' & Hrun & Ha & Hch & Hs').
    simpl in Ha. exists now, active, r'. split_and!; try done.
    - intros c ch Hc. rewrite Hch. by apply reported_lookup.
    - intros c Hc. rewrite Ha in Hc. unfold events in Hc.
      destruct (0 <? ret w.1); [|by apply elem_of_nil in Hc].
      apply list_elem_of_fmap in Hc as (ce & -> & Hin). destruct (Hlive _ Hin) as (ch & Hc0 & Hl).
      eexists. rewrite Hch. split; [by apply reported_lookup|done]. }
  eapply poll_wp; [done..|]. fold w. cbv zeta. split.
  { apply Forall_forall. intros ce Hce. destruct (Hlive _ Hce) as (ch & -> & _). by eexists. }
  intros err log.
  assert (interest (os_call SysNow w.2).2 (ep_epollfd p) = kernel_list r p) as Hk.
  { rewrite interest_frame by done. unfold w. by rewrite interest_frame. }
  subst events. destruct (0 <? ret w.1) eqn:E; simpl; split_and!; try done.
  - destruct (ret w.1 =? ep_nevents p).
    + eapply synced_reported; simpl; try done. by rewrite lookup_insert_eq.
    + by eapply synced_reported.
  - destruct (Z.eqb_spec (ret w.1) (ep_nevents p)); [lia|].
    change (r_chans r) with (reported [] (r_chans r)). by eapply synced_reported.
Qed.
End properties.

(** *** A concrete reactor: loop 0 with channel 1 on descriptor 5, watched for
    reading by epoll instance 3; the kernel will report it readable. *)

Definition sample_chan : Channel :=
  mkChannel 0%nat 5 3 0 EPollPoller.kAdded true None false false true None None None None.

Definition sample_poller : EPollPoller := mkEPollPoller {[5 := 1%nat]} 3 16.

Definition sample_reactor : Reactor sim :=
  mkReactor
    (mkIO (mkSim [mkRes 1 0 [] [(1%nat, POLLIN)]; mkRes 77 0 [] []]
             {[3 := {[5 := (3, 1%nat)]}]}) [] 0 [])
    {[1%nat := sample_chan]} {[0%nat := sample_poller]}.

Lemma sample_synced : synced_with 0%nat None sample_poller sample_reactor.
Proof.
  split.
  - done.
  - intros fd c Hc. simpl in Hc. apply lookup_singleton_Some in Hc as [<- <-].
    exists sample_chan. split_and!; [done..|]. left. split_and!; [done|by eexists|done].
  - intros fd Hfd. simpl in Hfd. apply lookup_singleton_None in Hfd.
    unfold kernel_list. simpl. unfold sim_list. simpl. by apply lookup_singleton_ne.
  - intros c ch Hc Hl Hnot. simpl in Hc. apply lookup_singleton_Some in Hc as [<- <-]. done.
Qed.

Lemma EPollPoller_poll_reports_witness :
  ∃ r', EPollPoller.poll 0%nat 10000 sample_reactor = Ok ((77, [1%nat]), r')
    ∧ synced_with 0%nat None sample_poller r'.
Proof.
  destruct (EPollPoller_poll_reports 0%nat 10000 sample_poller sample_reactor
              sample_synced ltac:(simpl; lia)) as (now & active & r' & Hrun & _ & _ & _ & Hs).
  exists r'. split; [|exact Hs].
  assert (EPollPoller.poll 0%nat 10000 sample_reactor
          = Ok ((77, [1%nat]), match EPollPoller.poll 0%nat 10000 sample_reactor with
                               | Ok (_, r) => r | Fault _ => sample_reactor end)) as E
    by (vm_compute; reflexivity).
  rewrite Hrun in E. simpl in E. rewrite Hrun. exact E.
Defined.
