(* ===== verification/LoopCore.v ===== *)
(** * LoopCore: the part of EventLoop the other classes call (EventLoop.h, EventLoop.cpp)

    Thread identity, the channel registration calls, the queue of functors with
    the wakeup descriptor, and [quit].  The loop itself is in EventLoop.v, above
    the channels.  [run] is how a functor runs; it is tied to the members the
    functors are bound to where those are defined. *)
From S2P Require Import Prelude Endian OS Objects Poller.

Set Default Goal Selector "!".

(** The eight bytes of [uint64_t one = 1]. *)
Definition wakeup_one : list byte := store LittleEndian 8 1.

Section loop_core.
Context {K : Type} `{!OS K} {P : Poller K}.

Definition isInLoopThread (l : ptr) : M (World K) bool :=
  x ← get_loop l; gets (λ w, bool_decide (el_threadId x = w_tid w)).

(** Despite its name it only logs. *)
Definition abortNotInLoopThread : M (World K) unit :=
  LOG_ERROR "EventLoop::abortNotInLoopThread".

Definition assertInLoopThread (l : ptr) : M (World K) unit :=
  b ← isInLoopThread l; when (negb b) abortNotInLoopThread.

(** [Poller::assertInLoopThread], with which the pollers' members begin: the
    reactor knows no threads, so it is called here, just before them. *)
Definition Poller_assertInLoopThread (l : ptr) : M (World K) unit := assertInLoopThread l.

Definition EventLoop_hasChannel (l channel : ptr) : M (World K) bool :=
  ch ← chan_at channel;
  assert_ "EventLoop.cpp:91" (bool_decide (ch_loop ch = l));;
  assertInLoopThread l;;
  Poller_assertInLoopThread l;;
  in_reactor (hasChannel l channel).

Definition EventLoop_updateChannel (l channel : ptr) : M (World K) unit :=
  ch ← chan_at channel;
  assert_ "EventLoop.cpp:97" (bool_decide (ch_loop ch = l));;
  assertInLoopThread l;;
  Poller_assertInLoopThread l;;
  in_reactor (poller_updateChannel l channel).

Definition EventLoop_removeChannel (l channel : ptr) : M (World K) unit :=
  ch ← chan_at channel;
  assert_ "EventLoop.cpp:102" (bool_decide (ch_loop ch = l));;
  assertInLoopThread l;;
  x ← get_loop l;
  when (el_eventHandling x)
    (assert_ "EventLoop.cpp:106"
       (bool_decide (el_currentActiveChannel x = Some channel)
        || bool_decide (channel ∉ el_activeChannels x)));;
  Poller_assertInLoopThread l;;
  in_reactor (poller_removeChannel l channel).

Definition wakeup (l : ptr) : M (World K) unit :=
  x ← get_loop l;
  r ← syscall_ (SysWrite (el_wakeupFd x) wakeup_one);
  when (negb (ret r =? 8)) (LOG_ERROR "EventLoop::wakeup()").

(** [EventLoop::handleRead]: drains the wakeup descriptor. *)
Definition EventLoop_handleRead (l : ptr) : M (World K) unit :=
  x ← get_loop l;
  r ← syscall_ (SysRead (el_wakeupFd x) 8);
  when (negb (ret r =? 8)) (LOG_ERROR "EventLoop::handleRead()").

(** The step as it goes when no other thread uses the queue meanwhile; [push_access]
    below is what it locks. *)
Definition queueInLoop (l : ptr) (cb : Functor) : M (World K) unit :=
  when (bool_decide (cb = FnEmpty)) (LOG_ERROR "queueinloop has empty function!");;
  upd_loop l (λ x, set_el_pendingFunctors (el_pendingFunctors x ++ [cb]) x);;
  b ← isInLoopThread l;
  x ← get_loop l;
  when (negb b || el_callingPendingFunctors x) (wakeup l).

(** [cb] is the functor to queue and [body] the same call made at once. *)
Definition runInLoop (l : ptr) (cb : Functor) (body : M (World K) unit) : M (World K) unit :=
  b ← isInLoopThread l;
  if b : bool then body else queueInLoop l cb.

Definition quit (l : ptr) : M (World K) unit :=
  upd_loop l (set_el_quit true);;
  b ← isInLoopThread l;
  when (negb b) (wakeup l).

(** The [swap] is made with [mutex_] held: [swap_access].
    The local [functors] goes at the end, and with it what its elements have
    bound, the first element first; [release] gives up a [TcpConnectionPtr]. *)
Definition doPendingFunctors (run : Functor → M (World K) unit) (release : ptr → M (World K) unit)
    (l : ptr) : M (World K) unit :=
  upd_loop l (set_el_callingPendingFunctors true);;
  x ← get_loop l;
  let functors := el_pendingFunctors x in
  hold (omap functor_holds functors);;
  upd_loop l (set_el_pendingFunctors []);;
  for_each functors (λ f, when (negb (bool_decide (f = FnEmpty))) (run f));;
  upd_loop l (set_el_callingPendingFunctors false);;
  for_each (omap functor_holds functors) release.
End loop_core.

(** ** Rules *)

Section rules.
Context {K : Type} `{!OS K} {P : Poller K}.
Implicit Types w : World K.

Lemma in_reactor_wp {A} (m : M (Reactor K) A) (Q : A → World K → Prop) w :
  wp m (λ a r, Q a (set_w_r r w)) (w_r w) → wp (in_reactor m) Q w.
Proof. intros H. by eapply wp_zoom. Qed.

Lemma get_loop_wp l x (Q : EventLoop → World K → Prop) w :
  w_loops w !! l = Some x → Q x w → wp (get_loop l) Q w.
Proof. intros H HQ. by eapply wp_gets_some. Qed.

Lemma put_loop_wp l x (Q : unit → World K → Prop) w :
  Q tt (set_w_loops (<[l := x]> (w_loops w)) w) → wp (put_loop l x) Q w.
Proof. intros HQ. by apply wp_modify. Qed.

Lemma upd_loop_wp l f x (Q : unit → World K → Prop) w :
  w_loops w !! l = Some x → Q tt (set_w_loops (<[l := f x]> (w_loops w)) w) →
  wp (upd_loop l f) Q w.
Proof.
  intros H HQ. apply wp_bind. eapply get_loop_wp; [done|]. by apply wp_modify.
Qed.

Lemma chan_at_wp c ch (Q : Channel → World K → Prop) w :
  r_chans (w_r w) !! c = Some ch → Q ch w → wp (chan_at c) Q w.
Proof.
  intros H HQ. apply in_reactor_wp. eapply get_chan_wp; [done|]. by destruct w.
Qed.

Lemma upd_chan_wp c f ch (Q : unit → World K → Prop) w :
  r_chans (w_r w) !! c = Some ch →
  Q tt (set_w_r (set_r_chans (<[c := f ch]> (r_chans (w_r w))) (w_r w)) w) →
  wp (upd_chan c f) Q w.
Proof.
  intros H HQ. apply in_reactor_wp, wp_bind. eapply get_chan_wp; [done|].
  by apply wp_modify.
Qed.

Lemma LOG_ERROR_wp msg (Q : unit → World K → Prop) w :
  Q tt (set_w_r (set_r_io (mkIO (io_k (r_io (w_r w))) (io_trace (r_io (w_r w)))
           (io_errno (r_io (w_r w))) (io_log (r_io (w_r w)) ++ [msg])) (w_r w)) w) →
  wp (LOG_ERROR msg) Q w.
Proof. intros HQ. apply in_reactor_wp, in_io_wp. by apply wp_modify. Qed.

Lemma syscall_wp c (Q : sysres → World K → Prop) w :
  (∀ r k, os_call c (io_k (r_io (w_r w))) = (r, k) →
     Q r (set_w_r (set_r_io (mkIO k (io_trace (r_io (w_r w)) ++ [(c, r)])
            (if ret r <? 0 then err r else io_errno (r_io (w_r w)))
            (io_log (r_io (w_r w)))) (w_r w)) w)) →
  wp (syscall_ c) Q w.
Proof. intros HQ. apply in_reactor_wp, in_io_wp, sys_wp. intros r k Hk. by apply HQ. Qed.

(** A world that differs in the error log and the like, not in what the
    components work with. *)
Definition logged w w' : Prop :=
  ∃ io, w' = set_w_r (set_r_io io (w_r w)) w
        ∧ io_k io = io_k (r_io (w_r w)) ∧ io_trace io = io_trace (r_io (w_r w))
        ∧ io_errno io = io_errno (r_io (w_r w)).

Lemma assertInLoopThread_wp l x (Q : unit → World K → Prop) w :
  w_loops w !! l = Some x → (∀ w', logged w w' → Q tt w') →
  wp (assertInLoopThread l) Q w.
Proof.
  intros Hl HQ. unfold assertInLoopThread, isInLoopThread.
  apply wp_bind, wp_bind. eapply get_loop_wp; [done|]. apply wp_gets.
  apply wp_when; intros _.
  - apply LOG_ERROR_wp, HQ. by eexists.
  - apply HQ. exists (r_io (w_r w)). by destruct w as [[]].
Qed.

Lemma isInLoopThread_wp l x (Q : bool → World K → Prop) w :
  w_loops w !! l = Some x → Q (bool_decide (el_threadId x = w_tid w)) w →
  wp (isInLoopThread l) Q w.
Proof.
  intros Hl HQ. apply wp_bind. eapply get_loop_wp; [done|]. by apply wp_gets.
Qed.
End rules.

Section queue_rules.
Context {K : Type} `{!OS K} {P : Poller K}.
Implicit Types w : World K.

Lemma assertInLoopThread_here l x (Q : unit → World K → Prop) w :
  w_loops w !! l = Some x → el_threadId x = w_tid w → Q tt w →
  wp (assertInLoopThread l) Q w.
Proof.
  intros Hl Ht HQ. apply wp_bind. eapply isInLoopThread_wp; [done|].
  rewrite bool_decide_true by done. by apply wp_when.
Qed.

(** [set_w_r]/[set_r_io]: a world with another I/O state. *)
Definition with_io (io : IO K) w : World K := set_w_r (set_r_io io (w_r w)) w.

Definition w_io w : IO K := r_io (w_r w).

Lemma with_io_id w : with_io (w_io w) w = w.
Proof. by destruct w as [[]]. Qed.

(** *** A process and SIGPIPE

    [m] as a process runs it: with the default disposition the process ends at the first
    write that raises the signal, so what [m] does after that does not matter.  A fault
    of [m] is kept, though a write before it may have ended the process already. *)
Definition new_calls w w' : list (syscall * sysres) :=
  drop (length (io_trace (w_io w))) (io_trace (w_io w')).

Definition as_process (d : disposition) {A} (m : M (World K) A) : M (World K) A := λ w,
  match m w with
  | Ok (a, w') =>
      if bool_decide (d = SIG_DFL) && existsb raises_sigpipe (new_calls w w')
      then Fault (Terminated "SIGPIPE") else Ok (a, w')
  | Fault e => Fault e
  end.

Lemma as_process_wpx {A} d E (m : M (World K) A) Q w :
  wpx E m Q w →
  (∃ a w', as_process d m w = Ok (a, w') ∧ Q a w')
  ∨ (as_process d m w = Fault (Terminated "SIGPIPE") ∧ d = SIG_DFL)
  ∨ ∃ e, as_process d m w = Fault e ∧ E e.
Proof.
  unfold as_process, wpx. destruct (m w) as [[a w']|e]; [|by right; right; exists e].
  intros HQ. destruct (bool_decide (d = SIG_DFL)) eqn:Ed; [|left; by exists a, w'].
  apply bool_decide_eq_true in Ed. destruct (existsb _ _); [by right; left|left; by exists a, w'].
Qed.

(** [wakeup] writes eight bytes to the wakeup descriptor. *)
Lemma wakeup_wp l x (Q : unit → World K → Prop) w :
  w_loops w !! l = Some x →
  (∀ io r, io_trace io = io_trace (w_io w) ++ [(SysWrite (el_wakeupFd x) wakeup_one, r)] →
     Q tt (with_io io w)) →
  wp (wakeup l) Q w.
Proof.
  intros Hl HQ. apply wp_bind. eapply get_loop_wp; [done|].
  apply wp_bind, syscall_wp. intros r k Hk. apply wp_when; intros _.
  - apply LOG_ERROR_wp. simpl. by eapply (HQ (mkIO k _ _ _) r).
  - by eapply (HQ (mkIO k _ _ _) r).
Qed.

(** Whether [queueInLoop] has to wake the loop up. *)
Definition must_wake (x : EventLoop) w : bool :=
  negb (bool_decide (el_threadId x = w_tid w)) || el_callingPendingFunctors x.

Definition enqueue (l : ptr) (x : EventLoop) (cb : Functor) w : World K :=
  set_w_loops
    (<[l := set_el_pendingFunctors (el_pendingFunctors x ++ [cb]) x]> (w_loops w)) w.

Lemma queueInLoop_wp l x cb (Q : unit → World K → Prop) w :
  w_loops w !! l = Some x → cb ≠ FnEmpty →
  (∀ io l', io_trace io = io_trace (w_io w) ++ l' →
     (if must_wake x w
      then ∃ r, l' = [(SysWrite (el_wakeupFd x) wakeup_one, r)]
      else l' = [] ∧ io = w_io w) →
     Q tt (with_io io (enqueue l x cb w))) →
  wp (queueInLoop l cb) Q w.
Proof.
  intros Hl Hcb HQ. unfold queueInLoop.
  rewrite bool_decide_false by done. apply wp_bind. simpl. apply wp_ret.
  apply wp_bind. eapply upd_loop_wp; [done|]. fold (enqueue l x cb w).
  assert (w_loops (enqueue l x cb w) !! l
          = Some (set_el_pendingFunctors (el_pendingFunctors x ++ [cb]) x)) as Hl'.
  { simpl. by rewrite lookup_insert_eq. }
  apply wp_bind. eapply isInLoopThread_wp; [done|].
  apply wp_bind. eapply get_loop_wp; [done|].
  apply wp_when; intros Hb; change (negb _ || _) with (must_wake x w) in Hb; rewrite Hb in HQ.
  - eapply wakeup_wp; [done|]. intros io r Hio. eapply HQ; [exact Hio|by eexists].
  - rewrite <- (with_io_id (enqueue l x cb w)). eapply HQ; [by rewrite app_nil_r|done].
Qed.
End queue_rules.

(** ** The queue of functors *)

(** *** Data races

    Both [queueInLoop], in any thread, and [doPendingFunctors] write
    [pendingFunctors_].  Two accesses of different threads to one loop's queue that
    overlap are a data race, which is undefined behaviour, unless each thread holds the
    loop's [mutex_]. *)
Record access : Type := mkAccess { at_queue : ptr; locked : bool }.

(** [std::unique_lock<std::mutex>(mutex_);] declares a local variable named [mutex_],
    which locks nothing. *)
Definition push_access (l : ptr) : access := mkAccess l false.

(** [std::unique_lock<std::mutex> lock(mutex_);] *)
Definition swap_access (l : ptr) : access := mkAccess l true.

Definition races (a b : list access) : bool :=
  existsb (λ x, existsb (λ y, bool_decide (at_queue x = at_queue y) && negb (locked x && locked y)) b) a.

(** *** A program using one loop *)

(** A program using one loop: its functors are numbered, and running one may
    queue others ([spawn]).  [w_calls] records the functors that ran. *)
Section fifo.
Context {K : Type} `{!OS K} {P : Poller K}.
Context (l : ptr) (spawn : nat → list nat) (release : ptr → M (World K) unit).
Implicit Types w : World K.

Definition run_user (f : Functor) : M (World K) unit :=
  match f with
  | FnUser i =>
      user_call (UcFunctor i);; for_each (spawn i) (λ j, queueInLoop l (FnUser j))
  | _ => mret tt
  end.

(** What happens to the queue: a thread queues a functor, or the loop thread
    runs the pending ones. *)
Inductive action : Type :=
  | AQueue (thread : tid) (i : nat)
  | ARound.

Definition run_action (a : action) : M (World K) unit :=
  match a with
  | AQueue t i => modify (set_w_tid t);; queueInLoop l (FnUser i)
  | ARound =>
      x ← get_loop l; modify (set_w_tid (el_threadId x));; doPendingFunctors run_user release l
  end.

(** The accesses of an action to the queue: a round takes it, and its functors may
    queue others. *)
Definition action_accesses (a : action) : list access :=
  match a with AQueue _ _ => [push_access l] | ARound => [swap_access l; push_access l] end.

Definition action_thread (loop_thread : tid) (a : action) : tid :=
  match a with AQueue t _ => t | ARound => loop_thread end.

(** Actions one after the other, or two at the same time: where these do not race, in
    either order. *)
Inductive slot : Type :=
  | Alone (a : action)
  | Together (a b : action).

Definition run_slot (sl : slot) : M (World K) unit :=
  match sl with
  | Alone a => run_action a
  | Together a b =>
      x ← get_loop l;
      when (negb (bool_decide (action_thread (el_threadId x) a = action_thread (el_threadId x) b))
            && races (action_accesses a) (action_accesses b))
        (fail (DataRace "pendingFunctors_"));;
      run_action a;; run_action b
  end.

(** Two threads in one slot. *)
Definition overlap (loop_thread : tid) (sl : slot) : bool :=
  match sl with
  | Alone _ => false
  | Together a b => negb (bool_decide (action_thread loop_thread a = action_thread loop_thread b))
  end.

(** The contract: a first-in first-out queue, emptied a whole round at a time. *)
Definition abs_action (s : list nat * list nat) (a : action) : list nat * list nat :=
  match a with
  | AQueue _ i => (s.1, s.2 ++ [i])
  | ARound => (s.1 ++ s.2, s.2 ≫= spawn)
  end.

Definition abs_slot (s : list nat * list nat) (sl : slot) : list nat * list nat :=
  match sl with Alone a => abs_action s a | Together a b => abs_action (abs_action s a) b end.

Definition queue_is (t : tid) (s : list nat * list nat) w : Prop :=
  ∃ x, w_loops w !! l = Some x ∧ el_threadId x = t ∧ el_callingPendingFunctors x = false
       ∧ w_calls w = UcFunctor <$> s.1 ∧ el_pendingFunctors x = FnUser <$> s.2.

(** While a round runs. *)
Definition round_is (t : tid) (ex pe : list nat) w : Prop :=
  ∃ x, w_loops w !! l = Some x ∧ el_threadId x = t
       ∧ w_calls w = UcFunctor <$> ex ∧ el_pendingFunctors x = FnUser <$> pe.

Lemma queue_user_wp t i ex pe (Q : unit → World K → Prop) w :
  round_is t ex pe w → (∀ w', round_is t ex (pe ++ [i]) w' → Q tt w') →
  wp (queueInLoop l (FnUser i)) Q w.
Proof.
  intros (x & Hl & Ht & Hc & Hp) HQ. eapply queueInLoop_wp; [done..|].
  intros io tr _ _. apply HQ. eexists. simpl. rewrite lookup_insert_eq.
  split_and!; [done..|]. simpl. by rewrite Hp, fmap_app.
Qed.

Lemma spawn_wp t js ex : ∀ pe (Q : unit → World K → Prop) w,
  round_is t ex pe w → (∀ w', round_is t ex (pe ++ js) w' → Q tt w') →
  wp (for_each js (λ j, queueInLoop l (FnUser j))) Q w.
Proof.
  induction js as [|i js IH]; intros pe Q w Hw HQ; simpl.
  - apply wp_ret, HQ. by rewrite app_nil_r.
  - apply wp_bind. eapply queue_user_wp; [done|]. intros w' Hw'.
    eapply IH; [done|]. intros w'' Hw''. apply HQ. by rewrite <- app_assoc in Hw''.
Qed.

Lemma run_user_wp t i ex pe (Q : unit → World K → Prop) w :
  round_is t ex pe w → (∀ w', round_is t (ex ++ [i]) (pe ++ spawn i) w' → Q tt w') →
  wp (run_user (FnUser i)) Q w.
Proof.
  intros (x & Hl & Ht & Hc & Hp) HQ. simpl. apply wp_bind, wp_modify.
  eapply spawn_wp; [|exact HQ]. exists x. simpl. by rewrite Hc, fmap_app.
Qed.

Lemma round_wp t js : ∀ ex pe (Q : unit → World K → Prop) w,
  round_is t ex pe w → (∀ w', round_is t (ex ++ js) (pe ++ (js ≫= spawn)) w' → Q tt w') →
  wp (for_each (FnUser <$> js)
        (λ f, when (negb (bool_decide (f = FnEmpty))) (run_user f))) Q w.
Proof.
  induction js as [|i js IH]; intros ex pe Q w Hw HQ.
  - apply wp_ret, HQ. by rewrite !app_nil_r.
  - cbn [fmap list_fmap for_each]. apply wp_bind.
    rewrite bool_decide_false by done. unfold when, negb.
    eapply run_user_wp; [done|]. intros w' Hw'.
    eapply IH; [done|]. intros w'' Hw''. apply HQ.
    by rewrite <- !app_assoc in Hw''.
Qed.

Lemma user_functors_hold_none (js : list nat) : omap functor_holds (FnUser <$> js) = [].
Proof. by induction js. Qed.

Lemma run_action_wp t s a w :
  queue_is t s w → wp (run_action a) (λ _ w', queue_is t (abs_action s a) w') w.
Proof.
  intros (x & Hl & Ht & Hcall & Hc & Hp). destruct a as [t' i|]; simpl.
  - apply wp_bind, wp_modify. eapply queueInLoop_wp; [done..|].
    intros io tr _ _. eexists. simpl. rewrite lookup_insert_eq.
    split_and!; [done..|]. simpl. by rewrite Hp, fmap_app.
  - apply wp_bind. eapply get_loop_wp; [done|]. apply wp_bind, wp_modify.
    unfold doPendingFunctors. apply wp_bind. eapply upd_loop_wp; [done|].
    apply wp_bind. eapply get_loop_wp; [simpl; by rewrite lookup_insert_eq|]. cbv zeta.
    cbn [el_pendingFunctors set_el_callingPendingFunctors]. rewrite Hp, user_functors_hold_none.
    apply wp_bind, wp_modify.
    apply wp_bind. eapply upd_loop_wp; [simpl; by rewrite lookup_insert_eq|].
    apply wp_bind. eapply (round_wp t s.2 s.1 []).
    + eexists. simpl. rewrite lookup_insert_eq. by split_and!.
    + intros w' (x' & Hl' & Ht' & Hc' & Hp'). apply wp_bind. eapply upd_loop_wp; [done|].
      apply wp_ret. eexists. simpl. rewrite lookup_insert_eq. by split_and!.
Qed.

(** A push locks nothing, so any two actions race. *)
Lemma actions_race a b : races (action_accesses a) (action_accesses b) = true.
Proof.
  unfold races. destruct a, b; simpl; by rewrite ?bool_decide_true.
Qed.

Lemma run_slot_wp t s sl w :
  queue_is t s w → overlap t sl = false → wp (run_slot sl) (λ _ w', queue_is t (abs_slot s sl) w') w.
Proof.
  intros Hw Ho. destruct sl as [a|a b]; [by apply run_action_wp|].
  pose proof Hw as (x & Hl & Ht & _). apply wp_bind. eapply get_loop_wp; [exact Hl|]. rewrite Ht.
  simpl in Ho. rewrite Ho. apply wp_bind, wp_ret, wp_bind.
  eapply wp_mono; [by apply run_action_wp|]. intros [] w1 H1. by apply run_action_wp.
Qed.

Lemma run_slot_races t s sl w :
  queue_is t s w → overlap t sl = true → run_slot sl w = Fault (DataRace "pendingFunctors_").
Proof.
  intros (x & Hl & Ht & _) Ho. destruct sl as [|a b]; [done|]. unfold run_slot.
  rewrite bind_run. unfold get_loop, gets_some. rewrite Hl, bind_run, Ht, actions_race.
  simpl in Ho. by rewrite Ho.
Qed.

(** C6: the functor queue refines a first-in first-out queue as long as no two threads
    are at it at the same time.  Then, however threads queue functors and the loop runs
    rounds, and whatever functors queue while they run: each functor queued runs once,
    in the order of queueing; a round runs exactly the functors pending when it starts,
    and those queued meanwhile wait for the next round.  But the moment two threads are,
    one of them queueing, there is a data race: [queueInLoop]'s lock is none. *)
Theorem functor_queue_is_fifo (slots : list slot) (t : tid) w (Hw : queue_is t ([], []) w) :
  if existsb (overlap t) slots
  then for_each slots run_slot w = Fault (DataRace "pendingFunctors_")
  else ∃ w', for_each slots run_slot w = Ok (tt, w')
             ∧ queue_is t (foldl abs_slot ([], []) slots) w'.
Proof.
  revert Hw. generalize (@nil nat, @nil nat) as s. revert w.
  induction slots as [|sl slots IH]; intros w s Hw; simpl; [by exists w|].
  destruct (overlap t sl) eqn:Ho; cbn [orb].
  { by rewrite bind_run, (run_slot_races t s). }
  destruct (proj1 (wp_run _ _ _) (run_slot_wp t s sl w Hw Ho)) as ([] & w1 & Hrun & H1).
  rewrite bind_run, Hrun. by apply IH.
Qed.

(** [queueInLoop] never leaves the loop asleep over a pending functor: from
    any thread but the loop's, and from a functor running in the loop, it makes
    exactly one eight-byte write to the wakeup descriptor; elsewhere in the loop
    thread it makes no system call, the round that follows being still to come.
    In every case the functor is added last. *)
Theorem queueInLoop_wakes (cb : Functor) (x : EventLoop) w
    (Hl : w_loops w !! l = Some x) (Hcb : cb ≠ FnEmpty) :
  ∃ w' calls, queueInLoop l cb w = Ok (tt, w')
    ∧ w_loops w' = <[l := set_el_pendingFunctors (el_pendingFunctors x ++ [cb]) x]> (w_loops w)
    ∧ io_trace (w_io w') = io_trace (w_io w) ++ calls
    ∧ calls.*1 = (if bool_decide (el_threadId x = w_tid w) && negb (el_callingPendingFunctors x)
                  then [] else [SysWrite (el_wakeupFd x) wakeup_one]).
Proof.
  assert (wp (queueInLoop l cb) (λ _ w', ∃ calls,
    w_loops w' = <[l := set_el_pendingFunctors (el_pendingFunctors x ++ [cb]) x]> (w_loops w)
    ∧ io_trace (w_io w') = io_trace (w_io w) ++ calls
    ∧ calls.*1 = (if bool_decide (el_threadId x = w_tid w) && negb (el_callingPendingFunctors x)
                  then [] else [SysWrite (el_wakeupFd x) wakeup_one])) w) as H.
  { eapply queueInLoop_wp; [done..|]. intros io tr Htr Hm. exists tr.
    split_and!; [done..|]. unfold must_wake in Hm.
    destruct (bool_decide _), (el_callingPendingFunctors x); simpl in *;
      first [by destruct Hm as [r ->]|by destruct Hm as [-> _]]. }
  destruct (proj1 (wp_run _ _ _) H) as ([] & w' & Hrun & calls & ?). eauto.
Qed.
End fifo.

(** *** A concrete loop thread: loop 0 with the channel of [sample_reactor]. *)

Definition sample_loop : EventLoop :=
  mkEventLoop 7%nat true false false false [] None 0
    (mkTimerQueue false 4 2%nat []) 6 3%nat [].

Definition sample_world : World sim :=
  mkWorld sample_reactor 7%nat {[0%nat := sample_loop]} ∅ ∅ ∅ ∅ ∅ ∅ ∅ ∅ no_app ∅ [] 10%nat 0 50%nat [].

Lemma functor_queue_is_fifo_witness :
  let spawn := λ i : nat, match i with O => [5%nat] | _ => [] end in
  let run := λ slots, for_each slots (run_slot 0%nat spawn (λ _, mret tt)) sample_world in
  (∃ w', run [Alone (AQueue 9%nat 0%nat); Alone (AQueue 7%nat 1%nat); Together ARound (AQueue 7%nat 2%nat);
              Alone ARound] = Ok (tt, w')
     ∧ w_calls w' = UcFunctor <$> [0%nat; 1%nat; 5%nat; 2%nat])
  ∧ run [Alone (AQueue 9%nat 0%nat); Together ARound (AQueue 9%nat 1%nat)] = Fault (DataRace "pendingFunctors_").
Proof.
  intros spawn run.
  assert (queue_is 0%nat 7%nat ([], []) sample_world) as Hw by (exists sample_loop; by vm_compute).
  pose proof (λ slots, functor_queue_is_fifo 0%nat spawn (λ _, mret tt) slots 7%nat sample_world Hw) as H.
  split.
  - destruct (H [Alone (AQueue 9%nat 0%nat); Alone (AQueue 7%nat 1%nat); Together ARound (AQueue 7%nat 2%nat);
      Alone ARound]) as (w' & Hrun & x & _ & _ & _ & Hc & _). exists w'. split; [exact Hrun|exact Hc].
  - exact (H [Alone (AQueue 9%nat 0%nat); Together ARound (AQueue 9%nat 1%nat)]).
Defined.

Lemma queueInLoop_wakes_witness :
  ∃ w' r, queueInLoop 0%nat (FnUser 4) (set_w_tid 8%nat sample_world) = Ok (tt, w')
    ∧ io_trace (w_io w') = [(SysWrite 6 wakeup_one, r)].
Proof.
  destruct (queueInLoop_wakes 0%nat (FnUser 4) sample_loop (set_w_tid 8%nat sample_world)
    eq_refl ltac:(discriminate)) as (w' & calls & Hrun & _ & Htr & Hcalls).
  simpl in Htr, Hcalls. destruct calls as [|[c r] [|]]; simplify_eq/=.
  exists w', r. split; [exact Hrun|exact Htr].
Defined.
