(* ===== verification/Channel.v ===== *)
(** * Channel: one descriptor's events (Channel.h, Channel.cpp)

    The members of [Channel] over the world; [invoke] is how a callback runs,
    given the receive time (only the read callback uses it). *)
From S2P Require Import Prelude Endian OS Descriptors Objects Poller LoopCore.

Set Default Goal Selector "!".

Definition kNoneEvent : Z := 0.
Definition kReadEvent : Z := Z.lor POLLIN POLLPRI.
Definition kWriteEvent : Z := POLLOUT.

(** ** Members that only touch the channel *)

Definition Channel_ctor (loop : ptr) (fd : Z) : Channel :=
  mkChannel loop fd 0 0 (-1) true None false false false None None None None.

Definition isWriting (ch : Channel) : bool := nonzero (Z.land (ch_events ch) kWriteEvent).
Definition isReading (ch : Channel) : bool := nonzero (Z.land (ch_events ch) kReadEvent).

(** [tie(obj)] stores the [weak_ptr]. *)
Definition tie_channel (obj : ptr) (ch : Channel) : Channel :=
  set_ch_tied true (set_ch_tie (Some obj) ch).

(** The event names of [eventsToString] ([oss << fd << ": "] comes before them). *)
Definition event_names (ev : Z) : list string :=
  (if nonzero (Z.land ev POLLIN) then ["IN "] else [])
  ++ (if nonzero (Z.land ev POLLPRI) then ["PRI "] else [])
  ++ (if nonzero (Z.land ev POLLOUT) then ["OUT "] else [])
  ++ (if nonzero (Z.land ev POLLHUP) then ["HUP "] else [])
  ++ (if nonzero (Z.land ev POLLRDHUP) then ["RDHUP "] else [])
  ++ (if nonzero (Z.land ev POLLERR) then ["ERR "] else [])
  ++ (if nonzero (Z.land ev POLLNVAL) then ["NVAL "] else []).

Definition eventsToString (fd ev : Z) : string :=
  (pretty fd +:+ ": ") +:+ String.concat EmptyString (event_names ev).

Section channel.
Context {K : Type} `{!OS K} {P : Poller K}.

Definition update (c : ptr) : M (World K) unit :=
  upd_chan c (set_ch_addedToLoop true);;
  ch ← chan_at c;
  EventLoop_updateChannel (ch_loop ch) c.

Definition enableReading (c : ptr) : M (World K) unit :=
  upd_chan c (λ ch, set_ch_events (Z.lor (ch_events ch) kReadEvent) ch);; update c.
Definition disableReading (c : ptr) : M (World K) unit :=
  upd_chan c (λ ch, set_ch_events (Z.land (ch_events ch) (Z.lnot kReadEvent)) ch);; update c.
Definition enableWriting (c : ptr) : M (World K) unit :=
  upd_chan c (λ ch, set_ch_events (Z.lor (ch_events ch) kWriteEvent) ch);; update c.
Definition disableWriting (c : ptr) : M (World K) unit :=
  upd_chan c (λ ch, set_ch_events (Z.land (ch_events ch) (Z.lnot kWriteEvent)) ch);; update c.
Definition disableAll (c : ptr) : M (World K) unit :=
  upd_chan c (set_ch_events kNoneEvent);; update c.

Definition remove (c : ptr) : M (World K) unit :=
  ch ← chan_at c;
  assert_ "Channel.cpp:163" (isNoneEvent ch);;
  upd_chan c (set_ch_addedToLoop false);;
  EventLoop_removeChannel (ch_loop ch) c.

(** The destructor: in the loop's thread the channel must have been removed. *)
Definition Channel_dtor (c : ptr) : M (World K) unit :=
  ch ← chan_at c;
  b ← isInLoopThread (ch_loop ch);
  (if b : bool then
     h ← EventLoop_hasChannel (ch_loop ch) c;
     assert_ "Channel.cpp:28" (negb h)
   else mret tt);;
  in_reactor (modify (λ r, set_r_chans (delete c (r_chans r)) r)).

Section dispatch.
Context (invoke : Callback → Z → M (World K) unit) (release : ptr → M (World K) unit).

Definition call (cb : option Callback) (receiveTime : Z) : M (World K) unit :=
  match cb with Some f => invoke f receiveTime | None => mret tt end.

(** Each test reads [revents_], and each call the callback, at that moment. *)
Definition handleEventWithGuard (c : ptr) (receiveTime : Z) : M (World K) unit :=
  upd_chan c (set_ch_eventHandling true);;
  ch ← chan_at c;
  when (nonzero (Z.land (ch_revents ch) POLLHUP)
        && negb (nonzero (Z.land (ch_revents ch) POLLIN)))
    (call (ch_closeCallback ch) receiveTime);;
  ch ← chan_at c;
  when (nonzero (Z.land (ch_revents ch) (Z.lor POLLERR POLLNVAL)))
    (call (ch_errorCallback ch) receiveTime);;
  ch ← chan_at c;
  when (nonzero (Z.land (ch_revents ch) (Z.lor (Z.lor POLLIN POLLPRI) POLLRDHUP)))
    (call (ch_readCallback ch) receiveTime);;
  ch ← chan_at c;
  when (nonzero (Z.land (ch_revents ch) POLLOUT))
    (call (ch_writeCallback ch) receiveTime);;
  upd_chan c (set_ch_eventHandling false).

(** [tie_.lock()]: the object the channel is tied to, if it is still there. *)
Definition lock_tie (ch : Channel) : M (World K) (option ptr) :=
  gets (λ w, obj ← ch_tie ch; if decide (is_Some (w_conns w !! obj)) then Some obj else None).

(** [guard] holds the object until the end; [release] gives it up. *)
Definition handleEvent (c : ptr) (receiveTime : Z) : M (World K) unit :=
  ch ← chan_at c;
  if ch_tied ch then
    guard ← lock_tie ch;
    match guard with
    | Some obj => hold [obj];; handleEventWithGuard c receiveTime;; release obj
    | None => mret tt
    end
  else handleEventWithGuard c receiveTime.
End dispatch.
End channel.

(** ** Rules *)

(** The interface the components above use: a channel whose poller agrees with
    it, on a loop of the running thread. *)
Definition live_channel {K} `{!OS K} {P : Poller K} `{!PollerLaws K P}
    (w : World K) (c : ptr) (ch : Channel) : Prop :=
  r_chans (w_r w) !! c = Some ch ∧ poller_ok (w_r w) (ch_loop ch) c
  ∧ ∃ x, w_loops w !! ch_loop ch = Some x ∧ el_threadId x = w_tid w.

Section rules.
Context {K : Type} `{!OS K} {P : Poller K} `{!PollerLaws K P}.
Implicit Types w : World K.

(** What an update of channel [c] may change: the channel itself, the poller,
    and the I/O state by [epoll_ctl] calls and log lines. *)
Definition channel_step c (ch' : Channel) w w' : Prop :=
  w' = set_w_r (w_r w') w ∧ r_chans (w_r w') = <[c := ch']> (r_chans (w_r w))
  ∧ quiet (w_io w) (w_io w')
  ∧ others_ok poller_ok (w_r w) (w_r w') (ch_loop ch') c ch'.

(** The other channels' registrations after changing members the poller does not
    look at and then running a poller operation. *)
Lemma others_ok_after (r : Reactor K) r' l c ch ch' :
  r_chans r !! c = Some ch → ch_fd ch' = ch_fd ch → ch_index ch' = ch_index ch →
  others_ok poller_ok (set_r_chans (<[c := ch']> (r_chans r)) r) r' l c ch' →
  others_ok poller_ok r r' l c ch'.
Proof.
  intros Hch Hfd Hi Ho l0 c0 ch0 Hne Hok Hch0 Hor.
  apply (Ho l0 c0 ch0); [done| | |done].
  - by eapply poller_ok_chan.
  - simpl. by rewrite lookup_insert_ne.
Qed.

(** Changing the events and then calling [update()]. *)
Lemma set_events_update_wp c ch (f : Channel → Channel) ev (Q : unit → World K → Prop) w :
  live_channel w c ch → f ch = set_ch_events ev ch →
  (∀ i w', let ch' := set_ch_index i (set_ch_addedToLoop true (set_ch_events ev ch)) in
     channel_step c ch' w w' → live_channel w' c ch' → poller_attached ch' → Q tt w') →
  wp (upd_chan c f;; update c) Q w.
Proof.
  intros (Hch & Hok & x & Hx & Ht) Hf HQ. apply wp_bind. eapply upd_chan_wp; [done|].
  rewrite Hf. unfold update. apply wp_bind.
  eapply upd_chan_wp; [simpl; by rewrite lookup_insert_eq|]. simpl.
  apply wp_bind. eapply chan_at_wp; [simpl; by rewrite lookup_insert_eq|].
  unfold EventLoop_updateChannel. apply wp_bind.
  eapply chan_at_wp; [simpl; by rewrite lookup_insert_eq|].
  apply wp_bind, wp_assert; [by apply bool_decide_eq_true|].
  apply wp_bind. eapply assertInLoopThread_here; [done..|].
  apply wp_bind. eapply assertInLoopThread_here; [done..|].
  apply in_reactor_wp. unfold set_r_chans. simpl. rewrite insert_insert_eq.
  set (ch1 := set_ch_addedToLoop true (set_ch_events ev ch)).
  set (r1 := mkReactor _ _ _).
  assert (r_chans r1 !! c = Some ch1) as Hch1 by (simpl; by rewrite lookup_insert_eq).
  assert (poller_ok r1 (ch_loop ch) c) as Hok1.
  { by apply (poller_ok_chan (w_r w) _ c c ch ch1). }
  eapply wp_mono; [by apply poller_updateChannel_ok|].
  intros [] r' (i & Hr' & Hok' & Hatt & Hq & Ho). simpl in Hr'. rewrite insert_insert_eq in Hr'.
  eapply (HQ i); simpl.
  - split_and!; [done..|]. exact (others_ok_after (w_r w) r' _ c ch ch1 Hch eq_refl eq_refl Ho).
  - split_and!; simpl; [by rewrite Hr', lookup_insert_eq|done|eauto].
  - done.
Qed.

(** [remove()] of a channel that wants no events. *)
Lemma remove_wp c ch (Q : unit → World K → Prop) w :
  live_channel w c ch → ch_events ch = 0 → poller_attached ch →
  (∀ x, w_loops w !! ch_loop ch = Some x → el_eventHandling x = true →
     el_currentActiveChannel x = Some c ∨ c ∉ el_activeChannels x) →
  (∀ i w', let ch' := set_ch_index i (set_ch_addedToLoop false ch) in
     channel_step c ch' w w' → live_channel w' c ch' →
     poller_free (w_r w') (ch_loop ch) (ch_fd ch) → poller_detached ch' → Q tt w') →
  wp (remove c) Q w.
Proof.
  intros (Hch & Hok & x & Hx & Ht) Hev Hatt Hact HQ. unfold remove.
  assert (isNoneEvent ch = true) as Hnone by (unfold isNoneEvent; lia).
  apply wp_bind. eapply chan_at_wp; [done|].
  apply wp_bind, wp_assert; [done|].
  apply wp_bind. eapply upd_chan_wp; [done|].
  unfold EventLoop_removeChannel. apply wp_bind.
  eapply chan_at_wp; [simpl; by rewrite lookup_insert_eq|].
  apply wp_bind, wp_assert; [by apply bool_decide_eq_true|].
  apply wp_bind. eapply assertInLoopThread_here; [done..|].
  apply wp_bind. eapply get_loop_wp; [done|].
  apply wp_bind, wp_when; intros Heh; [apply wp_assert|].
  { apply orb_true_iff. rewrite !bool_decide_eq_true. eauto. }
  all: apply wp_bind; eapply assertInLoopThread_here; [done..|].
  all: apply in_reactor_wp; unfold set_r_chans; simpl;
    set (ch1 := set_ch_addedToLoop false ch); set (r1 := mkReactor _ _ _).
  all: assert (r_chans r1 !! c = Some ch1) as Hch1 by (simpl; by rewrite lookup_insert_eq);
    assert (poller_ok r1 (ch_loop ch) c) as Hok1
      by (by apply (poller_ok_chan (w_r w) _ c c ch ch1)).
  all: assert (poller_attached ch1) as Hatt1 by exact (poller_attached_index ch ch1 eq_refl Hatt).
  all: eapply wp_mono; [by apply poller_removeChannel_ok|].
  all: intros [] r' (i & Hr' & Hok' & Hq & Ho & Hfree & Hdet); simpl in Hr'; rewrite insert_insert_eq in Hr'.
  all: eapply (HQ i); simpl;
    [split_and!; [done..|exact (others_ok_after (w_r w) r' _ c ch ch1 Hch eq_refl eq_refl Ho)]| |done|exact Hdet].
  all: split_and!; simpl; [by rewrite Hr', lookup_insert_eq|done|eauto].
Qed.
End rules.

(** ** Interest: the five operations that change what a channel waits for *)

Inductive interest_op : Type :=
  | EnableReading | DisableReading | EnableWriting | DisableWriting | DisableAll.

Definition events_after (op : interest_op) (ev : Z) : Z :=
  match op with
  | EnableReading => Z.lor ev kReadEvent
  | DisableReading => Z.land ev (Z.lnot kReadEvent)
  | EnableWriting => Z.lor ev kWriteEvent
  | DisableWriting => Z.land ev (Z.lnot kWriteEvent)
  | DisableAll => kNoneEvent
  end.

Section interest.
Context {K : Type} `{!OS K} `{!EpollLaws K}.
Implicit Types w : World K.

Definition run_interest (op : interest_op) (c : ptr) : M (World K) unit :=
  match op with
  | EnableReading => enableReading c
  | DisableReading => disableReading c
  | EnableWriting => enableWriting c
  | DisableWriting => disableWriting c
  | DisableAll => disableAll c
  end.

(** Loop [l] with its channels, run by its own thread: epoll is in step with
    every channel (every [epoll_ctl] has succeeded), and no two channels share a descriptor. *)
Record loop_ok (l : ptr) (p : EPollPoller) w : Prop := {
  lk_synced : synced_with l None p (w_r w);
  lk_fds : ∀ c c' ch ch', r_chans (w_r w) !! c = Some ch → r_chans (w_r w) !! c' = Some ch' →
    ch_loop ch = l → ch_loop ch' = l → ch_fd ch = ch_fd ch' → c = c';
  lk_thread : ∃ x, w_loops w !! l = Some x ∧ el_threadId x = w_tid w
}.

Lemma loop_ok_free l p w c ch :
  loop_ok l p w → r_chans (w_r w) !! c = Some ch → ch_loop ch = l →
  ep_channels p !! ch_fd ch = None ∨ ep_channels p !! ch_fd ch = Some c.
Proof.
  intros [Hs Hfds _] Hch Hl. destruct (ep_channels p !! ch_fd ch) as [c'|] eqn:E; [right|by left].
  destruct (sy_registered _ _ _ _ Hs _ _ E) as (ch' & Hch' & Hfd & Hl' & _).
  f_equal. by eapply Hfds.
Qed.

(** The members of a channel that its owner sets and [update] leaves alone. *)
Definition same_but_registration (ch ch' : Channel) : Prop :=
  ch' = set_ch_index (ch_index ch') (set_ch_addedToLoop (ch_addedToLoop ch')
          (set_ch_events (ch_events ch') ch)).

Lemma run_interest_form op c :
  run_interest op c
  = (upd_chan c (λ ch, set_ch_events (events_after op (ch_events ch)) ch);; update c).
Proof. by destruct op. Qed.

(** The touched channel keeps descriptor and loop, so no two channels share one. *)
Lemma fds_insert (m : gmap ptr Channel) l c ch ch' :
  (∀ c1 c2 ch1 ch2, m !! c1 = Some ch1 → m !! c2 = Some ch2 →
     ch_loop ch1 = l → ch_loop ch2 = l → ch_fd ch1 = ch_fd ch2 → c1 = c2) →
  m !! c = Some ch → ch_fd ch' = ch_fd ch → ch_loop ch' = ch_loop ch →
  ∀ c1 c2 ch1 ch2, <[c := ch']> m !! c1 = Some ch1 → <[c := ch']> m !! c2 = Some ch2 →
     ch_loop ch1 = l → ch_loop ch2 = l → ch_fd ch1 = ch_fd ch2 → c1 = c2.
Proof.
  intros Hinj Hch Hfd Hl c1 c2 ch1 ch2.
  rewrite !lookup_insert. intros H1 H2 Hl1 Hl2 He.
  repeat case_decide; simplify_eq; try done; eapply Hinj; eauto; congruence.
Qed.

(** The registrations alone, whatever the kernel made of them. *)
Record registered_in (l : ptr) (p : EPollPoller) w : Prop := {
  rg_poller : r_pollers (w_r w) !! l = Some p;
  rg_attached : ∀ fd c, ep_channels p !! fd = Some c →
    ∃ ch, r_chans (w_r w) !! c = Some ch ∧ ch_fd ch = fd ∧ ch_loop ch = l ∧ epoll_attached ch;
  rg_new : ∀ c ch, r_chans (w_r w) !! c = Some ch → ch_loop ch = l →
    ep_channels p !! ch_fd ch ≠ Some c → ch_index ch = EPollPoller.kNew;
  rg_fds : ∀ c c' ch ch', r_chans (w_r w) !! c = Some ch → r_chans (w_r w) !! c' = Some ch' →
    ch_loop ch = l → ch_loop ch' = l → ch_fd ch = ch_fd ch' → c = c';
  rg_thread : ∃ x, w_loops w !! l = Some x ∧ el_threadId x = w_tid w
}.

Lemma loop_ok_registered l p w : loop_ok l p w → registered_in l p w.
Proof.
  intros [[H1 H2 H3 H4] Hfds Hth]. split; [done| |done..].
  intros fd c Hc. destruct (H2 fd c Hc) as (ch & Hch & Hfd & Hl & Hw). exists ch.
  split_and!; [done..|]. destruct Hw as [(?&_)|(?&_)]; [by left|by right].
Qed.

Lemma registered_registration l p w c ch :
  registered_in l p w → r_chans (w_r w) !! c = Some ch → ch_loop ch = l → registration p c ch.
Proof.
  intros Hw Hch Hl. destruct (ep_channels p !! ch_fd ch) as [c'|] eqn:E.
  - destruct (rg_attached _ _ _ Hw _ _ E) as (ch' & Hch' & Hfd & Hl' & Ha).
    assert (c' = c) as -> by (by eapply (rg_fds _ _ _ Hw)). simplify_eq. by right.
  - left. split; [|done]. eapply rg_new; eauto. by rewrite E.
Qed.

(** What an operation makes of the channel, and the one call it makes. *)
Definition after_interest (op : interest_op) (ch : Channel) : Channel :=
  set_ch_addedToLoop true (set_ch_events (events_after op (ch_events ch)) ch).

Definition interest_call (p : EPollPoller) (c : ptr) (ch : Channel) : syscall :=
  SysEpollCtl (ep_epollfd p) (control ch) (ch_fd ch) (ch_events ch) c.

(** One operation, on any kernel: the registrations go on being right, and epoll stays
    in step if the call succeeds. *)
Lemma run_interest_any_wp op c ch l p w :
  registered_in l p w → r_chans (w_r w) !! c = Some ch → ch_loop ch = l →
  wp (run_interest op c) (λ _ w',
    let ch1 := after_interest op ch in
    let ch' := set_ch_index (next_index ch1) ch1 in
    let p' := set_ep_channels (<[ch_fd ch := c]> (ep_channels p)) p in
    let res := (os_call (interest_call p c ch1) (io_k (w_io w))).1 in
    registered_in l p' w'
    ∧ r_chans (w_r w') = <[c := ch']> (r_chans (w_r w))
    ∧ w' = set_w_r (w_r w') w
    ∧ io_trace (w_io w') = io_trace (w_io w) ++ [(interest_call p c ch1, res)]
    ∧ (loop_ok l p w → ret res = 0 → loop_ok l p' w')) w.
Proof.
  intros Hw Hch Hl. pose proof (registered_registration _ _ _ _ _ Hw Hch Hl) as Hreg.
  pose proof Hw as [Hp Hatt Hnew Hfds (x & Hx & Ht)].
  rewrite run_interest_form. apply wp_bind. eapply upd_chan_wp; [done|].
  unfold update. apply wp_bind.
  eapply upd_chan_wp; [simpl; by rewrite lookup_insert_eq|]. simpl.
  apply wp_bind. eapply chan_at_wp; [simpl; by rewrite lookup_insert_eq|].
  unfold EventLoop_updateChannel. apply wp_bind.
  eapply chan_at_wp; [simpl; by rewrite lookup_insert_eq|].
  apply wp_bind, wp_assert; [by apply bool_decide_eq_true|].
  simpl. rewrite Hl.
  apply wp_bind. eapply assertInLoopThread_here; [done..|].
  apply wp_bind. eapply assertInLoopThread_here; [done..|].
  apply in_reactor_wp. unfold set_r_chans. simpl. rewrite insert_insert_eq.
  change (set_ch_addedToLoop true _) with (after_interest op ch). set (ch1 := after_interest op ch).
  eapply (updateChannel_wp l c p ch1); [done|simpl; by rewrite lookup_insert_eq|exact Hreg|].
  intros res k err log Hk. pose proof Hk as Hk'.
  change (os_call (interest_call p c ch1) (io_k (w_io w)) = (res, k)) in Hk'. cbv zeta. rewrite Hk'.
  cbn [r_io r_chans r_pollers fst]. rewrite insert_insert_eq.
  assert (∀ c1 c2 ch2 ch3, <[c := set_ch_index (next_index ch1) ch1]> (r_chans (w_r w)) !! c1 = Some ch2 →
    <[c := set_ch_index (next_index ch1) ch1]> (r_chans (w_r w)) !! c2 = Some ch3 →
    ch_loop ch2 = l → ch_loop ch3 = l → ch_fd ch2 = ch_fd ch3 → c1 = c2) as Hfds'
    by (by eapply fds_insert).
  split_and!; [|done|done| |].
  - split; simpl; [by rewrite lookup_insert_eq| | |exact Hfds'|eauto].
    + intros fd c'. rewrite lookup_insert. case_decide as E; [intros [= <-]|intros Hc'].
      * eexists. rewrite lookup_insert_eq. split_and!; [done..|]. apply next_index_attached.
      * destruct (Hatt fd c' Hc') as (ch' & Hch' & Hfd & Hrest). exists ch'.
        rewrite lookup_insert_ne by (intros ->; simplify_eq). done.
    + intros c' ch' Hc' Hl' Hne. destruct (decide (c = c')) as [<-|N].
      { rewrite lookup_insert_eq in Hc'. injection Hc' as <-. simpl in Hne.
        by rewrite lookup_insert_eq in Hne. }
      rewrite lookup_insert_ne in Hc' by done. eapply Hnew; [done..|]. intros H. apply Hne.
      rewrite lookup_insert_ne; [done|]. intros E'. destruct Hreg as [[_ Hn]|[_ Hn]]; simpl in Hn; congruence.
  - done.
  - intros Hok Hret.
    pose proof (loop_ok_free _ _ _ _ _ Hok Hch Hl) as Hfree. destruct Hok as [Hs _ _].
    assert (synced_with l (Some c) p (set_r_chans (<[c := ch1]> (r_chans (w_r w))) (w_r w)))
      as Hs1 by (eapply synced_touch; eauto).
    split; simpl; [|exact Hfds'|eauto].
    assert (r_chans (set_r_chans (<[c := ch1]> (r_chans (w_r w))) (w_r w)) !! c = Some ch1) as Hch1
      by (simpl; by rewrite lookup_insert_eq).
    pose proof (synced_told l _ c ch1 p res k err log Hs1 Hch1 Hl Hfree Hk Hret) as H.
    simpl in H. by rewrite insert_insert_eq in H.
Qed.

Lemma run_interests_wp l : ∀ ops p w,
  registered_in l p w →
  Forall (λ oc, ∃ ch, r_chans (w_r w) !! oc.2 = Some ch ∧ ch_loop ch = l) ops →
  wp (for_each ops (λ oc, run_interest oc.1 oc.2)) (λ _ w', ∃ m calls,
    registered_in l (set_ep_channels m p) w' ∧ w' = set_w_r (w_r w') w
    ∧ io_trace (w_io w') = io_trace (w_io w) ++ calls
    ∧ Forall2 (λ oc cr, ∃ ch o e, r_chans (w_r w) !! oc.2 = Some ch
        ∧ cr.1 = SysEpollCtl (ep_epollfd p) o (ch_fd ch) e oc.2) ops calls
    ∧ (loop_ok l p w → Forall (λ cr, ret cr.2 = 0) calls → loop_ok l (set_ep_channels m p) w')
    ∧ (∀ c ch, r_chans (w_r w) !! c = Some ch → ch_loop ch = l →
        c ∈ ops.*2 ∨ ep_channels p !! ch_fd ch = Some c → m !! ch_fd ch = Some c)
    ∧ ∀ c ch, r_chans (w_r w) !! c = Some ch → ∃ ch',
        r_chans (w_r w') !! c = Some ch' ∧ same_but_registration ch ch'
        ∧ ch_events ch' = foldl (λ ev oc, if decide (oc.2 = c) then events_after oc.1 ev else ev)
                            (ch_events ch) ops) w.
Proof.
  induction ops as [|[op c0] ops IH]; intros p w Hw Hall; cbn [for_each foldl fst snd].
  { apply wp_ret. exists (ep_channels p), []. rewrite app_nil_r.
    split_and!; [by destruct p|by destruct w|done|constructor|by destruct p| |].
    { intros c ch _ _ [Hin|Hin]; [by apply elem_of_nil in Hin|done]. }
    intros c ch Hch. exists ch. split_and!; [done| |done].
    unfold same_but_registration. by destruct ch. }
  apply Forall_cons in Hall as [(ch0 & Hch0 & Hl0) Hall]. cbn [snd] in Hch0.
  apply wp_bind. eapply wp_mono; [by eapply run_interest_any_wp|].
  intros [] w1 (Hw1 & Hr1 & E1 & Htr1 & Hok1).
  set (ch1 := set_ch_index _ _) in Hr1.
  eapply wp_mono; [eapply IH; [exact Hw1|]|].
  { eapply Forall_impl; [exact Hall|]. intros [op' c'] (ch' & Hch' & Hl'). simpl in *.
    rewrite Hr1. destruct (decide (c' = c0)) as [->|Hne].
    - exists ch1. rewrite lookup_insert_eq. split; [done|]. by simplify_eq.
    - exists ch'. by rewrite lookup_insert_ne. }
  intros [] w2 (m2 & calls & Hw2 & E2 & Htr2 & Hcalls & Hok2 & Hreg & Hchans).
  eexists m2, (_ :: calls). split_and!.
  - by destruct p.
  - rewrite E2, E1. by destruct w.
  - rewrite Htr2, Htr1, <- app_assoc. done.
  - constructor.
    + exists ch0. do 2 eexists. split; [done|]. reflexivity.
    + eapply Forall2_impl; [exact Hcalls|]. intros [op' c'] cr (ch' & o & e & Hch' & ->).
      cbn [snd] in *. rewrite Hr1, lookup_insert in Hch'. case_decide as E.
      * subst. simplify_eq. by exists ch0, o, e.
      * by exists ch', o, e.
  - intros Hok [Hret Hrets]%Forall_cons. apply Hok2; [|done]. by apply Hok1.
  - intros c ch Hch Hl Hin. destruct (decide (c = c0)) as [->|Hne].
    + assert (ch0 = ch) as -> by congruence.
      apply (Hreg c0 ch1); [by rewrite Hr1, lookup_insert_eq|done|right].
      simpl. by rewrite lookup_insert_eq.
    + apply (Hreg c ch); [by rewrite Hr1, lookup_insert_ne|done|].
      destruct Hin as [Hin|Hin]; [left|right].
      * cbn [fmap list_fmap snd] in Hin. by apply elem_of_cons in Hin as [?|?].
      * simpl. rewrite lookup_insert_ne; [done|]. intros E. apply Hne.
        by apply (rg_fds _ _ _ Hw c c0 ch ch0).
  - intros c ch Hch. destruct (decide (c0 = c)) as [->|Hne].
    + assert (ch0 = ch) as -> by congruence.
      destruct (Hchans c ch1) as (ch' & Hch' & Hsame & Hev).
      { by rewrite Hr1, lookup_insert_eq. }
      exists ch'. split_and!; [done| |].
      2:{ by rewrite Hev. }
      unfold same_but_registration in *. etrans; [exact Hsame|]. by destruct ch.
    + destruct (Hchans c ch) as (ch' & Hch' & Hsame & Hev).
      { by rewrite Hr1, lookup_insert_ne. }
      exists ch'. split_and!; [done..|].
      by rewrite Hev.
Qed.

Section room.
Context `{!FdLaws K} `{!EpollRoom K}.

(** On a kernel with room. *)
Lemma run_interest_indexed_wp op c ch l p w :
  loop_ok l p w → r_chans (w_r w) !! c = Some ch → ch_loop ch = l →
  ch_index ch = EPollPoller.kAdded ∨ can_watch p (ch_fd ch) (io_k (w_io w)) →
  wp (run_interest op c) (λ _ w',
    let ch1 := set_ch_addedToLoop true (set_ch_events (events_after op (ch_events ch)) ch) in
    let ch' := set_ch_index (next_index ch1) ch1 in
    loop_ok l (set_ep_channels (<[ch_fd ch := c]> (ep_channels p)) p) w'
    ∧ r_chans (w_r w') = <[c := ch']> (r_chans (w_r w))
    ∧ w' = set_w_r (w_r w') w) w.
Proof.
  intros Hw Hch Hl Hopen. pose proof (loop_ok_registered _ _ _ Hw) as Hr.
  eapply wp_mono; [by eapply run_interest_any_wp|].
  intros [] w' (_ & Hc & E & _ & Hok). split_and!; [|exact Hc|exact E]. apply Hok; [done|].
  destruct Hw as [Hs _ _]. set (ch1 := after_interest op ch).
  assert (synced_with l (Some c) p (set_r_chans (<[c := ch1]> (r_chans (w_r w))) (w_r w)))
    as Hs1 by (eapply synced_touch; eauto).
  apply (control_room l (Some c) p _ c ch1 Hs1); [simpl; by rewrite lookup_insert_eq| |exact Hopen].
  exact (registered_registration _ _ _ _ _ Hr Hch Hl).
Qed.

Lemma run_interest_wp op c ch l p w :
  loop_ok l p w → r_chans (w_r w) !! c = Some ch → ch_loop ch = l →
  ch_index ch = EPollPoller.kAdded ∨ can_watch p (ch_fd ch) (io_k (w_io w)) →
  wp (run_interest op c) (λ _ w', ∃ i,
    let ch' := set_ch_index i (set_ch_addedToLoop true
                 (set_ch_events (events_after op (ch_events ch)) ch)) in
    loop_ok l (set_ep_channels (<[ch_fd ch := c]> (ep_channels p)) p) w'
    ∧ r_chans (w_r w') = <[c := ch']> (r_chans (w_r w))
    ∧ w' = set_w_r (w_r w') w) w.
Proof.
  intros Hw Hch Hl Hopen. eapply wp_mono; [by apply run_interest_indexed_wp|]. intros [] w' H. by eexists.
Qed.

(** [remove] of a channel that wants nothing: epoll forgets it. *)
Lemma remove_synced c ch l p w :
  loop_ok l p w → r_chans (w_r w) !! c = Some ch → ch_loop ch = l →
  ep_channels p !! ch_fd ch = Some c → ch_events ch = kNoneEvent →
  (∀ x, w_loops w !! l = Some x → el_eventHandling x = true →
     el_currentActiveChannel x = Some c ∨ c ∉ el_activeChannels x) →
  wp (remove c) (λ _ w',
    loop_ok l (set_ep_channels (delete (ch_fd ch) (ep_channels p)) p) w'
    ∧ kernel_list (w_r w') p !! ch_fd ch = None
    ∧ r_chans (w_r w') = <[c := set_ch_index EPollPoller.kNew (set_ch_addedToLoop false ch)]>
                           (r_chans (w_r w))
    ∧ w' = set_w_r (w_r w') w) w.
Proof.
  intros [Hs Hfds (x & Hx & Ht)] Hch Hl Hreg Hev Hact. unfold remove.
  assert (isNoneEvent ch = true) as Hnone by (unfold isNoneEvent; rewrite Hev; done).
  apply wp_bind. eapply chan_at_wp; [done|].
  apply wp_bind, wp_assert; [done|].
  apply wp_bind. eapply upd_chan_wp; [done|].
  unfold EventLoop_removeChannel. apply wp_bind.
  eapply chan_at_wp; [simpl; by rewrite lookup_insert_eq|].
  apply wp_bind, wp_assert; [by apply bool_decide_eq_true|]. simpl. rewrite Hl.
  apply wp_bind. eapply assertInLoopThread_here; [done..|].
  apply wp_bind. eapply get_loop_wp; [done|].
  set (ch1 := set_ch_addedToLoop false ch).
  assert (synced_with l None p (set_r_chans (<[c := ch1]> (r_chans (w_r w))) (w_r w)))
    as Hs1 by (eapply synced_touch_events; eauto).
  apply wp_bind, wp_when; intros Heh; [apply wp_assert|].
  { apply orb_true_iff. rewrite !bool_decide_eq_true. eauto. }
  all: apply wp_bind; eapply assertInLoopThread_here; [done..|].
  all: apply in_reactor_wp; eapply wp_mono.
  1,3: apply (removeChannel_synced l _ c ch1 p Hs1); [|done..]; simpl; by rewrite lookup_insert_eq.
  all: intros [] r' (Hs' & Hr' & Hk); simpl in Hr', Hk; rewrite insert_insert_eq in Hr'.
  all: split_and!; [|done|done|done]; split; simpl; [exact Hs'|rewrite Hr'; by eapply fds_insert|eauto].
Qed.

End room.

(** [loop_ok] is a matter of the channels, the poller and what the kernel watches. *)
Lemma loop_ok_frame l p w w' :
  loop_ok l p w → r_chans (w_r w') = r_chans (w_r w) → r_pollers (w_r w') = r_pollers (w_r w) →
  kernel_list (w_r w') p = kernel_list (w_r w) p →
  (∃ x, w_loops w' !! l = Some x ∧ el_threadId x = w_tid w') → loop_ok l p w'.
Proof.
  intros [[H1 H2 H3 H4] Hfds _] Ec Ep Ek Ht. split; [split|by rewrite Ec|done].
  - by rewrite Ep.
  - by rewrite Ec, Ek.
  - by rewrite Ek.
  - by rewrite Ec.
Qed.

(** No channel of the loop has the descriptor. *)
Definition fd_unused (l : ptr) (fd : Z) w : Prop :=
  ∀ q ch, r_chans (w_r w) !! q = Some ch → ch_loop ch = l → ch_fd ch ≠ fd.

Lemma unused_unregistered l p fd w :
  loop_ok l p w → fd_unused l fd w → ep_channels p !! fd = None ∧ kernel_list (w_r w) p !! fd = None.
Proof.
  intros [Hs _ _] Hun. assert (ep_channels p !! fd = None) as Hnone; [|split; [done|by eapply sy_unknown]].
  destruct (ep_channels p !! fd) as [q|] eqn:E; [exfalso|done].
  destruct (sy_registered _ _ _ _ Hs _ _ E) as (ch & Hch & Hfd & Hl & _). by eapply Hun.
Qed.

Lemma loop_ok_new l p q ch w :
  loop_ok l p w → r_chans (w_r w) !! q = None → ch_index ch = EPollPoller.kNew →
  fd_unused l (ch_fd ch) w →
  loop_ok l p (set_w_r (set_r_chans (<[q := ch]> (r_chans (w_r w))) (w_r w)) w).
Proof.
  intros [[H1 H2 H3 H4] Hfds Hth] Hq Hi Hun.
  split; [split|..]; [done| |done| | |done].
  - intros fd q' Hq'. destruct (H2 fd q' Hq') as (ch' & Hch' & Hrest). exists ch'. simpl.
    rewrite lookup_insert_ne; [done|]. congruence.
  - intros q' ch' Hch' Hl Hne. simpl in Hch'. destruct (decide (q = q')) as [<-|Hneq].
    + rewrite lookup_insert_eq in Hch'. by injection Hch' as <-.
    + rewrite lookup_insert_ne in Hch' by done. by eapply H4.
  - intros q1 q2 ch1 ch2 Hq1 Hq2 Hl1 Hl2 E. simpl in *.
    destruct (decide (q = q1)) as [<-|N1], (decide (q = q2)) as [<-|N2].
    + done.
    + rewrite lookup_insert_eq in Hq1. rewrite lookup_insert_ne in Hq2 by done.
      injection Hq1 as <-. by destruct (Hun _ _ Hq2 Hl2).
    + rewrite lookup_insert_eq in Hq2. rewrite lookup_insert_ne in Hq1 by done.
      injection Hq2 as <-. by destruct (Hun _ _ Hq1 Hl1).
    + rewrite lookup_insert_ne in Hq1, Hq2 by done. by eapply Hfds.
Qed.

(** The loop forgets a channel that is not registered. *)
Lemma loop_ok_drop l p q ch w :
  loop_ok l p w → r_chans (w_r w) !! q = Some ch → ch_index ch = EPollPoller.kNew →
  loop_ok l p (set_w_r (set_r_chans (delete q (r_chans (w_r w))) (w_r w)) w).
Proof.
  intros [[H1 H2 H3 H4] Hfds Hth] Hq Hi. split; [split|..]; [done| |done| | |done].
  - intros fd q' Hq'. destruct (H2 fd q' Hq') as (ch' & Hch' & Hfd & Hl & Hwat). exists ch'. simpl.
    destruct (decide (q = q')) as [<-|Hne]; [exfalso|by rewrite lookup_delete_ne].
    assert (ch' = ch) as -> by congruence. destruct Hwat as [[E _]|[E _]]; by rewrite Hi in E.
  - intros q' ch' Hch'. simpl in Hch'. apply lookup_delete_Some in Hch' as [_ ?]. by apply H4.
  - intros q1 q2 ch1 ch2 Hq1 Hq2. simpl in Hq1, Hq2. apply lookup_delete_Some in Hq1 as [_ ?], Hq2 as [_ ?]. by apply Hfds.
Qed.

(** C5: the registration of channels.  Whatever sequence of [enableReading],
    [disableReading], [enableWriting], [disableWriting] and [disableAll] the loop
    thread makes on the loop's channels, and whatever [epoll_ctl] answers, no assertion
    fails, each channel ends with exactly the events the sequence asks for, its other
    members unchanged, the poller has every channel touched under its descriptor, and
    each operation makes one [epoll_ctl] call for its channel.  If all these calls
    succeed, the kernel watches every channel touched for exactly its events (or not at
    all when it wants none) and hands back that channel; after a failure, which
    [EPollPoller::update] only logs, it need not. *)
Theorem interest_ops_keep_epoll_in_step (l : ptr) (p : EPollPoller)
    (ops : list (interest_op * ptr)) w (Hw : loop_ok l p w)
    (Hops : Forall (λ oc, ∃ ch, r_chans (w_r w) !! oc.2 = Some ch ∧ ch_loop ch = l) ops) :
  ∃ w' p' calls, for_each ops (λ oc, run_interest oc.1 oc.2) w = Ok (tt, w')
    ∧ r_pollers (w_r w') !! l = Some p' ∧ ep_epollfd p' = ep_epollfd p
    ∧ io_trace (w_io w') = io_trace (w_io w) ++ calls
    ∧ Forall2 (λ oc cr, ∃ ch o e, r_chans (w_r w) !! oc.2 = Some ch
        ∧ cr.1 = SysEpollCtl (ep_epollfd p) o (ch_fd ch) e oc.2) ops calls
    ∧ (Forall (λ cr, ret cr.2 = 0) calls → loop_ok l p' w')
    ∧ ∀ c ch, r_chans (w_r w) !! c = Some ch → ∃ ch',
        r_chans (w_r w') !! c = Some ch' ∧ same_but_registration ch ch'
        ∧ ch_events ch' = foldl (λ ev oc, if decide (oc.2 = c) then events_after oc.1 ev else ev)
                            (ch_events ch) ops
        ∧ (c ∈ ops.*2 → ep_channels p' !! ch_fd ch = Some c
           ∧ (Forall (λ cr, ret cr.2 = 0) calls →
                kernel_list (w_r w') p' !! ch_fd ch = Some (ch_events ch', c)
                ∨ kernel_list (w_r w') p' !! ch_fd ch = None ∧ ch_events ch' = kNoneEvent)).
Proof.
  destruct (proj1 (wp_run _ _ _) (run_interests_wp _ _ _ _ (loop_ok_registered _ _ _ Hw) Hops))
    as ([] & w' & Hrun & m & calls & Hw' & E & Htr & Hcalls & Hok & Hreg & Hch).
  exists w', (set_ep_channels m p), calls.
  split_and!; [done|by eapply rg_poller|done..|by apply Hok|].
  intros c ch Hc. destruct (Hch c ch Hc) as (ch' & Hc' & Hsame & Hev).
  exists ch'. split_and!; [done..|]. intros Hin.
  assert (m !! ch_fd ch = Some c) as Hm.
  { apply (Hreg c ch Hc); [|by left]. rewrite Forall_forall in Hops.
    apply list_elem_of_fmap in Hin as (oc & -> & Hoc).
    destruct (Hops _ Hoc) as (ch0 & ? & ?). congruence. }
  split; [done|]. intros Hrets.
  destruct (sy_registered _ _ _ _ (lk_synced _ _ _ (Hok Hw Hrets)) _ _ Hm) as (ch0 & H0 & Hfd & _ & Hwat).
  assert (ch0 = ch') as -> by congruence. rewrite <- Hfd.
  destruct Hwat as [(_ & _ & H)|(_ & H & He)]; [left|right]; auto.
Qed.
End interest.

(** ** Dispatch *)

(** The callbacks a set of events runs, in order: close on a hang-up with
    nothing left to read, then error, read and write. *)
Definition dispatch (ch : Channel) : list Callback :=
  let on (mask : Z) := nonzero (Z.land (ch_revents ch) mask) in
  (if on POLLHUP && negb (on POLLIN) then option_list (ch_closeCallback ch) else [])
  ++ (if on POLLERR || on POLLNVAL then option_list (ch_errorCallback ch) else [])
  ++ (if on POLLIN || on POLLPRI || on POLLRDHUP then option_list (ch_readCallback ch) else [])
  ++ (if on POLLOUT then option_list (ch_writeCallback ch) else []).

Lemma nonzero_land_lor e a b :
  nonzero (Z.land e (Z.lor a b)) = nonzero (Z.land e a) || nonzero (Z.land e b).
Proof.
  unfold nonzero. rewrite Z.land_lor_distr_r, <- negb_andb. f_equal.
  apply eq_true_iff_eq. rewrite andb_true_iff, !Z.eqb_eq. apply Z.lor_eq_0_iff.
Qed.

Section dispatch_proofs.
Context {K : Type} `{!OS K} {P : Poller K}.
Context (invoke : Callback → Z → M (World K) unit) (c : ptr) (receiveTime : Z).
Implicit Types w : World K.

(** Channel [c] has the events and callbacks of [ch0]. *)
Definition as_dispatched (ch0 : Channel) w : Prop :=
  ∃ ch, r_chans (w_r w) !! c = Some ch ∧ ch_revents ch = ch_revents ch0
    ∧ ch_closeCallback ch = ch_closeCallback ch0 ∧ ch_errorCallback ch = ch_errorCallback ch0
    ∧ ch_readCallback ch = ch_readCallback ch0 ∧ ch_writeCallback ch = ch_writeCallback ch0.

Definition run_all (l : list Callback) : M (World K) unit :=
  for_each l (λ cb, invoke cb receiveTime).

Context (ch0 : Channel).
Context (Hinvoke : ∀ cb w, as_dispatched ch0 w →
  wlp (invoke cb receiveTime) (λ _ w', as_dispatched ch0 w') w).

Lemma run_all_wlp l w : as_dispatched ch0 w → wlp (run_all l) (λ _ w', as_dispatched ch0 w') w.
Proof using Hinvoke.
  revert w. induction l as [|cb l IH]; intros w Hw; [done|].
  apply wlp_bind. eapply wlp_mono; [by apply Hinvoke|]. intros [] w' Hw'. by apply IH.
Qed.

Lemma run_all_app l1 l2 (k : M (World K) unit) w :
  (run_all (l1 ++ l2);; k) w = (run_all l1;; run_all l2;; k) w.
Proof.
  revert w. induction l1 as [|cb l1 IH]; intros w; [done|].
  unfold run_all in *. cbn [app for_each]. rewrite !bind_run.
  destruct (invoke cb receiveTime w) as [[[] w']|e]; [|done]. apply IH.
Qed.

(** One test of [handleEventWithGuard]. *)
Lemma guarded_call (test : Channel → bool) (sel : Channel → option Callback)
    (k : M (World K) unit) w :
  as_dispatched ch0 w →
  (∀ ch, ch_revents ch = ch_revents ch0 → test ch = test ch0) →
  (∀ ch, ch_closeCallback ch = ch_closeCallback ch0 → ch_errorCallback ch = ch_errorCallback ch0 →
     ch_readCallback ch = ch_readCallback ch0 → ch_writeCallback ch = ch_writeCallback ch0 →
     sel ch = sel ch0) →
  (ch ← chan_at c; when (test ch) (call invoke (sel ch) receiveTime);; k) w
  = (run_all (if test ch0 then option_list (sel ch0) else []);; k) w.
Proof.
  intros (ch & Hch & Hr & H1 & H2 & H3 & H4) Ht Hs.
  rewrite bind_run. unfold chan_at, get_chan, in_reactor, zoom, gets_some. rewrite Hch.
  replace (set_w_r (w_r w) w) with w by (by destruct w).
  rewrite (Ht ch), (Hs ch) by done. rewrite !bind_run.
  destruct (test ch0); [|done]. destruct (sel ch0) as [cb|]; [|done].
  change (run_all (option_list (Some cb)) w) with ((invoke cb receiveTime;; mret tt) w).
  rewrite bind_run. simpl. by destruct (invoke _ _ _) as [[[] w']|].
Qed.

Lemma handleEventWithGuard_run w :
  as_dispatched ch0 w →
  handleEventWithGuard invoke c receiveTime w
  = (upd_chan c (set_ch_eventHandling true);; run_all (dispatch ch0);;
     upd_chan c (set_ch_eventHandling false)) w.
Proof using Hinvoke.
  intros Hw. pose proof Hw as (ch & Hch & Hr & H1 & H2 & H3 & H4).
  assert (wp (upd_chan c (set_ch_eventHandling true)) (λ _ w', as_dispatched ch0 w') w) as Hset.
  { eapply upd_chan_wp; [done|]. exists (set_ch_eventHandling true ch). simpl.
    by rewrite lookup_insert_eq. }
  eapply bind_ext; [by apply wp_wlp|]. clear w Hw ch Hch Hr H1 H2 H3 H4 Hset.
  intros [] w1 Hw1. unfold dispatch. rewrite <- !nonzero_land_lor, run_all_app.
  rewrite (guarded_call (λ ch, nonzero (Z.land (ch_revents ch) POLLHUP)
            && negb (nonzero (Z.land (ch_revents ch) POLLIN))) ch_closeCallback _ w1 Hw1)
    by (cbv beta; intros; congruence).
  eapply bind_ext; [by apply run_all_wlp|]. clear w1 Hw1. intros [] w1 Hw1.
  rewrite run_all_app, (guarded_call (λ ch, nonzero (Z.land (ch_revents ch)
            (Z.lor POLLERR POLLNVAL))) ch_errorCallback _ w1 Hw1) by (cbv beta; intros; congruence).
  eapply bind_ext; [by apply run_all_wlp|]. clear w1 Hw1. intros [] w1 Hw1.
  rewrite run_all_app, (guarded_call (λ ch, nonzero (Z.land (ch_revents ch)
            (Z.lor (Z.lor POLLIN POLLPRI) POLLRDHUP))) ch_readCallback _ w1 Hw1)
    by (cbv beta; intros; congruence).
  eapply bind_ext; [by apply run_all_wlp|]. clear w1 Hw1. intros [] w1 Hw1.
  by rewrite (guarded_call (λ ch, nonzero (Z.land (ch_revents ch) POLLOUT))
            ch_writeCallback _ w1 Hw1) by (cbv beta; intros; congruence).
Qed.
End dispatch_proofs.

(** A state between events, kept by all callbacks of a channel but perhaps the read
    callback: that one takes it from [I] to [J]. *)
Section event_rule.
Context {K : Type} `{!OS K} {P : Poller K}.
Context (invoke : Callback → Z → M (World K) unit) (q : ptr) (t : Z) (B : Channel → Prop).
Implicit Types (w : World K) (I J : World K → Prop).

(** In [I] there is the channel, bound as [B] says; its flag does not matter. *)
Record between_events I : Prop := {
  be_chan : ∀ w, I w → ∃ ch, r_chans (w_r w) !! q = Some ch ∧ B ch;
  be_flag : ∀ b ch w, I w → r_chans (w_r w) !! q = Some ch →
    I (set_w_r (set_r_chans (<[q := set_ch_eventHandling b ch]> (r_chans (w_r w))) (w_r w)) w)
}.

Lemma handleEventWithGuard_wp I J w :
  between_events I → between_events J → (∀ w', I w' → J w') →
  (∀ ch w', B ch → I w' → wp (call invoke (ch_closeCallback ch) t) (λ _, I) w') →
  (∀ ch w', B ch → I w' → wp (call invoke (ch_errorCallback ch) t) (λ _, I) w') →
  (∀ ch w', B ch → I w' → wp (call invoke (ch_readCallback ch) t) (λ _, J) w') →
  (∀ ch w', B ch → J w' → wp (call invoke (ch_writeCallback ch) t) (λ _, J) w') →
  I w → wp (handleEventWithGuard invoke q t) (λ _, J) w.
Proof.
  intros [IC IF] [JC JF] HIJ Hclose Herror Hread Hwrite Hw.
  assert (∀ I' (k : Channel → M (World K) unit) (Q : unit → World K → Prop) w',
    (∀ w', I' w' → ∃ ch, r_chans (w_r w') !! q = Some ch ∧ B ch) → I' w' →
    (∀ ch, B ch → wp (k ch) Q w') → wp (ch ← chan_at q; k ch) Q w') as Hat.
  { intros I' k Q w' HC Hw' Hk. destruct (HC w' Hw') as (ch & Hch & HB).
    apply wp_bind. eapply chan_at_wp; [exact Hch|]. by apply Hk. }
  assert (∀ I' J' (m : M (World K) unit) b w', (b = true → wp m (λ _, J') w') → I' w' →
    (I' w' → J' w') → wp (when b m) (λ _, J') w') as Hwhen
    by (intros I' J' m b w' Hm Hw' HIJ'; apply wp_when; auto).
  destruct (IC w Hw) as (ch & Hch & _). apply wp_bind. eapply upd_chan_wp; [exact Hch|].
  eapply (Hat I); [exact IC|by apply IF|]. intros ch1 B1. apply wp_bind.
  eapply wp_mono; [eapply (Hwhen I I); [intros _; by apply Hclose, IF|by apply IF|done]|]. intros [] w2 H2.
  eapply (Hat I); [exact IC|done|]. intros ch2 B2. apply wp_bind.
  eapply wp_mono; [eapply (Hwhen I I); [intros _; by apply Herror|done|done]|]. intros [] w3 H3.
  eapply (Hat I); [exact IC|done|]. intros ch3 B3. apply wp_bind.
  eapply wp_mono; [eapply (Hwhen I J); [intros _; by apply Hread|done|apply HIJ]|]. intros [] w4 H4.
  eapply (Hat J); [exact JC|done|]. intros ch4 B4. apply wp_bind.
  eapply wp_mono; [eapply (Hwhen J J); [intros _; by apply Hwrite|done|done]|]. intros [] w5 H5.
  destruct (JC w5 H5) as (ch5 & Hch5 & _). eapply upd_chan_wp; [exact Hch5|]. by apply JF.
Qed.
End event_rule.

(** Whether the object a tied channel belongs to is gone. *)
Definition owner_gone {K} (ch : Channel) (w : World K) : bool :=
  ch_tied ch && match ch_tie ch with
                | Some obj => negb (bool_decide (is_Some (w_conns w !! obj)))
                | None => true
                end.

(** The connection a channel keeps while its events are handled. *)
Definition kept (ch : Channel) : list ptr := if ch_tied ch then option_list (ch_tie ch) else [].

(** C14: dispatch of one channel's events.  A tied channel whose owner is gone
    runs nothing; otherwise [handleEvent] runs exactly the callbacks that the
    reported events call for, in the order close, error, read, write, each at
    most once, whatever they do to the rest of the state, with [eventHandling_]
    set around them and the owner of a tied channel held until they are done,
    provided they leave this channel's own callbacks and [revents_] alone. *)
Theorem handleEvent_dispatches {K} `{!OS K} {P : Poller K}
    (invoke : Callback → Z → M (World K) unit) (release : ptr → M (World K) unit)
    (c : ptr) (receiveTime : Z) (ch : Channel) (w : World K) (Hch : r_chans (w_r w) !! c = Some ch)
    (Hinvoke : ∀ cb w', as_dispatched c ch w' →
       wlp (invoke cb receiveTime) (λ _ w'', as_dispatched c ch w'') w') :
  handleEvent invoke release c receiveTime w
  = if owner_gone ch w then Ok (tt, w)
    else (hold (kept ch);;
          (upd_chan c (set_ch_eventHandling true);;
           for_each (dispatch ch) (λ cb, invoke cb receiveTime);;
           upd_chan c (set_ch_eventHandling false));;
          for_each (kept ch) release) w.
Proof.
  set (body := upd_chan c (set_ch_eventHandling true);;
               for_each (dispatch ch) (λ cb, invoke cb receiveTime);;
               upd_chan c (set_ch_eventHandling false)).
  assert (∀ w', as_dispatched c ch w' → handleEventWithGuard invoke c receiveTime w' = body w') as E
    by (intros w' Hw'; by apply (handleEventWithGuard_run invoke c receiveTime ch Hinvoke)).
  assert (∀ cs, as_dispatched c ch (set_w_held (cs ++ w_held w) w)) as Hw by (intros cs; by exists ch).
  unfold handleEvent. rewrite bind_run.
  unfold chan_at, get_chan, in_reactor, zoom, gets_some. rewrite Hch.
  replace (set_w_r (w_r w) w) with w by (by destruct w).
  unfold owner_gone, kept. destruct (ch_tied ch); simpl.
  - unfold lock_tie. rewrite bind_run. unfold gets. destruct (ch_tie ch) as [obj|]; [|done].
    cbn [mbind option_bind]. destruct (decide _) as [Ho|Ho]; [|by rewrite bool_decide_false].
    rewrite bool_decide_true by done. cbn [negb option_list for_each].
    rewrite (bind_run (hold _)), (bind_run (hold _)). unfold hold, modify. cbv beta iota.
    rewrite !bind_run, E by apply Hw. destruct (body _) as [[[] w']|]; [|done].
    change (for_each (option_list (Some obj)) release) with (release obj;; mret tt). rewrite bind_run. cbn [for_each]. by destruct (release obj w') as [[[] ?]|].
  - rewrite bind_run. unfold hold, modify. cbv beta iota. rewrite bind_run, <- E by apply (Hw []).
    cbn [app]. replace (set_w_held (w_held w) w) with w by (by destruct w).
    by destruct (handleEventWithGuard _ _ _ w) as [[[] ?]|].
Qed.

Lemma sample_loop_ok : loop_ok 0%nat sample_poller sample_world.
Proof.
  split.
  - exact sample_synced.
  - intros c c' ch ch' H1 H2 _ _ _. simpl in H1, H2.
    apply lookup_singleton_Some in H1 as [<- _]. by apply lookup_singleton_Some in H2 as [<- _].
  - by exists sample_loop.
Qed.

Lemma interest_ops_keep_epoll_in_step_witness :
  ∃ w', for_each [(EnableWriting, 1%nat); (DisableAll, 1%nat); (EnableReading, 1%nat)]
          (λ oc, run_interest oc.1 oc.2) sample_world = Ok (tt, w')
    ∧ kernel_list (w_r w') sample_poller !! 5 = Some (3, 1%nat).
Proof.
  destruct (interest_ops_keep_epoll_in_step 0%nat sample_poller
    [(EnableWriting, 1%nat); (DisableAll, 1%nat); (EnableReading, 1%nat)] sample_world
    sample_loop_ok) as (w' & p' & calls & Hrun & _).
  { repeat (constructor; [exists sample_chan; split; reflexivity|]). constructor. }
  exists w'. split; [exact Hrun|].
  assert (match for_each [(EnableWriting, 1%nat); (DisableAll, 1%nat); (EnableReading, 1%nat)]
    (λ oc, run_interest oc.1 oc.2) sample_world with
    | Ok (_, w) => kernel_list (w_r w) sample_poller !! 5 = Some (3, 1%nat)
    | Fault _ => False end) as E by (vm_compute; reflexivity).
  by rewrite Hrun in E.
Defined.

Lemma handleEvent_dispatches_witness :
  let ch := mkChannel 0%nat 5 3 (POLLIN + POLLERR) EPollPoller.kAdded true None false false true
              (Some (CbUser 1)) (Some (CbUser 2)) (Some (CbUser 3)) (Some (CbUser 4)) in
  let w := set_w_r (set_r_chans {[1%nat := ch]} sample_reactor) sample_world in
  ∃ w', handleEvent
          (λ cb t, match cb with CbUser i => user_call (UcChannel i t) | _ => mret tt end)
          (λ _, mret tt) 1%nat 50 w = Ok (tt, w')
    ∧ w_calls w' = [UcChannel 4 50; UcChannel 1 50].
Proof.
  intros ch w.
  rewrite (handleEvent_dispatches _ _ 1%nat 50 ch w).
  - eexists. split; vm_compute; reflexivity.
  - reflexivity.
  - intros [] w' Hw'; exact Hw'.
Defined.
