(* ===== verification/TimerQueue.v ===== *)
(** * TimerQueue: timers (Timer.h, Timer.cpp, TimerQueue.h, TimerQueue.cpp, TimerId.h)

    A [TimerQueue] keeps its timers in a [std::set] ordered by expiration and
    arms one [timerfd] for the earliest.  The set is modelled by the list of its
    elements in order; as [TimerCmp] compares expirations only, two timers with
    the same expiration are the same element for it.  [run_timer] is how a
    timer's callback runs. *)
From S2P Require Import Prelude Endian OS Double Objects Poller LoopCore Channel.
From Stdlib Require Import Sorted.

Set Default Goal Selector "!".

(** ** Time: [system_clock] ticks are nanoseconds *)

Definition ns_per_ms : Z := 1000000.
Definition ns_per_us : Z := 1000.

(** [TimerId]: the timer and its sequence number. *)
Record TimerId : Type := mkTimerId { ti_timer : ptr; ti_sequence : Z }.

(** [struct timespec] *)
Record timespec : Type := mkTimespec { tv_sec : Z; tv_nsec : Z }.

(** [howMuchTimeFromNow], after reading the clock. *)
Definition timespec_until (when_ now : Z) : timespec :=
  let microseconds := (when_ - now) `quot` ns_per_us in
  let microseconds := Z.max microseconds 100 in
  mkTimespec ((microseconds `quot` 1000) `quot` 1000)
             ((microseconds `rem` (1000 * 1000)) * 1000).

(** [milliseconds(static_cast<int64_t>(x * 1000))] in ticks. *)
Definition ms_of_seconds (x : double) : option Z :=
  (λ n, n * ns_per_ms) <$> double_trunc (double_mul x (double_of_Z 1000)).

Section timers.
Context {K : Type} `{!OS K} {P : Poller K}.

Definition system_clock_now : M (World K) Z := r ← syscall_ SysNow; mret (ret r).

(** Converting a [double] that [int64_t] cannot hold is undefined. *)
Definition seconds_to_ms (x : double) : M (World K) Z :=
  gets_some "static_cast<int64_t>" (λ _, ms_of_seconds x).

(** ** Timer *)

(** [s_numCreated_.fetch_add(1)] *)
Definition fetch_add_numCreated : M (World K) Z := λ w,
  Ok (w_numCreated w, set_w_numCreated (i64 (w_numCreated w + 1)) w).

Definition Timer_ctor (cb : TimerCallback) (when_ : Z) (interval : double) : M (World K) Timer :=
  sequence ← fetch_add_numCreated;
  mret (mkTimer cb when_ interval (double_pos interval) sequence).

Definition Timer_restart (t : ptr) (now : Z) : M (World K) unit :=
  x ← get_timer t;
  if tm_repeat x then
    duration ← seconds_to_ms (tm_interval x);
    put_timer t (set_tm_expiration (now + duration) x)
  else
    n ← system_clock_now;
    put_timer t (set_tm_expiration n x).

Definition delete_timer (t : ptr) : M (World K) unit :=
  _ ← get_timer t; modify (λ w, set_w_timers (delete t (w_timers w)) w).

(** ** The set *)

(** [timers_.insert(timer)]: nothing happens when the set has an equivalent
    element. *)
Fixpoint set_insert (timers : list ptr) (timer : ptr) (when_ : Z) : M (World K) (list ptr) :=
  match timers with
  | [] => mret [timer]
  | t :: ts =>
      x ← get_timer t;
      if tm_expiration x <? when_ then ts' ← set_insert ts timer when_; mret (t :: ts')
      else if when_ <? tm_expiration x then mret (timer :: t :: ts)
      else mret (t :: ts)
  end.

(** The elements before and from [timers_.upper_bound(sentry)]. *)
Fixpoint split_upper_bound (timers : list ptr) (when_ : Z) : M (World K) (list ptr * list ptr) :=
  match timers with
  | [] => mret ([], [])
  | t :: ts =>
      x ← get_timer t;
      if when_ <? tm_expiration x then mret ([], t :: ts)
      else '(before, from) ← split_upper_bound ts when_; mret (t :: before, from)
  end.

(** ** The free functions of [siren::net::detail] *)

Definition createTimerfd : M (World K) Z :=
  r ← syscall_ SysTimerfdCreate;
  when (ret r <? 0) (LOG_ERROR "Failed in timerfd_create");;
  mret (ret r).

Definition readTimerfd (timerfd now : Z) : M (World K) unit :=
  r ← syscall_ (SysRead timerfd 8);
  when (negb (ret r =? 8)) (LOG_ERROR "TimerQueue::handleRead()").

Definition howMuchTimeFromNow (when_ : Z) : M (World K) timespec :=
  now ← system_clock_now; mret (timespec_until when_ now).

Definition resetTimerfd (timerfd expiration : Z) : M (World K) unit :=
  ts ← howMuchTimeFromNow expiration;
  r ← syscall_ (SysTimerfdSettime timerfd (tv_sec ts) (tv_nsec ts));
  when (nonzero (ret r)) (LOG_ERROR "timerfd_settime(...)").

(** ** TimerQueue: the queue of loop [l] *)

Definition get_queue (l : ptr) : M (World K) TimerQueue :=
  x ← get_loop l; mret (el_timerQueue x).
Definition upd_queue (l : ptr) (f : TimerQueue → TimerQueue) : M (World K) unit :=
  upd_loop l (λ x, set_el_timerQueue (f (el_timerQueue x)) x).

(** [callingExpiredTimers_] is left uninitialised: [indeterminate] is its value. *)
Definition TimerQueue_ctor (l : ptr) (indeterminate : bool) : M (World K) unit :=
  timerfd ← createTimerfd;
  c ← fresh;
  in_reactor (put_chan c (Channel_ctor l timerfd));;
  upd_queue l (λ _, mkTimerQueue indeterminate timerfd c []);;
  upd_chan c (set_ch_readCallback (Some (CbTimerQueue_handleRead l)));;
  enableReading c.

Definition TimerQueue_dtor (l : ptr) : M (World K) unit :=
  q ← get_queue l;
  disableAll (tq_timerfdChannel q);;
  remove (tq_timerfdChannel q);;
  _ ← syscall_ (SysClose (tq_timerfd q));
  for_each (tq_timers q) delete_timer;;
  Channel_dtor (tq_timerfdChannel q).

Definition insert (l timer : ptr) : M (World K) bool :=
  assertInLoopThread l;;
  x ← get_timer timer;
  let when_ := tm_expiration x in
  q ← get_queue l;
  earliestChanged ←
    match tq_timers q with
    | [] => mret true
    | t :: _ => y ← get_timer t; mret (when_ <? tm_expiration y)
    end;
  timers ← set_insert (tq_timers q) timer when_;
  upd_queue l (set_tq_timers timers);;
  mret earliestChanged.

Definition addTimerInLoop (l timer : ptr) : M (World K) unit :=
  assertInLoopThread l;;
  earliestChanged ← insert l timer;
  when earliestChanged
    (q ← get_queue l;
     x ← get_timer timer;
     resetTimerfd (tq_timerfd q) (tm_expiration x)).

(** [interval] is an [int64_t] here, whatever the caller had. *)
Definition addTimer (l : ptr) (cb : TimerCallback) (when_ interval : Z) : M (World K) TimerId :=
  timer ← fresh;
  x ← Timer_ctor cb when_ (double_of_Z interval);
  put_timer timer x;;
  runInLoop l (FnTimerQueue_addTimerInLoop l timer) (addTimerInLoop l timer);;
  x ← get_timer timer;
  mret (mkTimerId timer (tm_sequence x)).

(** Empty in the source. *)
Definition cancel (l : ptr) (timerId : TimerId) : M (World K) unit := mret tt.

Definition getExpired (l : ptr) (now : Z) : M (World K) (list ptr) :=
  q ← get_queue l;
  match tq_timers q with
  | [] => mret []
  | _ =>
      sentry ← Timer_ctor TcbEmpty now (double_of_Z 0);
      '(expired, rest) ← split_upper_bound (tq_timers q) (tm_expiration sentry);
      upd_queue l (set_tq_timers rest);;
      mret expired
  end.

Definition reset (l : ptr) (expired : list ptr) (now : Z) : M (World K) unit :=
  for_each expired (λ t,
    x ← get_timer t;
    if tm_repeat x then Timer_restart t now;; _ ← insert l t; mret tt
    else delete_timer t);;
  q ← get_queue l;
  match tq_timers q with
  | [] => mret tt
  | t :: _ => x ← get_timer t; resetTimerfd (tq_timerfd q) (tm_expiration x)
  end.

Definition TimerQueue_handleRead (run_timer : TimerCallback → M (World K) unit) (l : ptr)
    : M (World K) unit :=
  assertInLoopThread l;;
  now ← system_clock_now;
  q ← get_queue l;
  readTimerfd (tq_timerfd q) now;;
  expired ← getExpired l now;
  upd_queue l (set_tq_callingExpiredTimers true);;
  for_each expired (λ t, x ← get_timer t; run_timer (tm_callback x));;
  upd_queue l (set_tq_callingExpiredTimers false);;
  reset l expired now.

(** ** The timers of EventLoop.cpp *)

Definition runAt (l : ptr) (time : Z) (cb : TimerCallback) : M (World K) TimerId :=
  addTimer l cb time 0.

Definition runAfter (l : ptr) (delay : double) (cb : TimerCallback) : M (World K) TimerId :=
  now ← system_clock_now;
  d ← seconds_to_ms delay;
  runAt l (now + d) cb.

(** The [double] interval becomes [addTimer]'s [int64_t]. *)
Definition runEvery (l : ptr) (interval : double) (cb : TimerCallback) : M (World K) TimerId :=
  now ← system_clock_now;
  d ← seconds_to_ms interval;
  n ← gets_some "static_cast<int64_t>" (λ _, double_trunc interval);
  addTimer l cb (now + d) n.
End timers.

(** ** The set, abstractly *)

(** The expiration the set compares [t] by. *)
Definition exp_of (tm : gmap ptr Timer) (t : ptr) : Z := default 0 (tm_expiration <$> tm !! t).

Section ordered.
Context (key : ptr → Z).

Fixpoint insert_by (t : ptr) (ts : list ptr) : list ptr :=
  match ts with
  | [] => [t]
  | u :: us => if key u <? key t then u :: insert_by t us
               else if key t <? key u then t :: u :: us else u :: us
  end.

Definition sorted_by (ts : list ptr) : Prop := StronglySorted (λ t u, key t < key u) ts.

Lemma insert_by_elem t ts u : u ∈ insert_by t ts → u = t ∨ u ∈ ts.
Proof.
  induction ts as [|v ts IH]; simpl.
  - intros ->%list_elem_of_singleton. by left.
  - destruct (key v <? key t), (key t <? key v); rewrite ?elem_of_cons; tauto.
Qed.

Lemma insert_by_keeps t ts u : u ∈ ts → u ∈ insert_by t ts.
Proof.
  induction ts as [|v ts IH]; simpl; [by intros ?%elem_of_nil|].
  destruct (key v <? key t), (key t <? key v); rewrite ?elem_of_cons; tauto.
Qed.

Lemma insert_by_sorted t ts : sorted_by ts → sorted_by (insert_by t ts).
Proof.
  unfold sorted_by. induction 1 as [|v ts Hs IH Hv]; simpl; [by repeat constructor|].
  destruct (Z.ltb_spec (key v) (key t)).
  { constructor; [done|]. apply Forall_forall. intros u [->|Hu]%insert_by_elem; [done|].
    by eapply Forall_forall in Hv. }
  destruct (Z.ltb_spec (key t) (key v)); [|by constructor].
  constructor; [by constructor|]. constructor; [done|].
  eapply Forall_impl; [exact Hv|]. simpl. lia.
Qed.

(** A fresh expiration is inserted, one the set already has is not. *)
Lemma insert_by_new t ts :
  (∀ u, u ∈ ts → key u ≠ key t) → insert_by t ts ≡ₚ t :: ts.
Proof.
  induction ts as [|v ts IH]; intros Hne; simpl; [done|].
  assert (key v ≠ key t) as Hv by (apply Hne; left).
  destruct (Z.ltb_spec (key v) (key t)).
  { rewrite IH; [by constructor|]. intros u Hu. apply Hne. by right. }
  destruct (Z.ltb_spec (key t) (key v)); [done|lia].
Qed.

Lemma insert_by_dup t ts u :
  sorted_by ts → u ∈ ts → key u = key t → insert_by t ts = ts.
Proof.
  unfold sorted_by. induction 1 as [|v ts Hs IH Hv]; simpl; [by intros ?%elem_of_nil|].
  intros [->|Hu]%elem_of_cons He.
  - rewrite He, Z.ltb_irrefl. done.
  - assert (key v < key u) by (by eapply Forall_forall in Hv).
    destruct (Z.ltb_spec (key v) (key t)); [|lia]. by rewrite IH.
Qed.

(** Either way the set has a timer with this expiration afterwards. *)
Lemma insert_by_served t ts : ∃ u, u ∈ insert_by t ts ∧ key u = key t.
Proof.
  induction ts as [|v ts (u & Hu & He)]; simpl.
  { exists t. split; [by left|done]. }
  destruct (Z.ltb_spec (key v) (key t)).
  { exists u. split; [by right|done]. }
  destruct (Z.ltb_spec (key t) (key v)).
  - exists t. split; [by left|done].
  - exists v. split; [by left|lia].
Qed.

Definition due (now : Z) (ts : list ptr) : list ptr := filter (λ t, key t ≤ now) ts.
Definition pending (now : Z) (ts : list ptr) : list ptr := filter (λ t, now < key t) ts.

Lemma sorted_by_filter (Q : ptr → Prop) `{∀ t, Decision (Q t)} ts :
  sorted_by ts → sorted_by (filter Q ts).
Proof.
  unfold sorted_by. induction 1 as [|v ts Hs IH Hv]; [constructor|].
  rewrite filter_cons. case_decide; [|done]. constructor; [done|].
  apply Forall_forall. intros u [_ Hu]%list_elem_of_filter. by eapply Forall_forall in Hv.
Qed.
End ordered.

Lemma insert_by_ext key key' t ts :
  key t = key' t → (∀ u, u ∈ ts → key u = key' u) → insert_by key t ts = insert_by key' t ts.
Proof.
  intros Ht. induction ts as [|v ts IH]; intros Hu; simpl; [done|].
  rewrite Ht, (Hu v) by (by left). rewrite IH; [done|]. intros u Hin. apply Hu. by right.
Qed.

Lemma sorted_by_ext key key' ts :
  (∀ u, u ∈ ts → key u = key' u) → sorted_by key ts → sorted_by key' ts.
Proof.
  unfold sorted_by. intros Hu. induction 1 as [|v ts Hs IH Hv]; constructor.
  - apply IH. intros u Hin. apply Hu. by right.
  - apply Forall_forall. intros u Hin. rewrite <- (Hu u), <- (Hu v) by (rewrite elem_of_cons; auto).
    by eapply Forall_forall in Hv.
Qed.

(** ** Rules *)

Section timer_rules.
Context {K : Type} `{!OS K} {P : Poller K}.
Implicit Types w : World K.

(** What the timerfd is told for [when_] at time [now]. *)
Definition arm (fd when_ now : Z) : syscall :=
  SysTimerfdSettime fd (tv_sec (timespec_until when_ now)) (tv_nsec (timespec_until when_ now)).

Lemma get_timer_wp t x (Q : Timer → World K → Prop) w :
  w_timers w !! t = Some x → Q x w → wp (get_timer t) Q w.
Proof. intros H HQ. by eapply wp_gets_some. Qed.

Lemma get_queue_wp l x (Q : TimerQueue → World K → Prop) w :
  w_loops w !! l = Some x → Q (el_timerQueue x) w → wp (get_queue l) Q w.
Proof. intros H HQ. apply wp_bind. by eapply get_loop_wp. Qed.

Lemma upd_queue_wp l f x (Q : unit → World K → Prop) w :
  w_loops w !! l = Some x →
  Q tt (set_w_loops (<[l := set_el_timerQueue (f (el_timerQueue x)) x]> (w_loops w)) w) →
  wp (upd_queue l f) Q w.
Proof. intros H HQ. by eapply upd_loop_wp. Qed.

Lemma system_clock_now_wp (Q : Z → World K → Prop) w :
  (∀ r k err, os_call SysNow (io_k (w_io w)) = (r, k) →
     Q (ret r) (with_io (mkIO k (io_trace (w_io w) ++ [(SysNow, r)]) err (io_log (w_io w))) w)) →
  wp system_clock_now Q w.
Proof. intros HQ. apply wp_bind, syscall_wp. intros r k Hk. apply wp_ret. by eapply HQ. Qed.

Lemma resetTimerfd_wp fd e (Q : unit → World K → Prop) w :
  (∀ io now res, io_trace io = io_trace (w_io w) ++ [(SysNow, now); (arm fd e (ret now), res)] →
     Q tt (with_io io w)) →
  wp (resetTimerfd fd e) Q w.
Proof.
  intros HQ. apply wp_bind. apply wp_bind, system_clock_now_wp. intros n k err Hk.
  apply wp_ret. cbv beta. apply wp_bind, syscall_wp. intros res k' Hk'. simpl in *.
  apply wp_when; intros _.
  - apply LOG_ERROR_wp. simpl. eapply (HQ (mkIO _ _ _ _) n res). simpl. by rewrite <- app_assoc.
  - eapply (HQ (mkIO _ _ _ _) n res). simpl. by rewrite <- app_assoc.
Qed.

Lemma readTimerfd_wp fd now (Q : unit → World K → Prop) w :
  (∀ io r, io_trace io = io_trace (w_io w) ++ [(SysRead fd 8, r)] → Q tt (with_io io w)) →
  wp (readTimerfd fd now) Q w.
Proof.
  intros HQ. apply wp_bind, syscall_wp. intros r k Hk. apply wp_when; intros _.
  - apply LOG_ERROR_wp. by eapply (HQ (mkIO k _ _ _) r).
  - by eapply (HQ (mkIO k _ _ _) r).
Qed.

(** Every element of the list is a timer that still exists. *)
Definition alive (tm : gmap ptr Timer) (ts : list ptr) : Prop :=
  Forall (λ t, is_Some (tm !! t)) ts.

Lemma exp_of_eq tm t x : tm !! t = Some x → exp_of tm t = tm_expiration x.
Proof. unfold exp_of. by intros ->. Qed.

Lemma set_insert_wp t x ts : ∀ (Q : list ptr → World K → Prop) w,
  alive (w_timers w) ts → w_timers w !! t = Some x →
  Q (insert_by (exp_of (w_timers w)) t ts) w →
  wp (set_insert ts t (tm_expiration x)) Q w.
Proof.
  induction ts as [|u ts IH]; intros Q w Hal Ht HQ; simpl in *; [by apply wp_ret|].
  apply Forall_cons in Hal as [[y Hy] Hal].
  apply wp_bind. eapply get_timer_wp; [done|].
  rewrite (exp_of_eq _ _ _ Ht), (exp_of_eq _ _ _ Hy) in HQ.
  destruct (tm_expiration y <? tm_expiration x).
  { apply wp_bind. eapply IH; [done..|]. by apply wp_ret. }
  destruct (tm_expiration x <? tm_expiration y); by apply wp_ret.
Qed.

Lemma split_upper_bound_wp now ts : ∀ (Q : list ptr * list ptr → World K → Prop) w,
  alive (w_timers w) ts → sorted_by (exp_of (w_timers w)) ts →
  Q (due (exp_of (w_timers w)) now ts, pending (exp_of (w_timers w)) now ts) w →
  wp (split_upper_bound ts now) Q w.
Proof.
  unfold due, pending.
  induction ts as [|u ts IH]; intros Q w Hal Hs HQ; simpl in *; [by apply wp_ret|].
  apply Forall_cons in Hal as [[y Hy] Hal].
  apply StronglySorted_inv in Hs as [Hs Hu].
  apply wp_bind. eapply get_timer_wp; [done|].
  rewrite !filter_cons, !(exp_of_eq _ _ _ Hy) in HQ. rewrite (exp_of_eq _ _ _ Hy) in Hu.
  destruct (Z.ltb_spec now (tm_expiration y)).
  - rewrite decide_False, decide_True in HQ by lia. apply wp_ret.
    rewrite (filter_none (λ t, exp_of (w_timers w) t ≤ now)) in HQ.
    2:{ eapply Forall_impl; [exact Hu|]. simpl. lia. }
    rewrite (filter_all (λ t, now < exp_of (w_timers w) t)) in HQ; [done|].
    eapply Forall_impl; [exact Hu|]. simpl. lia.
  - rewrite decide_True, decide_False in HQ by lia.
    apply wp_bind. eapply IH; [done..|]. by apply wp_ret.
Qed.
End timer_rules.

Section queue_rules.
Context {K : Type} `{!OS K} {P : Poller K}.
Implicit Types w : World K.

(** Loop [l], run by its own thread, with a queue of live timers in strictly
    increasing order of expiration. *)
Definition queue_ok (l : ptr) (x : EventLoop) w : Prop :=
  w_loops w !! l = Some x ∧ el_threadId x = w_tid w
  ∧ alive (w_timers w) (tq_timers (el_timerQueue x))
  ∧ sorted_by (exp_of (w_timers w)) (tq_timers (el_timerQueue x)).

Definition set_timers (ts : list ptr) (x : EventLoop) : EventLoop :=
  set_el_timerQueue (set_tq_timers ts (el_timerQueue x)) x.

Lemma set_timers_id x : set_timers (tq_timers (el_timerQueue x)) x = x.
Proof. by destruct x as [???????? []]. Qed.

Definition earlier (tm : gmap ptr Timer) (t : ptr) (ts : list ptr) : bool :=
  match ts with [] => true | u :: _ => exp_of tm t <? exp_of tm u end.

Lemma insert_wp l t e x (Q : bool → World K → Prop) w :
  queue_ok l x w → w_timers w !! t = Some e →
  let ts := tq_timers (el_timerQueue x) in
  Q (earlier (w_timers w) t ts)
    (set_w_loops (<[l := set_timers (insert_by (exp_of (w_timers w)) t ts) x]> (w_loops w)) w) →
  wp (insert l t) Q w.
Proof.
  cbv zeta. intros (Hl & Hth & Hal & Hs) Ht HQ. unfold insert.
  apply wp_bind. eapply assertInLoopThread_here; [done..|].
  apply wp_bind. eapply get_timer_wp; [done|]. cbv zeta.
  apply wp_bind. eapply get_queue_wp; [done|].
  apply wp_bind.
  assert (∀ R : bool → World K → Prop, R (earlier (w_timers w) t (tq_timers (el_timerQueue x))) w →
    wp (match tq_timers (el_timerQueue x) with
        | [] => mret true
        | u :: _ => y ← get_timer u; mret (tm_expiration e <? tm_expiration y)
        end) R w) as Hfirst.
  { intros R HR. destruct (tq_timers (el_timerQueue x)) as [|u us]; [by apply wp_ret|].
    apply Forall_cons in Hal as [[y Hy] _].
    apply wp_bind. eapply get_timer_wp; [done|]. apply wp_ret. unfold earlier in HR.
    by rewrite (exp_of_eq _ _ _ Ht), (exp_of_eq _ _ _ Hy) in HR. }
  apply Hfirst. apply wp_bind. eapply set_insert_wp; [done..|].
  apply wp_bind. eapply upd_queue_wp; [done|]. by apply wp_ret.
Qed.

Lemma queue_ok_insert l x t w :
  queue_ok l x w → is_Some (w_timers w !! t) →
  let ts := insert_by (exp_of (w_timers w)) t (tq_timers (el_timerQueue x)) in
  queue_ok l (set_timers ts x) (set_w_loops (<[l := set_timers ts x]> (w_loops w)) w).
Proof.
  cbv zeta. intros (Hl & Hth & Hal & Hs) Ht. split_and!; simpl.
  - by rewrite lookup_insert_eq.
  - done.
  - apply Forall_forall. intros u [->|Hu]%insert_by_elem; [done|]. by eapply Forall_forall in Hal.
  - by apply insert_by_sorted.
Qed.

Lemma addTimerInLoop_wp l t e x (Q : unit → World K → Prop) w :
  queue_ok l x w → w_timers w !! t = Some e →
  let ts := tq_timers (el_timerQueue x) in
  (∀ io calls, io_trace io = io_trace (w_io w) ++ calls →
     (if earlier (w_timers w) t ts
      then ∃ now res, calls = [(SysNow, now);
             (arm (tq_timerfd (el_timerQueue x)) (tm_expiration e) (ret now), res)]
      else calls = []) →
     Q tt (with_io io (set_w_loops
        (<[l := set_timers (insert_by (exp_of (w_timers w)) t ts) x]> (w_loops w)) w))) →
  wp (addTimerInLoop l t) Q w.
Proof.
  cbv zeta. intros Hq Ht HQ. pose proof Hq as (Hl & Hth & Hal & Hs).
  apply wp_bind. eapply assertInLoopThread_here; [done..|].
  apply wp_bind. eapply insert_wp; [done..|].
  set (w1 := set_w_loops _ w).
  apply wp_when; intros Hb; rewrite Hb in HQ.
  - apply wp_bind. eapply get_queue_wp; [simpl; by rewrite lookup_insert_eq|].
    apply wp_bind. eapply get_timer_wp; [done|]. simpl.
    apply resetTimerfd_wp. intros io now res Htr. eapply HQ; [exact Htr|eauto].
  - rewrite <- (with_io_id w1). eapply HQ; [by rewrite app_nil_r|done].
Qed.

Lemma getExpired_wp l now x (Q : list ptr → World K → Prop) w :
  queue_ok l x w →
  let ts := tq_timers (el_timerQueue x) in
  (∀ n, Q (due (exp_of (w_timers w)) now ts)
    (set_w_loops (<[l := set_timers (pending (exp_of (w_timers w)) now ts) x]> (w_loops w))
       (set_w_numCreated n w))) →
  wp (getExpired l now) Q w.
Proof.
  cbv zeta. intros (Hl & Hth & Hal & Hs) HQ. unfold getExpired.
  apply wp_bind. eapply get_queue_wp; [done|].
  destruct (tq_timers (el_timerQueue x)) as [|t ts] eqn:E.
  { apply wp_ret. specialize (HQ (w_numCreated w)).
    unfold due, pending in HQ. rewrite !filter_nil in HQ.
    pose proof (set_timers_id x) as Hid. rewrite E in Hid. rewrite Hid in HQ. rewrite insert_id in HQ by done. by destruct w. }
  apply wp_bind. apply wp_bind. unfold fetch_add_numCreated. unfold wp at 1. apply wp_ret.
  cbn [tm_expiration]. apply wp_bind. rewrite <- E in *. eapply split_upper_bound_wp; [done..|].
  cbv beta iota. apply wp_bind. eapply upd_queue_wp; [done|]. by apply wp_ret.
Qed.
End queue_rules.

(** ** One round of expired timers *)

(** What [reset] does with one expired timer: a repeating one is moved to [now]
    plus its interval and put back, any other one is freed. *)
Definition reset_one (now : Z) (s : gmap ptr Timer * list ptr) (t : ptr)
    : gmap ptr Timer * list ptr :=
  match s.1 !! t with
  | Some x =>
      if tm_repeat x then
        let tm := <[t := set_tm_expiration (now + default 0 (ms_of_seconds (tm_interval x))) x]> s.1 in
        (tm, insert_by (exp_of tm) t s.2)
      else (delete t s.1, s.2)
  | None => s
  end.

Definition reset_all (now : Z) (expired : list ptr) (s : gmap ptr Timer * list ptr) :=
  foldl (reset_one now) s expired.

Lemma exp_of_other (tm : gmap ptr Timer) t x u : u ≠ t → exp_of (<[t := x]> tm) u = exp_of tm u.
Proof. intros Hne. unfold exp_of. by rewrite lookup_insert_ne. Qed.

Lemma reset_one_other now s t u : u ≠ t → (reset_one now s t).1 !! u = s.1 !! u.
Proof.
  intros Hne. unfold reset_one. destruct (s.1 !! t) as [x|]; [|done].
  destruct (tm_repeat x); simpl; [by rewrite lookup_insert_ne|by rewrite lookup_delete_ne].
Qed.

Lemma reset_one_queue now s t u : u ∈ (reset_one now s t).2 → u = t ∨ u ∈ s.2.
Proof.
  unfold reset_one. destruct (s.1 !! t) as [x|]; [|by right].
  destruct (tm_repeat x); simpl; [apply insert_by_elem|by right].
Qed.

Lemma reset_one_keeps now s t u : u ∈ s.2 → u ∈ (reset_one now s t).2.
Proof.
  unfold reset_one. destruct (s.1 !! t) as [x|]; [|done].
  destruct (tm_repeat x); simpl; [apply insert_by_keeps|done].
Qed.

Lemma reset_all_other now expired : ∀ s u,
  u ∉ expired → (reset_all now expired s).1 !! u = s.1 !! u.
Proof.
  unfold reset_all. induction expired as [|t l IH]; intros s u Hu; simpl; [done|].
  apply not_elem_of_cons in Hu as [Hne Hu]. by rewrite IH, reset_one_other.
Qed.

Lemma reset_all_queue now expired : ∀ s u,
  u ∈ (reset_all now expired s).2 → u ∈ expired ∨ u ∈ s.2.
Proof.
  unfold reset_all. induction expired as [|t l IH]; intros s u Hu; simpl in *; [by right|].
  rewrite elem_of_cons. destruct (IH _ _ Hu) as [H|H]; [by auto|].
  apply reset_one_queue in H as [->|H]; auto.
Qed.

Lemma reset_all_keeps now expired : ∀ s u, u ∈ s.2 → u ∈ (reset_all now expired s).2.
Proof.
  unfold reset_all. induction expired as [|t l IH]; intros s u Hu; simpl; [done|].
  by apply IH, reset_one_keeps.
Qed.

(** A one-shot timer is gone afterwards. *)
Lemma reset_all_once now expired : ∀ s t x,
  NoDup expired → t ∈ expired → t ∉ s.2 → s.1 !! t = Some x → tm_repeat x = false →
  (reset_all now expired s).1 !! t = None ∧ t ∉ (reset_all now expired s).2.
Proof.
  unfold reset_all. induction expired as [|u l IH]; intros s t x Hnd Hin Hq Ht Hr; simpl.
  { by apply elem_of_nil in Hin. }
  apply NoDup_cons in Hnd as [Hu Hnd]. apply elem_of_cons in Hin as [->|Hin].
  - assert (reset_one now s u = (delete u s.1, s.2)) as -> by (unfold reset_one; by rewrite Ht, Hr).
    split.
    + etrans; [by apply reset_all_other|]. simpl. by rewrite lookup_delete_eq.
    + by intros [H|H]%reset_all_queue.
  - eapply IH; [done|done| | |done].
    + intros [->|H]%reset_one_queue; done.
    + rewrite reset_one_other; [done|]. by intros ->.
Qed.

(** A repeating timer has its next expiration, and the queue serves that time. *)
Lemma reset_all_repeat now expired : ∀ s t x d,
  NoDup expired → (∀ u, u ∈ expired → u ∉ s.2) → t ∈ expired →
  s.1 !! t = Some x → tm_repeat x = true → ms_of_seconds (tm_interval x) = Some d →
  (reset_all now expired s).1 !! t = Some (set_tm_expiration (now + d) x)
  ∧ ∃ u, u ∈ (reset_all now expired s).2
         ∧ exp_of (reset_all now expired s).1 u = now + d.
Proof.
  induction expired as [|v l IH]; intros s t x d Hnd Hdis Hin Ht Hr Hd.
  { by apply elem_of_nil in Hin. }
  change (reset_all now (v :: l) s) with (reset_all now l (reset_one now s v)).
  apply NoDup_cons in Hnd as [Hv Hnd]. apply elem_of_cons in Hin as [->|Hin].
  - set (tm := <[v := set_tm_expiration (now + d) x]> s.1).
    assert (reset_one now s v = (tm, insert_by (exp_of tm) v s.2)) as ->
      by (unfold reset_one; by rewrite Ht, Hr, Hd).
    assert (tm !! v = Some (set_tm_expiration (now + d) x)) as Hvx
      by (unfold tm; by rewrite lookup_insert_eq).
    split; [by etrans; [apply reset_all_other|]|].
    destruct (insert_by_served (exp_of tm) v s.2) as (u & Hu & He).
    exists u. split; [by apply reset_all_keeps|].
    rewrite (exp_of_eq _ _ _ Hvx) in He. simpl in He. rewrite <- He.
    unfold exp_of at 1. rewrite reset_all_other; [done|].
    apply insert_by_elem in Hu as [->|Hu]; [done|]. intros Hul.
    eapply Hdis; [by right|exact Hu].
  - eapply IH; [done| |done| |done|done].
    + intros u Hu [->|H]%reset_one_queue; [done|]. by eapply Hdis; [right|].
    + rewrite reset_one_other; [done|]. by intros ->.
Qed.

Section round.
Context {K : Type} `{!OS K} {P : Poller K}.
Context (l : ptr).
Implicit Types w : World K.

(** The timer can be put back: its interval fits [int64_t] milliseconds. *)
Definition restartable (tm : gmap ptr Timer) (t : ptr) : Prop :=
  ∃ x, tm !! t = Some x ∧ (tm_repeat x = true → is_Some (ms_of_seconds (tm_interval x))).

(** The world with another heap of timers and another queue. *)
Definition with_timers (s : gmap ptr Timer * list ptr) (x : EventLoop) w : World K :=
  set_w_loops (<[l := set_timers s.2 x]> (w_loops w)) (set_w_timers s.1 w).

Lemma with_timers_twice s s' x w :
  with_timers s' (set_timers s.2 x) (with_timers s x w) = with_timers s' x w.
Proof. unfold with_timers. simpl. by rewrite insert_insert_eq. Qed.

Lemma with_timers_id x w :
  w_loops w !! l = Some x → with_timers (w_timers w, tq_timers (el_timerQueue x)) x w = w.
Proof.
  intros Hl. unfold with_timers. simpl.
  rewrite set_timers_id, insert_id by done. by destruct w.
Qed.

Definition reset_body (now : Z) (t : ptr) : M (World K) unit :=
  x ← get_timer t;
  if tm_repeat x then Timer_restart t now;; _ ← insert l t; mret tt else delete_timer t.

Lemma reset_one_wp now t x (Q : unit → World K → Prop) w :
  queue_ok l x w → restartable (w_timers w) t → t ∉ tq_timers (el_timerQueue x) →
  let s := reset_one now (w_timers w, tq_timers (el_timerQueue x)) t in
  (queue_ok l (set_timers s.2 x) (with_timers s x w) → Q tt (with_timers s x w)) →
  wp (reset_body now t) Q w.
Proof.
  cbv zeta. intros Hq (e & He & Hd) Hnot HQ. pose proof Hq as (Hl & Hth & Hal & Hs).
  unfold reset_one in HQ. cbn [fst snd] in HQ. rewrite He in HQ.
  set (ts := tq_timers (el_timerQueue x)) in *.
  apply wp_bind. eapply get_timer_wp; [done|].
  assert (∀ tm, (∀ u, u ≠ t → tm !! u = w_timers w !! u) →
    alive tm ts ∧ sorted_by (exp_of tm) ts) as Hother.
  { intros tm Htm. assert (∀ u, u ∈ ts → tm !! u = w_timers w !! u) as H.
    { intros u Hu. apply Htm. by intros ->. }
    split.
    - apply Forall_forall. intros u Hu. rewrite H by done. by eapply Forall_forall in Hal.
    - eapply sorted_by_ext; [|exact Hs]. intros u Hu. unfold exp_of. by rewrite H. }
  destruct (tm_repeat e) eqn:Hr; cbn [fst snd] in HQ.
  - destruct (Hd eq_refl) as [d Hms]. rewrite Hms in HQ. cbn [default] in HQ.
    set (e' := set_tm_expiration (now + d) e) in *.
    apply wp_bind. unfold Timer_restart. apply wp_bind. eapply get_timer_wp; [done|].
    rewrite Hr. apply wp_bind. eapply wp_gets_some; [exact Hms|]. apply wp_modify.
    fold e'. set (w1 := set_w_timers _ w).
    assert (queue_ok l x w1) as Hq1.
    { destruct (Hother (<[t := e']> (w_timers w))) as [H1 H2].
      { intros u Hu. by rewrite lookup_insert_ne. }
      by split_and!. }
    assert (w_timers w1 !! t = Some e') as Ht1 by (simpl; by rewrite lookup_insert_eq).
    apply wp_bind. eapply insert_wp; [done..|]. apply wp_ret.
    apply HQ. by apply (queue_ok_insert l x t w1 Hq1).
  - apply wp_bind. eapply get_timer_wp; [done|]. apply wp_modify.
    assert (set_timers ts x = x) as Hsame by apply set_timers_id.
    assert (set_w_timers (delete t (w_timers w)) w
            = with_timers (delete t (w_timers w), ts) x w) as ->.
    { unfold with_timers. cbn [fst snd]. rewrite Hsame. rewrite insert_id by done. by destruct w. }
    apply HQ. rewrite Hsame. destruct (Hother (delete t (w_timers w))) as [H1 H2].
    { intros u Hu. by rewrite lookup_delete_ne. }
    split_and!; [|done|done|done]. simpl. by rewrite lookup_insert_eq, Hsame.
Qed.

Lemma reset_loop_wp now expired : ∀ x (Q : unit → World K → Prop) w,
  queue_ok l x w → NoDup expired →
  (∀ t, t ∈ expired → restartable (w_timers w) t ∧ t ∉ tq_timers (el_timerQueue x)) →
  let s := reset_all now expired (w_timers w, tq_timers (el_timerQueue x)) in
  (queue_ok l (set_timers s.2 x) (with_timers s x w) → Q tt (with_timers s x w)) →
  wp (for_each expired (reset_body now)) Q w.
Proof.
  cbv zeta. induction expired as [|t ts IH]; intros x Q w Hq Hnd Hok HQ.
  - apply wp_ret. cbn [reset_all foldl] in HQ. pose proof Hq as (Hl & _).
    rewrite with_timers_id in HQ by done. apply HQ. cbn [snd]. by rewrite set_timers_id.
  - cbn [for_each]. apply wp_bind.
    destruct (Hok t) as [Hr Hnot]; [by left|]. apply NoDup_cons in Hnd as [Htts Hnd].
    eapply reset_one_wp; [done..|]. intros Hq1.
    set (s1 := reset_one now _ t) in *.
    eapply IH; [exact Hq1|done| |].
    + intros u Hu. assert (u ≠ t) as Hne by (by intros ->).
      destruct (Hok u) as [(e & He & Hd) Hnu]; [by right|]. split.
      * exists e. split; [|done]. simpl. unfold s1. by rewrite reset_one_other.
      * simpl. intros [->|H]%reset_one_queue; done.
    + simpl. rewrite with_timers_twice.
      replace (s1.1, s1.2) with s1 by (by destruct s1).
      exact HQ.
Qed.
End round.

Section handleRead.
Context {K : Type} `{!OS K} {P : Poller K}.
Context (l : ptr) (run_timer : TimerCallback → M (World K) unit)
  (record : TimerCallback → list UserCall).
Implicit Types w : World K.

(** What a timer callback may do to the loop's timers: add new ones. *)
Definition timers_extended (x x' : EventLoop) w w' : Prop :=
  w_timers w ⊆ w_timers w'
  ∧ (∀ t, t ∈ tq_timers (el_timerQueue x) → t ∈ tq_timers (el_timerQueue x'))
  ∧ (∀ t, t ∈ tq_timers (el_timerQueue x') → t ∈ tq_timers (el_timerQueue x) ∨ w_timers w !! t = None)
  ∧ tq_timerfd (el_timerQueue x') = tq_timerfd (el_timerQueue x).

(** Callbacks that return, call the program as [record] says, and do to the
    timers no more than add new ones. *)
Definition callbacks_ok : Prop :=
  ∀ cb x w, queue_ok l x w → wp (run_timer cb) (λ _ w',
    w_calls w' = w_calls w ++ record cb
    ∧ ∃ x', queue_ok l x' w' ∧ timers_extended x x' w w') w.

Lemma timers_extended_refl x w : timers_extended x x w w.
Proof. split_and!; auto. Qed.

Lemma timers_extended_trans x1 x2 x3 w1 w2 w3 :
  timers_extended x1 x2 w1 w2 → timers_extended x2 x3 w2 w3 → timers_extended x1 x3 w1 w3.
Proof.
  intros (H1 & H2 & H3 & H4) (G1 & G2 & G3 & G4). split_and!; [by etrans|auto| |congruence].
  intros t Ht. destruct (G3 t Ht) as [H|H]; [auto|right]. by eapply lookup_weaken_None.
Qed.

Definition callback_of (tm : gmap ptr Timer) (t : ptr) : TimerCallback :=
  default TcbEmpty (tm_callback <$> tm !! t).

Lemma run_expired_wp expired : ∀ x (Q : unit → World K → Prop) w,
  callbacks_ok → queue_ok l x w → alive (w_timers w) expired →
  (∀ x' w', queue_ok l x' w' → timers_extended x x' w w' →
     w_calls w' = w_calls w ++ (expired ≫= λ t, record (callback_of (w_timers w) t)) → Q tt w') →
  wp (for_each expired (λ t, y ← get_timer t; run_timer (tm_callback y))) Q w.
Proof.
  induction expired as [|t ts IH]; intros x Q w Hcb Hq Hal HQ.
  { apply wp_ret, (HQ x); [done|apply timers_extended_refl|by rewrite app_nil_r]. }
  apply Forall_cons in Hal as [[y Hy] Hal]. cbn [for_each]. apply wp_bind.
  apply wp_bind. eapply get_timer_wp; [done|].
  eapply wp_mono; [by eapply Hcb|]. intros [] w1 (Hc1 & x1 & Hq1 & He1).
  pose proof He1 as (Hsub & _).
  eapply (IH x1); [done|done| |].
  { eapply Forall_impl; [exact Hal|]. intros u [z Hz]. exists z. by eapply lookup_weaken. }
  intros x2 w2 Hq2 He2 Hc2. eapply (HQ x2); [done|by eapply timers_extended_trans|].
  rewrite Hc2, Hc1, <- app_assoc. f_equal. cbn [mbind list_bind].
  unfold callback_of at 2. rewrite Hy. simpl. f_equal.
  assert (∀ us, alive (w_timers w) us →
    (us ≫= λ u, record (callback_of (w_timers w1) u))
    = us ≫= λ u, record (callback_of (w_timers w) u)) as Hsame.
  { induction us as [|u us IHu]; intros Hus; [done|]. apply Forall_cons in Hus as [[z Hz] Hus].
    cbn [mbind list_bind]. rewrite IHu by done. f_equal. unfold callback_of.
    by rewrite Hz, (lookup_weaken _ _ _ _ Hz Hsub). }
  by apply Hsame.
Qed.

(** Setting the flag around the callbacks does not concern the timers. *)
Lemma queue_ok_calling b x w :
  queue_ok l x w →
  let x' := set_el_timerQueue (set_tq_callingExpiredTimers b (el_timerQueue x)) x in
  queue_ok l x' (set_w_loops (<[l := x']> (w_loops w)) w).
Proof.
  cbv zeta. intros (Hl & Hth & Hal & Hs). split_and!; simpl; [by rewrite lookup_insert_eq|done..].
Qed.

Lemma queue_ok_pending now x w n :
  queue_ok l x w →
  let x' := set_timers (pending (exp_of (w_timers w)) now (tq_timers (el_timerQueue x))) x in
  queue_ok l x' (set_w_loops (<[l := x']> (w_loops w)) (set_w_numCreated n w)).
Proof.
  cbv zeta. intros (Hl & Hth & Hal & Hs). split_and!; simpl.
  - by rewrite lookup_insert_eq.
  - done.
  - apply Forall_forall. intros t [_ Ht]%list_elem_of_filter. by eapply Forall_forall in Hal.
  - by apply sorted_by_filter.
Qed.

(** The timers and the queue a round leaves, from the queue [ts] the callbacks
    left. *)
Definition after_round (now : Z) (expired ts : list ptr) (tm : gmap ptr Timer) :=
  reset_all now expired (tm, ts).

(** [reset] with the arming of the timerfd. *)
Lemma reset_wp now expired x (Q : unit → World K → Prop) w :
  queue_ok l x w → NoDup expired →
  (∀ t, t ∈ expired → restartable (w_timers w) t ∧ t ∉ tq_timers (el_timerQueue x)) →
  let s := after_round now expired (tq_timers (el_timerQueue x)) (w_timers w) in
  (∀ io calls, queue_ok l (set_timers s.2 x) (with_io io (with_timers l s x w)) →
     io_trace io = io_trace (w_io w) ++ calls →
     match s.2 with
     | [] => calls = []
     | t :: _ => ∃ n r, calls = [(SysNow, n);
         (arm (tq_timerfd (el_timerQueue x)) (exp_of s.1 t) (ret n), r)]
     end → Q tt (with_io io (with_timers l s x w))) →
  wp (reset l expired now) Q w.
Proof.
  cbv zeta. unfold after_round. intros Hq Hnd Hok HQ. unfold reset. apply wp_bind.
  eapply (reset_loop_wp l now expired); [done..|]. intros Hq1.
  set (s := reset_all now expired _) in *. set (w1 := with_timers l s x w) in *.
  pose proof Hq1 as (Hl1 & _ & Hal1 & _).
  apply wp_bind. eapply get_queue_wp; [done|]. simpl.
  destruct s.2 as [|t ts] eqn:E.
  - rewrite <- (with_io_id w1). apply wp_ret. apply (HQ _ []); [|by rewrite app_nil_r|done].
    by rewrite with_io_id.
  - apply Forall_cons in Hal1 as [[y Hy] _]. simpl in Hy.
    apply wp_bind. eapply get_timer_wp; [done|].
    apply resetTimerfd_wp. intros io n r Htr. eapply HQ; [exact Hq1|exact Htr|].
    exists n, r. by rewrite (exp_of_eq _ _ _ Hy).
Qed.
End handleRead.

Lemma sorted_by_NoDup key ts : sorted_by key ts → NoDup ts.
Proof.
  unfold sorted_by. induction 1 as [|v ts Hs IH Hv]; constructor; [|done].
  intros Hin. eapply Forall_forall in Hv; [|exact Hin]. simpl in Hv. lia.
Qed.

Section handleRead_rule.
Context {K : Type} `{!OS K} {P : Poller K}.
Context (l : ptr) (run_timer : TimerCallback → M (World K) unit)
  (record : TimerCallback → list UserCall).
Implicit Types w : World K.

(** The last system call armed timerfd [fd] for the first timer of [x]. *)
Definition armed (fd : Z) (x : EventLoop) w : Prop :=
  match tq_timers (el_timerQueue x) with
  | [] => True
  | t :: _ => ∃ calls n r, io_trace (w_io w) = calls ++
      [(SysNow, n); (arm fd (exp_of (w_timers w) t) (ret n), r)]
  end.

(** The due timers of loop [x], at the start of a round. *)
Definition expired_at (now : Z) (x : EventLoop) w : list ptr :=
  due (exp_of (w_timers w)) now (tq_timers (el_timerQueue x)).

Lemma expired_NoDup now x w : queue_ok l x w → NoDup (expired_at now x w).
Proof.
  intros (_ & _ & _ & Hs). by apply NoDup_filter, (sorted_by_NoDup (exp_of (w_timers w))).
Qed.

Definition x_pending (now : Z) (x : EventLoop) w : EventLoop :=
  set_timers (pending (exp_of (w_timers w)) now (tq_timers (el_timerQueue x))) x.

(** The expired timers when the callbacks have run: still there, and out of the
    queue. *)
Lemma expired_out now x x2 w w2 t :
  Forall (restartable (w_timers w)) (tq_timers (el_timerQueue x)) →
  timers_extended (x_pending now x w) x2 w w2 → t ∈ expired_at now x w →
  restartable (w_timers w2) t ∧ t ∉ tq_timers (el_timerQueue x2).
Proof.
  intros Hint (Hsub & _ & Hback & _) [Hle Hts]%list_elem_of_filter.
  destruct (proj1 (Forall_forall _ _) Hint t Hts) as (e & He & Hd). split.
  - exists e. split; [by eapply lookup_weaken|done].
  - intros Hin. destruct (Hback t Hin) as [Hp|Hn]; [|congruence].
    simpl in Hp. apply list_elem_of_filter in Hp as [? _]. lia.
Qed.

Lemma handleRead_wp x (Q : unit → World K → Prop) w :
  callbacks_ok l run_timer record → queue_ok l x w →
  Forall (restartable (w_timers w)) (tq_timers (el_timerQueue x)) →
  let now := ret (os_call SysNow (io_k (w_io w))).1 in
  (∀ x2 w2 x' w',
     timers_extended (x_pending now x w) x2 w w2 →
     w_calls w' = w_calls w ++ (expired_at now x w ≫= λ t, record (callback_of (w_timers w) t)) →
     queue_ok l x' w' → armed (tq_timerfd (el_timerQueue x)) x' w' →
     (w_timers w', tq_timers (el_timerQueue x'))
       = reset_all now (expired_at now x w) (w_timers w2, tq_timers (el_timerQueue x2)) →
     Q tt w') →
  wp (TimerQueue_handleRead run_timer l) Q w.
Proof.
  cbv zeta. intros Hcb Hq Hint HQ. pose proof Hq as (Hl & Hth & Hal & Hs).
  apply wp_bind. eapply assertInLoopThread_here; [done..|].
  apply wp_bind, system_clock_now_wp. intros n k err Hk. rewrite Hk in HQ. simpl in HQ.
  apply wp_bind. eapply get_queue_wp; [done|].
  apply wp_bind, readTimerfd_wp. intros io r Hio.
  apply wp_bind. eapply (getExpired_wp l (ret n) x); [done|]. intros nc.
  apply wp_bind. eapply upd_queue_wp; [simpl; by rewrite lookup_insert_eq|].
  set (x1 := x_pending (ret n) x w). set (w1 := set_w_loops _ _).
  assert (queue_ok l (set_el_timerQueue (set_tq_callingExpiredTimers true (el_timerQueue x1)) x1) w1)
    as Hq1 by (apply queue_ok_calling; apply (queue_ok_pending l (ret n) x w nc Hq)).
  apply wp_bind. eapply (run_expired_wp l run_timer record); [done|exact Hq1| |].
  { apply Forall_forall. intros t [_ Ht]%list_elem_of_filter. by eapply Forall_forall in Hal. }
  intros x2 w2 Hq2 He2 Hc2. pose proof Hq2 as (Hl2 & _).
  apply wp_bind. eapply upd_queue_wp; [done|].
  set (x3 := set_el_timerQueue _ x2).
  assert (timers_extended x1 x3 w w2) as He3 by exact He2.
  pose proof He3 as (_ & _ & _ & Hfd).
  eapply (reset_wp l (ret n) _ x3); [by apply queue_ok_calling|by apply expired_NoDup| |].
  { intros t Ht. by eapply expired_out. }
  intros io' calls Hq4 Htr Harm. eapply (HQ x3 w2); [exact He3|exact Hc2|exact Hq4| |].
  - unfold armed. simpl. destruct (after_round _ _ _ _).2 as [|t us]; [done|].
    destruct Harm as (m & res & ->). rewrite Hfd in Htr. eauto.
  - simpl. unfold after_round. symmetry. apply surjective_pairing.
Qed.
End handleRead_rule.

(** ** Adding timers from the loop's thread *)

Section addTimer_rule.
Context {K : Type} `{!OS K} {P : Poller K}.
Implicit Types w : World K.

(** The timer [addTimer] makes. *)
Definition new_timer (cb : TimerCallback) (when_ interval : Z) w : Timer :=
  mkTimer cb when_ (double_of_Z interval) (double_pos (double_of_Z interval)) (w_numCreated w).

(** The world with that timer allocated. *)
Definition allocated (e : Timer) w : World K :=
  set_w_timers (<[w_next w := e]> (w_timers w))
    (set_w_numCreated (i64 (w_numCreated w + 1)) (set_w_next (S (w_next w)) w)).

Lemma queue_ok_allocated l x e w :
  queue_ok l x w → w_timers w !! w_next w = None → queue_ok l x (allocated e w).
Proof.
  intros (Hl & Hth & Hal & Hs) Hn. split_and!; [done|done| |].
  - eapply Forall_impl; [exact Hal|]. intros t [y Hy]. simpl.
    rewrite lookup_insert_ne by (intros <-; congruence). by exists y.
  - eapply sorted_by_ext; [|exact Hs]. intros u Hu. simpl. symmetry. apply exp_of_other.
    intros ->. destruct (proj1 (Forall_forall _ _) Hal _ Hu). congruence.
Qed.

(** The calls the timers make: reading the clock and arming the timerfd. *)
Definition timer_calls (calls : list (syscall * sysres)) : Prop :=
  Forall (λ cr, match cr.1 with SysNow | SysTimerfdSettime _ _ _ => True | _ => False end) calls.

Lemma addTimer_wp l cb when_ interval x (Q : TimerId → World K → Prop) w :
  queue_ok l x w → w_timers w !! w_next w = None →
  let e := new_timer cb when_ interval w in
  let w1 := allocated e w in
  let x' := set_timers (insert_by (exp_of (w_timers w1)) (w_next w)
              (tq_timers (el_timerQueue x))) x in
  (∀ io calls, io_trace io = io_trace (w_io w) ++ calls → timer_calls calls →
     Q (mkTimerId (w_next w) (w_numCreated w))
       (with_io io (set_w_loops (<[l := x']> (w_loops w)) w1))) →
  wp (addTimer l cb when_ interval) Q w.
Proof.
  cbv zeta. intros Hq Hn HQ. pose proof Hq as (Hl & Hth & _).
  apply wp_bind. unfold fresh. unfold wp at 1.
  apply wp_bind, wp_bind. unfold fetch_add_numCreated. unfold wp at 1. apply wp_ret.
  apply wp_bind, wp_modify.
  change (set_w_timers _ _) with (allocated (new_timer cb when_ interval w) w).
  pose proof (queue_ok_allocated l x (new_timer cb when_ interval w) w Hq Hn) as Hq1.
  set (w1 := allocated _ w) in *.
  apply wp_bind, wp_bind. eapply isInLoopThread_wp; [exact Hl|].
  rewrite bool_decide_true by done.
  eapply addTimerInLoop_wp; [exact Hq1|simpl; by rewrite lookup_insert_eq|].
  intros io calls Htr Hcalls.
  apply wp_bind. eapply get_timer_wp; [simpl; by rewrite lookup_insert_eq|].
  apply wp_ret. eapply HQ; [done|]. destruct (earlier _ _ _); [|subst; by constructor].
  destruct Hcalls as (now & res & ->). by repeat constructor.
Qed.
End addTimer_rule.

(** ** Properties *)

Section properties.
Context {K : Type} `{!OS K} {P : Poller K}.
Implicit Types w : World K.

(** C10: a round of the timer queue.  When the timerfd fires, every timer due by
    the time just read runs once, in order of expiration, and no other; then each
    one-shot timer is freed and out of the queue, each repeating one has its next
    expiration one interval from now and the queue holds a timer for that time;
    the timers not due keep their place; the queue stays strictly sorted; and if
    it is not empty the last system call arms the timerfd for its first timer.
    The callbacks may add timers. *)
Theorem handleRead_runs_due_timers (l : ptr) (run_timer : TimerCallback → M (World K) unit)
    (record : TimerCallback → list UserCall) (x : EventLoop) w
    (Hcb : callbacks_ok l run_timer record) (Hq : queue_ok l x w)
    (Hint : Forall (restartable (w_timers w)) (tq_timers (el_timerQueue x))) :
  let now := ret (os_call SysNow (io_k (w_io w))).1 in
  let expired := expired_at now x w in
  ∃ x' w', TimerQueue_handleRead run_timer l w = Ok (tt, w') ∧ queue_ok l x' w'
    ∧ w_calls w' = w_calls w ++ (expired ≫= λ t, record (callback_of (w_timers w) t))
    ∧ (∀ t e, w_timers w !! t = Some e → t ∉ expired →
         w_timers w' !! t = Some e
         ∧ (t ∈ tq_timers (el_timerQueue x) → t ∈ tq_timers (el_timerQueue x')))
    ∧ (∀ t e, w_timers w !! t = Some e → t ∈ expired → tm_repeat e = false →
         w_timers w' !! t = None ∧ t ∉ tq_timers (el_timerQueue x'))
    ∧ (∀ t e, w_timers w !! t = Some e → t ∈ expired → tm_repeat e = true → ∃ d u,
         ms_of_seconds (tm_interval e) = Some d
         ∧ w_timers w' !! t = Some (set_tm_expiration (now + d) e)
         ∧ u ∈ tq_timers (el_timerQueue x') ∧ exp_of (w_timers w') u = now + d)
    ∧ armed (tq_timerfd (el_timerQueue x)) x' w'.
Proof.
  cbv zeta. set (now := ret (os_call SysNow (io_k (w_io w))).1).
  match goal with |- ∃ x' w', _ ∧ @?R x' w' =>
    cut (wp (TimerQueue_handleRead run_timer l) (λ _ w', ∃ x', R x' w') w) end.
  { intros H. destruct (proj1 (wp_run _ _ _) H) as ([] & w' & Hrun & x' & HR).
    exists x', w'. by split. }
  eapply handleRead_wp; [done..|]. fold now. intros x2 w2 x' w' Hext Hcalls Hq' Harm Hs.
  pose proof (expired_NoDup l now x w Hq) as Hnd.
  pose proof (expired_out now x x2 w w2) as Hout.
  pose proof Hext as (Hsub & Hkeep & _).
  assert (w_timers w' = (reset_all now (expired_at now x w)
            (w_timers w2, tq_timers (el_timerQueue x2))).1) as Htm by (by rewrite <- Hs).
  assert (tq_timers (el_timerQueue x') = (reset_all now (expired_at now x w)
            (w_timers w2, tq_timers (el_timerQueue x2))).2) as Hts by (by rewrite <- Hs).
  exists x'. split_and!; [done|done| | | |done].
  - intros t e Ht Hnot. split.
    + rewrite Htm, reset_all_other by done. by eapply lookup_weaken.
    + intros Hin. rewrite Hts. apply reset_all_keeps, Hkeep. simpl.
      apply list_elem_of_filter. split; [|done].
      destruct (decide (exp_of (w_timers w) t ≤ now)); [|lia].
      destruct Hnot. by apply list_elem_of_filter.
  - intros t e Ht Hin Hr. destruct (Hout t Hint Hext Hin) as [_ Hnot].
    rewrite Htm, Hts. eapply reset_all_once; [done|done|done| |done].
    by eapply lookup_weaken.
  - intros t e Ht Hin Hr. pose proof Hin as [_ Hq1]%list_elem_of_filter.
    destruct (proj1 (Forall_forall _ _) Hint t Hq1) as (e' & He' & Hd).
    assert (e' = e) as -> by congruence. destruct (Hd Hr) as [d Hd'].
    destruct (reset_all_repeat now (expired_at now x w) (w_timers w2, tq_timers (el_timerQueue x2))
                t e d) as (H1 & u & Hu & He); try done.
    { intros v Hv. by apply (Hout v). }
    { by eapply lookup_weaken. }
    rewrite <- Htm in H1, He. rewrite <- Hts in Hu. exists d, u. by split_and!.
Qed.

(** The delay asked of the timerfd is a valid [timespec], is never zero
    (which would disarm the timer), and is the time left rounded down to the
    microsecond, but at least 100 microseconds. *)
Theorem timespec_until_valid (when_ now : Z) :
  let ts := timespec_until when_ now in
  0 ≤ tv_sec ts ∧ 0 ≤ tv_nsec ts < 10 ^ 9 ∧ 0 < tv_sec ts + tv_nsec ts
  ∧ 0 ≤ Z.max 100000 (when_ - now) - (tv_sec ts * 10 ^ 9 + tv_nsec ts) < 1000.
Proof.
  cbv zeta. unfold timespec_until, ns_per_us. simpl tv_sec. simpl tv_nsec.
  set (d := when_ - now). set (us := Z.max (d `quot` 1000) 100).
  assert (100 ≤ us) as Hus by lia.
  rewrite !Z.quot_div_nonneg by (try lia; apply Z.quot_pos; lia).
  rewrite Z.rem_mod_nonneg by lia.
  replace ((us `div` 1000) `div` 1000) with (us `div` 1000000) by (by rewrite Z.div_div).
  pose proof (Z.div_mod us 1000000 ltac:(lia)).
  pose proof (Z.mod_pos_bound us 1000000 ltac:(lia)).
  assert (0 ≤ us `div` 1000000) by (apply Z.div_pos; lia).
  assert (0 ≤ Z.max 100000 d - us * 1000 < 1000).
  { unfold us. destruct (Z.le_gt_cases 100000 d).
    - rewrite Z.quot_div_nonneg by lia.
      pose proof (Z.div_mod d 1000 ltac:(lia)). pose proof (Z.mod_pos_bound d 1000 ltac:(lia)). lia.
    - assert (d `quot` 1000 < 100); [|lia].
      pose proof (Z.quot_le_mono d 99999 1000 ltac:(lia) ltac:(lia)) as H9.
      change (99999 `quot` 1000) with 99 in H9. lia. }
  change (1000 * 1000) with 1000000. change (10 ^ 9) with 1000000000. lia.
Qed.

(** C16: adding a timer in the loop thread keeps the queue sorted and everything
    already in it, puts the timer in when its expiration is new, and re-arms the
    timerfd exactly when the timer is the new earliest one. *)
Theorem addTimerInLoop_keeps_order (l t : ptr) (e : Timer) (x : EventLoop) w
    (Hq : queue_ok l x w) (Ht : w_timers w !! t = Some e)
    (Hnew : ∀ u, u ∈ tq_timers (el_timerQueue x) → exp_of (w_timers w) u ≠ tm_expiration e) :
  ∃ x' w' calls, addTimerInLoop l t w = Ok (tt, w') ∧ queue_ok l x' w'
    ∧ tq_timers (el_timerQueue x') ≡ₚ t :: tq_timers (el_timerQueue x)
    ∧ w_timers w' = w_timers w
    ∧ io_trace (w_io w') = io_trace (w_io w) ++ calls
    ∧ (if forallb (λ u, tm_expiration e <? exp_of (w_timers w) u) (tq_timers (el_timerQueue x))
       then ∃ now res, calls = [(SysNow, now);
              (arm (tq_timerfd (el_timerQueue x)) (tm_expiration e) (ret now), res)]
       else calls = []).
Proof.
  pose proof Hq as (_ & _ & _ & Hs). pose proof (exp_of_eq _ _ _ Ht) as Hte.
  assert (earlier (w_timers w) t (tq_timers (el_timerQueue x))
          = forallb (λ u, tm_expiration e <? exp_of (w_timers w) u) (tq_timers (el_timerQueue x)))
    as Hfirst.
  { destruct (tq_timers (el_timerQueue x)) as [|u us]; [done|]. simpl. rewrite Hte.
    destruct (Z.ltb_spec (tm_expiration e) (exp_of (w_timers w) u)); [|done].
    simpl. symmetry. apply forallb_forall. intros v Hv. apply Z.ltb_lt.
    apply StronglySorted_inv in Hs as [_ Hu]. apply list_elem_of_In in Hv.
    eapply Forall_forall in Hu; [|exact Hv]. simpl in Hu. lia. }
  match goal with |- ∃ x' w' calls, _ ∧ @?R x' w' calls =>
    cut (wp (addTimerInLoop l t) (λ _ w', ∃ x' calls, R x' w' calls) w) end.
  { intros H. destruct (proj1 (wp_run _ _ _) H) as ([] & w' & Hrun & x' & calls & HR). eauto 10. }
  eapply addTimerInLoop_wp; [done..|]. intros io calls Htr Harm.
  eexists _, calls. split_and!; [by apply (queue_ok_insert l x t w Hq)| |done|done|].
  - simpl. apply insert_by_new. intros u Hu. rewrite Hte. by apply Hnew.
  - by rewrite <- Hfirst.
Qed.

(** C36: two timers with equal expirations cannot both be kept.  [TimerCmp]
    compares expirations only, so adding a timer whose expiration a queued timer
    already has leaves the queue as it was and makes no system call: the timer
    never runs and is never freed. *)
Theorem equal_expiration_timer_is_lost (l t u : ptr) (e : Timer) (x : EventLoop) w
    (Hq : queue_ok l x w) (Ht : w_timers w !! t = Some e)
    (Hu : u ∈ tq_timers (el_timerQueue x)) (Heq : exp_of (w_timers w) u = tm_expiration e) :
  addTimerInLoop l t w = Ok (tt, w).
Proof.
  cut (wp (addTimerInLoop l t) (λ _ w', w' = w) w).
  { intros H. by destruct (proj1 (wp_run _ _ _) H) as ([] & w' & Hrun & ->). }
  pose proof Hq as (Hl & _ & _ & Hs). pose proof (exp_of_eq _ _ _ Ht) as Hte.
  pose proof (insert_by_dup (exp_of (w_timers w)) t _ u Hs Hu) as Hdup.
  rewrite Hte in Hdup. specialize (Hdup Heq).
  assert (earlier (w_timers w) t (tq_timers (el_timerQueue x)) = false) as Hfirst.
  { destruct (tq_timers (el_timerQueue x)) as [|v vs]; [by apply elem_of_nil in Hu|]. simpl.
    rewrite Hte, <- Heq. apply Z.ltb_ge. apply StronglySorted_inv in Hs as [_ Hv].
    apply elem_of_cons in Hu as [->|Hu]; [lia|]. eapply Forall_forall in Hv; [|exact Hu].
    simpl in Hv. lia. }
  apply wp_bind. eapply assertInLoopThread_here; [done|by apply Hq|].
  apply wp_bind. eapply insert_wp; [done..|]. rewrite Hfirst, Hdup, set_timers_id.
  rewrite insert_id by done. apply wp_ret. by destruct w.
Qed.

(** [runEvery] with an interval below one second runs once.  The [double]
    interval reaches [addTimer] as an [int64_t], zero here, so the timer made
    does not repeat. *)
Theorem runEvery_subsecond_is_one_shot (l : ptr) (interval : double) (cb : TimerCallback) (d : Z)
    (x : EventLoop) w (Hfrac : proper_fraction interval)
    (Hms : ms_of_seconds interval = Some d) (Hq : queue_ok l x w)
    (Hnext : w_timers w !! w_next w = None) :
  ∃ id w' e, runEvery l interval cb w = Ok (id, w')
    ∧ w_timers w' !! ti_timer id = Some e ∧ tm_callback e = cb ∧ tm_repeat e = false.
Proof.
  cut (wp (runEvery l interval cb) (λ id w', ∃ e, w_timers w' !! ti_timer id = Some e
         ∧ tm_callback e = cb ∧ tm_repeat e = false) w).
  { intros H. destruct (proj1 (wp_run _ _ _) H) as (id & w' & Hrun & e & ?). eauto. }
  apply wp_bind, system_clock_now_wp. intros n k err Hk.
  apply wp_bind. eapply wp_gets_some; [exact Hms|].
  apply wp_bind. eapply wp_gets_some; [by apply proper_fraction_trunc|].
  eapply addTimer_wp; [exact Hq|exact Hnext|]. intros io calls _ _.
  eexists. simpl. by rewrite lookup_insert_eq.
Qed.
End properties.

(** *** A concrete queue: a one-shot timer due at 50, a repeating one due at 60
    and one due at 9999, read at time 70. *)

Definition sample_timers : gmap ptr Timer :=
  {[20%nat := mkTimer (TcbUser 1) 50 (double_of_Z 0) false 0;
    21%nat := mkTimer (TcbUser 2) 60 (double_of_Z 1) true 1;
    22%nat := mkTimer (TcbUser 3) 9999 (double_of_Z 0) false 2]}.

Definition timer_loop : EventLoop := set_timers [20%nat; 21%nat; 22%nat] sample_loop.

Definition timer_world : World sim :=
  set_w_r (set_r_io (mkIO (mkSim [mkRes 70 0 [] []; mkRes 8 0 [] []; mkRes 71 0 [] []; done_res] ∅)
                      [] 0 []) sample_reactor)
    (set_w_timers sample_timers
      (set_w_next 30%nat (set_w_loops {[0%nat := timer_loop]} sample_world))).

Definition run_sample (cb : TimerCallback) : M (World sim) unit :=
  match cb with TcbUser i => user_call (UcTimer i) | _ => mret tt end.

Definition record_sample (cb : TimerCallback) : list UserCall :=
  match cb with TcbUser i => [UcTimer i] | _ => [] end.

Lemma timer_world_ok : queue_ok 0%nat timer_loop timer_world.
Proof.
  split_and!; [done|done| |].
  - repeat constructor; by eexists.
  - repeat constructor.
Qed.

Lemma sample_callbacks_ok : callbacks_ok 0%nat run_sample record_sample.
Proof.
  intros cb x w Hq.
  assert (∀ calls, queue_ok 0%nat x (set_w_calls calls w)) as Hq' by (intros calls; exact Hq).
  destruct cb; simpl; try (apply wp_ret; split; [by rewrite app_nil_r|]; exists x;
    split; [done|apply timers_extended_refl]).
  apply wp_modify. split; [done|]. exists x. split; [apply Hq'|by split_and!; auto].
Qed.

Lemma handleRead_runs_due_timers_witness :
  ∃ x' w', TimerQueue_handleRead run_sample 0%nat timer_world = Ok (tt, w')
    ∧ queue_ok 0%nat x' w' ∧ w_calls w' = [UcTimer 1; UcTimer 2].
Proof.
  destruct (handleRead_runs_due_timers 0%nat run_sample record_sample timer_loop timer_world
    sample_callbacks_ok timer_world_ok) as (x' & w' & Hrun & Hq & Hc & _).
  { repeat constructor; eexists; (split; [reflexivity|]); simpl; intros H; try discriminate H;
      vm_compute; by eexists. }
  exists x', w'. split_and!; [exact Hrun|exact Hq|exact Hc].
Defined.

Lemma addTimerInLoop_keeps_order_witness :
  let w := set_w_timers (<[23%nat := mkTimer (TcbUser 4) 40 (double_of_Z 0) false 3]> sample_timers)
             timer_world in
  ∃ x' w', addTimerInLoop 0%nat 23%nat w = Ok (tt, w') ∧ queue_ok 0%nat x' w'
    ∧ tq_timers (el_timerQueue x') ≡ₚ [23%nat; 20%nat; 21%nat; 22%nat].
Proof.
  intros w.
  destruct (addTimerInLoop_keeps_order 0%nat 23%nat (mkTimer (TcbUser 4) 40 (double_of_Z 0) false 3)
    timer_loop w) as (x' & w' & calls & Hrun & Hq & Hp & _).
  - split_and!; [done|done| |]; repeat constructor; by eexists.
  - reflexivity.
  - intros u Hu. simpl in Hu.
    repeat (apply elem_of_cons in Hu as [->|Hu]; [vm_compute; discriminate|]).
    by apply elem_of_nil in Hu.
  - exists x', w'. split_and!; [exact Hrun|exact Hq|exact Hp].
Defined.

Lemma equal_expiration_timer_is_lost_witness :
  let w := set_w_timers (<[23%nat := mkTimer (TcbUser 4) 60 (double_of_Z 0) false 3]> sample_timers)
             timer_world in
  addTimerInLoop 0%nat 23%nat w = Ok (tt, w).
Proof.
  intros w.
  apply (equal_expiration_timer_is_lost 0%nat 23%nat 21%nat
    (mkTimer (TcbUser 4) 60 (double_of_Z 0) false 3) timer_loop w).
  - split_and!; [done|done| |]; repeat constructor; by eexists.
  - reflexivity.
  - simpl. right. left.
  - reflexivity.
Defined.

Lemma runEvery_subsecond_is_one_shot_witness :
  ∃ id w' e, runEvery 0%nat (double_div (double_of_Z 1) (double_of_Z 2)) (TcbUser 5) timer_world
      = Ok (id, w')
    ∧ w_timers w' !! ti_timer id = Some e ∧ tm_repeat e = false.
Proof.
  destruct (runEvery_subsecond_is_one_shot 0%nat (double_div (double_of_Z 1) (double_of_Z 2))
    (TcbUser 5) 500000000 timer_loop timer_world half_is_fraction) as (id & w' & e & Hrun & He & _ & Hr).
  - vm_compute. reflexivity.
  - exact timer_world_ok.
  - vm_compute. reflexivity.
  - exists id, w', e. split_and!; [exact Hrun|exact He|exact Hr].
Defined.
