(* ===== verification/Sockets.v ===== *)
(** * Sockets: addresses and socket calls (SocketsOps.h, SocketsOps.cpp, Socket.h,
    Socket.cpp, InetAddress.h, InetAddress.cpp)

    An address is the 28 bytes of a [sockaddr_in6]: the family in the first two
    (host order), the port in the next two (network order); for IPv4 the address
    is in bytes 4 to 7, for IPv6 the flow label is there, the address in bytes 8
    to 23 and the scope in the last four.  The host is little-endian.
    [inet_ntop] and [inet_pton] are the C library's; [InetLaws] states what the
    code relies on of them. *)
From S2P Require Import Prelude Endian OS Objects LoopCore.
From Stdlib Require Import Ascii.

Set Default Goal Selector "!".

(** ** The C library's address conversions *)

Class Inet : Type := {
  inet_ntop : Z → list byte → string;
  inet_pton : Z → string → option (list byte)
}.

(** The text fits the buffer sizes the headers give, which count the final null;
    a parsed address has its family's size. *)
Class InetLaws `{Inet} : Prop := {
  inet_ntop_4 : ∀ b, Z.of_nat (String.length (inet_ntop AF_INET b)) < INET_ADDRSTRLEN;
  inet_ntop_6 : ∀ b, Z.of_nat (String.length (inet_ntop AF_INET6 b)) < INET6_ADDRSTRLEN;
  inet_pton_4 : ∀ s b, inet_pton AF_INET s = Some b → length b = 4%nat;
  inet_pton_6 : ∀ s b, inet_pton AF_INET6 s = Some b → length b = 16%nat
}.

(** ** The layout *)

Definition sizeof_sockaddr : nat := 28.
Definition zero_addr : sockaddr := replicate sizeof_sockaddr x00.

(** The [n] bytes at offset [i]. *)
Definition field (i n : nat) (addr : sockaddr) : list byte := take n (drop i addr).

Definition family (addr : sockaddr) : Z := load LittleEndian (field 0 2 addr).
Definition portNetEndian (addr : sockaddr) : Z := load LittleEndian (field 2 2 addr).
Definition sin_addr (addr : sockaddr) : list byte := field 4 4 addr.
Definition sin6_addr (addr : sockaddr) : list byte := field 8 16 addr.
Definition sin6_scope_id (addr : sockaddr) : Z := load LittleEndian (field 24 4 addr).

Definition set_family (f : Z) : sockaddr → sockaddr := overwrite 0 (store LittleEndian 2 f).
Definition set_port (netPort : Z) : sockaddr → sockaddr := overwrite 2 (store LittleEndian 2 netPort).
Definition set_sin_addr (ip : list byte) : sockaddr → sockaddr := overwrite 4 ip.
Definition set_sin6_addr (ip : list byte) : sockaddr → sockaddr := overwrite 8 ip.

(** What a call that fills an address of ours leaves: at most its 28 bytes. *)
Definition filled (addr : sockaddr) (stored : list byte) : sockaddr :=
  overwrite 0 (take sizeof_sockaddr stored) addr.

Definition INADDR_ANY : Z := 0.
Definition INADDR_LOOPBACK : Z := 2130706433.
Definition in6addr_any : list byte := replicate 16 x00.
Definition in6addr_loopback : list byte := replicate 15 x00 ++ [x01].

(** ** Text *)

Definition uint_to_string (n : Z) : string := pretty n.

(** [snprintf(buf, size, "%s", s)] into a fresh buffer: the string it holds. *)
Definition snprintf (size : Z) (s : string) : string := String.substring 0 (Z.to_nat (size - 1)) s.

(** *** struct tcp_info (linux/tcp.h): one byte [tcpi_retransmits], the rest 32 bits *)

Definition sizeof_tcp_info : nat := 104.
Definition tcpi_retransmits (tcpi : list byte) : Z := load LittleEndian (field 2 1 tcpi).
Definition tcpi_u32 (off : nat) (tcpi : list byte) : Z := load LittleEndian (field off 4 tcpi).

(** What [getTcpInfoString] prints of it. *)
Definition tcp_info_fields (tcpi : list byte) : list (string * Z) :=
  [("unrecovered=", tcpi_retransmits tcpi); (" rto=", tcpi_u32 8 tcpi); (" ato=", tcpi_u32 12 tcpi);
   (" snd_mss=", tcpi_u32 16 tcpi); (" rcv_mss=", tcpi_u32 20 tcpi); (" lost=", tcpi_u32 32 tcpi);
   (" retrans=", tcpi_u32 36 tcpi); (" rtt=", tcpi_u32 68 tcpi); (" rttvar=", tcpi_u32 72 tcpi);
   (" sshthresh=", tcpi_u32 76 tcpi); (" cwnd=", tcpi_u32 80 tcpi);
   (" total_retrans=", tcpi_u32 100 tcpi)].

Definition tcp_info_text (tcpi : list byte) : string :=
  foldr (λ f rest, f.1 +:+ (uint_to_string f.2 +:+ rest)) EmptyString (tcp_info_fields tcpi).

Section text.
Context `{Inet}.

(** [toIp(buf, size, addr)]: the string in [buf], which held [before]. *)
Definition sockets_toIp (before : string) (size : Z) (addr : sockaddr) : outcome string :=
  if family addr =? AF_INET then
    if INET_ADDRSTRLEN <=? size then Ok (inet_ntop AF_INET (sin_addr addr))
    else Fault (AssertFailed "SocketsOps.cpp:187")
  else if family addr =? AF_INET6 then
    if INET6_ADDRSTRLEN <=? size then Ok (inet_ntop AF_INET6 (sin6_addr addr))
    else Fault (AssertFailed "SocketsOps.cpp:191")
  else Ok before.

Definition slen (s : string) : Z := Z.of_nat (String.length s).

(** [toIpPort(buf, size, addr)] on a buffer that held the empty string. *)
Definition sockets_toIpPort (size : Z) (addr : sockaddr) : outcome string :=
  let port := networkToHost16 LittleEndian (portNetEndian addr) in
  if family addr =? AF_INET6 then
    match sockets_toIp EmptyString (size - 1) addr with
    | Fault e => Fault e
    | Ok ip =>
        let buf := ("[" +:+ ip)%string in
        let end_ := slen buf in
        if end_ <? size
        then Ok (buf +:+ snprintf (size - end_) ("]:" +:+ uint_to_string port))
        else Fault (AssertFailed "SocketsOps.cpp:171")
    end
  else
    match sockets_toIp EmptyString size addr with
    | Fault e => Fault e
    | Ok buf =>
        let end_ := slen buf in
        if end_ <? size
        then Ok (buf +:+ snprintf (size - end_) (":" +:+ uint_to_string port))
        else Fault (AssertFailed "SocketsOps.cpp:179")
    end.

Definition toIpPort (addr : sockaddr) : outcome string := sockets_toIpPort 64 addr.
Definition toIp (addr : sockaddr) : outcome string := sockets_toIp EmptyString 64 addr.
End text.

(** ** InetAddress *)

(** [InetAddress(port, loopbackOnly, ipv6)]; for IPv4 only the 16 bytes of the
    [sockaddr_in] are set, the rest of the union being what it was. *)
Definition InetAddress_port (before : sockaddr) (portArg : Z) (loopbackOnly ipv6 : bool) : sockaddr :=
  if ipv6 then
    let addr := set_family AF_INET6 zero_addr in
    let addr := set_sin6_addr (if loopbackOnly then in6addr_loopback else in6addr_any) addr in
    set_port (hostToNetwork16 LittleEndian portArg) addr
  else
    let addr := overwrite 0 (replicate 16 x00) before in
    let addr := set_family AF_INET addr in
    let ip := if loopbackOnly then INADDR_LOOPBACK else INADDR_ANY in
    let addr := set_sin_addr (store LittleEndian 4 (hostToNetwork32 LittleEndian ip)) addr in
    set_port (hostToNetwork16 LittleEndian portArg) addr.

Definition port (addr : sockaddr) : Z := networkToHost16 LittleEndian (portNetEndian addr).

Definition ipv4NetEndian (addr : sockaddr) : outcome Z :=
  if family addr =? AF_INET then Ok (load LittleEndian (sin_addr addr))
  else Fault (AssertFailed "InetAddress.cpp:96").

Definition setScopeId (scope_id : Z) (addr : sockaddr) : sockaddr :=
  if family addr =? AF_INET6 then overwrite 24 (store LittleEndian 4 scope_id) addr else addr.

(** [strchr(s, ':')] *)
Fixpoint has_colon (s : string) : bool :=
  match s with
  | EmptyString => false
  | String c s' => Ascii.eqb c ":"%char || has_colon s'
  end.

Section sockets.
Context {K : Type} `{!OS K} `{Inet}.

(** Values of [errno] set by the code itself. *)
Definition set_errno (e : Z) : M (World K) unit :=
  in_reactor (in_io (modify (λ io, mkIO (io_k io) (io_trace io) e (io_log io)))).

(** Running a computation that cannot change the world. *)
Definition lift {A} (o : outcome A) : M (World K) A :=
  match o with Ok a => mret a | Fault e => fail e end.

Definition fromIpPort (ip : string) (portArg : Z) (addr : sockaddr) : M (World K) sockaddr :=
  let addr := set_port (hostToNetwork16 LittleEndian portArg) (set_family AF_INET addr) in
  match inet_pton AF_INET ip with
  | Some b => mret (set_sin_addr b addr)
  | None => LOG_ERROR "sockets::fromIpPort";; mret addr
  end.

Definition fromIpPort6 (ip : string) (portArg : Z) (addr : sockaddr) : M (World K) sockaddr :=
  let addr := set_port (hostToNetwork16 LittleEndian portArg) (set_family AF_INET6 addr) in
  match inet_pton AF_INET6 ip with
  | Some b => mret (set_sin6_addr b addr)
  | None => LOG_ERROR "sockets::fromIpPort";; mret addr
  end.

(** [InetAddress(ip, port, ipv6)] *)
Definition InetAddress_ip (before : sockaddr) (ip : string) (portArg : Z) (ipv6 : bool)
    : M (World K) sockaddr :=
  if ipv6 || has_colon ip then fromIpPort6 ip portArg zero_addr
  else fromIpPort ip portArg (overwrite 0 (replicate 16 x00) before).

(** [InetAddress(addr)] of a [sockaddr_in] and of a [sockaddr_in6]. *)
Definition InetAddress_in (before : sockaddr) (addr : list byte) : sockaddr := overwrite 0 addr before.
Definition InetAddress_in6 (addr6 : sockaddr) : sockaddr := addr6.

Definition setSockAddrInet6 (addr6 : sockaddr) (addr : sockaddr) : sockaddr := addr6.

(** [resolve(hostname, out)]: the C library's answer is the address in [payload], of the
    type in [err], or nothing. *)
Definition resolve (hostname : string) (out : sockaddr) : M (World K) (bool * sockaddr) :=
  r ← syscall_ (SysGethostbyname hostname);
  if (ret r =? 0) && negb (bool_decide (payload r = [])) then
    assert_ "InetAddress.cpp:117" ((err r =? AF_INET) && (length (payload r) =? 4)%nat);;
    mret (true, set_sin_addr (payload r) out)
  else
    when (nonzero (ret r)) (LOG_ERROR "InetAddress::resolve");;
    mret (false, out).

(** ** SocketsOps *)

(** Despite the name, and the header's "abort if any error", it only logs. *)
Definition createNonblockingOrDie (fam : Z) : M (World K) Z :=
  r ← syscall_ (SysSocket fam);
  when (ret r <? 0) (LOG_ERROR "sockets::createNonblockingOrDie");;
  mret (ret r).

Definition bindOrDie (sockfd : Z) (addr : sockaddr) : M (World K) unit :=
  r ← syscall_ (SysBind sockfd addr);
  when (ret r <? 0) (LOG_ERROR "sockets::bindOrDie").

Definition listenOrDie (sockfd : Z) : M (World K) unit :=
  r ← syscall_ (SysListen sockfd);
  when (ret r <? 0) (LOG_ERROR "sockets::listenOrDie").

Definition expected_accept_errors : list Z := [EAGAIN; ECONNABORTED; EINTR; EPROTO; EPERM; EMFILE].
Definition unexpected_accept_errors : list Z :=
  [EBADF; EFAULT; EINVAL; ENFILE; ENOBUFS; ENOMEM; ENOTSOCK; EOPNOTSUPP].

(** The descriptor, and the address as [accept4] left it. *)
Definition sockets_accept (sockfd : Z) (addr : sockaddr) : M (World K) (Z * sockaddr) :=
  r ← syscall_ (SysAccept4 sockfd);
  let connfd := ret r in
  (if connfd <? 0 then
     savedErrno ← errno;
     LOG_ERROR "Socket::accept";;
     if bool_decide (savedErrno ∈ expected_accept_errors) then set_errno savedErrno
     else if bool_decide (savedErrno ∈ unexpected_accept_errors)
     then LOG_ERROR "unexpected error of ::accept"
     else LOG_ERROR "unknown error of ::accept"
   else mret tt);;
  mret (connfd, filled addr (payload r)).

Definition sockets_connect (sockfd : Z) (addr : sockaddr) : M (World K) Z :=
  r ← syscall_ (SysConnect sockfd addr); mret (ret r).

Definition sockets_read (sockfd count : Z) : M (World K) Z :=
  r ← syscall_ (SysRead sockfd count); mret (ret r).

(** A result of [EPIPE] comes with SIGPIPE, which nothing blocks or ignores: what that does
    to the process is [as_process] of LoopCore.v. *)
Definition sockets_write (sockfd : Z) (data : list byte) : M (World K) Z :=
  r ← syscall_ (SysWrite sockfd data); mret (ret r).

(** The bytes read, or nothing on error. *)
Definition sockets_readv (sockfd : Z) (iov : list Z) : M (World K) (option (list byte)) :=
  r ← syscall_ (SysReadv sockfd iov);
  mret (if ret r <? 0 then None else Some (take (Z.to_nat (ret r)) (payload r))).

Definition sockets_close (sockfd : Z) : M (World K) unit :=
  r ← syscall_ (SysClose sockfd);
  when (ret r <? 0) (LOG_ERROR "sockets::close").

Definition sockets_shutdownWrite (sockfd : Z) : M (World K) unit :=
  r ← syscall_ (SysShutdownWr sockfd);
  when (ret r <? 0) (LOG_ERROR "sockets::shutdownWrite").

(** The option's value comes back in four bytes. *)
Definition getSocketError (sockfd : Z) : M (World K) Z :=
  r ← syscall_ (SysSoError sockfd);
  if ret r <? 0 then errno else mret (i32 (load LittleEndian (payload r))).

Definition getLocalAddr (sockfd : Z) : M (World K) sockaddr :=
  r ← syscall_ (SysGetsockname sockfd);
  when (ret r <? 0) (LOG_ERROR "sockets::getLocalAddr");;
  mret (filled zero_addr (payload r)).

Definition getPeerAddr (sockfd : Z) : M (World K) sockaddr :=
  r ← syscall_ (SysGetpeername sockfd);
  when (ret r <? 0) (LOG_ERROR "sockets::getPeerAddr");;
  mret (filled zero_addr (payload r)).

Definition same_endpoint (localaddr peeraddr : sockaddr) : bool :=
  if family localaddr =? AF_INET then
    (portNetEndian localaddr =? portNetEndian peeraddr)
    && (load LittleEndian (sin_addr localaddr) =? load LittleEndian (sin_addr peeraddr))
  else if family localaddr =? AF_INET6 then
    (portNetEndian localaddr =? portNetEndian peeraddr)
    && bool_decide (sin6_addr localaddr = sin6_addr peeraddr)
  else false.

Definition isSelfConnect (sockfd : Z) : M (World K) bool :=
  localaddr ← getLocalAddr sockfd;
  peeraddr ← getPeerAddr sockfd;
  mret (same_endpoint localaddr peeraddr).

(** ** Socket: a descriptor and its options *)

Definition Socket_dtor (sockfd : Z) : M (World K) unit := sockets_close sockfd.

(** [getTcpInfo(tcpi)]: whether it worked, and [*tcpi] afterwards. *)
Definition Socket_getTcpInfo (sockfd : Z) : M (World K) (bool * list byte) :=
  r ← syscall_ (SysTcpInfo sockfd);
  mret (ret r =? 0,
        overwrite 0 (take sizeof_tcp_info (payload r)) (replicate sizeof_tcp_info x00)).

(** [getTcpInfoString(buf, len)]: whether it worked, and the string in [buf], which
    held [before]. *)
Definition Socket_getTcpInfoString (sockfd : Z) (before : string) (len : Z) : M (World K) (bool * string) :=
  '(ok, tcpi) ← Socket_getTcpInfo sockfd;
  mret (ok, if ok : bool then snprintf len (tcp_info_text tcpi) else before).

Definition Socket_bindAddress (sockfd : Z) (addr : sockaddr) : M (World K) unit :=
  bindOrDie sockfd addr.

Definition Socket_listen (sockfd : Z) : M (World K) unit := listenOrDie sockfd.

(** The descriptor and the caller's [*peeraddr] afterwards. *)
Definition Socket_accept (sockfd : Z) (peeraddr : sockaddr) : M (World K) (Z * sockaddr) :=
  '(connfd, addr) ← sockets_accept sockfd zero_addr;
  mret (connfd, if 0 <=? connfd then addr else peeraddr).

Definition Socket_shutdownWrite (sockfd : Z) : M (World K) unit := sockets_shutdownWrite sockfd.

Definition setsockopt (sockfd : Z) (opt : string) (on : bool) : M (World K) Z :=
  r ← syscall_ (SysSetsockopt sockfd opt (if on then 1 else 0)); mret (ret r).

Definition Socket_setTcpNoDelay (sockfd : Z) (on : bool) : M (World K) unit :=
  _ ← setsockopt sockfd "TCP_NODELAY" on; mret tt.
Definition Socket_setReuseAddr (sockfd : Z) (on : bool) : M (World K) unit :=
  _ ← setsockopt sockfd "SO_REUSEADDR" on; mret tt.
Definition Socket_setReusePort (sockfd : Z) (on : bool) : M (World K) unit :=
  r ← setsockopt sockfd "SO_REUSEPORT" on;
  when ((r <? 0) && on) (LOG_ERROR "SO_REUSEPORT failed.").
Definition Socket_setKeepAlive (sockfd : Z) (on : bool) : M (World K) unit :=
  _ ← setsockopt sockfd "SO_KEEPALIVE" on; mret tt.
End sockets.

(** ** Lemmas on the layout *)

Section layout.
Implicit Types addr : sockaddr.

Lemma field_overwrite_same i n src addr :
  n = length src → (i + n ≤ length addr)%nat → field i n (overwrite i src addr) = src.
Proof.
  intros -> H. unfold field. rewrite drop_overwrite by done. by rewrite take_app_length.
Qed.

Lemma field_overwrite_before i n j src addr :
  (i + n ≤ j)%nat → (j + length src ≤ length addr)%nat →
  field i n (overwrite j src addr) = field i n addr.
Proof.
  intros Hn H. unfold field. rewrite !take_drop_commute.
  f_equal. by apply take_overwrite.
Qed.

Lemma field_overwrite_after i n j src addr :
  (j + length src ≤ i)%nat → (j + length src ≤ length addr)%nat →
  field i n (overwrite j src addr) = field i n addr.
Proof.
  intros Hn H. unfold field. f_equal.
  replace i with (j + (i - j))%nat by lia. rewrite <- !drop_drop.
  rewrite drop_overwrite by done. rewrite drop_app_ge by lia.
  rewrite !drop_drop. f_equal. lia.
Qed.

Lemma length_set_family f addr :
  length addr = sizeof_sockaddr → length (set_family f addr) = sizeof_sockaddr.
Proof.
  intros H. unfold set_family. rewrite length_overwrite; rewrite ?length_store, H; unfold sizeof_sockaddr; lia.
Qed.

Lemma length_set_port p addr :
  length addr = sizeof_sockaddr → length (set_port p addr) = sizeof_sockaddr.
Proof.
  intros H. unfold set_port. rewrite length_overwrite; rewrite ?length_store, H; unfold sizeof_sockaddr; lia.
Qed.

(** The fields of an address whose family and port have just been set. *)
Lemma family_set f p addr :
  length addr = sizeof_sockaddr → 0 ≤ f < 2 ^ 16 → family (set_port p (set_family f addr)) = f.
Proof.
  intros H Hf. pose proof (length_set_family f addr H) as Hl.
  unfold family, set_port.
  rewrite field_overwrite_before by (rewrite ?length_store, ?Hl; unfold sizeof_sockaddr; lia).
  unfold set_family.
  rewrite field_overwrite_same by (rewrite ?length_store, ?H; unfold sizeof_sockaddr; lia).
  rewrite load_store. by apply wrap_small.
Qed.

Lemma portNetEndian_set_port p addr :
  length addr = sizeof_sockaddr → 0 ≤ p < 2 ^ 16 → portNetEndian (set_port p addr) = p.
Proof.
  intros H Hp. unfold portNetEndian, set_port.
  rewrite field_overwrite_same by (rewrite ?length_store, ?H; unfold sizeof_sockaddr; lia).
  rewrite load_store. by apply wrap_small.
Qed.

Lemma family_after i src addr :
  (2 ≤ i)%nat → (i + length src ≤ length addr)%nat → family (overwrite i src addr) = family addr.
Proof. intros Hi H. unfold family. by rewrite field_overwrite_before. Qed.

Lemma portNetEndian_after i src addr :
  (4 ≤ i)%nat → (i + length src ≤ length addr)%nat →
  portNetEndian (overwrite i src addr) = portNetEndian addr.
Proof. intros Hi H. unfold portNetEndian. by rewrite field_overwrite_before. Qed.

(** An address made by setting the family, the port and then the IP address. *)
Definition make_addr (f : Z) (i : nat) (ip : list byte) (portArg : Z) addr : sockaddr :=
  overwrite i ip (set_port (hostToNetwork16 LittleEndian portArg) (set_family f addr)).

Lemma make_addr_fields f i ip portArg addr :
  length addr = sizeof_sockaddr → 0 ≤ f < 2 ^ 16 → 0 ≤ portArg < 2 ^ 16 →
  (4 ≤ i)%nat → (i + length ip ≤ sizeof_sockaddr)%nat →
  let a := make_addr f i ip portArg addr in
  family a = f ∧ port a = portArg ∧ field i (length ip) a = ip.
Proof.
  intros H Hf Hp Hi Hip a.
  assert (length (set_port (hostToNetwork16 LittleEndian portArg) (set_family f addr))
          = sizeof_sockaddr) as Hl by (by apply length_set_port, length_set_family).
  assert (0 ≤ hostToNetwork16 LittleEndian portArg < 2 ^ 16) as Hn.
  { unfold hostToNetwork16, htobe, bswap.
    pose proof (le_join_range (rev (le_split 2 portArg))) as Hr.
    by rewrite length_rev, length_le_split in Hr. }
  unfold a, make_addr. split_and!.
  - rewrite family_after by (rewrite ?Hl; lia). by apply family_set.
  - unfold port. rewrite portNetEndian_after by (rewrite ?Hl; lia).
    rewrite portNetEndian_set_port by (done || by apply length_set_family).
    unfold networkToHost16, hostToNetwork16. rewrite htobe_betoh. by apply wrap_small.
  - apply field_overwrite_same; [done|]. by rewrite Hl.
Qed.
End layout.

(** ** Printing never truncates *)

Lemma port_digits n : 0 ≤ n < 2 ^ 16 → (String.length (uint_to_string n) ≤ 5)%nat.
Proof. intros Hn. apply (pretty_Z_digits 5); lia. Qed.

Lemma substring_all s n : (String.length s ≤ n)%nat → String.substring 0 n s = s.
Proof.
  revert n. induction s as [|c s IH]; intros [|n] H; simpl in *; try lia; try done.
  f_equal. apply IH. lia.
Qed.

Lemma snprintf_fits size s : Z.of_nat (String.length s) < size → snprintf size s = s.
Proof. intros H. apply substring_all. lia. Qed.

Lemma slen_app s t : slen (s +:+ t) = slen s + slen t.
Proof. unfold slen. rewrite string_length_app. lia. Qed.

(** The 1024 bytes that [TcpConnection::getTcpInfoString] gives are enough. *)
Lemma u32_digits off n tcpi :
  (n ≤ 4)%nat → slen (uint_to_string (load LittleEndian (field off n tcpi))) ≤ 10.
Proof.
  intros Hn. unfold slen. simpl.
  pose proof (le_join_range (field off n tcpi)) as Hr.
  assert (length (field off n tcpi) ≤ n)%nat by (unfold field; rewrite length_take; lia).
  assert (2 ^ (8 * Z.of_nat (length (field off n tcpi))) ≤ 2 ^ 32)
    by (apply Z.pow_le_mono_r; lia).
  assert (String.length (uint_to_string (le_join (field off n tcpi))) ≤ 10)%nat; [|lia].
  apply (pretty_Z_digits 10); lia.
Qed.

Lemma fields_length fs :
  Forall (λ f : string * Z, slen (uint_to_string f.2) ≤ 10) fs →
  slen (foldr (λ f rest, f.1 +:+ (uint_to_string f.2 +:+ rest)) EmptyString fs)
  ≤ foldr (λ f n, slen f.1 + 10 + n) 0 fs.
Proof.
  induction 1 as [|f fs Hf _ IH]; simpl; [done|]. rewrite !slen_app. lia.
Qed.

Lemma tcp_info_text_fits tcpi : snprintf 1024 (tcp_info_text tcpi) = tcp_info_text tcpi.
Proof.
  apply snprintf_fits. fold (slen (tcp_info_text tcpi)).
  eapply Z.le_lt_trans; [apply fields_length|by vm_compute].
  unfold tcp_info_fields. repeat constructor; by apply u32_digits; lia.
Qed.

Section printing.
Context `{InetLaws}.
Implicit Types addr : sockaddr.

Lemma port_range addr : 0 ≤ port addr < 2 ^ 16.
Proof.
  unfold port, networkToHost16, betoh, htobe, bswap.
  pose proof (le_join_range (rev (le_split 2 (portNetEndian addr)))) as Hr.
  by rewrite length_rev, length_le_split in Hr.
Qed.

Lemma snprintf_port prefix size addr :
  (String.length prefix ≤ 2)%nat → 7 < size →
  snprintf size (prefix +:+ uint_to_string (port addr)) = prefix +:+ uint_to_string (port addr).
Proof.
  intros Hp Hsz. apply snprintf_fits. rewrite string_length_app.
  pose proof (port_digits _ (port_range addr)). lia.
Qed.

Lemma toIpPort_ipv4 addr :
  family addr = AF_INET →
  toIpPort addr
  = Ok (inet_ntop AF_INET (sin_addr addr) +:+ (":" +:+ uint_to_string (port addr))).
Proof.
  intros Hf. unfold toIpPort, sockets_toIpPort, sockets_toIp. rewrite Hf. simpl.
  pose proof (inet_ntop_4 (sin_addr addr)) as Hlen. unfold INET_ADDRSTRLEN in Hlen.
  fold (port addr). unfold slen. rewrite (proj2 (Z.ltb_lt _ _)) by lia.
  f_equal. f_equal. apply (snprintf_port ":"); simpl; lia.
Qed.

Lemma toIpPort_ipv6 addr :
  family addr = AF_INET6 →
  toIpPort addr
  = Ok (("[" +:+ inet_ntop AF_INET6 (sin6_addr addr)) +:+ ("]:" +:+ uint_to_string (port addr))).
Proof.
  intros Hf. unfold toIpPort, sockets_toIpPort, sockets_toIp. rewrite Hf.
  change (AF_INET6 =? AF_INET6) with true. change (AF_INET6 =? AF_INET) with false.
  change (INET6_ADDRSTRLEN <=? 64 - 1) with true. cbv beta iota zeta.
  pose proof (inet_ntop_6 (sin6_addr addr)) as Hlen. unfold INET6_ADDRSTRLEN in Hlen.
  fold (port addr).
  assert (slen ("[" +:+ inet_ntop AF_INET6 (sin6_addr addr)) ≤ 46) as Hs
    by (rewrite slen_app; unfold slen; simpl; lia).
  rewrite (proj2 (Z.ltb_lt _ _)) by lia.
  f_equal. f_equal. apply (snprintf_port "]:"); simpl; lia.
Qed.
End printing.

Section inet_address.
Context {K : Type} `{!OS K} `{InetLaws}.
Implicit Types w : World K.

(** The bytes under construction: what the constructor clears, and the rest of
    the union as it was. *)
Lemma cleared_length (before : sockaddr) :
  length before = sizeof_sockaddr → length (overwrite 0 (replicate 16 x00) before) = sizeof_sockaddr.
Proof. intros H'. rewrite length_overwrite; [done|]. rewrite H'. unfold sizeof_sockaddr. simpl. lia. Qed.

(** C29: addresses print back what they were made from.  If the C library parses
    [ip], the constructor [InetAddress(ip, portArg)] logs nothing, makes no system
    call and gives an address of that family (IPv6 exactly when asked for or when
    [ip] has a colon), port and IP bytes; and if the C library prints those bytes
    as [ip], [toIpPort] is [ip:port], in brackets for IPv6, never cut off by the
    64-byte buffer and without a failed assertion. *)
Theorem InetAddress_ip_roundtrip (before : sockaddr) (ip : string) (portArg : Z) (ipv6 : bool)
    (bytes : list byte) w
    (Hbefore : length before = sizeof_sockaddr) (Hport : 0 ≤ portArg < 2 ^ 16) :
  let v6 := ipv6 || has_colon ip in
  let fam := if v6 then AF_INET6 else AF_INET in
  inet_pton fam ip = Some bytes → inet_ntop fam bytes = ip →
  ∃ addr, InetAddress_ip before ip portArg ipv6 w = Ok (addr, w)
    ∧ family addr = fam ∧ port addr = portArg
    ∧ toIpPort addr = Ok ((if v6 then "[" +:+ ip +:+ "]" else ip) +:+ ":" +:+ uint_to_string portArg).
Proof.
  intros v6 fam Hpton Hntop. unfold InetAddress_ip. fold v6. destruct v6 eqn:Hv; subst fam.
  - pose proof (inet_pton_6 _ _ Hpton) as Hlen.
    destruct (make_addr_fields AF_INET6 8 bytes portArg zero_addr) as (Hf & Hp & Hb);
      [done|unfold AF_INET6; lia|done|lia|rewrite Hlen; unfold sizeof_sockaddr; lia|].
    eexists. unfold fromIpPort6. rewrite Hpton. split_and!; [done|exact Hf|exact Hp|].
    rewrite toIpPort_ipv6 by exact Hf.
    change (set_sin6_addr bytes _) with (make_addr AF_INET6 8 bytes portArg zero_addr).
    rewrite Hp. unfold sin6_addr. rewrite Hlen in Hb. rewrite Hb, Hntop.
    f_equal. by rewrite <- !string_app_assoc.
  - pose proof (inet_pton_4 _ _ Hpton) as Hlen.
    destruct (make_addr_fields AF_INET 4 bytes portArg (overwrite 0 (replicate 16 x00) before))
      as (Hf & Hp & Hb);
      [by apply cleared_length|unfold AF_INET; lia|done|lia|rewrite Hlen; unfold sizeof_sockaddr; lia|].
    eexists. unfold fromIpPort. rewrite Hpton. split_and!; [done|exact Hf|exact Hp|].
    rewrite toIpPort_ipv4 by exact Hf.
    change (set_sin_addr bytes _)
      with (make_addr AF_INET 4 bytes portArg (overwrite 0 (replicate 16 x00) before)).
    rewrite Hp. unfold sin_addr. rewrite Hlen in Hb. by rewrite Hb, Hntop.
Qed.

(** A bad address is not an error.  If the C library cannot parse [ip], the
    IPv4 constructor still gives an address, the wildcard 0.0.0.0 with the port
    asked for: all it does is log one error, so a server configured with a
    misspelt address listens on every interface. *)
Theorem InetAddress_bad_ip_is_wildcard (before : sockaddr) (ip : string) (portArg : Z) w
    (Hbefore : length before = sizeof_sockaddr) (Hport : 0 ≤ portArg < 2 ^ 16)
    (Hcolon : has_colon ip = false) (Hpton : inet_pton AF_INET ip = None) :
  ∃ addr w', InetAddress_ip before ip portArg false w = Ok (addr, w')
    ∧ family addr = AF_INET ∧ port addr = portArg ∧ ipv4NetEndian addr = Ok INADDR_ANY
    ∧ w' = with_io (mkIO (io_k (w_io w)) (io_trace (w_io w)) (io_errno (w_io w))
                         (io_log (w_io w) ++ ["sockets::fromIpPort"])) w.
Proof.
  unfold InetAddress_ip. rewrite Hcolon. simpl. unfold fromIpPort. rewrite Hpton.
  set (addr := overwrite 0 (replicate 16 x00) before).
  assert (length addr = sizeof_sockaddr) as Hl by (by apply cleared_length).
  assert (0 ≤ AF_INET < 2 ^ 16) as Hin by (unfold AF_INET; lia).
  assert (make_addr AF_INET 4 [x00; x00; x00; x00] portArg addr
          = set_port (hostToNetwork16 LittleEndian portArg) (set_family AF_INET addr)) as Hmake.
  { unfold make_addr, set_port, set_family, overwrite, addr, overwrite.
    destruct before as [|? [|? [|? [|? before]]]]; try discriminate Hbefore. reflexivity. }
  destruct (make_addr_fields AF_INET 4 [x00; x00; x00; x00] portArg addr) as (Hf & Hp & Hb);
    [done..|lia|simpl; unfold sizeof_sockaddr; lia|].
  rewrite Hmake in Hf, Hp, Hb.
  eexists (set_port (hostToNetwork16 LittleEndian portArg) (set_family AF_INET addr)), _.
  split_and!; [reflexivity|exact Hf|exact Hp| |done].
  unfold ipv4NetEndian. rewrite Hf. unfold sin_addr. cbn [length] in Hb. by rewrite Hb.
Qed.
End inet_address.

(** *** A C library that knows a few addresses *)

Definition known_ipv4 : list (string * list byte) :=
  [("127.0.0.1", [x7f; x00; x00; x01]); ("10.0.0.5", [x0a; x00; x00; x05])].
Definition known_ipv6 : list (string * list byte) :=
  [("::1", in6addr_loopback); ("fe80::1", [xfe; x80] ++ replicate 13 x00 ++ [x01])].

Definition table (fam : Z) : list (string * list byte) :=
  if fam =? AF_INET then known_ipv4 else if fam =? AF_INET6 then known_ipv6 else [].

Definition sample_inet : Inet := {|
  inet_ntop fam b := default "?" (fst <$> List.find (λ e, bool_decide (e.2 = b)) (table fam));
  inet_pton fam s := snd <$> List.find (λ e, bool_decide (e.1 = s)) (table fam)
|}.

Lemma sample_inet_laws : @InetLaws sample_inet.
Proof.
  split; cbn -[String.length]; intros x *; repeat case_bool_decide; simpl; try done.
  all: intros; by simplify_eq/=.
Qed.

Lemma InetAddress_ip_roundtrip_witness :
  ∃ addr, InetAddress_ip (H:=sample_inet) zero_addr "fe80::1" 8080 false sample_world
          = Ok (addr, sample_world)
    ∧ toIpPort (H:=sample_inet) addr = Ok "[fe80::1]:8080".
Proof.
  destruct (@InetAddress_ip_roundtrip sim sample_inet sample_inet_laws zero_addr "fe80::1" 8080 false
    ([xfe; x80] ++ replicate 13 x00 ++ [x01]) sample_world eq_refl ltac:(lia)
    ltac:(by vm_compute) ltac:(by vm_compute)) as (addr & Hrun & _ & _ & Hprint).
  exists addr. split; [exact Hrun|]. rewrite Hprint. by vm_compute.
Defined.

Lemma InetAddress_bad_ip_is_wildcard_witness :
  ∃ addr w', InetAddress_ip (H:=sample_inet) zero_addr "127.0.0.l" 8080 false sample_world
             = Ok (addr, w')
    ∧ ipv4NetEndian addr = Ok 0 ∧ io_log (w_io w') = ["sockets::fromIpPort"].
Proof.
  destruct (@InetAddress_bad_ip_is_wildcard sim sample_inet zero_addr "127.0.0.l" 8080
    sample_world eq_refl ltac:(lia) ltac:(by vm_compute) ltac:(by vm_compute))
    as (addr & w' & Hrun & _ & _ & Hip & ->).
  eexists _, _. split; [exact Hrun|]. split; [exact Hip|by vm_compute].
Defined.
