(* ===== verification/Calls.v ===== *)
(** * Calls: following the system calls a member makes

    [made w calls w'] says that from [w] to [w'] nothing changed but the I/O
    state, by exactly the system calls [calls]; [after_call] is the world after
    one call, and the rules below run the members call by call. *)
From S2P Require Import Prelude Endian OS Descriptors Objects Poller LoopCore Sockets.

Set Default Goal Selector "!".

Section calls.
Context {K : Type} `{!OS K}.
Implicit Types w : World K.

(** The world after system call [c] and some lines of the log. *)
Definition after_call (c : syscall) (log : list string) w : World K :=
  let '(r, k) := os_call c (io_k (w_io w)) in
  with_io (mkIO k (io_trace (w_io w) ++ [(c, r)])
                (if ret r <? 0 then err r else io_errno (w_io w)) (io_log (w_io w) ++ log)) w.

Definition result_of (c : syscall) w : sysres := (os_call c (io_k (w_io w))).1.

Lemma call_wp c (Q : sysres → World K → Prop) w :
  Q (result_of c w) (after_call c [] w) → wp (syscall_ c) Q w.
Proof.
  intros HQ. apply syscall_wp. intros r k Hk. change (r_io (w_r w)) with (w_io w) in *.
  unfold result_of, after_call in HQ. rewrite Hk, app_nil_r in HQ. exact HQ.
Qed.

Lemma log_after_call msg c log (Q : unit → World K → Prop) w :
  Q tt (after_call c (log ++ [msg]) w) → wp (LOG_ERROR msg) Q (after_call c log w).
Proof.
  intros HQ. apply LOG_ERROR_wp. unfold after_call in *.
  destruct (os_call c (io_k (w_io w))) as [r k]. simpl in *. by rewrite <- app_assoc.
Qed.

Lemma errno_after_call c log (Q : Z → World K → Prop) w :
  ret (result_of c w) < 0 → Q (err (result_of c w)) (after_call c log w) →
  wp errno Q (after_call c log w).
Proof.
  intros Hr HQ. apply wp_gets. unfold after_call, result_of in *.
  destruct (os_call c (io_k (w_io w))) as [r k]. simpl in *.
  rewrite (proj2 (Z.ltb_lt _ _) Hr) in *. exact HQ.
Qed.

(** Setting [errno] to what the failed call left in it changes nothing. *)
Lemma set_errno_after_call c log (Q : unit → World K → Prop) w :
  ret (result_of c w) < 0 → Q tt (after_call c log w) →
  wp (set_errno (err (result_of c w))) Q (after_call c log w).
Proof.
  intros Hr HQ. apply in_reactor_wp, in_io_wp, wp_modify. unfold after_call, result_of in *.
  destruct (os_call c (io_k (w_io w))) as [r k]. simpl in *.
  rewrite (proj2 (Z.ltb_lt _ _) Hr) in *. exact HQ.
Qed.

Lemma after_call_same c log w : after_call c log w = with_io (w_io (after_call c log w)) w.
Proof. unfold after_call. by destruct (os_call c (io_k (w_io w))) as [r k]. Qed.

Lemma trace_after_call c log w :
  io_trace (w_io (after_call c log w)) = io_trace (w_io w) ++ [(c, result_of c w)].
Proof. unfold after_call, result_of. by destruct (os_call c (io_k (w_io w))) as [r k]. Qed.

(** The kernel after some calls. *)
Definition replay (calls : list (syscall * sysres)) (k : K) : K :=
  foldl (λ k cr, (os_call cr.1 k).2) k calls.

(** The results are the kernel's. *)
Fixpoint answered (calls : list (syscall * sysres)) (k : K) : Prop :=
  match calls with
  | [] => True
  | cr :: calls => cr.2 = (os_call cr.1 k).1 ∧ answered calls (os_call cr.1 k).2
  end.

Lemma answered_app calls calls' : ∀ k,
  answered calls k → answered calls' (replay calls k) → answered (calls ++ calls') k.
Proof. induction calls as [|cr calls IH]; intros k; simpl; [done|]. intros [? ?] ?. auto. Qed.

(** The I/O state after the calls [calls] and some lines of the log. *)
Definition io_by (calls : list (syscall * sysres)) (io io' : IO K) : Prop :=
  (io_trace io' = io_trace io ++ calls ∧ answered calls (io_k io)) ∧ io_k io' = replay calls (io_k io).

Lemma io_by_nil io : io_by [] io io.
Proof. split; [split; [by rewrite app_nil_r|done]|done]. Qed.

Lemma io_by_app calls calls' io io' io'' :
  io_by calls io io' → io_by calls' io' io'' → io_by (calls ++ calls') io io''.
Proof.
  intros [[T A] E] [[T' A'] E']. rewrite E in A'. split; [split|].
  - by rewrite T', T, app_assoc.
  - by apply answered_app.
  - unfold replay in *. rewrite foldl_app. by rewrite E', E.
Qed.

Lemma io_by_call c log w : io_by [(c, result_of c w)] (w_io w) (w_io (after_call c log w)).
Proof.
  split; [split; [apply trace_after_call|done]|]. unfold after_call, replay. simpl.
  by destruct (os_call c (io_k (w_io w))) as [r k].
Qed.

(** A call of which only the trace and the kernel matter. *)
Lemma call_by_wp c (Q : sysres → World K → Prop) w :
  (∀ io, io_by [(c, result_of c w)] (w_io w) io → Q (result_of c w) (with_io io w)) →
  wp (syscall_ c) Q w.
Proof.
  intros HQ. apply call_wp. rewrite after_call_same. apply HQ, io_by_call.
Qed.

Definition made w (calls : list (syscall * sysres)) w' : Prop :=
  w' = with_io (w_io w') w ∧ io_by calls (w_io w) (w_io w').

Lemma made_trace w calls w' : made w calls w' → io_trace (w_io w') = io_trace (w_io w) ++ calls.
Proof. by intros (_ & (H & _) & _). Qed.

Lemma made_nil w : made w [] w.
Proof. split; [by rewrite with_io_id|apply io_by_nil]. Qed.

Lemma made_call c log w calls w' :
  made w calls w' → made w (calls ++ [(c, result_of c w')]) (after_call c log w').
Proof.
  intros [E Ht]. split; [|by eapply io_by_app, io_by_call].
  rewrite after_call_same. generalize (w_io (after_call c log w')). intros io. by rewrite E.
Qed.

Lemma made_one c log w : made w [(c, result_of c w)] (after_call c log w).
Proof. apply (made_call c log w [] w), made_nil. Qed.

Lemma made_log w calls w' msg (Q : unit → World K → Prop) :
  made w calls w' → (∀ w'', made w calls w'' → Q tt w'') → wp (LOG_ERROR msg) Q w'.
Proof.
  intros [E Ht] HQ. apply LOG_ERROR_wp, HQ. split; [|exact Ht]. by rewrite E.
Qed.

(** A logged wrapper around one call, such as [sockets::close]. *)
Lemma sockets_close_wp fd w calls w' (Q : unit → World K → Prop) :
  made w calls w' →
  (∀ w'', made w (calls ++ [(SysClose fd, result_of (SysClose fd) w')]) w'' → Q tt w'') →
  wp (sockets_close fd) Q w'.
Proof.
  intros Hw HQ. apply wp_bind, call_wp. pose proof (made_call (SysClose fd) [] _ _ _ Hw) as Hc.
  apply wp_when; intros _; [by eapply made_log|by apply HQ].
Qed.
End calls.

(** Calls that leave interest lists and descriptors alone. *)
Section harmless.
Context {K : Type} `{!OS K} `{!EpollLaws K}.

Abbreviation all_harmless calls := (Forall (λ cr : syscall * sysres, harmless cr.1 = true) calls).

Lemma replay_interest calls : ∀ (k : K) ep,
  all_harmless calls → interest (replay calls k) ep = interest k ep.
Proof.
  unfold replay. induction calls as [|cr calls IH]; intros k ep Hall; [done|]. simpl.
  apply Forall_cons in Hall as [[Hi _]%andb_true_iff Hall]. rewrite IH by done. by apply interest_frame.
Qed.

Lemma replay_fds `{!FdLaws K} calls : ∀ (k : K),
  all_harmless calls → open_fds (replay calls k) = open_fds k.
Proof.
  unfold replay. induction calls as [|cr calls IH]; intros k Hall; [done|]. simpl.
  apply Forall_cons in Hall as [[_ Hf]%andb_true_iff Hall]. rewrite IH by done. by apply fds_frame.
Qed.
End harmless.

(** Writing a world out member by member. *)
Ltac unfold_world := cbv beta iota zeta delta [with_io
    w_r w_tid w_loops w_timers w_conns w_acceptors w_connectors w_servers w_clients w_pools
    w_threads w_app w_mem w_calls w_next w_numCreated w_nextTid w_held r_io r_chans r_pollers
    set_w_r set_w_tid set_w_loops set_w_timers set_w_conns set_w_acceptors set_w_connectors
    set_w_servers set_w_clients set_w_pools set_w_threads set_w_app set_w_mem set_w_calls
    set_w_next set_w_numCreated set_w_nextTid set_w_held set_r_io set_r_chans set_r_pollers].
Tactic Notation "unfold_world" "in" hyp(H) := cbv beta iota zeta delta [with_io
    w_r w_tid w_loops w_timers w_conns w_acceptors w_connectors w_servers w_clients w_pools
    w_threads w_app w_mem w_calls w_next w_numCreated w_nextTid w_held r_io r_chans r_pollers
    set_w_r set_w_tid set_w_loops set_w_timers set_w_conns set_w_acceptors set_w_connectors
    set_w_servers set_w_clients set_w_pools set_w_threads set_w_app set_w_mem set_w_calls
    set_w_next set_w_numCreated set_w_nextTid set_w_held set_r_io set_r_chans set_r_pollers] in H.
