(* ===== verification/Addresses.v ===== *)
(** * Addresses: what an InetAddress holds (InetAddress.h, InetAddress.cpp)

    However an [InetAddress] is made and changed, its 28 bytes hold the family and the
    port that the constructor or the last [setSockAddrInet6] gave it, and it can be
    printed.  The operations are values here, so that the theorem speaks of any
    sequence of them. *)
From S2P Require Import Prelude Endian OS Descriptors Objects LoopCore Sockets Calls.

Set Default Goal Selector "!".

(** The constructors, and what can be done to an address later. *)
Inductive maker : Type :=
  | ByPort (portArg : Z) (loopbackOnly ipv6 : bool)
  | ByText (ip : string) (portArg : Z) (ipv6 : bool)
  | BySockaddrIn (addr : list byte)
  | BySockaddrIn6 (addr6 : sockaddr).

Inductive change : Type :=
  | SetScopeId (scope_id : Z)
  | Resolve (hostname : string)
  | SetSockAddrInet6 (addr6 : sockaddr).

(** What the parameter types of the C++ members say of the arguments: a [uint16_t], a
    [sockaddr_in], a [sockaddr_in6]. *)
Definition maker_ok (m : maker) : Prop :=
  match m with
  | ByPort portArg _ _ | ByText _ portArg _ => 0 ≤ portArg < 2 ^ 16
  | BySockaddrIn addr => length addr = 16%nat
  | BySockaddrIn6 addr6 => length addr6 = sizeof_sockaddr
  end.

Definition change_ok (c : change) : Prop :=
  match c with SetSockAddrInet6 addr6 => length addr6 = sizeof_sockaddr | _ => True end.

(** The family and the port that they should give: what was asked for, or those of the
    [sockaddr] that is copied. *)
Definition endpoint (addr : sockaddr) : Z * Z := (family addr, port addr).

Definition made_endpoint (m : maker) : Z * Z :=
  match m with
  | ByPort portArg _ ipv6 => (if ipv6 then AF_INET6 else AF_INET, portArg)
  | ByText ip portArg ipv6 => (if ipv6 || has_colon ip then AF_INET6 else AF_INET, portArg)
  | BySockaddrIn addr | BySockaddrIn6 addr => endpoint addr
  end.

Definition changed_endpoint (e : Z * Z) (c : change) : Z * Z :=
  match c with SetSockAddrInet6 addr6 => endpoint addr6 | SetScopeId _ | Resolve _ => e end.

(** The answers of the C library that [resolve] takes for an error of the program: not an
    address of IPv4. *)
Definition foreign (r : sysres) : Prop :=
  ret r = 0 ∧ payload r ≠ [] ∧ ¬ (err r = AF_INET ∧ length (payload r) = 4%nat).

(** What is printed of an address; of neither family, nothing but the port. *)
Definition ip_text `{Inet} (addr : sockaddr) : string :=
  if family addr =? AF_INET then inet_ntop AF_INET (sin_addr addr)
  else if family addr =? AF_INET6 then inet_ntop AF_INET6 (sin6_addr addr) else EmptyString.

Definition endpoint_text `{Inet} (addr : sockaddr) : string :=
  (if family addr =? AF_INET6 then "[" +:+ (ip_text addr +:+ "]") else ip_text addr)
  +:+ (":" +:+ uint_to_string (port addr)).

Section run.
Context {K : Type} `{!OS K} `{Inet}.

(** [before]: what the memory of the object held. *)
Definition run_maker (before : sockaddr) (m : maker) : M (World K) sockaddr :=
  match m with
  | ByPort portArg loopbackOnly ipv6 => mret (InetAddress_port before portArg loopbackOnly ipv6)
  | ByText ip portArg ipv6 => InetAddress_ip before ip portArg ipv6
  | BySockaddrIn addr => mret (InetAddress_in before addr)
  | BySockaddrIn6 addr6 => mret (InetAddress_in6 addr6)
  end.

Definition run_change (addr : sockaddr) (c : change) : M (World K) sockaddr :=
  match c with
  | SetScopeId scope_id => mret (setScopeId scope_id addr)
  | Resolve hostname => '(_, addr) ← resolve hostname addr; mret addr
  | SetSockAddrInet6 addr6 => mret (setSockAddrInet6 addr6 addr)
  end.

Fixpoint run_changes (addr : sockaddr) (cs : list change) : M (World K) sockaddr :=
  match cs with
  | [] => mret addr
  | c :: cs => addr ← run_change addr c; run_changes addr cs
  end.
End run.

(** ** Writing into an address *)

Lemma length_overwritten i src (addr : sockaddr) :
  length addr = sizeof_sockaddr → (i + length src ≤ sizeof_sockaddr)%nat →
  length (overwrite i src addr) = sizeof_sockaddr.
Proof. intros H Hs. by rewrite length_overwrite; rewrite ?H. Qed.

(** Behind the family and the port. *)
Lemma endpoint_overwritten i src addr :
  length addr = sizeof_sockaddr → (4 ≤ i)%nat → (i + length src ≤ sizeof_sockaddr)%nat →
  length (overwrite i src addr) = sizeof_sockaddr ∧ endpoint (overwrite i src addr) = endpoint addr.
Proof.
  intros Hl Hi Hs. split; [by apply length_overwritten|]. unfold endpoint, port.
  by rewrite family_after, portNetEndian_after by (rewrite ?Hl; lia).
Qed.

Lemma family_set_family f addr :
  length addr = sizeof_sockaddr → 0 ≤ f < 2 ^ 16 → family (set_family f addr) = f.
Proof.
  intros Hl Hf. unfold family, set_family.
  rewrite field_overwrite_same by (rewrite ?length_store, ?Hl; unfold sizeof_sockaddr; lia).
  rewrite load_store. by apply wrap_small.
Qed.

Lemma endpoint_set_port portArg addr :
  length addr = sizeof_sockaddr → 0 ≤ portArg < 2 ^ 16 →
  let addr' := set_port (hostToNetwork16 LittleEndian portArg) addr in
  length addr' = sizeof_sockaddr ∧ endpoint addr' = (family addr, portArg).
Proof.
  intros Hl Hp addr'. split; [by apply length_set_port|]. unfold endpoint, addr'. f_equal.
  - unfold family, set_port.
    by rewrite field_overwrite_before by (rewrite ?length_store, ?Hl; unfold sizeof_sockaddr; lia).
  - unfold port. rewrite portNetEndian_set_port; [|done|].
    + unfold networkToHost16, hostToNetwork16. rewrite htobe_betoh. by apply wrap_small.
    + unfold hostToNetwork16, htobe, bswap.
      pose proof (le_join_range (rev (le_split 2 portArg))) as Hr. by rewrite length_rev, length_le_split in Hr.
Qed.

(** The port behind the family, as the constructors from a text set them. *)
Lemma endpoint_made f portArg addr :
  length addr = sizeof_sockaddr → f = AF_INET ∨ f = AF_INET6 → 0 ≤ portArg < 2 ^ 16 →
  let addr' := set_port (hostToNetwork16 LittleEndian portArg) (set_family f addr) in
  length addr' = sizeof_sockaddr ∧ endpoint addr' = (f, portArg).
Proof.
  intros Hl Hf Hp. assert (0 ≤ f < 2 ^ 16) by (unfold AF_INET, AF_INET6 in Hf; lia).
  destruct (endpoint_set_port portArg (set_family f addr)) as [H1 H2]; [by apply length_set_family|done|].
  by rewrite family_set_family in H2.
Qed.

(** ... and behind the IP. *)
Lemma endpoint_bound f portArg i ip addr :
  length addr = sizeof_sockaddr → f = AF_INET ∨ f = AF_INET6 → 0 ≤ portArg < 2 ^ 16 →
  (4 ≤ i)%nat → (i + length ip ≤ sizeof_sockaddr)%nat →
  let addr' := set_port (hostToNetwork16 LittleEndian portArg) (overwrite i ip (set_family f addr)) in
  length addr' = sizeof_sockaddr ∧ endpoint addr' = (f, portArg).
Proof.
  intros Hl Hf Hp Hi Hip. assert (0 ≤ f < 2 ^ 16) by (unfold AF_INET, AF_INET6 in Hf; lia).
  pose proof (length_set_family f addr Hl) as Hl1.
  destruct (endpoint_overwritten i ip (set_family f addr) Hl1 Hi Hip) as [Hl2 _].
  destruct (endpoint_set_port portArg _ Hl2 Hp) as [H1 H2]. split; [exact H1|]. rewrite H2.
  rewrite family_after by (rewrite ?Hl1; lia). by rewrite family_set_family.
Qed.

(** ** Printing *)

Lemma endpoint_prints `{InetLaws} addr :
  toIp addr = Ok (ip_text addr) ∧ toIpPort addr = Ok (endpoint_text addr) ∧ slen (endpoint_text addr) < 64.
Proof.
  pose proof (port_digits (port addr) (port_range addr)) as Hp. unfold endpoint_text, ip_text.
  destruct (Z.eqb_spec (family addr) AF_INET) as [Hf|H4]; [|destruct (Z.eqb_spec (family addr) AF_INET6) as [Hf|H6]].
  - rewrite toIpPort_ipv4, Hf by done.
    pose proof (inet_ntop_4 (sin_addr addr)) as Hlen. unfold INET_ADDRSTRLEN in Hlen.
    split_and!; [unfold toIp, sockets_toIp; by rewrite Hf|done|]. simpl.
    rewrite !slen_app. unfold slen. simpl. lia.
  - rewrite toIpPort_ipv6 by done.
    pose proof (inet_ntop_6 (sin6_addr addr)) as Hlen. unfold INET6_ADDRSTRLEN in Hlen.
    split_and!; [unfold toIp, sockets_toIp; by rewrite Hf|by rewrite <- !string_app_assoc|].
    rewrite !slen_app. unfold slen. simpl. lia.
  - apply Z.eqb_neq in H4, H6. split_and!.
    + unfold toIp, sockets_toIp. by rewrite H4, H6.
    + unfold toIpPort, sockets_toIpPort, sockets_toIp. rewrite H4, H6. cbn -[snprintf].
      fold (port addr). f_equal. apply (snprintf_port ":"); [simpl; lia|done].
    + rewrite !slen_app. unfold slen. simpl. lia.
Qed.

Section changes.
Context {K : Type} `{!OS K} `{InetLaws}.
Implicit Types w : World K.

Lemma run_maker_wp before m w :
  length before = sizeof_sockaddr → maker_ok m →
  wp (run_maker before m) (λ addr _, length addr = sizeof_sockaddr ∧ endpoint addr = made_endpoint m) w.
Proof.
  intros Hl Hm. pose proof (cleared_length before Hl) as Hc.
  destruct m as [portArg lo v6|ip portArg v6|addr|addr6]; cbn [run_maker made_endpoint maker_ok] in *.
  - apply wp_ret. unfold InetAddress_port. destruct v6; apply endpoint_bound; try done; try (by auto); try lia.
    + by destruct lo; vm_compute; lia.
    + rewrite length_store. unfold sizeof_sockaddr. lia.
  - unfold InetAddress_ip, fromIpPort, fromIpPort6. destruct (v6 || has_colon ip).
    + destruct (endpoint_made AF_INET6 portArg zero_addr) as [Hl1 E]; [done|by right|done|]. rewrite <- E.
      destruct (inet_pton AF_INET6 ip) as [b|] eqn:Eb; [|by apply wp_bind, LOG_ERROR_wp, wp_ret].
      apply wp_ret, endpoint_overwritten; [exact Hl1|lia|].
      rewrite (inet_pton_6 _ _ Eb). unfold sizeof_sockaddr. lia.
    + destruct (endpoint_made AF_INET portArg _ Hc) as [Hl1 E]; [by left|done|]. rewrite <- E.
      destruct (inet_pton AF_INET ip) as [b|] eqn:Eb; [|by apply wp_bind, LOG_ERROR_wp, wp_ret].
      apply wp_ret, endpoint_overwritten; [exact Hl1|lia|].
      rewrite (inet_pton_4 _ _ Eb). unfold sizeof_sockaddr. lia.
  - apply wp_ret. unfold InetAddress_in. split.
    + apply length_overwritten; [done|]. rewrite Hm. unfold sizeof_sockaddr. lia.
    + unfold endpoint, family, port, portNetEndian, field, overwrite. simpl (take 0 _).
      by rewrite app_nil_l, !skipn_0, drop_app_le, !take_app_le by (rewrite ?length_drop, Hm; lia).
  - by apply wp_ret.
Qed.

(** [resolve] stops at the answer of another type. *)
Definition resolve_fault (cs : list change) (e : fault) : Prop :=
  e = AssertFailed "InetAddress.cpp:117"
  ∧ ∃ hostname (k : K), Resolve hostname ∈ cs ∧ foreign (os_call (SysGethostbyname hostname) k).1.

Lemma run_change_wp addr c w :
  length addr = sizeof_sockaddr → change_ok c →
  wpx (resolve_fault [c]) (run_change addr c)
    (λ addr' _, length addr' = sizeof_sockaddr ∧ endpoint addr' = changed_endpoint (endpoint addr) c) w.
Proof.
  intros Ha Hc. destruct c as [scope_id|hostname|addr6]; cbn [run_change changed_endpoint].
  - apply wpx_ret. unfold setScopeId. destruct (family addr =? AF_INET6); [|done].
    apply endpoint_overwritten; [exact Ha|lia|]. rewrite length_store. unfold sizeof_sockaddr. lia.
  - apply wpx_bind. unfold resolve. apply wpx_bind_wp, call_wp. set (r := result_of _ w).
    destruct (Z.eqb_spec (ret r) 0) as [Hr|Hr]; cbn [andb].
    2:{ apply wpx_bind_wp, wp_when; intros _; [apply LOG_ERROR_wp|]; by apply wpx_ret, wpx_ret. }
    case_bool_decide as Hp; cbn [negb].
    { apply wpx_bind_wp, wp_when; intros _; [apply LOG_ERROR_wp|]; by apply wpx_ret, wpx_ret. }
    destruct ((err r =? AF_INET) && (length (payload r) =? 4)%nat) eqn:Et.
    + apply wpx_bind_wp, wp_assert; [done|]. apply wpx_ret, wpx_ret.
      apply andb_true_iff in Et as [_ E4%Nat.eqb_eq].
      apply endpoint_overwritten; [exact Ha|lia|]. rewrite E4. unfold sizeof_sockaddr. lia.
    + eapply wpx_fault; [by rewrite bind_run|]. split; [done|]. exists hostname, (io_k (w_io w)).
      split; [by left|]. split_and!; [exact Hr|exact Hp|]. intros [E1 E2].
      change (err r = AF_INET) in E1. change (length (payload r) = 4%nat) in E2.
      by rewrite E1, E2 in Et.
  - by apply wpx_ret.
Qed.

Lemma run_changes_wp cs : ∀ addr w,
  length addr = sizeof_sockaddr → Forall change_ok cs →
  wpx (resolve_fault cs) (run_changes addr cs)
    (λ addr' _, length addr' = sizeof_sockaddr ∧ endpoint addr' = foldl changed_endpoint (endpoint addr) cs) w.
Proof.
  induction cs as [|c cs IH]; intros addr w Ha Hcs; cbn [run_changes foldl]; [by apply wpx_ret|].
  apply Forall_cons in Hcs as [Hc Hcs]. apply wpx_bind.
  eapply wpx_mono; [eapply wpx_weaken; [by apply run_change_wp|]|].
  - intros e (-> & h & k & Hin%list_elem_of_singleton & Hr). split; [done|]. exists h, k. split; [rewrite Hin; by left|exact Hr].
  - intros addr1 w1 [Ha1 <-]. eapply wpx_weaken; [by apply IH|].
    intros e (-> & h & k & Hin & Hr). split; [done|]. exists h, k. split; [by right|exact Hr].
Qed.

(** C30: an [InetAddress] keeps the family and the port it was given.  Make one with any
    constructor: from a port, from a text, which the C library can parse or not (IPv6
    exactly if asked for or if there is a colon in the text), or from a [sockaddr_in] or
    [sockaddr_in6] of whatever family.  Then let scopes, resolved host names and other
    addresses be stored into it in any order.  Its family and port are always those that
    the constructor was given or that the last [setSockAddrInet6] brought: [resolve] and
    [setScopeId] change neither.  The only thing that can stop it is [resolve]'s assertion,
    and only if the C library answers with something else than an IPv4 address of four
    bytes.  And at any time it can be printed: [toIp] and [toIpPort] succeed and fit the 64
    bytes they print into, the port behind the IP, in brackets exactly for IPv6; of
    neither family, the port alone. *)
Theorem InetAddress_keeps_its_endpoint (before : sockaddr) (m : maker) (cs : list change) w
    (Hbefore : length before = sizeof_sockaddr) (Hm : maker_ok m) (Hcs : Forall change_ok cs) :
  ∃ made w1, run_maker before m w = Ok (made, w1) ∧ endpoint made = made_endpoint m
    ∧ ((∃ addr w', run_changes made cs w1 = Ok (addr, w')
          ∧ length addr = sizeof_sockaddr
          ∧ endpoint addr = foldl changed_endpoint (made_endpoint m) cs
          ∧ toIp addr = Ok (ip_text addr) ∧ toIpPort addr = Ok (endpoint_text addr) ∧ slen (endpoint_text addr) < 64)
       ∨ (run_changes made cs w1 = Fault (AssertFailed "InetAddress.cpp:117")
          ∧ ∃ hostname (k : K), Resolve hostname ∈ cs ∧ foreign (os_call (SysGethostbyname hostname) k).1)).
Proof.
  destruct (proj1 (wp_run _ _ _) (run_maker_wp before m w Hbefore Hm)) as (made & w1 & Hrun & Hl & Hmade).
  exists made, w1. split_and!; [exact Hrun|exact Hmade|].
  destruct (proj1 (wpx_run _ _ _ _) (run_changes_wp cs made w1 Hl Hcs)) as [(addr & w' & Hrun' & Ha & He)|(e & Hrun' & -> & Hr)];
    [left|by right].
  rewrite Hmade in He. exists addr, w'. split_and!; [exact Hrun'|exact Ha|exact He|apply endpoint_prints..].
Qed.
End changes.

(** *** A machine that knows one host *)

#[local] Existing Instance sample_inet.
#[local] Existing Instance sample_inet_laws.

#[local] Instance one_host : OS unit := λ c k,
  (match c with SysGethostbyname _ => mkRes 0 AF_INET [x0a; x00; x00; x05] [] | _ => mkRes 0 0 [] [] end, k).

Definition one_host_world : World unit :=
  mkWorld (mkReactor (mkIO tt [] 0 []) ∅ ∅) 7%nat ∅ ∅ ∅ ∅ ∅ ∅ ∅ ∅ ∅ no_app ∅ [] 10%nat 0 50%nat [].

Lemma InetAddress_keeps_its_endpoint_witness :
  ∃ made w1 addr w',
    run_maker zero_addr (ByPort 8080 false false) one_host_world = Ok (made, w1)
    ∧ run_changes made [SetScopeId 2; Resolve "siren"] w1 = Ok (addr, w')
    ∧ endpoint addr = (AF_INET, 8080) ∧ toIpPort addr = Ok (endpoint_text addr).
Proof.
  destruct (InetAddress_keeps_its_endpoint zero_addr (ByPort 8080 false false) [SetScopeId 2; Resolve "siren"]
    one_host_world) as (made & w1 & R1 & _ & [(addr & w' & R2 & _ & E & _ & H2 & _)|(_ & h & k & _ & _ & _ & F)]).
  - done.
  - simpl. lia.
  - by repeat constructor.
  - exists made, w1, addr, w'. by split_and!.
  - by destruct F.
Defined.

Example resolved_address :
  match (made ← run_maker zero_addr (ByPort 8080 false false);
         run_changes made [Resolve "siren"]) one_host_world with
  | Ok (addr, _) => toIpPort addr
  | Fault e => Fault e
  end = Ok "10.0.0.5:8080".
Proof. by vm_compute. Qed.

(** A copied address of neither family, such as [getLocalAddr] gives when it fails. *)
Example unspecified_address :
  match run_maker zero_addr (BySockaddrIn6 zero_addr) one_host_world with
  | Ok (addr, _) => toIpPort addr
  | Fault e => Fault e
  end = Ok ":0".
Proof. by vm_compute. Qed.
