(* ===== verification/TcpConnection.v ===== *)
(** * TcpConnection: one connection (TcpConnection.h, TcpConnection.cpp)

    The members of [TcpConnection] over the world; a connection is named by its
    pointer.  [user] is what the program that uses the library does when one of
    its callbacks is called, and [close_callback] what [closeCallback_] is bound
    to (a member of [TcpServer] or [TcpClient], above this file). *)
From S2P Require Import Prelude Endian Buffer OS Double Objects Poller LoopCore Channel TimerQueue Sockets.

Set Default Goal Selector "!".

(** ** Where the bytes to send come from *)

(** A pointer into the program's memory, or the bytes of an object the call
    itself holds (a bound string, the readable part of a buffer). *)
Inductive source : Type :=
  | Memory (p : ptr)
  | Bytes (l : list byte).

(** A buffer somewhere in the world. *)
Record BufferRef (K : Type) : Type := mkBufferRef {
  br_look : World K → option Buffer;
  br_put : Buffer → World K → World K
}.
Arguments mkBufferRef {K}.
Arguments br_look {K}.
Arguments br_put {K}.

Definition stateToString (s : StateE) : string :=
  match s with
  | kDisconnected => "kDisconnected"
  | kConnecting => "kConnecting"
  | kConnected => "kConnected"
  | kDisconnecting => "kDisconnecting"
  end.

Section connection.
Context {K : Type} `{!OS K} {P : Poller K}.

(** ** Access *)

Definition input_of (c : ptr) : BufferRef K :=
  mkBufferRef (λ w, tc_inputBuffer <$> w_conns w !! c)
    (λ b w, set_w_conns (alter (set_tc_inputBuffer b) c (w_conns w)) w).
Definition output_of (c : ptr) : BufferRef K :=
  mkBufferRef (λ w, tc_outputBuffer <$> w_conns w !! c)
    (λ b w, set_w_conns (alter (set_tc_outputBuffer b) c (w_conns w)) w).

Definition on_buffer {A} (r : BufferRef K) (m : M Buffer A) : M (World K) A :=
  zoom "Buffer" (br_look r) (br_put r) m.

(** The [len] bytes at offset [off]: reading outside the object is undefined. *)
Definition fetch (src : source) (off len : Z) : M (World K) (list byte) := λ w,
  let bytes := match src with Memory p => w_mem w !! p | Bytes l => Some l end in
  match bytes with
  | None => Fault (NullDeref "message")
  | Some l => if off + len <=? Z.of_nat (length l)
              then Ok (take (Z.to_nat len) (drop (Z.to_nat off) l), w)
              else Fault (OutOfBounds "message")
  end.

Definition conn_loop (c : ptr) : M (World K) ptr := x ← get_conn c; mret (tc_loop x).
Definition conn_assertInLoopThread (c : ptr) : M (World K) unit :=
  l ← conn_loop c; assertInLoopThread l.
Definition setState (c : ptr) (s : StateE) : M (World K) unit := upd_conn c (set_tc_state s).
Definition conn_channel (c : ptr) : M (World K) Channel :=
  x ← get_conn c; chan_at (tc_channel x).

(** ** The callbacks *)

Section callbacks.
Context (user : UserCall → M (World K) unit).
Context (close_callback : CloseCallback → ptr → M (World K) unit).

Definition call_user (u : UserCall) : M (World K) unit := user_call u;; user u.

Definition bad_function_call : fault := Terminated "std::bad_function_call".

Definition run_connectionCallback (c : ptr) : M (World K) unit :=
  x ← get_conn c;
  match tc_connectionCallback x with
  | None => fail bad_function_call
  | Some defaultConnectionCallback => mret tt
  | Some (UserConnectionCallback id) =>
      call_user (UcConnection id c (bool_decide (tc_state x = kConnected)))
  end.

Definition run_messageCallback (c : ptr) (receiveTime : Z) : M (World K) unit :=
  x ← get_conn c;
  match tc_messageCallback x with
  | None => fail bad_function_call
  | Some defaultMessageCallback => on_buffer (input_of c) retrieveAll
  | Some (UserMessageCallback id) => call_user (UcMessage id c receiveTime)
  end.

Definition run_closeCallback (c : ptr) : M (World K) unit :=
  x ← get_conn c;
  match tc_closeCallback x with
  | None => fail bad_function_call
  | Some cb => close_callback cb c
  end.

(** ** Sending *)

(** [queueInLoop(bind(writeCompleteCallback_, shared_from_this()))] if it is set *)
Definition queue_writeComplete (c : ptr) : M (World K) unit :=
  x ← get_conn c;
  match tc_writeCompleteCallback x with
  | Some id => queueInLoop (tc_loop x) (FnWriteCompleteCallback id c)
  | None => mret tt
  end.

(** The direct write: [nwrote], [remaining] and [faultError]. *)
Definition sendInLoop_write (c : ptr) (src : source) (len : Z) : M (World K) (Z * Z * bool) :=
  ch ← conn_channel c;
  data ← fetch src 0 len;
  nwrote ← sockets_write (ch_fd ch) data;
  if 0 <=? nwrote then
    let remaining := u64 (len - nwrote) in
    when (remaining =? 0) (queue_writeComplete c);;
    mret (nwrote, remaining, false)
  else
    e ← errno;
    if e =? EWOULDBLOCK then mret (0, len, false)
    else
      LOG_ERROR "TcpConnection::sendInLoop";;
      e ← errno;
      mret (0, len, (e =? EPIPE) || (e =? ECONNRESET)).

(** Queueing what the socket did not take. *)
Definition sendInLoop_append (c : ptr) (src : source) (nwrote remaining : Z) : M (World K) unit :=
  x ← get_conn c;
  let oldLen := readableBytes (tc_outputBuffer x) in
  match tc_highWaterMarkCallback x with
  | Some id =>
      when ((tc_highWaterMark x <=? u64 (oldLen + remaining)) && (oldLen <? tc_highWaterMark x))
        (queueInLoop (tc_loop x) (FnHighWaterMarkCallback id c (u64 (oldLen + remaining))))
  | None => mret tt
  end;;
  data ← fetch src nwrote remaining;
  on_buffer (output_of c) (append data);;
  ch ← conn_channel c;
  when (negb (isWriting ch)) (enableWriting (tc_channel x)).

(** [sendInLoop(const void* data, size_t len)] *)
Definition sendInLoop (c : ptr) (src : source) (len : Z) : M (World K) unit :=
  conn_assertInLoopThread c;;
  x ← get_conn c;
  if bool_decide (tc_state x = kDisconnected) then mret tt
  else
    ch ← conn_channel c;
    '(nwrote, remaining, faultError) ←
      (if negb (isWriting ch) && (readableBytes (tc_outputBuffer x) =? 0)
       then sendInLoop_write c src len
       else mret (0, len, false));
    when (negb faultError && (0 <? remaining)) (sendInLoop_append c src nwrote remaining).

(** [sendInLoop(const std::string& message)] *)
Definition sendInLoop_string (c : ptr) (message : list byte) : M (World K) unit :=
  sendInLoop c (Bytes message) (Z.of_nat (length message)).

(** [send(const void* message, int len)] *)
Definition send (c : ptr) (message : ptr) (len : Z) : M (World K) unit :=
  if len <=? 0 then mret tt
  else
    x ← get_conn c;
    when (bool_decide (tc_state x = kConnected))
      (b ← isInLoopThread (tc_loop x);
       if b : bool then sendInLoop c (Memory message) len
       else runInLoop (tc_loop x) (FnTcpConnection_sendInLoop_raw c message len)
              (sendInLoop c (Memory message) len)).

(** [send(const std::string& message)]: the string is in the program's memory;
    its [size_t] size becomes an [int]. *)
Definition send_string (c : ptr) (message : ptr) : M (World K) unit :=
  s ← gets_some "message" (λ w, w_mem w !! message);
  send c message (i32 (Z.of_nat (length s))).

(** [send(Buffer* buf)] *)
Definition send_buffer (c : ptr) (buf : BufferRef K) : M (World K) unit :=
  x ← get_conn c;
  b ← gets_some "Buffer" (br_look buf);
  when (bool_decide (tc_state x = kConnected) && (0 <? readableBytes b))
    (in_loop ← isInLoopThread (tc_loop x);
     if in_loop : bool then
       sendInLoop c (Bytes (bytes_at (readerIndex_ b) (readableBytes b) b)) (readableBytes b);;
       on_buffer buf retrieveAll
     else
       message ← on_buffer buf retrieveAllAsString;
       runInLoop (tc_loop x) (FnTcpConnection_sendInLoop_string c message)
         (sendInLoop_string c message)).

(** ** Closing *)

Definition shutdownInLoop (c : ptr) : M (World K) unit :=
  conn_assertInLoopThread c;;
  ch ← conn_channel c;
  x ← get_conn c;
  when (negb (isWriting ch)) (Socket_shutdownWrite (tc_socket x)).

Definition shutdown (c : ptr) : M (World K) unit :=
  x ← get_conn c;
  when (bool_decide (tc_state x = kConnected))
    (setState c kDisconnecting;;
     runInLoop (tc_loop x) (FnTcpConnection_shutdownInLoop c) (shutdownInLoop c)).

Definition closable (s : StateE) : bool :=
  bool_decide (s = kConnected) || bool_decide (s = kDisconnecting).

Definition forceClose (c : ptr) : M (World K) unit :=
  x ← get_conn c;
  when (closable (tc_state x))
    (setState c kDisconnecting;;
     queueInLoop (tc_loop x) (FnTcpConnection_forceCloseInLoop c)).

Definition forceCloseWithDelay (c : ptr) (seconds : double) : M (World K) unit :=
  x ← get_conn c;
  when (closable (tc_state x))
    (setState c kDisconnecting;;
     _ ← runAfter (tc_loop x) seconds (TcbTcpConnection_forceClose_weak c);
     mret tt).

(** The lambda of [forceCloseWithDelay]: [weakPtr.lock()], then [forceClose]. *)
Definition forceClose_weak (c : ptr) : M (World K) unit :=
  b ← gets (λ w, bool_decide (is_Some (w_conns w !! c)));
  when b (forceClose c).

Definition handleClose (c : ptr) : M (World K) unit :=
  conn_assertInLoopThread c;;
  x ← get_conn c;
  assert_ "TcpConnection.cpp:198" (closable (tc_state x));;
  setState c kDisconnected;;
  disableAll (tc_channel x);;
  run_connectionCallback c;;
  run_closeCallback c.

Definition forceCloseInLoop (c : ptr) : M (World K) unit :=
  conn_assertInLoopThread c;;
  x ← get_conn c;
  when (closable (tc_state x)) (handleClose c).

(** ** Reading *)

Definition handleRead (c : ptr) (receiveTime : Z) : M (World K) unit :=
  conn_assertInLoopThread c;;
  ch ← conn_channel c;
  x ← get_conn c;
  res ← sockets_readv (ch_fd ch) (readFd_iov (tc_inputBuffer x));
  n ← on_buffer (input_of c) (readFd (λ _, res));
  if 0 <? n then run_messageCallback c receiveTime
  else if n =? 0 then handleClose c
  else LOG_ERROR "TcpConnection::handleRead".

Definition startReadInLoop (c : ptr) : M (World K) unit :=
  conn_assertInLoopThread c;;
  x ← get_conn c;
  ch ← conn_channel c;
  when (negb (tc_reading x) || negb (isReading ch))
    (enableReading (tc_channel x);; upd_conn c (set_tc_reading true)).

(** It leaves [reading_] true. *)
Definition stopReadInLoop (c : ptr) : M (World K) unit :=
  conn_assertInLoopThread c;;
  x ← get_conn c;
  ch ← conn_channel c;
  when (tc_reading x || isReading ch)
    (disableReading (tc_channel x);; upd_conn c (set_tc_reading true)).

Definition startRead (c : ptr) : M (World K) unit :=
  l ← conn_loop c; runInLoop l (FnTcpConnection_startReadInLoop c) (startReadInLoop c).
Definition stopRead (c : ptr) : M (World K) unit :=
  l ← conn_loop c; runInLoop l (FnTcpConnection_stopReadInLoop c) (stopReadInLoop c).

(** ** Writing *)

Definition handleWrite (c : ptr) : M (World K) unit :=
  conn_assertInLoopThread c;;
  ch ← conn_channel c;
  when (isWriting ch)
    (x ← get_conn c;
     let out := tc_outputBuffer x in
     n ← sockets_write (ch_fd ch) (bytes_at (readerIndex_ out) (readableBytes out) out);
     if 0 <? n then
       on_buffer (output_of c) (retrieve (i32 n));;
       x ← get_conn c;
       when (readableBytes (tc_outputBuffer x) =? 0)
         (disableWriting (tc_channel x);;
          queue_writeComplete c;;
          when (bool_decide (tc_state x = kDisconnecting)) (shutdownInLoop c))
     else LOG_ERROR "TcpConnection::handleWrite").

Definition handleError (c : ptr) : M (World K) unit := mret tt.

(** ** Life cycle *)

Definition TcpConnection_ctor (loop : ptr) (name : string) (sockfd : Z)
    (localAddr peerAddr : sockaddr) : M (World K) ptr :=
  c ← fresh;
  channel ← fresh;
  in_reactor (put_chan channel (Channel_ctor loop sockfd));;
  inputBuffer ← Buffer_ctor kInitialSize;
  outputBuffer ← Buffer_ctor kInitialSize;
  upd_chan channel (set_ch_readCallback (Some (CbTcpConnection_handleRead c)));;
  upd_chan channel (set_ch_writeCallback (Some (CbTcpConnection_handleWrite c)));;
  upd_chan channel (set_ch_closeCallback (Some (CbTcpConnection_handleClose c)));;
  upd_chan channel (set_ch_errorCallback (Some (CbTcpConnection_handleError c)));;
  put_conn c (mkTcpConnection loop name kConnecting true sockfd channel localAddr peerAddr
    None None None None None (64 * 1024 * 1024) inputBuffer outputBuffer);;
  Socket_setKeepAlive sockfd true;;
  mret c.

(** The members are destroyed after the (logging) body: the channel, then the
    socket, which closes the descriptor. *)
Definition TcpConnection_dtor (c : ptr) : M (World K) unit :=
  x ← get_conn c;
  Channel_dtor (tc_channel x);;
  Socket_dtor (tc_socket x);;
  modify (λ w, set_w_conns (delete c (w_conns w)) w).

(** ** Shared ownership

    A connection is kept by [TcpConnectionPtr]s: in the map of its server, in its
    client, bound in functors that wait in a loop's queue, and in local variables.
    When the last of them goes, the connection is destroyed, by whoever had it. *)

(** Every [TcpConnectionPtr] there is. *)
Definition owners (w : World K) : list ptr :=
  w_held w
  ++ (map_to_list (w_servers w) ≫= λ s, (map_to_list (sv_connections s.2)).*2)
  ++ omap (λ cl, cl_connection cl.2) (map_to_list (w_clients w))
  ++ (map_to_list (w_loops w) ≫= λ l, omap functor_holds (el_pendingFunctors l.2)).

(** [shared_ptr::use_count] *)
Definition use_count (c : ptr) (w : World K) : nat := length (filter (λ o, o = c) (owners w)).

(** What is left to do when a [TcpConnectionPtr] is gone. *)
Definition reap (c : ptr) : M (World K) unit :=
  n ← gets (use_count c); when (bool_decide (n = 0%nat)) (TcpConnection_dtor c).

(** The end of a local [TcpConnectionPtr]. *)
Definition release (c : ptr) : M (World K) unit :=
  modify (λ w, set_w_held (drop_one c (w_held w)) w);; reap c.

Definition connectEstablished (c : ptr) : M (World K) unit :=
  conn_assertInLoopThread c;;
  x ← get_conn c;
  assert_ "TcpConnection.cpp:138" (bool_decide (tc_state x = kConnecting));;
  setState c kConnected;;
  upd_chan (tc_channel x) (tie_channel c);;
  enableReading (tc_channel x);;
  run_connectionCallback c.

Definition connectDestroyed (c : ptr) : M (World K) unit :=
  conn_assertInLoopThread c;;
  x ← get_conn c;
  when (bool_decide (tc_state x = kConnected))
    (setState c kDisconnected;;
     disableAll (tc_channel x);;
     run_connectionCallback c);;
  remove (tc_channel x).

Definition setTcpNoDelay (c : ptr) (on : bool) : M (World K) unit :=
  x ← get_conn c; Socket_setTcpNoDelay (tc_socket x) on.

Definition getTcpInfo (c : ptr) : M (World K) (bool * list byte) :=
  x ← get_conn c; Socket_getTcpInfo (tc_socket x).

(** [char buf[1024]], empty at first. *)
Definition getTcpInfoString (c : ptr) : M (World K) string :=
  x ← get_conn c;
  '(_, buf) ← Socket_getTcpInfoString (tc_socket x) EmptyString 1024;
  mret buf.

Definition setHighWaterMarkCallback (c : ptr) (cb : option nat) (highWaterMark : Z)
    : M (World K) unit :=
  upd_conn c (λ x, set_tc_highWaterMark highWaterMark (set_tc_highWaterMarkCallback cb x)).

Definition connected (c : ptr) : M (World K) bool :=
  x ← get_conn c; mret (bool_decide (tc_state x = kConnected)).
Definition disconnected (c : ptr) : M (World K) bool :=
  x ← get_conn c; mret (bool_decide (tc_state x = kDisconnected)).
End callbacks.
End connection.
