(* ===== verification/ByteStream.v ===== *)
(** * ByteStream: what a TcpConnection promises about the bytes it sends

    A connection in its loop's thread keeps [conn_ok]: its channel is registered
    consistently, its output buffer well formed, and the channel waits for
    writability exactly while the buffer holds bytes.  Each member that touches
    the output is described by what the kernel sees of it (the writes and the
    shutdown of its socket), by what is left in the buffer and by the functors it
    queues; the contract of a first-in first-out byte stream follows. *)
From S2P Require Import Prelude Endian Buffer OS Double Objects Poller LoopCore Channel TimerQueue Sockets TcpConnection.

Set Default Goal Selector "!".

(** ** What concerns a socket in a trace *)

Definition on_fd (fd : Z) (c : syscall) : bool :=
  match c with
  | SysWrite fd' _ | SysShutdownWr fd' | SysReadv fd' _ => fd' =? fd
  | _ => false
  end.

Definition visible (fd : Z) (calls : list (syscall * sysres)) : list (syscall * sysres) :=
  filter (λ cr, on_fd fd cr.1 = true) calls.

(** The bytes the kernel accepted on [fd], in order. *)
Definition delivered (fd : Z) (calls : list (syscall * sysres)) : list byte :=
  calls ≫= λ cr, match cr.1 with
                 | SysWrite fd' data => if fd' =? fd then take (Z.to_nat (ret cr.2)) data else []
                 | _ => []
                 end.

Lemma visible_app fd l1 l2 : visible fd (l1 ++ l2) = visible fd l1 ++ visible fd l2.
Proof. apply filter_app. Qed.

Lemma delivered_visible fd calls : delivered fd (visible fd calls) = delivered fd calls.
Proof.
  unfold delivered, visible. induction calls as [|[c r] l IH]; [done|].
  rewrite filter_cons. cbn [fst]. destruct (on_fd fd c) eqn:E.
  - rewrite decide_True by done. cbn [mbind list_bind]. by rewrite IH.
  - rewrite decide_False by done. cbn [mbind list_bind]. rewrite IH.
    destruct c; simpl in *; try done. by rewrite E.
Qed.

Lemma visible_quiet fd l :
  Forall (λ x : syscall * sysres, is_epoll_ctl x.1 = true) l → visible fd l = [].
Proof.
  intros H. apply filter_none. eapply Forall_impl; [exact H|].
  intros [[] r]; simpl; done.
Qed.

Section stream.
Context {K : Type} `{!OS K} {P : Poller K} `{!PollerLaws K P}.
Context (c : ptr).
Implicit Types w : World K.

Definition pending_bytes (x : TcpConnection) : list byte := content (tc_outputBuffer x).

(** Connection [c] is [x], its channel [ch], in its loop's thread. *)
Record conn_core (x : TcpConnection) (ch : Channel) w : Prop := {
  ck_conn : w_conns w !! c = Some x;
  ck_live : live_channel w (tc_channel x) ch;
  ck_loop : ch_loop ch = tc_loop x;
  ck_fd : ch_fd ch = tc_socket x;
  ck_wakeup : ∀ lx, w_loops w !! tc_loop x = Some lx → el_wakeupFd lx ≠ tc_socket x;
  ck_out : wf (tc_outputBuffer x) ∧ kCheapPrepend ≤ bsize (tc_outputBuffer x)
}.

(** The channel waits for writability exactly while bytes are pending. *)
Definition writing_iff_pending (x : TcpConnection) (ch : Channel) : Prop :=
  isWriting ch = negb (bool_decide (pending_bytes x = [])).

Definition conn_ok (x : TcpConnection) (ch : Channel) w : Prop :=
  conn_core x ch w ∧ writing_iff_pending x ch.

(** The functors waiting on loop [l]. *)
Definition functors (l : ptr) w : list Functor :=
  match w_loops w !! l with Some x => el_pendingFunctors x | None => [] end.

(** From [w] to [w'] the socket of [x] saw the calls [vs] and the loop was handed
    the functors [fs]; the program's memory is as it was. *)
Definition ext (x : TcpConnection) w w' (vs : list (syscall * sysres)) (fs : list Functor) : Prop :=
  (∃ calls, io_trace (w_io w') = io_trace (w_io w) ++ calls ∧ visible (tc_socket x) calls = vs)
  ∧ functors (tc_loop x) w' = functors (tc_loop x) w ++ fs
  ∧ w_mem w' = w_mem w.

Lemma ext_refl x w : ext x w w [] [].
Proof. split_and!; [exists []|..]; by rewrite ?app_nil_r. Qed.

Lemma ext_trans x w1 w2 w3 vs fs vs' fs' :
  ext x w1 w2 vs fs → ext x w2 w3 vs' fs' → ext x w1 w3 (vs ++ vs') (fs ++ fs').
Proof.
  intros ((l1 & E1 & V1) & F1 & M1) ((l2 & E2 & V2) & F2 & M2). split_and!.
  - exists (l1 ++ l2). rewrite E2, E1, <- app_assoc, visible_app. by subst.
  - by rewrite F2, F1, app_assoc.
  - by rewrite M2.
Qed.

(** The same connection with its members changed. *)
Lemma ext_conn x x' w w' vs fs :
  tc_socket x' = tc_socket x → tc_loop x' = tc_loop x → ext x' w w' vs fs → ext x w w' vs fs.
Proof. unfold ext. by intros -> ->. Qed.

(** *** Rules for the parts of the members *)

Lemma get_conn_wp x (Q : TcpConnection → World K → Prop) w :
  w_conns w !! c = Some x → Q x w → wp (get_conn c) Q w.
Proof. intros H HQ. by eapply wp_gets_some. Qed.

Lemma conn_channel_wp x ch (Q : Channel → World K → Prop) w :
  conn_core x ch w → Q ch w → wp (conn_channel c) Q w.
Proof.
  intros Hok HQ. apply wp_bind. eapply get_conn_wp; [apply Hok|].
  destruct (ck_live _ _ _ Hok) as (Hch & _). by eapply chan_at_wp.
Qed.

Lemma conn_loop_lookup x ch w :
  conn_core x ch w → ∃ lx, w_loops w !! tc_loop x = Some lx ∧ el_threadId lx = w_tid w.
Proof.
  intros Hok. destruct (ck_live _ _ _ Hok) as (_ & _ & lx & Hl & Ht).
  rewrite (ck_loop _ _ _ Hok) in Hl. eauto.
Qed.

Lemma conn_assertInLoopThread_wp x ch (Q : unit → World K → Prop) w :
  conn_core x ch w → Q tt w → wp (conn_assertInLoopThread c) Q w.
Proof.
  intros Hok HQ. destruct (conn_loop_lookup _ _ _ Hok) as (lx & Hl & Ht).
  apply wp_bind. apply wp_bind. eapply get_conn_wp; [apply Hok|].
  by eapply assertInLoopThread_here.
Qed.

(** A step that changes the I/O state and the loop's queue only. *)
Lemma conn_core_io x ch w io loops :
  conn_core x ch w →
  (∀ l lx, loops !! l = Some lx → ∃ lx0, w_loops w !! l = Some lx0
     ∧ el_threadId lx = el_threadId lx0 ∧ el_wakeupFd lx = el_wakeupFd lx0) →
  (∀ l, is_Some (w_loops w !! l) → is_Some (loops !! l)) →
  conn_core x ch (with_io io (set_w_loops loops w)).
Proof.
  intros [H1 (H2 & H2' & lx & Hl & Ht) H3 H4 H5 H6] Hback Hfor. split; try done; simpl.
  - split_and!; [done|by apply poller_ok_io|].
    destruct (Hfor (ch_loop ch)) as [lx' Hl']; [by eexists|].
    destruct (Hback _ _ Hl') as (lx0 & Hl0 & Ht0 & _). exists lx'. split; [done|].
    simpl. congruence.
  - intros lx' Hl'. destruct (Hback _ _ Hl') as (lx0 & Hl0 & _ & Hf). rewrite Hf. by apply H5.
Qed.

Lemma conn_core_with_io x ch w io : conn_core x ch w → conn_core x ch (with_io io w).
Proof.
  intros Hok. replace w with (set_w_loops (w_loops w) w) by (by destruct w).
  apply conn_core_io; [done|eauto|done].
Qed.

Lemma conn_queueInLoop_wp x ch f (Q : unit → World K → Prop) w :
  conn_core x ch w → f ≠ FnEmpty →
  (∀ w', conn_core x ch w' → ext x w w' [] [f] → Q tt w') →
  wp (queueInLoop (tc_loop x) f) Q w.
Proof.
  intros Hok Hf HQ. destruct (conn_loop_lookup _ _ _ Hok) as (lx & Hl & Ht).
  eapply queueInLoop_wp; [done..|]. intros io tr Htr Hm. apply HQ.
  - apply conn_core_io; [done| |].
    + intros l' lx'. destruct (decide (l' = tc_loop x)) as [->|Hne].
      * rewrite lookup_insert_eq. intros [= <-]. eauto.
      * rewrite lookup_insert_ne by done. eauto.
    + intros l' H. destruct (decide (l' = tc_loop x)) as [->|Hne];
        [rewrite lookup_insert_eq; by eexists|by rewrite lookup_insert_ne].
  - split_and!; [|unfold functors; simpl; by rewrite lookup_insert_eq, Hl|done].
    exists tr. split; [done|].
    destruct (must_wake lx w).
    + destruct Hm as [r ->]. unfold visible. rewrite filter_cons. simpl.
      rewrite decide_False; [done|]. cbn. rewrite Z.eqb_eq. by apply (ck_wakeup _ _ _ Hok).
    + by destruct Hm as [-> _].
Qed.

(** Changing members of the connection that the invariant looks at only through
    the output buffer. *)
Lemma conn_core_set x x' ch w :
  conn_core x ch w →
  tc_channel x' = tc_channel x → tc_loop x' = tc_loop x → tc_socket x' = tc_socket x →
  wf (tc_outputBuffer x') ∧ kCheapPrepend ≤ bsize (tc_outputBuffer x') →
  conn_core x' ch (set_w_conns (<[c := x']> (w_conns w)) w).
Proof.
  intros [H1 H2 H3 H4 H5 H6] Hc Hl Hs Hwf. split; simpl; try congruence.
  - by rewrite lookup_insert_eq.
  - by rewrite Hc.
  - rewrite Hl, Hs. apply H5.
Qed.

Lemma conn_syscall_wp x ch call (Q : sysres → World K → Prop) w :
  conn_core x ch w →
  let r := (os_call call (io_k (w_io w))).1 in
  (∀ w', conn_core x ch w' →
     ext x w w' (if on_fd (tc_socket x) call then [(call, r)] else []) [] →
     (ret r < 0 → io_errno (w_io w') = err r) → Q r w') →
  wp (syscall_ call) Q w.
Proof.
  cbv zeta. intros Hok HQ. apply syscall_wp. intros r k Hk. unfold w_io in HQ. rewrite Hk in HQ.
  apply HQ.
  - by apply (conn_core_with_io x ch w).
  - split_and!; [|by rewrite app_nil_r|done]. eexists. split; [done|].
    unfold visible. rewrite filter_cons. simpl. destruct (on_fd _ _); done.
  - intros Hr. simpl in *. destruct (Z.ltb_spec (ret r) 0); [done|lia].
Qed.

Lemma conn_log_wp x ch msg (Q : unit → World K → Prop) w :
  conn_core x ch w →
  (∀ w', conn_core x ch w' → ext x w w' [] [] → io_errno (w_io w') = io_errno (w_io w) → Q tt w') →
  wp (LOG_ERROR msg) Q w.
Proof.
  intros Hok HQ. apply LOG_ERROR_wp, HQ; [by apply (conn_core_with_io x ch w)| |done].
  split_and!; [|by rewrite app_nil_r|done]. exists []. by rewrite app_nil_r.
Qed.

(** An operation on the output buffer. *)
Lemma conn_output_wp {A} x ch (m : M Buffer A) (R : A → Buffer → Prop) (Q : A → World K → Prop) w :
  conn_core x ch w → wp m R (tc_outputBuffer x) →
  (∀ a b, R a b → wf b ∧ kCheapPrepend ≤ bsize b) →
  (∀ a b w', R a b → conn_core (set_tc_outputBuffer b x) ch w' → ext x w w' [] [] → Q a w') →
  wp (on_buffer (output_of c) m) Q w.
Proof.
  intros Hok Hm Hwf HQ. pose proof (ck_conn _ _ _ Hok) as Hc.
  eapply wp_zoom; [simpl; by rewrite Hc|].
  eapply wp_mono; [exact Hm|]. intros a b HR. simpl.
  assert (alter (set_tc_outputBuffer b) c (w_conns w)
          = <[c := set_tc_outputBuffer b x]> (w_conns w)) as ->.
  { apply map_eq. intros c'. destruct (decide (c' = c)) as [->|Hne].
    - by rewrite lookup_alter_eq, lookup_insert_eq, Hc.
    - by rewrite lookup_alter_ne, lookup_insert_ne. }
  eapply (HQ a b); [done| |split_and!; [exists []; by rewrite app_nil_r|by rewrite app_nil_r|done]].
  eapply conn_core_set; [done..|by eapply Hwf].
Qed.

(** A change of what the channel waits for. *)
Lemma conn_interest_wp x ch (f : Channel → Channel) ev (Q : unit → World K → Prop) w :
  conn_core x ch w → f ch = set_ch_events ev ch →
  (∀ ch' w', ch_events ch' = ev → conn_core x ch' w' → ext x w w' [] [] → Q tt w') →
  wp (upd_chan (tc_channel x) f;; update (tc_channel x)) Q w.
Proof.
  intros Hok Hf HQ. pose proof Hok as [H1 H2 H3 H4 H5 H6].
  eapply set_events_update_wp; [exact H2|exact Hf|].
  intros i w' ch1 (E & Hch & (calls & Htr & Hquiet) & _) Hlive Hatt.
  apply (HQ ch1 w').
  2:{ split; [by rewrite E|exact Hlive|done|done|by rewrite E|done]. }
  - done.
  - split_and!.
    + exists calls. split; [done|]. by apply visible_quiet.
    + rewrite E. unfold functors. simpl. by rewrite app_nil_r.
    + by rewrite E.
Qed.

Lemma conn_enableWriting_wp x ch (Q : unit → World K → Prop) w :
  conn_core x ch w →
  (∀ ch' w', isWriting ch' = true → conn_core x ch' w' → ext x w w' [] [] → Q tt w') →
  wp (enableWriting (tc_channel x)) Q w.
Proof.
  intros Hok HQ. eapply conn_interest_wp; [done|reflexivity|].
  intros ch' w' Hev. apply HQ. unfold isWriting. rewrite Hev.
  unfold nonzero. apply negb_true_iff, Z.eqb_neq.
  rewrite Z.land_comm, Z.lor_comm, Z.land_lor_distr_r. intros [? _]%Z.lor_eq_0_iff.
  done.
Qed.

Lemma conn_disableWriting_wp x ch (Q : unit → World K → Prop) w :
  conn_core x ch w →
  (∀ ch' w', isWriting ch' = false → conn_core x ch' w' → ext x w w' [] [] → Q tt w') →
  wp (disableWriting (tc_channel x)) Q w.
Proof.
  intros Hok HQ. eapply conn_interest_wp; [done|reflexivity|].
  intros ch' w' Hev. apply HQ. unfold isWriting. rewrite Hev.
  rewrite <- Z.land_assoc, (Z.land_comm _ kWriteEvent), Z.land_lnot_diag, Z.land_0_r. done.
Qed.

(** ** Sending *)

(** The bytes a [source] stands for. *)
Definition source_is (src : source) w (data : list byte) : Prop :=
  match src with
  | Memory p => ∃ rest, w_mem w !! p = Some (data ++ rest)
  | Bytes l => l = data
  end.

Lemma source_is_ext src data x w w' vs fs :
  ext x w w' vs fs → source_is src w data → source_is src w' data.
Proof. intros (_ & _ & Hm). destruct src; simpl; [by rewrite Hm|done]. Qed.

Lemma fetch_wp src data (off len : Z) (Q : list byte → World K → Prop) w :
  source_is src w data → 0 ≤ off → 0 ≤ len → off + len = Z.of_nat (length data) →
  Q (drop (Z.to_nat off) data) w → wp (fetch src off len) Q w.
Proof.
  intros Hsrc Ho Hl He HQ. unfold wp, fetch.
  destruct src as [p|l]; simpl in Hsrc.
  - destruct Hsrc as [rest ->].
    rewrite length_app. destruct (Z.leb_spec (off + len) (Z.of_nat (length data + length rest))); [|lia].
    rewrite drop_app_le by lia. rewrite take_app_le by (rewrite length_drop; lia).
    rewrite take_ge; [done|]. rewrite length_drop. lia.
  - subst l. destruct (Z.leb_spec (off + len) (Z.of_nat (length data))); [|lia].
    rewrite take_ge; [done|]. rewrite length_drop. lia.
Qed.

(** The functors handed to the loop when everything is written, and when the
    pending bytes reach the high-water mark. *)
Definition writeComplete_fs (x : TcpConnection) : list Functor :=
  match tc_writeCompleteCallback x with
  | Some id => [FnWriteCompleteCallback id c]
  | None => []
  end.

Definition highWater_fs (x : TcpConnection) (old new : Z) : list Functor :=
  match tc_highWaterMarkCallback x with
  | Some id => if (tc_highWaterMark x <=? new) && (old <? tc_highWaterMark x)
               then [FnHighWaterMarkCallback id c new] else []
  | None => []
  end.

(** A write that failed because the peer is gone. *)
Definition fatal (r : sysres) : bool :=
  (ret r <? 0) && ((err r =? EPIPE) || (err r =? ECONNRESET)).

Definition write_result (x : TcpConnection) (data : list byte) w : sysres :=
  (os_call (SysWrite (tc_socket x) data) (io_k (w_io w))).1.

Lemma queue_writeComplete_wp x ch (Q : unit → World K → Prop) w :
  conn_core x ch w →
  (∀ w', conn_core x ch w' → ext x w w' [] (writeComplete_fs x) → Q tt w') →
  wp (queue_writeComplete c) Q w.
Proof.
  intros Hok HQ. apply wp_bind. eapply get_conn_wp; [apply Hok|]. unfold writeComplete_fs in HQ.
  destruct (tc_writeCompleteCallback x) as [id|].
  - by eapply conn_queueInLoop_wp.
  - apply wp_ret, HQ; [done|apply ext_refl].
Qed.

Context `{!OSLaws K}.

Lemma sendInLoop_write_wp x ch src data (Q : Z * Z * bool → World K → Prop) w :
  conn_core x ch w → source_is src w data → Z.of_nat (length data) ≤ max_size →
  let r := write_result x data w in
  let len := Z.of_nat (length data) in
  (∀ w', conn_core x ch w' →
     ext x w w' [(SysWrite (tc_socket x) data, r)]
       (if ret r =? len then writeComplete_fs x else []) →
     Q (Z.max 0 (ret r), len - Z.max 0 (ret r), fatal r) w') →
  wp (sendInLoop_write c src len) Q w.
Proof.
  cbv zeta. intros Hok Hsrc Hmax HQ. unfold max_size in Hmax.
  apply wp_bind. eapply conn_channel_wp; [done|].
  apply wp_bind. eapply fetch_wp; [done|lia|lia|lia|]. 
  change (drop (Z.to_nat 0) data) with data.
  apply wp_bind, wp_bind. eapply conn_syscall_wp; [done|].
  rewrite (ck_fd _ _ _ Hok). fold (write_result x data w).
  simpl on_fd. rewrite Z.eqb_refl. intros w1 Hok1 Hext1 Herr.
  pose proof (write_bound (tc_socket x) data (io_k (w_io w))) as Hb.
  fold (write_result x data w) in Hb. set (r := write_result x data w) in *.
  apply wp_ret. cbv beta. destruct (Z.leb_spec 0 (ret r)) as [Hr|Hr].
  - rewrite Z.max_r in HQ by lia. rewrite wrap_small by lia.
    assert (fatal r = false) as Hf by (unfold fatal; destruct (Z.ltb_spec (ret r) 0); [lia|done]).
    rewrite Hf in HQ.
    apply wp_bind, wp_when; intros E.
    + eapply queue_writeComplete_wp; [done|]. intros w2 Hok2 Hext2. apply wp_ret, HQ; [done|].
      destruct (Z.eqb_spec (ret r) (Z.of_nat (length data))); [|lia].
      exact (ext_trans _ _ _ _ _ _ _ _ Hext1 Hext2).
    + apply wp_ret, HQ; [done|]. destruct (Z.eqb_spec (ret r) (Z.of_nat (length data))); [lia|done].
  - rewrite Z.max_l, Z.sub_0_r in HQ by lia. specialize (Herr Hr).
    destruct (Z.eqb_spec (ret r) (Z.of_nat (length data))) as [E|_] in HQ; [lia|].
    apply wp_bind, wp_gets. unfold w_io in Herr. rewrite Herr.
    unfold fatal in HQ. destruct (Z.ltb_spec (ret r) 0) as [_|] in HQ; [|lia]. simpl in HQ.
    destruct (Z.eqb_spec (err r) EWOULDBLOCK) as [E|_].
    + rewrite E in HQ. by apply wp_ret, HQ.
    + apply wp_bind. eapply conn_log_wp; [done|]. intros w2 Hok2 Hext2 Herr2.
      apply wp_bind, wp_gets. unfold w_io in Herr2. rewrite Herr2, Herr.
      apply wp_ret, HQ; [done|]. exact (ext_trans _ _ _ _ _ _ _ _ Hext1 Hext2).
Qed.

Lemma sendInLoop_append_wp x ch src data (nwrote remaining : Z) (Q : unit → World K → Prop) w :
  conn_core x ch w → source_is src w data →
  0 ≤ nwrote → 0 < remaining → nwrote + remaining = Z.of_nat (length data) →
  bsize (tc_outputBuffer x) + remaining ≤ max_size →
  let old := Z.of_nat (length (pending_bytes x)) in
  (∀ b' ch' w', conn_core (set_tc_outputBuffer b' x) ch' w' → isWriting ch' = true →
     content b' = pending_bytes x ++ drop (Z.to_nat nwrote) data →
     bsize b' ≤ bsize (tc_outputBuffer x) + remaining →
     ext x w w' [] (highWater_fs x old (old + remaining)) → Q tt w') →
  wp (sendInLoop_append c src nwrote remaining) Q w.
Proof.
  cbv zeta. intros Hok Hsrc Hn Hr Hlen Hmax HQ. pose proof (ck_out _ _ _ Hok) as [Hwf H8].
  unfold sendInLoop_append. apply wp_bind. eapply get_conn_wp; [apply Hok|]. cbv zeta.
  rewrite <- (length_content _ Hwf). fold (pending_bytes x).
  assert (Z.of_nat (length (pending_bytes x)) ≤ bsize (tc_outputBuffer x)) as Hold.
  { unfold pending_bytes. rewrite length_content, readableBytes_wf by done.
    unfold wf in Hwf. lia. }
  unfold max_size in Hmax. rewrite wrap_small by lia.
  set (old := Z.of_nat (length (pending_bytes x))) in *.
  assert (∀ (R : unit → World K → Prop),
    (∀ w1, conn_core x ch w1 → ext x w w1 [] (highWater_fs x old (old + remaining)) → R tt w1) →
    wp (match tc_highWaterMarkCallback x with
        | Some id => when ((tc_highWaterMark x <=? old + remaining) && (old <? tc_highWaterMark x))
            (queueInLoop (tc_loop x) (FnHighWaterMarkCallback id c (old + remaining)))
        | None => mret tt end) R w) as Hhw.
  { intros R HR. unfold highWater_fs in HR. destruct (tc_highWaterMarkCallback x) as [id|].
    - apply wp_when; intros E; rewrite E in HR.
      + by eapply conn_queueInLoop_wp.
      + apply HR; [done|apply ext_refl].
    - apply wp_ret, HR; [done|apply ext_refl]. }
  apply wp_bind, Hhw. intros w1 Hok1 Hext1. clear Hhw.
  apply wp_bind. eapply fetch_wp; [by eapply source_is_ext|lia|lia|lia|].
  assert (Z.of_nat (length (drop (Z.to_nat nwrote) data)) = remaining) as Hdrop
    by (rewrite length_drop; lia).
  apply wp_bind. eapply (conn_output_wp x ch _ (λ _ b', wf b' ∧ kCheapPrepend ≤ bsize b' ∧
    content b' = pending_bytes x ++ drop (Z.to_nat nwrote) data
    ∧ bsize b' ≤ bsize (tc_outputBuffer x) + remaining)); [done| |by intros [] b' (?&?&_)|].
  { eapply wp_mono; [apply append_wp; [done|unfold wf in Hwf; unfold max_size; lia]|].
    intros [] b (Hb & Hc & _ & Hs). 
    rewrite Hdrop, writableBytes_wf in Hs by done. unfold wf in Hwf.
    destruct (_ || _) eqn:E; [split_and!; try done; lia|].
    apply orb_false_iff in E as [E _]. split_and!; try done; lia. }
  intros [] b w2 (_ & _ & Hcb & Hsb) Hok2 Hext2.
  apply wp_bind. eapply conn_channel_wp; [exact Hok2|].
  apply wp_when; intros E.
  - apply (conn_enableWriting_wp (set_tc_outputBuffer b x) ch); [exact Hok2|]. intros ch' w3 Hw Hok3 Hext3.
    eapply HQ; [exact Hok3|done|done|done|].
    apply (ext_conn x (set_tc_outputBuffer b x)) in Hext3; [|done..].
    pose proof (ext_trans _ _ _ _ _ _ _ _ (ext_trans _ _ _ _ _ _ _ _ Hext1 Hext2) Hext3) as H.
    by rewrite !app_nil_r in H.
  - apply negb_false_iff in E. eapply HQ; [exact Hok2|done|done|done|].
    pose proof (ext_trans _ _ _ _ _ _ _ _ Hext1 Hext2) as H. by rewrite !app_nil_r in H.
Qed.

(** What one [sendInLoop] of [data] does: the bytes left pending, the calls the
    socket sees and the functors queued. *)
Definition send_pending (x : TcpConnection) (data : list byte) (r : sysres) : list byte :=
  if bool_decide (pending_bytes x = []) then
    if fatal r then [] else drop (Z.to_nat (Z.max 0 (ret r))) data
  else pending_bytes x ++ data.

Definition send_calls (x : TcpConnection) (data : list byte) (r : sysres) : list (syscall * sysres) :=
  if bool_decide (pending_bytes x = []) then [(SysWrite (tc_socket x) data, r)] else [].

Definition send_functors (x : TcpConnection) (data : list byte) (r : sysres) : list Functor :=
  let len := Z.of_nat (length data) in
  let old := Z.of_nat (length (pending_bytes x)) in
  if bool_decide (pending_bytes x = []) then
    if ret r =? len then writeComplete_fs x
    else if fatal r then [] else highWater_fs x 0 (len - Z.max 0 (ret r))
  else highWater_fs x old (old + len).

Lemma conn_ok_empty x ch :
  writing_iff_pending x ch → wf (tc_outputBuffer x) →
  negb (isWriting ch) && (readableBytes (tc_outputBuffer x) =? 0)
  = bool_decide (pending_bytes x = []).
Proof.
  intros -> Hwf. rewrite negb_involutive, <- (length_content _ Hwf). unfold pending_bytes.
  case_bool_decide as E; [by rewrite E|done].
Qed.

Lemma highWater_fs_zero x : highWater_fs x 0 0 = [].
Proof.
  unfold highWater_fs. destruct (tc_highWaterMarkCallback x); [|done].
  destruct (Z.leb_spec (tc_highWaterMark x) 0), (Z.ltb_spec 0 (tc_highWaterMark x)); try done. lia.
Qed.

Lemma set_tc_outputBuffer_id x : set_tc_outputBuffer (tc_outputBuffer x) x = x.
Proof. by destruct x. Qed.

Lemma sendInLoop_wp x ch src data (Q : unit → World K → Prop) w :
  conn_ok x ch w → tc_state x ≠ kDisconnected → source_is src w data →
  (pending_bytes x ≠ [] → data ≠ []) →
  bsize (tc_outputBuffer x) + Z.of_nat (length data) ≤ max_size →
  let r := write_result x data w in
  (∀ b' ch' w', conn_ok (set_tc_outputBuffer b' x) ch' w' →
     content b' = send_pending x data r →
     bsize b' ≤ bsize (tc_outputBuffer x) + Z.of_nat (length data) →
     ext x w w' (send_calls x data r) (send_functors x data r) → Q tt w') →
  wp (sendInLoop c src (Z.of_nat (length data))) Q w.
Proof.
  cbv zeta. intros [Hok Hwi] Hst Hsrc Hne Hmax HQ. pose proof (ck_out _ _ _ Hok) as [Hwf H8].
  unfold send_pending, send_calls, send_functors in HQ.
  apply wp_bind. eapply conn_assertInLoopThread_wp; [done|].
  apply wp_bind. eapply get_conn_wp; [apply Hok|]. rewrite bool_decide_false by done.
  apply wp_bind. eapply conn_channel_wp; [done|]. rewrite conn_ok_empty by done.
  pose proof (bsize_nonneg (tc_outputBuffer x)) as Hb0.
  case_bool_decide as Hp.
  - pose proof (write_bound (tc_socket x) data (io_k (w_io w))) as Hb.
    fold (write_result x data w) in Hb. set (r := write_result x data w) in *.
    apply wp_bind. eapply sendInLoop_write_wp; [done|done|lia|]. fold r.
    intros w1 Hok1 Hext1. cbv beta iota.
    apply wp_when; intros E.
    + apply andb_true_iff in E as [Ef Er]. apply negb_true_iff in Ef. rewrite Ef in HQ.
      destruct (Z.eqb_spec (ret r) (Z.of_nat (length data))) as [E|E]; [lia|].
      eapply sendInLoop_append_wp; [done|by eapply source_is_ext|lia|lia|lia|lia|].
      rewrite Hp. simpl (Z.of_nat (length [])). rewrite Z.add_0_l.
      intros b' ch' w' Hok' Hw' Hc' Hs' Hext'. apply (HQ b' ch' w'); [| |lia|].
      * split; [exact Hok'|]. unfold writing_iff_pending, pending_bytes. simpl. rewrite Hw', Hc'.
        rewrite bool_decide_false; [done|]. intros H%(f_equal length). simpl in H.
        rewrite length_drop in H. lia.
      * by rewrite Hc'.
      * exact (ext_trans _ _ _ _ _ _ _ _ Hext1 Hext').
    + eapply (HQ (tc_outputBuffer x) ch w1); rewrite ?set_tc_outputBuffer_id;
        [by split| |lia|].
      * fold (pending_bytes x). rewrite Hp. apply andb_false_iff in E as [E|E].
        { apply negb_false_iff in E. by rewrite E. }
        destruct (fatal r); [done|]. rewrite drop_ge; [done|]. lia.
      * destruct (ret r =? Z.of_nat (length data)) eqn:El; [done|].
        apply andb_false_iff in E as [E|E].
        { apply negb_false_iff in E. by rewrite E. }
        destruct (fatal r); [done|].
        replace (Z.of_nat (length data) - Z.max 0 (ret r)) with 0 by lia.
        by rewrite highWater_fs_zero.
  - apply wp_bind, wp_ret. cbv beta iota. simpl negb. cbn [andb].
    assert (data ≠ []) as Hd by auto.
    assert (0 < Z.of_nat (length data)) as Hpos by (destruct data; [done|simpl; lia]).
    apply wp_when; intros E; [|lia].
    eapply sendInLoop_append_wp; [done|done|lia|lia|lia|lia|].
    intros b' ch' w' Hok' Hw' Hc' Hs' Hext'. apply (HQ b' ch' w'); [|exact Hc'|lia|exact Hext'].
    split; [exact Hok'|]. unfold writing_iff_pending, pending_bytes. simpl. rewrite Hw', Hc'.
    rewrite bool_decide_false; [done|]. unfold pending_bytes in Hp. by intros [? _]%app_nil.
Qed.

(** ** Draining *)

Lemma shutdownInLoop_wp x ch (Q : unit → World K → Prop) w :
  conn_core x ch w →
  (∀ w' vs, conn_core x ch w' → ext x w w' vs [] →
     (if isWriting ch then vs = [] else ∃ r, vs = [(SysShutdownWr (tc_socket x), r)]) → Q tt w') →
  wp (shutdownInLoop c) Q w.
Proof.
  intros Hok HQ. apply wp_bind. eapply conn_assertInLoopThread_wp; [done|].
  apply wp_bind. eapply conn_channel_wp; [done|].
  apply wp_bind. eapply get_conn_wp; [apply Hok|].
  apply wp_when; intros E.
  - apply negb_true_iff in E. rewrite E in HQ.
    apply wp_bind. eapply conn_syscall_wp; [done|]. simpl on_fd. rewrite Z.eqb_refl.
    intros w1 Hok1 Hext1 _. apply wp_when; intros _.
    + eapply conn_log_wp; [done|]. intros w2 Hok2 Hext2 _.
      eapply (HQ w2); [done|exact (ext_trans _ _ _ _ _ _ _ _ Hext1 Hext2)|by eexists].
    + eapply (HQ w1); [done|exact Hext1|by eexists].
  - apply negb_false_iff in E. rewrite E in HQ. by eapply HQ; [|apply ext_refl|].
Qed.

(** What one [handleWrite] does when bytes are pending. *)
Definition write_pending (x : TcpConnection) (r : sysres) : list byte :=
  drop (Z.to_nat (Z.max 0 (ret r))) (pending_bytes x).

Definition drained (x : TcpConnection) (r : sysres) : bool :=
  bool_decide (write_pending x r = []).

Lemma bytes_at_content b : wf b → bytes_at (readerIndex_ b) (readableBytes b) b = content b.
Proof. intros H. by rewrite readableBytes_wf. Qed.

Lemma retrieve_output_wp x ch n (Q : unit → World K → Prop) w :
  conn_core x ch w → 0 ≤ n ≤ MAX_RW_COUNT →
  (∀ b' w', conn_core (set_tc_outputBuffer b' x) ch w' →
     content b' = drop (Z.to_nat n) (pending_bytes x) → bsize b' = bsize (tc_outputBuffer x) →
     ext x w w' [] [] → Q tt w') →
  wp (on_buffer (output_of c) (retrieve (i32 n))) Q w.
Proof.
  intros Hok Hn HQ. pose proof (ck_out _ _ _ Hok) as [Hwf H8]. unfold MAX_RW_COUNT in Hn.
  rewrite to_signed_small by lia.
  eapply (conn_output_wp x ch _ (λ _ b', wf b' ∧ kCheapPrepend ≤ bsize b' ∧
    content b' = drop (Z.to_nat n) (pending_bytes x) ∧ bsize b' = bsize (tc_outputBuffer x)));
    [done| |by intros [] b' (?&?&_)|].
  - eapply wp_mono; [apply retrieve_wp; [done|done|lia]|].
    intros [] b (Hb & Hs & Hc & _). rewrite Hs.
    destruct (Z.ltb_spec n 0); [lia|]. by split_and!.
  - intros [] b w' (_ & _ & Hc & Hs) Hok' Hext. by eapply HQ.
Qed.

Lemma handleWrite_idle_wp x ch (Q : unit → World K → Prop) w :
  conn_ok x ch w → pending_bytes x = [] → Q tt w → wp (handleWrite c) Q w.
Proof.
  intros [Hok Hwi] Hp HQ. apply wp_bind. eapply conn_assertInLoopThread_wp; [done|].
  apply wp_bind. eapply conn_channel_wp; [done|].
  rewrite Hwi, Hp. simpl. by apply wp_ret.
Qed.

(** After the last byte: stop waiting, tell the program, close our side if asked. *)
Lemma handleWrite_drained_wp x ch (Q : unit → World K → Prop) w :
  conn_core x ch w → pending_bytes x = [] →
  (∀ ch' w' vs, conn_ok x ch' w' → ext x w w' vs (writeComplete_fs x) →
     (if bool_decide (tc_state x = kDisconnecting)
      then ∃ r, vs = [(SysShutdownWr (tc_socket x), r)] else vs = []) → Q tt w') →
  wp (disableWriting (tc_channel x);; queue_writeComplete c;;
      when (bool_decide (tc_state x = kDisconnecting)) (shutdownInLoop c)) Q w.
Proof.
  intros Hok Hp HQ.
  apply wp_bind. eapply conn_disableWriting_wp; [done|]. intros ch' w1 Hw Hok1 Hext1.
  apply wp_bind. eapply queue_writeComplete_wp; [done|]. intros w2 Hok2 Hext2.
  pose proof (ext_trans _ _ _ _ _ _ _ _ Hext1 Hext2) as Hext. simpl in Hext.
  assert (writing_iff_pending x ch') as Hwi.
  { unfold writing_iff_pending. by rewrite Hw, Hp. }
  apply wp_when; intros E; rewrite E in HQ.
  - eapply shutdownInLoop_wp; [done|]. intros w3 vs Hok3 Hext3 Hvs. rewrite Hw in Hvs.
    eapply (HQ ch' w3 vs); [by split| |done].
    pose proof (ext_trans _ _ _ _ _ _ _ _ Hext Hext3) as H. by rewrite app_nil_r in H.
  - by eapply (HQ ch' w2 []).
Qed.

Lemma handleWrite_wp x ch (Q : unit → World K → Prop) w :
  conn_ok x ch w → pending_bytes x ≠ [] →
  let r := write_result x (pending_bytes x) w in
  (∀ b' ch' w' vs, conn_ok (set_tc_outputBuffer b' x) ch' w' →
     content b' = write_pending x r → bsize b' = bsize (tc_outputBuffer x) →
     ext x w w' ((SysWrite (tc_socket x) (pending_bytes x), r) :: vs)
       (if drained x r then writeComplete_fs x else []) →
     (if drained x r && bool_decide (tc_state x = kDisconnecting)
      then ∃ r', vs = [(SysShutdownWr (tc_socket x), r')] else vs = []) → Q tt w') →
  wp (handleWrite c) Q w.
Proof.
  cbv zeta. intros [Hok Hwi] Hp HQ. pose proof (ck_out _ _ _ Hok) as [Hwf H8].
  apply wp_bind. eapply conn_assertInLoopThread_wp; [done|].
  apply wp_bind. eapply conn_channel_wp; [done|].
  rewrite Hwi, bool_decide_false by done. simpl.
  apply wp_bind. eapply get_conn_wp; [apply Hok|]. cbv zeta.
  rewrite (bytes_at_content _ Hwf). fold (pending_bytes x).
  apply wp_bind, wp_bind. eapply conn_syscall_wp; [done|].
  rewrite (ck_fd _ _ _ Hok). simpl on_fd. rewrite Z.eqb_refl.
  fold (write_result x (pending_bytes x) w). intros w1 Hok1 Hext1 _. apply wp_ret. cbv beta.
  pose proof (write_limit (tc_socket x) (pending_bytes x) (io_k (w_io w))) as Hlim.
  fold (write_result x (pending_bytes x) w) in Hlim.
  set (r := write_result x (pending_bytes x) w) in *. unfold drained, write_pending in HQ.
  destruct (Z.ltb_spec 0 (ret r)) as [Hr|Hr].
  - rewrite Z.max_r in HQ by lia.
    apply wp_bind. eapply retrieve_output_wp; [done|lia|]. intros b w2 Hok2 Hc Hs Hext2.
    pose proof (ext_trans _ _ _ _ _ _ _ _ Hext1 Hext2) as Hext.
    pose proof (ck_out _ _ _ Hok2) as [Hwf2 _].
    apply wp_bind. eapply get_conn_wp; [apply Hok2|].
    rewrite <- (length_content _ Hwf2). simpl tc_outputBuffer. rewrite Hc.
    apply wp_when; intros E.
    + assert (drop (Z.to_nat (ret r)) (pending_bytes x) = []) as Hd
        by (apply nil_length_inv; lia).
      rewrite bool_decide_true in HQ by done.
      eapply (handleWrite_drained_wp (set_tc_outputBuffer b x)); [exact Hok2|exact (eq_trans Hc Hd)|].
      intros ch' w3 vs Hok3 Hext3 Hvs. apply (ext_conn x) in Hext3; [|done..].
      eapply (HQ b ch' w3 vs); [done|done|done| |exact Hvs].
      exact (ext_trans _ _ _ _ _ _ _ _ Hext Hext3).
    + assert (drop (Z.to_nat (ret r)) (pending_bytes x) ≠ []) as Hd.
      { intros Hd. rewrite Hd in E. done. }
      rewrite bool_decide_false in HQ by done.
      eapply (HQ b ch w2 []); [|done|done|exact Hext|done].
      split; [done|]. unfold writing_iff_pending. rewrite Hwi.
      rewrite !bool_decide_false; [done| |done]. intros H. apply Hd. by rewrite <- Hc.
  - rewrite Z.max_l in HQ by lia. change (drop (Z.to_nat 0) (pending_bytes x)) with (pending_bytes x) in HQ.
    rewrite bool_decide_false in HQ by done.
    eapply conn_log_wp; [done|]. intros w2 Hok2 Hext2 _.
    pose proof (ext_trans _ _ _ _ _ _ _ _ Hext1 Hext2) as Hext.
    eapply (HQ (tc_outputBuffer x) ch w2 []); rewrite ?set_tc_outputBuffer_id; try done.
Qed.

(** ** The contract: a first-in first-out byte stream *)

Inductive stream_op : Type :=
  | OpSend (data : list byte)   (* sendInLoop(const std::string&) *)
  | OpHandleWrite
  | OpShutdownInLoop.

Definition run_stream_op (op : stream_op) : M (World K) unit :=
  match op with
  | OpSend data => sendInLoop_string c data
  | OpHandleWrite => handleWrite c
  | OpShutdownInLoop => shutdownInLoop c
  end.

Definition sent (op : stream_op) : list (list byte) :=
  match op with OpSend data => [data] | _ => [] end.

Definition sends (ops : list stream_op) : list (list byte) := ops ≫= sent.

Definition total (l : list (list byte)) : Z := Z.of_nat (length (concat l)).

Definition no_fatal (calls : list (syscall * sysres)) : Prop :=
  Forall (λ cr : syscall * sysres,
    match cr.1 with SysWrite _ _ => fatal cr.2 = false | _ => True end) calls.

(** One step of the stream: what leaves plus what stays is what was there plus
    what was accepted, all of what was sent unless the peer is gone. *)
Definition stream_step (x x' : TcpConnection) (vs : list (syscall * sysres))
    (sent accepted : list (list byte)) : Prop :=
  tc_loop x' = tc_loop x ∧ tc_socket x' = tc_socket x ∧ tc_state x' = tc_state x
  ∧ delivered (tc_socket x) vs ++ pending_bytes x' = pending_bytes x ++ concat accepted
  ∧ accepted `sublist_of` sent
  ∧ (no_fatal vs → accepted = sent)
  ∧ bsize (tc_outputBuffer x') ≤ bsize (tc_outputBuffer x) + total sent.

Lemma delivered_write fd data r l :
  delivered fd ((SysWrite fd data, r) :: l) = take (Z.to_nat (Z.max 0 (ret r))) data ++ delivered fd l.
Proof.
  unfold delivered. cbn [mbind list_bind fst snd]. rewrite Z.eqb_refl. do 2 f_equal. lia.
Qed.

Lemma total_one data : total [data] = Z.of_nat (length data).
Proof. unfold total. simpl. by rewrite app_nil_r. Qed.

Lemma pending_bytes_set b x : pending_bytes (set_tc_outputBuffer b x) = content b.
Proof. done. Qed.

Lemma send_step x b data r :
  content b = send_pending x data r → bsize b ≤ bsize (tc_outputBuffer x) + Z.of_nat (length data) →
  ∃ accepted, stream_step x (set_tc_outputBuffer b x) (send_calls x data r) [data] accepted.
Proof.
  intros Hc Hs. unfold send_pending, send_calls in *.
  exists (if bool_decide (pending_bytes x = []) && fatal r then [] else [data]).
  unfold stream_step. rewrite total_one. split_and!; try done.
  - rewrite pending_bytes_set, Hc. case_bool_decide as Hp.
    + rewrite delivered_write, Hp. destruct (fatal r) eqn:Ef; simpl.
      * unfold fatal in Ef. rewrite Z.max_l by lia. done.
      * by rewrite !app_nil_r, take_drop.
    + simpl. by rewrite app_nil_r.
  - destruct (_ && _); [apply sublist_nil_l|done].
  - intros Hnf. case_bool_decide; [|done].
    apply Forall_cons in Hnf as [Hf _]. simpl in Hf. by rewrite Hf.
Qed.

Lemma write_step x b r vs :
  content b = write_pending x r → bsize b = bsize (tc_outputBuffer x) →
  (vs = [] ∨ ∃ r', vs = [(SysShutdownWr (tc_socket x), r')]) →
  stream_step x (set_tc_outputBuffer b x) ((SysWrite (tc_socket x) (pending_bytes x), r) :: vs) [] [].
Proof.
  intros Hc Hs Hvs. unfold stream_step. split_and!; try done.
  - rewrite delivered_write, pending_bytes_set, Hc. unfold write_pending.
    assert (delivered (tc_socket x) vs = []) as -> by (by destruct Hvs as [->|[r' ->]]).
    by rewrite !app_nil_r, take_drop.
  - simpl. rewrite Hs. unfold total. simpl. lia.
Qed.

Lemma stream_step_idle x vs :
  delivered (tc_socket x) vs = [] → stream_step x x vs [] [].
Proof.
  intros Hd. unfold stream_step. rewrite Hd. unfold total. simpl. rewrite app_nil_r.
  split_and!; try done. lia.
Qed.

Lemma run_stream_op_wp op x ch w :
  conn_ok x ch w → tc_state x ≠ kDisconnected → [] ∉ sent op →
  bsize (tc_outputBuffer x) + total (sent op) ≤ max_size →
  wp (run_stream_op op) (λ _ w', ∃ x' ch' vs fs accepted,
    conn_ok x' ch' w' ∧ ext x w w' vs fs ∧ stream_step x x' vs (sent op) accepted) w.
Proof.
  intros Hok Hst Hne Hmax. destruct op as [data| |]; simpl in *.
  - rewrite total_one in Hmax. eapply (sendInLoop_wp x ch (Bytes data)); [done|done|done| |done|].
    { intros _ ->. apply Hne. left. }
    intros b ch' w' Hok' Hc Hs Hext. destruct (send_step x b data _ Hc Hs) as [acc Hstep].
    eexists _, _, _, _, _. eauto.
  - destruct (decide (pending_bytes x = [])) as [Hp|Hp].
    + eapply handleWrite_idle_wp; [done..|]. exists x, ch, [], [], [].
      split_and!; [exact Hok|apply ext_refl|by apply stream_step_idle].
    + eapply handleWrite_wp; [done..|]. intros b ch' w' vs Hok' Hc Hs Hext Hvs.
      eexists _, _, _, _, []. split_and!; [exact Hok'|exact Hext|].
      apply write_step; [done|done|]. destruct (_ && _); [by right|by left].
  - eapply (shutdownInLoop_wp x ch); [apply Hok|]. intros w' vs Hok' Hext Hvs.
    exists x, ch, vs, [], []. split_and!; [split; [done|apply Hok]|done|].
    apply stream_step_idle. destruct (isWriting ch); [by subst|by destruct Hvs as [r ->]].
Qed.

Lemma stream_step_trans x x1 x2 vs1 vs2 s1 s2 a1 a2 :
  stream_step x x1 vs1 s1 a1 → stream_step x1 x2 vs2 s2 a2 →
  stream_step x x2 (vs1 ++ vs2) (s1 ++ s2) (a1 ++ a2).
Proof.
  intros (L1 & S1 & T1 & D1 & U1 & N1 & B1) (L2 & S2 & T2 & D2 & U2 & N2 & B2).
  rewrite S1 in D2. unfold stream_step. split_and!; try congruence.
  - unfold delivered in *. rewrite bind_app, concat_app, <- app_assoc, D2, app_assoc, D1.
    by rewrite <- app_assoc.
  - by apply sublist_app.
  - intros [H1 H2]%Forall_app. rewrite N1, N2; done.
  - unfold total in *. rewrite concat_app, length_app. lia.
Qed.

Lemma run_stream_ops_wp ops : ∀ x ch w,
  conn_ok x ch w → tc_state x ≠ kDisconnected → [] ∉ sends ops →
  bsize (tc_outputBuffer x) + total (sends ops) ≤ max_size →
  wp (for_each ops run_stream_op) (λ _ w', ∃ x' ch' vs fs accepted,
    conn_ok x' ch' w' ∧ ext x w w' vs fs ∧ stream_step x x' vs (sends ops) accepted) w.
Proof.
  induction ops as [|op ops IH]; intros x ch w Hok Hst Hne Hmax.
  { apply wp_ret. exists x, ch, [], [], [].
    split_and!; [exact Hok|apply ext_refl|by apply stream_step_idle]. }
  unfold sends in *. cbn [mbind list_bind for_each] in *.
  unfold total in Hmax. rewrite concat_app, length_app in Hmax.
  apply not_elem_of_app in Hne as [Hne1 Hne2].
  apply wp_bind. eapply wp_mono; [apply (run_stream_op_wp op x ch); [done|done|done|unfold total; lia]|].
  intros [] w1 (x1 & ch1 & vs1 & fs1 & a1 & Hok1 & Hext1 & Hstep1).
  pose proof Hstep1 as (Hl1 & Hs1 & Ht1 & _ & _ & _ & Hb1).
  eapply wp_mono; [apply (IH x1 ch1); [done|congruence|done|unfold total in *; lia]|].
  intros [] w2 (x2 & ch2 & vs2 & fs2 & a2 & Hok2 & Hext2 & Hstep2).
  exists x2, ch2, (vs1 ++ vs2), (fs1 ++ fs2), (a1 ++ a2). split_and!; [exact Hok2| |].
  - eapply ext_trans; [exact Hext1|]. by eapply ext_conn.
  - by eapply stream_step_trans.
Qed.

(** ** Properties *)

(** C3: a connection's output is a first-in first-out byte stream.  However
    sends and writability events follow each other in the loop thread, and
    however little the kernel takes each time, no assertion fails, and the bytes
    the kernel has accepted on the socket followed by those still in the output
    buffer are exactly the bytes that were pending at the start followed by the
    messages accepted since, in order, nothing lost, repeated or reordered; every
    message is accepted unless a write failed because the peer is gone; and the
    channel waits for writability exactly while bytes are pending. *)
Theorem connection_is_a_byte_stream (ops : list stream_op) (x : TcpConnection) (ch : Channel) w
    (Hok : conn_ok x ch w) (Hst : tc_state x ≠ kDisconnected) (Hne : [] ∉ sends ops)
    (Hmax : bsize (tc_outputBuffer x) + total (sends ops) ≤ max_size) :
  ∃ x' ch' w' calls accepted,
    for_each ops run_stream_op w = Ok (tt, w') ∧ conn_ok x' ch' w'
    ∧ io_trace (w_io w') = io_trace (w_io w) ++ calls
    ∧ delivered (tc_socket x) calls ++ pending_bytes x' = pending_bytes x ++ concat accepted
    ∧ accepted `sublist_of` sends ops
    ∧ (no_fatal (visible (tc_socket x) calls) → accepted = sends ops).
Proof.
  destruct (proj1 (wp_run _ _ _) (run_stream_ops_wp ops x ch w Hok Hst Hne Hmax))
    as ([] & w' & Hrun & x' & ch' & vs & fs & acc & Hok' & ((calls & Htr & Hvs) & _)
        & (_ & _ & _ & Hd & Hsub & Hnf & _)).
  exists x', ch', w', calls, acc. rewrite <- Hvs, delivered_visible in Hd. rewrite <- Hvs in Hnf.
  split_and!; [done|exact Hok'|done..].
Qed.

(** C15: what one send does.  With nothing pending [sendInLoop] makes one write of
    the whole message; what the kernel did not take stays pending (all of it if
    the call would block, nothing if the peer is gone), the program is told when
    everything was written, and otherwise when the pending bytes reach the
    high-water mark.  With bytes pending it makes no write, appends the message,
    and tells the program only when the mark is crossed by this message. *)
Theorem sendInLoop_contract (x : TcpConnection) (ch : Channel) (src : source) (data : list byte) w
    (Hok : conn_ok x ch w) (Hst : tc_state x ≠ kDisconnected) (Hsrc : source_is src w data)
    (Hne : data ≠ []) (Hmax : bsize (tc_outputBuffer x) + Z.of_nat (length data) ≤ max_size) :
  let r := (os_call (SysWrite (tc_socket x) data) (io_k (w_io w))).1 in
  let len := Z.of_nat (length data) in
  let old := Z.of_nat (length (pending_bytes x)) in
  ∃ b' ch' w' calls, sendInLoop c src len w = Ok (tt, w')
    ∧ conn_ok (set_tc_outputBuffer b' x) ch' w'
    ∧ io_trace (w_io w') = io_trace (w_io w) ++ calls
    ∧ if bool_decide (pending_bytes x = []) then
        visible (tc_socket x) calls = [(SysWrite (tc_socket x) data, r)]
        ∧ content b' = (if fatal r then [] else drop (Z.to_nat (Z.max 0 (ret r))) data)
        ∧ functors (tc_loop x) w' = functors (tc_loop x) w ++
            (if ret r =? len then writeComplete_fs x
             else if fatal r then [] else highWater_fs x 0 (len - Z.max 0 (ret r)))
      else
        visible (tc_socket x) calls = []
        ∧ content b' = pending_bytes x ++ data
        ∧ functors (tc_loop x) w' = functors (tc_loop x) w ++ highWater_fs x old (old + len).
Proof.
  cbv zeta. fold (write_result x data w).
  match goal with |- ∃ b' ch' w' calls, _ ∧ @?R b' ch' w' calls =>
    cut (wp (sendInLoop c src (Z.of_nat (length data))) (λ _ w', ∃ b' ch' calls, R b' ch' w' calls) w)
  end.
  { intros H. destruct (proj1 (wp_run _ _ _) H) as ([] & w' & Hrun & b' & ch' & calls & HR).
    exists b', ch', w', calls. by split. }
  eapply sendInLoop_wp; [done..|]. intros b' ch' w' Hok' Hc _ ((calls & Htr & Hvs) & Hfs & _).
  exists b', ch', calls. unfold send_pending, send_calls, send_functors in *.
  split; [exact Hok'|]. split; [done|]. by case_bool_decide.
Qed.

(** C13: draining.  When the socket becomes writable with bytes pending,
    [handleWrite] makes one write of all of them and drops from the buffer exactly
    what the kernel took; when the last byte leaves it queues the write-complete
    callback and, if the connection was shut down meanwhile, closes the sending
    side of the socket; it never does so with bytes pending. *)
Theorem handleWrite_drains_then_shuts_down (x : TcpConnection) (ch : Channel) w
    (Hok : conn_ok x ch w) (Hp : pending_bytes x ≠ []) :
  let r := (os_call (SysWrite (tc_socket x) (pending_bytes x)) (io_k (w_io w))).1 in
  let left := drop (Z.to_nat (Z.max 0 (ret r))) (pending_bytes x) in
  ∃ b' ch' w' calls fin, handleWrite c w = Ok (tt, w')
    ∧ conn_ok (set_tc_outputBuffer b' x) ch' w' ∧ content b' = left
    ∧ io_trace (w_io w') = io_trace (w_io w) ++ calls
    ∧ visible (tc_socket x) calls = (SysWrite (tc_socket x) (pending_bytes x), r) :: fin
    ∧ (if bool_decide (left = []) && bool_decide (tc_state x = kDisconnecting)
       then ∃ r', fin = [(SysShutdownWr (tc_socket x), r')] else fin = [])
    ∧ functors (tc_loop x) w' = functors (tc_loop x) w ++
        (if bool_decide (left = []) then writeComplete_fs x else []).
Proof.
  cbv zeta. fold (write_result x (pending_bytes x) w).
  match goal with |- ∃ b' ch' w' calls fin, _ ∧ @?R b' ch' w' calls fin =>
    cut (wp (handleWrite c) (λ _ w', ∃ b' ch' calls fin, R b' ch' w' calls fin) w)
  end.
  { intros H. destruct (proj1 (wp_run _ _ _) H) as ([] & w' & Hrun & b' & ch' & calls & fin & HR).
    exists b', ch', w', calls, fin. by split. }
  eapply handleWrite_wp; [done..|]. intros b' ch' w' vs Hok' Hc _ ((calls & Htr & Hvs) & Hfs & _) Hfin.
  exists b', ch', calls, vs. split; [exact Hok'|]. by split_and!.
Qed.

(** C17: [shutdown] in the loop's thread lets pending bytes go first.  It moves a
    connected connection to [kDisconnecting] and closes the sending side at once
    only if nothing is pending; otherwise the socket sees nothing. *)
Theorem shutdown_lets_pending_bytes_go (x : TcpConnection) (ch : Channel) w
    (Hok : conn_ok x ch w) (Hst : tc_state x = kConnected) :
  ∃ w' calls, shutdown c w = Ok (tt, w')
    ∧ conn_ok (set_tc_state kDisconnecting x) ch w'
    ∧ io_trace (w_io w') = io_trace (w_io w) ++ calls
    ∧ (if bool_decide (pending_bytes x = [])
       then ∃ r, visible (tc_socket x) calls = [(SysShutdownWr (tc_socket x), r)]
       else visible (tc_socket x) calls = []).
Proof.
  match goal with |- ∃ w' calls, _ ∧ @?R w' calls =>
    cut (wp (shutdown c) (λ _ w', ∃ calls, R w' calls) w) end.
  { intros H. destruct (proj1 (wp_run _ _ _) H) as ([] & w' & Hrun & calls & HR). eauto. }
  destruct Hok as [Hok Hwi]. apply wp_bind. eapply get_conn_wp; [apply Hok|].
  rewrite bool_decide_true by done. apply wp_bind, wp_bind. eapply get_conn_wp; [apply Hok|].
  apply wp_modify. set (x' := set_tc_state kDisconnecting x).
  assert (conn_core x' ch (set_w_conns (<[c := x']> (w_conns w)) w)) as Hok'.
  { eapply conn_core_set; [exact Hok|done..|apply Hok]. }
  destruct (conn_loop_lookup _ _ _ Hok) as (lx & Hl & Ht).
  apply wp_bind. eapply isInLoopThread_wp; [exact Hl|]. rewrite bool_decide_true by done.
  eapply shutdownInLoop_wp; [exact Hok'|]. intros w' vs Hok2 ((calls & Htr & Hvs) & _) Hfin.
  exists calls. split; [by split|]. split; [exact Htr|]. simpl in Hvs. rewrite Hvs.
  rewrite Hwi in Hfin. case_bool_decide; [|done]. simpl in Hfin. done.
Qed.
End stream.

(** *** A concrete connection: pointer 40 on loop 0, channel 1, descriptor 5. *)

Definition sample_conn (s : StateE) (out : Buffer) : TcpConnection :=
  mkTcpConnection 0%nat "c" s true 5 1%nat zero_addr zero_addr
    (Some defaultConnectionCallback) (Some defaultMessageCallback) (Some 1%nat) (Some 2%nat) None
    3 (fresh_buffer 16) out.

Definition conn_chan (events : Z) : Channel :=
  mkChannel 0%nat 5 events 0 EPollPoller.kAdded true (Some 40%nat) true false true
    (Some (CbTcpConnection_handleRead 40%nat)) (Some (CbTcpConnection_handleWrite 40%nat))
    (Some (CbTcpConnection_handleClose 40%nat)) (Some (CbTcpConnection_handleError 40%nat)).

Definition conn_world (s : StateE) (out : Buffer) (events : Z) (script : list sysres) : World sim :=
  set_w_r (mkReactor (mkIO (mkSim script {[3 := {[5 := (events, 1%nat)]}]}) [] 0 [])
             {[1%nat := conn_chan events]} {[0%nat := sample_poller]})
    (set_w_conns {[40%nat := sample_conn s out]} sample_world).

(** The bytes "ab" waiting. *)
Definition ab_buffer : Buffer := mkBuffer (replicate 8 x00 ++ [x61; x62] ++ replicate 14 x00) 8 10.

Lemma conn_world_core s out events script :
  wf out ∧ kCheapPrepend ≤ bsize out →
  conn_core 40%nat (sample_conn s out) (conn_chan events) (conn_world s out events script).
Proof.
  intros Hwf. split; try done.
  - split_and!; [done| |by exists sample_loop].
    exists sample_poller, (conn_chan events). split_and!; [done..|]. right.
    split; [by left|done].
  - intros lx Hl. simpl in Hl. apply lookup_singleton_Some in Hl as [_ <-]. done.
Qed.

Lemma empty_buffer_wf : wf (fresh_buffer 16) ∧ kCheapPrepend ≤ bsize (fresh_buffer 16).
Proof. split; [|vm_compute; done]. repeat split; vm_compute; done. Qed.

Lemma ab_buffer_wf : wf ab_buffer ∧ kCheapPrepend ≤ bsize ab_buffer.
Proof. split; [|vm_compute; done]. repeat split; vm_compute; done. Qed.

Definition stream_ops : list stream_op :=
  [OpSend [x61; x62; x63; x64]; OpHandleWrite; OpSend [x65]; OpHandleWrite].

Definition stream_script : list sysres := [mkRes 1 0 [] []; mkRes 2 0 [] []; mkRes 2 0 [] []].

Lemma connection_is_a_byte_stream_witness :
  ∃ x' w' calls accepted,
    for_each stream_ops (run_stream_op 40%nat)
      (conn_world kConnected (fresh_buffer 16) 3 stream_script) = Ok (tt, w')
    ∧ io_trace (w_io w') = calls
    ∧ delivered 5 calls ++ pending_bytes x' = concat accepted
    ∧ (no_fatal (visible 5 calls) → accepted = [[x61; x62; x63; x64]; [x65]]).
Proof.
  destruct (connection_is_a_byte_stream 40%nat stream_ops (sample_conn kConnected (fresh_buffer 16))
    (conn_chan 3) (conn_world kConnected (fresh_buffer 16) 3 stream_script))
    as (x' & ch' & w' & calls & acc & Hrun & _ & Htr & Hd & _ & Hnf).
  - split; [apply conn_world_core, empty_buffer_wf|reflexivity].
  - done.
  - apply (bool_decide_unpack _). vm_compute. exact I.
  - vm_compute. discriminate.
  - exists x', w', calls, acc. split_and!; [exact Hrun|exact Htr|exact Hd|exact Hnf].
Defined.

Lemma sendInLoop_contract_witness :
  ∃ b' w', sendInLoop 40%nat (Bytes [x61; x62; x63; x64]) 4
      (conn_world kConnected (fresh_buffer 16) 3 stream_script) = Ok (tt, w')
    ∧ content b' = [x62; x63; x64]
    ∧ functors 0%nat w' = [FnHighWaterMarkCallback 2%nat 40%nat 3].
Proof.
  destruct (sendInLoop_contract 40%nat (sample_conn kConnected (fresh_buffer 16)) (conn_chan 3)
    (Bytes [x61; x62; x63; x64]) [x61; x62; x63; x64]
    (conn_world kConnected (fresh_buffer 16) 3 stream_script))
    as (b' & ch' & w' & calls & Hrun & _ & _ & H).
  - split; [apply conn_world_core, empty_buffer_wf|reflexivity].
  - done.
  - reflexivity.
  - done.
  - vm_compute. discriminate.
  - destruct H as (_ & Hc & Hf). exists b', w'. split_and!; [exact Hrun|exact Hc|exact Hf].
Defined.

Lemma handleWrite_drains_then_shuts_down_witness :
  ∃ w' calls r', handleWrite 40%nat
      (conn_world kDisconnecting ab_buffer 7 [mkRes 2 0 [] []; done_res]) = Ok (tt, w')
    ∧ io_trace (w_io w') = calls
    ∧ visible 5 calls = [(SysWrite 5 [x61; x62], mkRes 2 0 [] []); (SysShutdownWr 5, r')]
    ∧ functors 0%nat w' = [FnWriteCompleteCallback 1%nat 40%nat].
Proof.
  destruct (handleWrite_drains_then_shuts_down 40%nat (sample_conn kDisconnecting ab_buffer)
    (conn_chan 7) (conn_world kDisconnecting ab_buffer 7 [mkRes 2 0 [] []; done_res]))
    as (b' & ch' & w' & calls & fin & Hrun & _ & _ & Htr & Hv & Hfin & Hf).
  - split; [apply conn_world_core, ab_buffer_wf|reflexivity].
  - vm_compute. discriminate.
  - destruct Hfin as [r' ->]. exists w', calls, r'.
    split_and!; [exact Hrun|exact Htr|exact Hv|exact Hf].
Defined.

Lemma shutdown_lets_pending_bytes_go_witness :
  ∃ w' calls, shutdown 40%nat (conn_world kConnected ab_buffer 7 []) = Ok (tt, w')
    ∧ io_trace (w_io w') = calls ∧ visible 5 calls = [].
Proof.
  destruct (shutdown_lets_pending_bytes_go 40%nat (sample_conn kConnected ab_buffer)
    (conn_chan 7) (conn_world kConnected ab_buffer 7 [])) as (w' & calls & Hrun & _ & Htr & Hv).
  - split; [apply conn_world_core, ab_buffer_wf|reflexivity].
  - reflexivity.
  - exists w', calls. split_and!; [exact Hrun|exact Htr|exact Hv].
Defined.
