(* ===== verification/Lifecycle.v ===== *)
(** * Lifecycle: the states of a TcpConnection

    How a connection is established, closed and destroyed, and where the code's
    states and checks do not do what their names say. *)
From S2P Require Import Prelude Endian Buffer OS Double Objects Poller LoopCore Channel TimerQueue Sockets TcpConnection ByteStream.

Set Default Goal Selector "!".

Section lifecycle.
Context {K : Type} `{!OS K} {P : Poller K} `{!PollerLaws K P}.
Context (c : ptr).
Context (user : UserCall → M (World K) unit).
Context (close_callback : CloseCallback → ptr → M (World K) unit).
Implicit Types w : World K.

Lemma conn_setState_wp x ch s (Q : unit → World K → Prop) w :
  conn_core c x ch w →
  (∀ w', conn_core c (set_tc_state s x) ch w' → ext x w w' [] [] → Q tt w') →
  wp (setState c s) Q w.
Proof.
  intros Hok HQ. apply wp_bind. eapply get_conn_wp; [apply Hok|]. apply wp_modify, HQ.
  - eapply conn_core_set; [exact Hok|done..|apply Hok].
  - split_and!; [exists []|by rewrite app_nil_r|done]. by rewrite app_nil_r.
Qed.

(** The rest of a program after a step known by its rule. *)
Lemma wp_then {A B} (m : M (World K) A) (k : A → M (World K) B) (R : A → World K → Prop) w :
  wp m R w → ∃ a w', R a w' ∧ (m ≫= k) w = k a w'.
Proof.
  intros H. destruct (proj1 (wp_run _ _ _) H) as (a & w' & Hm & HR).
  exists a, w'. split; [done|]. by rewrite bind_run, Hm.
Qed.

(** Closing.  [handleClose] of an open connection first moves it to
    [kDisconnected] and stops the channel from waiting for anything, touching
    neither the socket nor the loop's queue, and only then calls the connection
    callback (which sees the connection down) and, last, the close callback. *)
Theorem handleClose_disables_then_calls_back (x : TcpConnection) (ch : Channel) w
    (Hok : conn_core c x ch w) (Hst : closable (tc_state x) = true) :
  ∃ ch' w', conn_core c (set_tc_state kDisconnected x) ch' w' ∧ ch_events ch' = kNoneEvent
    ∧ ext x w w' [] []
    ∧ handleClose user close_callback c w
      = (run_connectionCallback user c;; run_closeCallback close_callback c) w'.
Proof.
  unfold handleClose.
  destruct (wp_then (conn_assertInLoopThread c) (λ _,
    x ← get_conn c;
    assert_ "TcpConnection.cpp:198" (closable (tc_state x));;
    setState c kDisconnected;; disableAll (tc_channel x);;
    run_connectionCallback user c;; run_closeCallback close_callback c) (λ _ w', w' = w) w)
    as ([] & w' & -> & ->); [by eapply conn_assertInLoopThread_wp|].
  rewrite bind_run. unfold get_conn at 1, gets_some. rewrite (ck_conn _ _ _ _ Hok), Hst.
  unfold assert_. rewrite bind_run. cbn [mret M_ret].
  cut (wp (setState c kDisconnected;; disableAll (tc_channel x)) (λ _ w', ∃ ch',
         conn_core c (set_tc_state kDisconnected x) ch' w' ∧ ch_events ch' = kNoneEvent
         ∧ ext x w w' [] []) w).
  { intros H. destruct (proj1 (wp_run _ _ _) H) as ([] & w' & Hrun & ch' & H1 & H2 & H3).
    exists ch', w'. split_and!; [done..|].
    rewrite bind_run in Hrun |- *. destruct (setState c kDisconnected w) as [[[] w1]|]; [|done].
    by rewrite bind_run, Hrun. }
  apply wp_bind. eapply conn_setState_wp; [done|]. intros w1 Hok1 Hext1.
  eapply (conn_interest_wp c (set_tc_state kDisconnected x) ch); [exact Hok1|reflexivity|].
  intros ch' w2 Hev Hok2 Hext2. exists ch'. split_and!; [done..|].
  apply (ext_conn x) in Hext2; [|done..]. exact (ext_trans _ _ _ _ _ _ _ _ Hext1 Hext2).
Qed.

(** C37: destroying a connection that is being shut down aborts.  The destructor
    of [TcpServer] runs [connectDestroyed] on every connection; in state
    [kDisconnecting] it does not disable the channel, which still waits for
    events, and the assertion of [Channel::remove] fails. *)
Theorem connectDestroyed_aborts_while_disconnecting (x : TcpConnection) (ch : Channel) w
    (Hok : conn_core c x ch w) (Hst : tc_state x = kDisconnecting) (Hev : ch_events ch ≠ 0) :
  connectDestroyed user c w = Fault (AssertFailed "Channel.cpp:163").
Proof.
  unfold connectDestroyed.
  match goal with |- (_ ≫= ?k) w = _ =>
    destruct (wp_then (conn_assertInLoopThread c) k (λ _ w', w' = w) w) as ([] & w' & -> & ->)
  end; [by eapply conn_assertInLoopThread_wp|].
  rewrite bind_run. unfold get_conn at 1, gets_some. rewrite (ck_conn _ _ _ _ Hok), Hst.
  rewrite bind_run. cbn [when bool_decide]. rewrite bool_decide_false by done. cbn [when mret M_ret].
  unfold remove. rewrite bind_run. unfold chan_at, get_chan, in_reactor, zoom, gets_some.
  destruct (ck_live _ _ _ _ Hok) as (-> & _). rewrite bind_run. unfold isNoneEvent, assert_.
  destruct (Z.eqb_spec (ch_events ch) 0); [done|]. done.
Qed.

(** [stopRead] does not stop [isReading()].  After [stopReadInLoop] of a
    connection that was reading, the channel no longer waits for input, yet
    [reading_] is true: the member stores [true] where it means [false]. *)
Theorem stopReadInLoop_leaves_reading (x : TcpConnection) (ch : Channel) w
    (Hok : conn_core c x ch w) (Hr : tc_reading x || isReading ch = true) :
  ∃ ch' w', stopReadInLoop c w = Ok (tt, w')
    ∧ conn_core c (set_tc_reading true x) ch' w' ∧ isReading ch' = false.
Proof.
  cut (wp (stopReadInLoop c) (λ _ w', ∃ ch', conn_core c (set_tc_reading true x) ch' w'
         ∧ isReading ch' = false) w).
  { intros H. destruct (proj1 (wp_run _ _ _) H) as ([] & w' & Hrun & ch' & H1 & H2). eauto 10. }
  apply wp_bind. eapply conn_assertInLoopThread_wp; [done|].
  apply wp_bind. eapply get_conn_wp; [apply Hok|].
  apply wp_bind. eapply conn_channel_wp; [done|]. rewrite Hr. simpl.
  apply wp_bind. eapply conn_interest_wp; [done|reflexivity|].
  intros ch' w1 Hev Hok1 Hext1. apply wp_bind. eapply get_conn_wp; [apply Hok1|].
  apply wp_modify. exists ch'. split.
  - exact (conn_core_set c x (set_tc_reading true x) ch' w1 Hok1 eq_refl eq_refl eq_refl
             (ck_out _ _ _ _ Hok1)).
  - unfold isReading. rewrite Hev.
    rewrite <- Z.land_assoc, (Z.land_comm _ kReadEvent), Z.land_lnot_diag, Z.land_0_r. done.
Qed.

(** A string of 2 GiB or more (up to 4 GiB) is silently not sent: its size
    becomes a negative [int], which [send] takes for nothing to do. *)
Theorem send_string_drops_2GiB (p : ptr) (message : list byte) w
    (Hp : w_mem w !! p = Some message)
    (Hlen : 2 ^ 31 ≤ Z.of_nat (length message) < 2 ^ 32) :
  send_string c p w = Ok (tt, w).
Proof.
  unfold send_string. rewrite bind_run. unfold gets_some. rewrite Hp. unfold send.
  assert (i32 (Z.of_nat (length message)) ≤ 0) as Hneg.
  { unfold to_signed. rewrite wrap_small by lia.
    destruct (Z.ltb_spec (Z.of_nat (length message)) (2 ^ (32 - 1))); lia. }
  destruct (Z.leb_spec (i32 (Z.of_nat (length message))) 0); [done|lia].
Qed.

Lemma sendInLoop_dangling p len x ch w :
  conn_ok c x ch w → tc_state x ≠ kDisconnected → pending_bytes x = [] → w_mem w !! p = None →
  sendInLoop c (Memory p) len w = Fault (NullDeref "message").
Proof.
  intros [Hok Hwi] Hst Hp Hm. unfold sendInLoop.
  match goal with |- (_ ≫= ?k) w = _ =>
    destruct (wp_then (conn_assertInLoopThread c) k (λ _ w', w' = w) w) as ([] & w' & -> & ->)
  end; [by eapply conn_assertInLoopThread_wp|].
  rewrite bind_run. unfold get_conn at 1, gets_some. rewrite (ck_conn _ _ _ _ Hok).
  rewrite bool_decide_false by done.
  match goal with |- (_ ≫= ?k) w = _ =>
    destruct (wp_then (conn_channel c) k (λ a w', a = ch ∧ w' = w) w) as (? & w' & [-> ->] & ->)
  end; [by eapply conn_channel_wp|].
  rewrite (conn_ok_empty x ch Hwi) by apply (ck_out _ _ _ _ Hok).
  rewrite bool_decide_true by done. unfold sendInLoop_write. rewrite bind_run.
  match goal with |- context [(_ ≫= ?k) w] =>
    destruct (wp_then (conn_channel c) k (λ a w', a = ch ∧ w' = w) w) as (? & w' & [-> ->] & ->)
  end; [by eapply conn_channel_wp|].
  rewrite bind_run. unfold fetch. by rewrite Hm.
Qed.

(** C40: sending a string from another thread keeps a pointer to it, not its bytes.
    What is queued names the string's memory, so what the loop sends later is
    whatever is there then, and if the string is gone by then it is a use after
    free. *)
Theorem send_string_from_another_thread_keeps_a_pointer (p : ptr) (message : list byte)
    (x : TcpConnection) (lx : EventLoop) w
    (Hp : w_mem w !! p = Some message) (Hlen : 0 < Z.of_nat (length message) < 2 ^ 31)
    (Hx : w_conns w !! c = Some x) (Hst : tc_state x = kConnected)
    (Hl : w_loops w !! tc_loop x = Some lx) (Hth : el_threadId lx ≠ w_tid w) :
  ∃ w', send_string c p w = Ok (tt, w')
    ∧ functors (tc_loop x) w' = functors (tc_loop x) w
        ++ [FnTcpConnection_sendInLoop_raw c p (Z.of_nat (length message))]
    ∧ ∀ x2 ch w2, conn_ok c x2 ch w2 → tc_state x2 ≠ kDisconnected → pending_bytes x2 = [] →
        w_mem w2 !! p = None →
        sendInLoop c (Memory p) (Z.of_nat (length message)) w2 = Fault (NullDeref "message").
Proof.
  cut (wp (send_string c p) (λ _ w', functors (tc_loop x) w' = functors (tc_loop x) w
        ++ [FnTcpConnection_sendInLoop_raw c p (Z.of_nat (length message))]) w).
  { intros H. destruct (proj1 (wp_run _ _ _) H) as ([] & w' & Hrun & H1).
    exists w'. split_and!; [done..|]. intros x2 ch w2. by apply sendInLoop_dangling. }
  apply wp_bind. eapply wp_gets_some; [exact Hp|].
  rewrite to_signed_small by lia. unfold send.
  destruct (Z.leb_spec (Z.of_nat (length message)) 0); [lia|].
  apply wp_bind. eapply get_conn_wp; [exact Hx|].
  rewrite bool_decide_true by done. apply wp_bind. eapply isInLoopThread_wp; [exact Hl|].
  rewrite bool_decide_false by done. apply wp_bind. eapply isInLoopThread_wp; [exact Hl|].
  rewrite bool_decide_false by done.
  eapply queueInLoop_wp; [exact Hl|done|]. intros io tr _ _.
  unfold functors. simpl. by rewrite lookup_insert_eq, Hl.
Qed.
End lifecycle.

(** ** The state never goes back *)

Definition rank (s : StateE) : Z :=
  match s with kConnecting => 0 | kConnected => 1 | kDisconnecting => 2 | kDisconnected => 3 end.

Section forward.
Context {K : Type} `{!OS K} {P : Poller K}.
Context (c : ptr).
Implicit Types w : World K.

(** Connection [c], if it exists, still does, with a state at least as late. *)
Definition later w w' : Prop :=
  ∀ x, w_conns w !! c = Some x →
    ∃ x', w_conns w' !! c = Some x' ∧ rank (tc_state x) ≤ rank (tc_state x').

Definition forward {A} (m : M (World K) A) : Prop := steady (λ _, True) later m (λ _, True).

#[global] Instance later_preorder : PreOrder later.
Proof.
  split.
  - intros w x Hx. exists x. split; [done|lia].
  - intros w1 w2 w3 H12 H23 x Hx. destruct (H12 x Hx) as (x2 & Hx2 & ?).
    destruct (H23 x2 Hx2) as (x3 & Hx3 & ?). exists x3. split; [done|lia].
Qed.

Lemma later_same w w' : w_conns w' = w_conns w → later w w'.
Proof. intros E x Hx. exists x. rewrite E. split; [done|lia]. Qed.

Lemma forward_wlp {A} (m : M (World K) A) :
  forward m ↔ ∀ w, wlp m (λ _ w', later w w') w.
Proof.
  split.
  - intros Hm w. eapply wlp_mono; [by apply Hm|]. by intros a w' (_ & _ & H).
  - intros Hm w _. by eapply wlp_mono; [apply Hm|].
Qed.

Lemma forward_ret {A} (a : A) : forward (mret a).
Proof. exact (steady_ret _ _ a (λ _, True) I). Qed.

Lemma forward_fail {A} e : forward (A := A) (fail e).
Proof. exact (steady_fail _ _ e _). Qed.

Lemma forward_bind {A B} (m : M (World K) A) (k : A → M (World K) B) :
  forward m → (∀ a, forward (k a)) → forward (m ≫= k).
Proof. intros Hm Hk. exact (steady_bind _ _ m k _ _ Hm (λ a _, Hk a)). Qed.

Lemma forward_when b (m : M (World K) unit) : forward m → forward (when b m).
Proof. intros Hm. exact (steady_when _ _ b m (λ _, Hm)). Qed.

Lemma forward_assert site b : forward (assert_ site b).
Proof. exact (steady_mono _ _ _ _ _ (steady_assert _ _ site b) (λ _ _, I)). Qed.

Lemma forward_in_reactor {A} (m : M (Reactor K) A) : forward (in_reactor m).
Proof.
  apply forward_wlp. intros w. unfold wlp, in_reactor, zoom. destruct (m (w_r w)) as [[a r]|]; [|done].
  by apply later_same.
Qed.

Lemma forward_gets_some {A} what (f : World K → option A) : forward (gets_some what f).
Proof. exact (steady_gets_some _ _ what f). Qed.

Lemma forward_gets {A} (f : World K → A) : forward (gets f).
Proof. exact (steady_gets _ _ f). Qed.

Lemma forward_modify (f : World K → World K) :
  (∀ w, w_conns (f w) = w_conns w) → forward (modify f).
Proof. intros Hf. apply steady_modify. intros w _. split; [done|]. apply later_same, Hf. Qed.

Lemma forward_upd_conn c' (f : TcpConnection → TcpConnection) :
  (∀ x, rank (tc_state x) ≤ rank (tc_state (f x))) → forward (upd_conn c' f).
Proof.
  intros Hf. apply forward_wlp. intros w. apply wlp_bind.
  unfold get_conn, wlp, gets_some, put_conn, modify.
  destruct (w_conns w !! c') as [y|] eqn:Hy; [|done]. intros x Hx. simpl.
  destruct (decide (c = c')) as [<-|Hne].
  - rewrite lookup_insert_eq. simplify_eq. by exists (f y).
  - rewrite lookup_insert_ne by done. exists x. split; [done|lia].
Qed.

Lemma forward_on_input {A} c' (m : M Buffer A) : forward (on_buffer (input_of c') m).
Proof.
  apply forward_wlp. intros w. unfold wlp, on_buffer, zoom. simpl. destruct (w_conns w !! c') as [y|] eqn:Hy; [|done].
  simpl. destruct (m (tc_inputBuffer y)) as [[a b]|]; [|done]. intros x Hx. simpl.
  destruct (decide (c = c')) as [<-|Hne].
  - rewrite lookup_alter_eq, Hx. simpl. eexists. split; [done|]. simpl. lia.
  - rewrite lookup_alter_ne by done. exists x. split; [done|lia].
Qed.

Lemma forward_on_output {A} c' (m : M Buffer A) : forward (on_buffer (output_of c') m).
Proof.
  apply forward_wlp. intros w. unfold wlp, on_buffer, zoom. simpl. destruct (w_conns w !! c') as [y|] eqn:Hy; [|done].
  simpl. destruct (m (tc_outputBuffer y)) as [[a b]|]; [|done]. intros x Hx. simpl.
  destruct (decide (c = c')) as [<-|Hne].
  - rewrite lookup_alter_eq, Hx. simpl. eexists. split; [done|]. simpl. lia.
  - rewrite lookup_alter_ne by done. exists x. split; [done|lia].
Qed.

Lemma forward_fetch src off len : forward (fetch src off len).
Proof.
  apply forward_wlp. intros w. unfold wlp, fetch. destruct (match src with Memory p => _ | Bytes l => _ end); [|done].
  destruct (_ <=? _); [by apply later_same|done].
Qed.

(** Moving to [s] after looking: the state looked at is no later than [s]. *)
Lemma forward_setState c' (s : StateE) (b : TcpConnection → bool) (k : TcpConnection → M (World K) unit) :
  (∀ x, b x = true → rank (tc_state x) ≤ rank s) → (∀ x, forward (k x)) →
  forward (x ← get_conn c'; when (b x) (setState c' s;; k x)).
Proof.
  intros Hb Hk. apply forward_wlp. intros w. apply wlp_bind. unfold get_conn at 1, wlp at 1, gets_some.
  destruct (w_conns w !! c') as [y|] eqn:Hy; [|done]. specialize (Hb y).
  destruct (b y); [|by apply later_same]. specialize (Hb eq_refl).
  unfold when. apply wlp_bind.
  assert (wlp (setState c' s) (λ _ w', later w w') w) as Hset.
  { apply wlp_bind. unfold get_conn, wlp, gets_some, put_conn, modify. rewrite Hy.
    intros x Hx. simpl. destruct (decide (c = c')) as [<-|Hne].
    - rewrite lookup_insert_eq. simplify_eq. by eexists.
    - rewrite lookup_insert_ne by done. exists x. split; [done|lia]. }
  eapply wlp_mono; [exact Hset|]. intros [] w1 H1.
  eapply wlp_mono; [exact (proj1 (forward_wlp _) (Hk y) w1)|]. intros [] w2 H2. by trans w1.
Qed.

(** The same with the look being an assertion. *)
Lemma forward_assert_setState c' s site (b : TcpConnection → bool)
    (k : TcpConnection → M (World K) unit) :
  (∀ x, b x = true → rank (tc_state x) ≤ rank s) → (∀ x, forward (k x)) →
  forward (x ← get_conn c'; assert_ site (b x);; setState c' s;; k x).
Proof.
  intros Hb Hk. apply forward_wlp. intros w.
  specialize (proj1 (forward_wlp _) (forward_setState c' s b k Hb Hk) w).
  unfold wlp. rewrite !bind_run. unfold get_conn, gets_some.
  destruct (w_conns w !! c') as [y|]; [|done]. unfold assert_.
  by destruct (b y).
Qed.
End forward.

(** Unfolds a member and follows its structure. *)
Ltac forward_step :=
  first
    [ assumption
    | apply forward_ret | apply forward_fail | apply forward_assert
    | apply forward_in_reactor | apply forward_gets_some | apply forward_gets
    | apply forward_on_input | apply forward_on_output | apply forward_fetch
    | apply forward_modify; intros; reflexivity
    | apply forward_upd_conn; let x := fresh in intros x; simpl; destruct (tc_state x); simpl; lia
    | apply forward_when
    | apply forward_bind; [|intros ?]
    | match goal with
      | |- forward _ (match ?x with _ => _ end) => destruct x
      | |- forward _ (let '_ := ?x in _) => destruct x
      end ].
Ltac forward_tac := repeat forward_step.

Section forward_members.
Context {K : Type} `{!OS K} {P : Poller K}.
Context (c : ptr).
Context (user : UserCall → M (World K) unit).
Context (close_callback : CloseCallback → ptr → M (World K) unit).
Context (Huser : ∀ u, forward c (user u)) (Hclose : ∀ cb c', forward c (close_callback cb c')).
Implicit Types w : World K.

Lemma forward_assertInLoopThread l : forward (K:=K) c (assertInLoopThread l).
Proof. unfold assertInLoopThread, isInLoopThread, get_loop, abortNotInLoopThread. forward_tac. Qed.

Lemma forward_upd_loop l f : forward (K:=K) c (upd_loop l f).
Proof. unfold upd_loop, get_loop, put_loop. forward_tac. Qed.

Lemma forward_queueInLoop l f : forward (K:=K) c (queueInLoop l f).
Proof.
  unfold queueInLoop, wakeup, isInLoopThread, get_loop. forward_tac; try apply forward_upd_loop.
Qed.

Lemma forward_runInLoop l f m : forward c m → forward c (runInLoop l f m).
Proof.
  intros Hm. unfold runInLoop, isInLoopThread, get_loop. forward_tac; try apply forward_queueInLoop.
Qed.

Lemma forward_update c' : forward (K:=K) c (update c').
Proof.
  unfold update, EventLoop_updateChannel, Poller_assertInLoopThread.
  forward_tac; try apply forward_assertInLoopThread.
Qed.

Lemma forward_remove c' : forward (K:=K) c (remove c').
Proof.
  unfold remove, EventLoop_removeChannel, Poller_assertInLoopThread, get_loop.
  forward_tac; try apply forward_assertInLoopThread.
Qed.

Lemma forward_conn_assert : forward (K:=K) c (conn_assertInLoopThread c).
Proof.
  unfold conn_assertInLoopThread, conn_loop, get_conn. forward_tac; try apply forward_assertInLoopThread.
Qed.

Lemma forward_conn_channel : forward (K:=K) c (conn_channel c).
Proof. unfold conn_channel, get_conn. forward_tac. Qed.

Lemma forward_get_conn c' : forward (K:=K) c (get_conn c').
Proof. unfold get_conn. forward_tac. Qed.

Lemma forward_setDisconnected c' : forward (K:=K) c (setState c' kDisconnected).
Proof. apply forward_upd_conn. intros x. simpl. destruct (tc_state x); simpl; lia. Qed.

Lemma forward_user_call u : forward (K:=K) c (call_user user u).
Proof using Huser. unfold call_user, user_call. forward_tac. apply Huser. Qed.

Lemma forward_connectionCallback c' : forward (K:=K) c (run_connectionCallback user c').
Proof using Huser.
  unfold run_connectionCallback. apply forward_bind; [apply forward_get_conn|]. intros x.
  destruct (tc_connectionCallback x) as [[]|]; [apply forward_ret|apply forward_user_call|done].
Qed.

Lemma forward_messageCallback c' t : forward (K:=K) c (run_messageCallback user c' t).
Proof using Huser.
  unfold run_messageCallback. apply forward_bind; [apply forward_get_conn|]. intros x.
  destruct (tc_messageCallback x) as [[]|];
    [apply forward_on_input|apply forward_user_call|done].
Qed.

Lemma forward_closeCallback c' : forward (K:=K) c (run_closeCallback close_callback c').
Proof using Hclose.
  unfold run_closeCallback. apply forward_bind; [apply forward_get_conn|]. intros x.
  destruct (tc_closeCallback x); [apply Hclose|done].
Qed.

Lemma forward_queue_writeComplete : forward (K:=K) c (queue_writeComplete c).
Proof.
  unfold queue_writeComplete. apply forward_bind; [apply forward_get_conn|]. intros x.
  destruct (tc_writeCompleteCallback x); [apply forward_queueInLoop|apply forward_ret].
Qed.
End forward_members.

(** The leaves of the connection's members. *)
Ltac forward_members :=
  repeat first
    [ apply forward_connectionCallback; assumption | apply forward_messageCallback; assumption
    | apply forward_closeCallback; assumption | apply forward_setDisconnected | apply forward_conn_assert | apply forward_conn_channel | apply forward_get_conn
    | apply forward_queue_writeComplete | apply forward_queueInLoop | apply forward_update
    | apply forward_remove | apply forward_assertInLoopThread | apply forward_upd_loop
    | apply forward_runInLoop
    | forward_step ].

(** *** The members, and any sequence of them *)

Inductive member : Type :=
  | MSend (message : ptr) (len : Z)
  | MSendString (message : ptr)
  | MSendInputBuffer                   (* conn->send(conn->inputBuffer()) *)
  | MShutdown
  | MForceClose
  | MForceCloseWithDelay (seconds : double)
  | MForceCloseInLoop
  | MStartRead
  | MStopRead
  | MHandleRead (receiveTime : Z)
  | MHandleWrite
  | MHandleClose
  | MHandleError
  | MConnectEstablished
  | MConnectDestroyed.

Section forward_theorem.
Context {K : Type} `{!OS K} {P : Poller K}.
Context (c : ptr).
Context (user : UserCall → M (World K) unit).
Context (close_callback : CloseCallback → ptr → M (World K) unit).

Definition run_member (m : member) : M (World K) unit :=
  match m with
  | MSend p len => send c p len
  | MSendString p => send_string c p
  | MSendInputBuffer => send_buffer c (input_of c)
  | MShutdown => shutdown c
  | MForceClose => forceClose c
  | MForceCloseWithDelay seconds => forceCloseWithDelay c seconds
  | MForceCloseInLoop => forceCloseInLoop user close_callback c
  | MStartRead => startRead c
  | MStopRead => stopRead c
  | MHandleRead t => handleRead user close_callback c t
  | MHandleWrite => handleWrite c
  | MHandleClose => handleClose user close_callback c
  | MHandleError => handleError c
  | MConnectEstablished => connectEstablished user c
  | MConnectDestroyed => connectDestroyed user c
  end.

Context (Huser : ∀ u, forward c (user u)) (Hclose : ∀ cb c', forward c (close_callback cb c')).

Lemma forward_sendInLoop src len : forward c (sendInLoop c src len).
Proof.
  unfold sendInLoop, sendInLoop_write, sendInLoop_append, sockets_write, errno, syscall_, LOG_ERROR.
  forward_members.
Qed.

Lemma forward_set_insert timers timer when_ : forward (K:=K) c (set_insert timers timer when_).
Proof.
  induction timers as [|t ts IH]; [apply forward_ret|]. cbn [set_insert]. unfold get_timer.
  forward_members.
Qed.

Lemma forward_new_timer : forward (K:=K) c fresh ∧ forward (K:=K) c fetch_add_numCreated.
Proof. split; apply forward_wlp; intros w; by apply later_same. Qed.

Lemma forward_runAfter l delay cb : forward (K:=K) c (runAfter l delay cb).
Proof.
  unfold runAfter, runAt, addTimer, seconds_to_ms, system_clock_now, Timer_ctor, get_timer, put_timer.
  forward_members; first [apply forward_new_timer|apply forward_set_insert].
Qed.

Lemma forward_shutdownInLoop : forward (K:=K) c (shutdownInLoop c).
Proof. unfold shutdownInLoop, Socket_shutdownWrite, sockets_shutdownWrite. forward_members. Qed.

Lemma forward_handleClose : forward c (handleClose user close_callback c).
Proof using Huser Hclose.
  unfold handleClose. forward_members.
Qed.

Lemma forward_member m : forward c (run_member m).
Proof using Huser Hclose.
  destruct m; cbn [run_member].
  - unfold send, isInLoopThread, get_loop. forward_members; try apply forward_sendInLoop.
  - unfold send_string, send, isInLoopThread, get_loop. forward_members; try apply forward_sendInLoop.
  - unfold send_buffer, sendInLoop_string, isInLoopThread, get_loop.
    forward_members; try apply forward_sendInLoop.
  - apply forward_setState; [by intros x ->%bool_decide_eq_true|].
    intros x. apply forward_runInLoop, forward_shutdownInLoop.
  - apply forward_setState; [intros x; by destruct (tc_state x)|].
    intros x. apply forward_queueInLoop.
  - apply forward_setState; [intros x; by destruct (tc_state x)|].
    intros x. apply forward_bind; [apply forward_runAfter|]. intros ?. apply forward_ret.
  - unfold forceCloseInLoop. forward_members; try apply forward_handleClose.
  - unfold startRead, conn_loop, startReadInLoop. forward_members.
  - unfold stopRead, conn_loop, stopReadInLoop. forward_members.
  - unfold handleRead, sockets_readv. forward_members; try apply forward_handleClose.
  - unfold handleWrite, sockets_write. forward_members; try apply forward_shutdownInLoop.
  - apply forward_handleClose.
  - apply forward_ret.
  - unfold connectEstablished. apply forward_bind; [apply forward_conn_assert|]. intros _.
    apply forward_assert_setState; [by intros x ->%bool_decide_eq_true|].
    intros x. unfold enableReading. forward_members.
  - unfold connectDestroyed. forward_members.
Qed.

(** C11: a connection's state never goes back.  Whatever members are called on it,
    in whatever order and from whatever thread, and whatever the program's
    callbacks do as long as they too respect this, the state only moves forward
    along [kConnecting], [kConnected], [kDisconnecting], [kDisconnected], as far as
    the run goes without a failed assertion. *)
Theorem state_never_goes_back (ms : list member) (x : TcpConnection) (w w' : World K)
    (Hx : w_conns w !! c = Some x) (Hrun : for_each ms run_member w = Ok (tt, w')) :
  ∃ x', w_conns w' !! c = Some x' ∧ rank (tc_state x) ≤ rank (tc_state x').
Proof using Huser Hclose.
  assert (∀ w0, wlp (for_each ms run_member) (λ _ w1, later c w0 w1) w0) as H.
  { clear Hrun. induction ms as [|m l IH]; intros w0; [by apply later_same|].
    cbn [for_each]. apply wlp_bind. eapply wlp_mono; [exact (proj1 (forward_wlp _ _) (forward_member m) w0)|].
    intros [] w1 H1. eapply wlp_mono; [apply IH|]. intros [] w2 H2. by trans w1. }
  specialize (H w). unfold wlp in H. rewrite Hrun in H. by apply H.
Qed.
End forward_theorem.

(** *** Witnesses, on the connection of ByteStream.v *)

Lemma conn_core_sample s events :
  conn_core 40%nat (sample_conn s (fresh_buffer 16)) (conn_chan events)
    (conn_world s (fresh_buffer 16) events []).
Proof. apply conn_world_core, empty_buffer_wf. Qed.

Lemma handleClose_disables_then_calls_back_witness :
  ∃ w', handleClose user_call (λ _ _, mret tt) 40%nat (conn_world kConnected (fresh_buffer 16) 3 [])
    = (run_connectionCallback user_call 40%nat;; run_closeCallback (λ _ _, mret tt) 40%nat) w'
    ∧ ∃ ch', conn_core 40%nat (sample_conn kDisconnected (fresh_buffer 16)) ch' w'
        ∧ ch_events ch' = 0.
Proof.
  destruct (handleClose_disables_then_calls_back 40%nat user_call (λ _ _, mret tt)
    (sample_conn kConnected (fresh_buffer 16)) (conn_chan 3)
    (conn_world kConnected (fresh_buffer 16) 3 []) (conn_core_sample kConnected 3) eq_refl)
    as (ch' & w' & Hok & Hev & _ & E).
  exists w'. split; [exact E|]. exists ch'. split; [exact Hok|exact Hev].
Defined.

Lemma connectDestroyed_aborts_while_disconnecting_witness :
  connectDestroyed user_call 40%nat (conn_world kDisconnecting (fresh_buffer 16) 3 [])
  = Fault (AssertFailed "Channel.cpp:163").
Proof.
  apply (connectDestroyed_aborts_while_disconnecting 40%nat user_call
    (sample_conn kDisconnecting (fresh_buffer 16)) (conn_chan 3)
    (conn_world kDisconnecting (fresh_buffer 16) 3 []) (conn_core_sample kDisconnecting 3)).
  - reflexivity.
  - discriminate.
Defined.

Lemma stopReadInLoop_leaves_reading_witness :
  ∃ ch' w', stopReadInLoop 40%nat (conn_world kConnected (fresh_buffer 16) 3 []) = Ok (tt, w')
    ∧ (∃ x', w_conns w' !! 40%nat = Some x' ∧ tc_reading x' = true) ∧ isReading ch' = false.
Proof.
  destruct (stopReadInLoop_leaves_reading 40%nat (sample_conn kConnected (fresh_buffer 16))
    (conn_chan 3) (conn_world kConnected (fresh_buffer 16) 3 []) (conn_core_sample kConnected 3)
    eq_refl) as (ch' & w' & Hrun & Hok & Hr).
  exists ch', w'. split; [exact Hrun|]. split; [|exact Hr].
  eexists. split; [exact (ck_conn _ _ _ _ Hok)|reflexivity].
Defined.

Lemma send_string_drops_2GiB_witness :
  let message := replicate (Z.to_nat (2 ^ 31)) x61 in
  let w := set_w_mem {[7%nat := message]} (conn_world kConnected (fresh_buffer 16) 3 []) in
  send_string 40%nat 7%nat w = Ok (tt, w).
Proof.
  intros message w. apply (send_string_drops_2GiB 40%nat 7%nat message w).
  - unfold w. simpl. by rewrite lookup_singleton_eq.
  - unfold message. rewrite length_replicate. rewrite Z2Nat.id by lia. lia.
Defined.

Lemma send_string_from_another_thread_keeps_a_pointer_witness :
  let w := set_w_tid 8%nat (set_w_mem {[7%nat := [x61; x62]]}
             (conn_world kConnected (fresh_buffer 16) 3 [])) in
  ∃ w', send_string 40%nat 7%nat w = Ok (tt, w')
    ∧ functors 0%nat w' = [FnTcpConnection_sendInLoop_raw 40%nat 7%nat 2].
Proof.
  intros w.
  destruct (send_string_from_another_thread_keeps_a_pointer 40%nat 7%nat [x61; x62]
    (sample_conn kConnected (fresh_buffer 16)) sample_loop w) as (w' & Hrun & Hf & _).
  - reflexivity.
  - simpl. lia.
  - reflexivity.
  - reflexivity.
  - reflexivity.
  - discriminate.
  - exists w'. split; [exact Hrun|exact Hf].
Defined.

Lemma state_never_goes_back_witness :
  ∃ w' x', for_each [MShutdown; MHandleClose] (run_member 40%nat (λ _, mret tt) (λ _ _, mret tt))
      (set_w_conns {[40%nat := set_tc_closeCallback (Some (CcDetail_removeConnection 0%nat))
                                 (sample_conn kConnected (fresh_buffer 16))]}
         (conn_world kConnected (fresh_buffer 16) 3 [])) = Ok (tt, w')
    ∧ w_conns w' !! 40%nat = Some x' ∧ 1 ≤ rank (tc_state x').
Proof.
  set (w := set_w_conns _ _).
  destruct (for_each [MShutdown; MHandleClose] (run_member 40%nat (λ _, mret tt) (λ _ _, mret tt)) w)
    as [[[] w']|e] eqn:Hrun; [|exfalso; vm_compute in Hrun; discriminate Hrun].
  destruct (state_never_goes_back 40%nat (λ _, mret tt) (λ _ _, mret tt)
    (λ _, forward_ret 40%nat tt) (λ _ _, forward_ret 40%nat tt) [MShutdown; MHandleClose]
    (set_tc_closeCallback (Some (CcDetail_removeConnection 0%nat))
       (sample_conn kConnected (fresh_buffer 16))) w w' eq_refl Hrun) as (x' & Hx' & Hr).
  exists w', x'. split_and!; [reflexivity|exact Hx'|exact Hr].
Defined.
