(* ===== verification/EventLoop.v ===== *)
(** * EventLoop: the loop itself (EventLoop.h, EventLoop.cpp)

    Construction, destruction and [loop()], above the channels and the timer
    queue.  [invoke] runs what a channel's callback is bound to and [run] a
    functor.  [loop()] returns only once [quit_] is set, so it takes a number of
    rounds it may make; the result tells whether it returned. *)
From S2P Require Import Prelude Endian OS Objects Poller LoopCore Channel TimerQueue TcpConnection.

Set Default Goal Selector "!".

Definition kPollTimeMs : Z := 1000 * 10.

(** A loop whose members are not constructed yet: only the thread and the flags. *)
Definition raw_loop (l : ptr) (t : tid) : EventLoop :=
  mkEventLoop t false false false false [] None 0 (mkTimerQueue false (-1) l []) (-1) l [].

Definition set_el_wakeup (fd : Z) (c : ptr) (x : EventLoop) : EventLoop :=
  mkEventLoop (el_threadId x) (el_looping x) (el_callingPendingFunctors x) (el_quit x)
    (el_eventHandling x) (el_activeChannels x) (el_currentActiveChannel x) (el_pollReturnTime x)
    (el_timerQueue x) fd c (el_pendingFunctors x).

Section event_loop.
Context {K : Type} `{!OS K} {P : Poller K}.

Definition createEventfd : M (World K) Z :=
  r ← syscall_ SysEventfd;
  if ret r <? 0 then LOG_ERROR "Failed in eventfd";; fail (Terminated "abort") else mret (ret r).

(** [EventLoop()], run by the thread that will own the loop; [indeterminate] is
    the value of the timer queue's uninitialised flag. *)
Definition EventLoop_ctor (indeterminate : bool) : M (World K) ptr :=
  l ← fresh;
  t ← gets w_tid;
  put_loop l (raw_loop l t);;
  in_reactor (poller_new l);;
  TimerQueue_ctor l indeterminate;;
  wakeupFd ← createEventfd;
  c ← fresh;
  in_reactor (put_chan c (Channel_ctor l wakeupFd));;
  upd_loop l (set_el_wakeup wakeupFd c);;
  upd_chan c (set_ch_readCallback (Some (CbEventLoop_handleRead l)));;
  enableReading c;;
  mret l.

(** The end of [pendingFunctors_]: functors that never ran. *)
Definition drop_pending (l : ptr) : M (World K) unit :=
  x ← get_loop l;
  let conns := omap functor_holds (el_pendingFunctors x) in
  hold conns;;
  upd_loop l (set_el_pendingFunctors []);;
  for_each conns release.

(** [~EventLoop()]: the body, then the members in reverse order. *)
Definition EventLoop_dtor (l : ptr) : M (World K) unit :=
  x ← get_loop l;
  disableAll (el_wakeupChannel x);;
  remove (el_wakeupChannel x);;
  _ ← syscall_ (SysClose (el_wakeupFd x));
  drop_pending l;;
  Channel_dtor (el_wakeupChannel x);;
  TimerQueue_dtor l;;
  in_reactor (poller_delete l);;
  modify (λ w, set_w_loops (delete l (w_loops w)) w).

Section running.
Context (invoke : Callback → Z → M (World K) unit).
Context (run : Functor → M (World K) unit).

(** The body of the [while] of [loop()]. *)
Definition loop_round (l : ptr) : M (World K) unit :=
  upd_loop l (set_el_activeChannels []);;
  '(now, active) ← in_reactor (poller_poll l kPollTimeMs);
  upd_loop l (set_el_activeChannels active);;
  upd_loop l (set_el_pollReturnTime now);;
  upd_loop l (set_el_eventHandling true);;
  for_each active (λ channel,
    upd_loop l (set_el_currentActiveChannel (Some channel));;
    x ← get_loop l;
    handleEvent invoke release channel (el_pollReturnTime x));;
  upd_loop l (set_el_currentActiveChannel None);;
  upd_loop l (set_el_eventHandling false);;
  doPendingFunctors run release l.

(** [while (!quit_) { ... }], at most [rounds] times. *)
Fixpoint loop_while (rounds : nat) (l : ptr) : M (World K) bool :=
  x ← get_loop l;
  if el_quit x then mret true
  else match rounds with
       | O => mret false
       | S n => loop_round l;; loop_while n l
       end.

Definition EventLoop_loop (rounds : nat) (l : ptr) : M (World K) bool :=
  upd_loop l (set_el_looping true);;
  upd_loop l (set_el_quit false);;
  assertInLoopThread l;;
  finished ← loop_while rounds l;
  when finished (upd_loop l (set_el_looping false));;
  mret finished.
End running.
End event_loop.
