(* ===== verification/Threads.v ===== *)
(** * Threads: loops that run in threads of their own (EventLoopThread.h,
    EventLoopThread.cpp, EventLoopThreadPool.h, EventLoopThreadPool.cpp)

    [startLoop] blocks until the new thread has made its loop, run the
    initialisation callback and published the loop; what the new thread does up
    to there is run in its name, then the caller goes on.  What it does after
    that, [threadFunc_loop], is a step of its own. *)
From S2P Require Import Prelude Endian OS Objects Poller LoopCore Channel TimerQueue TcpConnection EventLoop.

Set Default Goal Selector "!".

Section threads.
Context {K : Type} `{!OS K} {P : Poller K}.
Context (user : UserCall → M (World K) unit).

(** Running something in the name of another thread. *)
Definition in_thread {A} (t : tid) (m : M (World K) A) : M (World K) A :=
  me ← gets w_tid; modify (set_w_tid t);; a ← m; modify (set_w_tid me);; mret a.

(** [std::thread(...)]: an id no thread has. *)
Definition new_thread : M (World K) tid :=
  λ w, Ok (w_nextTid w, set_w_nextTid (S (w_nextTid w)) w).

(** A [ThreadInitCallback] of the program. *)
Definition run_threadInit (cb : option nat) (loop : ptr) : M (World K) unit :=
  match cb with
  | Some id => user_call (UcThreadInit id loop);; user (UcThreadInit id loop)
  | None => mret tt
  end.

(** ** EventLoopThread *)

Definition EventLoopThread_ctor (cb : option nat) : M (World K) ptr :=
  t ← fresh; put_thread t (mkEventLoopThread None false None cb);; mret t.

(** [threadFunc()] up to and including [cond_.notify_one()]. *)
Definition threadFunc_start (t : ptr) (indeterminate : bool) : M (World K) unit :=
  loop ← EventLoop_ctor indeterminate;
  x ← get_thread t;
  run_threadInit (et_callback x) loop;;
  upd_thread t (set_et_loop (Some loop)).

(** The rest of [threadFunc()]: the loop, and its end. *)
Definition threadFunc_loop (invoke : Callback → Z → M (World K) unit)
    (run : Functor → M (World K) unit) (rounds : nat) (t loop : ptr) : M (World K) bool :=
  finished ← EventLoop_loop invoke run rounds loop;
  when finished (upd_thread t (set_et_loop None);; EventLoop_dtor loop);;
  mret finished.

Definition startLoop (t : ptr) (indeterminate : bool) : M (World K) ptr :=
  x ← get_thread t;
  assert_ "EventLoopThread.cpp:28" (bool_decide (et_thread x = None));;
  id ← new_thread;
  upd_thread t (set_et_thread (Some id));;
  in_thread id (threadFunc_start t indeterminate);;
  x ← get_thread t;
  gets_some "EventLoop" (λ _, et_loop x).

(** [~EventLoopThread()]: [run_thread] is what the thread does until it ends,
    which [join] waits for.  Destroying a [std::thread] that was not joined stops
    the process. *)
Definition EventLoopThread_dtor (run_thread : tid → M (World K) unit) (t : ptr) : M (World K) unit :=
  upd_thread t (set_et_exiting true);;
  x ← get_thread t;
  match et_loop x with
  | Some loop =>
      quit loop;;
      match et_thread x with
      | Some id => run_thread id;; upd_thread t (set_et_thread None)
      | None => mret tt
      end
  | None => mret tt
  end;;
  x ← get_thread t;
  when (negb (bool_decide (et_thread x = None))) (fail (Terminated "std::terminate"));;
  modify (λ w, set_w_threads (delete t (w_threads w)) w).

(** ** EventLoopThreadPool *)

Definition EventLoopThreadPool_ctor (baseLoop : ptr) (nameArg : string) : M (World K) ptr :=
  p ← fresh; put_pool p (mkEventLoopThreadPool baseLoop nameArg false 0 0 [] []);; mret p.

Definition EventLoopThreadPool_setThreadNum (p : ptr) (numThreads : Z) : M (World K) unit :=
  upd_pool p (set_pl_numThreads numThreads).

(** One turn of the [for] of [start]. *)
Definition pool_add_thread (p : ptr) (cb : option nat) (indeterminate : bool) : M (World K) unit :=
  t ← EventLoopThread_ctor cb;
  upd_pool p (λ x, set_pl_threads (pl_threads x ++ [t]) x);;
  loop ← startLoop t indeterminate;
  upd_pool p (λ x, set_pl_loops (pl_loops x ++ [loop]) x).

Definition EventLoopThreadPool_start (p : ptr) (cb : option nat) (indeterminate : bool)
    : M (World K) unit :=
  x ← get_pool p;
  assert_ "EventLoopThreadPool.cpp:17" (negb (pl_started x));;
  assertInLoopThread (pl_baseLoop x);;
  upd_pool p (set_pl_started true);;
  for_each (seq 0 (Z.to_nat (pl_numThreads x))) (λ _, pool_add_thread p cb indeterminate);;
  when (pl_numThreads x =? 0) (run_threadInit cb (pl_baseLoop x)).

(** [~EventLoopThreadPool()]: its vector destroys the threads. *)
Definition EventLoopThreadPool_dtor (run_thread : tid → M (World K) unit) (p : ptr)
    : M (World K) unit :=
  x ← get_pool p;
  for_each (pl_threads x) (EventLoopThread_dtor run_thread);;
  modify (λ w, set_w_pools (delete p (w_pools w)) w).

(** [loops_[i]]: out of range is undefined. *)
Definition loop_at (loops : list ptr) (i : Z) : M (World K) ptr := λ w,
  match (if 0 <=? i then loops !! Z.to_nat i else None) with
  | Some l => Ok (l, w)
  | None => Fault (OutOfBounds "loops_")
  end.

(** [next_] after handing out the loop it designates. *)
Definition advance (next : Z) (loops : list ptr) : Z :=
  let next := next + 1 in
  if Z.of_nat (length loops) <=? u64 next then 0 else next.

Definition getNextLoop (p : ptr) : M (World K) ptr :=
  x ← get_pool p;
  assertInLoopThread (pl_baseLoop x);;
  match pl_loops x with
  | [] => mret (pl_baseLoop x)
  | _ =>
      loop ← loop_at (pl_loops x) (pl_next x);
      upd_pool p (set_pl_next (advance (pl_next x) (pl_loops x)));;
      mret loop
  end.

Definition getLoopForHash (p : ptr) (hashCode : Z) : M (World K) ptr :=
  x ← get_pool p;
  assertInLoopThread (pl_baseLoop x);;
  match pl_loops x with
  | [] => mret (pl_baseLoop x)
  | _ => loop_at (pl_loops x) (hashCode `mod` Z.of_nat (length (pl_loops x)))
  end.

Definition getAllLoops (p : ptr) : M (World K) (list ptr) :=
  x ← get_pool p;
  assertInLoopThread (pl_baseLoop x);;
  assert_ "EventLoopThreadPool.cpp:55" (pl_started x);;
  mret (match pl_loops x with [] => [pl_baseLoop x] | loops => loops end).
End threads.

(** ** Round robin *)

Section round_robin.
Context {K : Type} `{!OS K} {P : Poller K}.
Implicit Types w : World K.

(** [k] calls of [getNextLoop]. *)
Fixpoint next_loops (k : nat) (p : ptr) : M (World K) (list ptr) :=
  match k with
  | O => mret []
  | S k => l ← getNextLoop p; ls ← next_loops k p; mret (l :: ls)
  end.

(** A started pool whose base loop is run by the current thread. *)
Record pool_ok (p : ptr) (x : EventLoopThreadPool) w : Prop := {
  po_pool : w_pools w !! p = Some x;
  po_thread : ∃ l, w_loops w !! pl_baseLoop x = Some l ∧ el_threadId l = w_tid w;
  po_small : Z.of_nat (length (pl_loops x)) < 2 ^ 31
}.

Definition pool_at (i : nat) (x : EventLoopThreadPool) : EventLoopThreadPool :=
  set_pl_next (Z.of_nat i) x.

Lemma get_pool_wp p x (Q : EventLoopThreadPool → World K → Prop) w :
  w_pools w !! p = Some x → Q x w → wp (get_pool p) Q w.
Proof. intros H HQ. by eapply wp_gets_some. Qed.

Lemma upd_pool_wp p x f (Q : unit → World K → Prop) w :
  w_pools w !! p = Some x → Q tt (set_w_pools (<[p := f x]> (w_pools w)) w) →
  wp (upd_pool p f) Q w.
Proof. intros H HQ. apply wp_bind. eapply get_pool_wp; [done|]. by apply wp_modify. Qed.

(** The position after [i] among [n]. *)
Definition succ_mod (n i : nat) : nat := if (S i =? n)%nat then 0%nat else S i.

Lemma succ_mod_lt n i : (i < n)%nat → (succ_mod n i < n)%nat.
Proof. intros H. unfold succ_mod. destruct (Nat.eqb_spec (S i) n); lia. Qed.

Lemma advance_succ i (loops : list ptr) :
  (i < length loops)%nat → Z.of_nat (length loops) < 2 ^ 31 →
  advance (Z.of_nat i) loops = Z.of_nat (succ_mod (length loops) i).
Proof.
  intros Hi Hn. unfold advance, succ_mod. rewrite wrap_small by lia.
  destruct (Nat.eqb_spec (S i) (length loops)), (Z.leb_spec (Z.of_nat (length loops)) (Z.of_nat i + 1)); lia.
Qed.

Lemma getNextLoop_wp p x i l (Q : ptr → World K → Prop) w :
  pool_ok p x w → pl_next x = Z.of_nat i → pl_loops x !! i = Some l →
  (let x' := pool_at (succ_mod (length (pl_loops x)) i) x in
   let w' := set_w_pools (<[p := x']> (w_pools w)) w in
   pool_ok p x' w' → Q l w') →
  wp (getNextLoop p) Q w.
Proof.
  intros [Hs (lp & Hlp & Ht) Hn] Hi Hl HQ. pose proof (lookup_lt_Some _ _ _ Hl) as Hlt.
  apply wp_bind. eapply get_pool_wp; [done|]. apply wp_bind.
  eapply assertInLoopThread_here; [done..|].
  destruct (pl_loops x) as [|l0 loops] eqn:Hloops; [done|]. rewrite <- Hloops in *.
  apply wp_bind. rewrite Hi. unfold loop_at, wp at 1. rewrite (proj2 (Z.leb_le _ _)) by lia.
  rewrite Nat2Z.id, Hl. apply wp_bind. eapply upd_pool_wp; [done|]. apply wp_ret.
  rewrite advance_succ by done. apply HQ. split; simpl; eauto. by rewrite lookup_insert_eq.
Qed.

(** The loops handed out from position [i] on. *)
Fixpoint round_robin (k i : nat) (loops : list ptr) : list ptr :=
  match k with
  | O => []
  | S k => option_list (loops !! i) ++ round_robin k (succ_mod (length loops) i) loops
  end.

Lemma next_loops_wp k : ∀ p x i (Q : list ptr → World K → Prop) w,
  pool_ok p x w → pl_next x = Z.of_nat i → (i < length (pl_loops x))%nat →
  (∀ j w', w_pools w' !! p = Some (pool_at j x) → (j < length (pl_loops x))%nat →
     Q (round_robin k i (pl_loops x)) w') →
  wp (next_loops k p) Q w.
Proof.
  induction k as [|k IH]; intros p x i Q w Hok Hi Hlt HQ; cbn [next_loops].
  - apply wp_ret. apply (HQ i); [|done]. rewrite (po_pool _ _ _ Hok).
    unfold pool_at. rewrite <- Hi. by destruct x.
  - apply lookup_lt_is_Some in Hlt as [l Hl]. pose proof (lookup_lt_Some _ _ _ Hl) as Hlt.
    cbn [round_robin] in HQ. rewrite Hl in HQ. cbn [option_list app] in HQ.
    apply wp_bind. eapply getNextLoop_wp; [done..|]. cbv zeta. intros Hok'.
    apply wp_bind. eapply (IH p _ (succ_mod _ i)); [exact Hok'|done|by apply succ_mod_lt|].
    intros j w' Hw' Hj. apply wp_ret. by apply (HQ j).
Qed.

(** Until it reaches the end, the sequence is a segment of the list. *)
Lemma round_robin_segment loops : ∀ k i, (i + k ≤ length loops)%nat → (0 < k)%nat →
  round_robin k i loops = take k (drop i loops).
Proof.
  induction k as [|k IH]; intros i Hk H0; [lia|]. simpl.
  destruct (lookup_lt_is_Some_2 loops i) as [l Hl]; [lia|]. rewrite Hl. simpl.
  rewrite (drop_S loops l i Hl). simpl. f_equal. unfold succ_mod.
  destruct k as [|k]; [done|]. destruct (Nat.eqb_spec (S i) (length loops)); [lia|].
  apply IH; lia.
Qed.

Lemma round_robin_app loops k k' : ∀ i, (i + k = length loops)%nat → (0 < k)%nat →
  round_robin (k + k') i loops = round_robin k i loops ++ round_robin k' 0 loops.
Proof.
  induction k as [|k IH]; intros i Hk H0; [lia|]. cbn [Nat.add round_robin].
  rewrite <- app_assoc. f_equal. unfold succ_mod.
  destruct (Nat.eqb_spec (S i) (length loops)).
  - replace k with 0%nat by lia. done.
  - apply IH; lia.
Qed.

(** A full turn is a rotation of the list. *)
Lemma round_robin_turn loops i : (i < length loops)%nat →
  round_robin (length loops) i loops = drop i loops ++ take i loops.
Proof.
  intros Hi. replace (length loops) with ((length loops - i) + i)%nat at 1 by lia.
  rewrite round_robin_app, round_robin_segment by lia. f_equal.
  - by rewrite take_ge by (rewrite length_drop; lia).
  - destruct i as [|i]; [done|]. by rewrite round_robin_segment by lia.
Qed.

(** Connections are dealt out evenly.  Whatever loop is next, as many calls
    of [getNextLoop] as the pool has threads hand out the threads' loops in
    order, wrapping around once: every loop exactly once, and never one out of
    range. *)
Theorem getNextLoop_round_robin (p : ptr) (x : EventLoopThreadPool) (i : nat) w
    (Hok : pool_ok p x w) (Hnext : pl_next x = Z.of_nat i) (Hi : (i < length (pl_loops x))%nat) :
  let loops := pl_loops x in
  ∃ w' j, next_loops (length loops) p w = Ok (drop i loops ++ take i loops, w')
    ∧ drop i loops ++ take i loops ≡ₚ loops
    ∧ w_pools w' !! p = Some (pool_at j x) ∧ (j < length loops)%nat.
Proof.
  intros loops.
  assert (wp (next_loops (length loops) p) (λ ls w', ls = drop i loops ++ take i loops
    ∧ ∃ j, w_pools w' !! p = Some (pool_at j x) ∧ (j < length loops)%nat) w) as H.
  { eapply next_loops_wp; [done..|]. intros j w' Hw' Hj. split; [|eauto].
    by apply round_robin_turn. }
  destruct (proj1 (wp_run _ _ _) H) as (ls & w' & Hrun & -> & j & Hw' & Hj).
  exists w', j. split_and!; [done| |done..].
  rewrite Permutation_app_comm. by rewrite take_drop.
Qed.
End round_robin.

(** *** A pool of three loops, the second one next *)

Definition sample_pool : EventLoopThreadPool :=
  mkEventLoopThreadPool 0%nat "echo" true 3 1 [21%nat; 22%nat; 23%nat] [31%nat; 32%nat; 33%nat].

Definition pool_world : World sim := set_w_pools {[41%nat := sample_pool]} sample_world.

Lemma getNextLoop_round_robin_witness :
  ∃ w', next_loops 3 41%nat pool_world = Ok ([32%nat; 33%nat; 31%nat], w').
Proof.
  destruct (getNextLoop_round_robin 41%nat sample_pool 1 pool_world) as (w' & j & Hrun & _).
  - split; [done|exists sample_loop; done|done].
  - done.
  - simpl. lia.
  - exists w'. exact Hrun.
Defined.
