(* ===== verification/Interleaving.v ===== *)
(** * Interleaving: loops in threads of their own, step by step

    The round of a loop (EventLoop.v) cut into the steps between which other threads
    may run: a poll, the event of one channel, taking the pending functors, one
    functor, giving up one pointer.  [pc] is where a thread is in its round, with the
    local variables it has there, and a schedule is any sequence of the threads' steps,
    some of them at the same time as another thread's.  Two such steps that both use a
    loop's queue of functors, one of them without its mutex, are a data race. *)
From S2P Require Import Prelude Endian OS Objects Poller LoopCore Channel TimerQueue TcpConnection EventLoop.

Set Default Goal Selector "!".

(** Before calling [loop()]; before testing [quit_]; in the [for] over [activeChannels_], with the channels
    [rest] to come; in the [for] of [doPendingFunctors], with [todo] to come and the
    pointers [held] in the local [functors]; at its end, where [held] are given up. *)
Inductive pc : Type :=
  | Starting
  | Waiting
  | Handling (rest : list ptr)
  | Running (todo : list Functor) (held : list ptr)
  | Releasing (held : list ptr).

Definition pc_rest (t : pc) : list ptr := match t with Handling rest => rest | _ => [] end.
Definition pc_todo (t : pc) : list Functor := match t with Running todo _ => todo | _ => [] end.
Definition pc_held (t : pc) : list ptr :=
  match t with Running _ held | Releasing held => held | _ => [] end.

Section threads.
Context {K : Type} `{!OS K} {P : Poller K}.
Context (invoke : Callback → Z → M (World K) unit).
Context (run : Functor → M (World K) unit).
Implicit Types w : World K.

(** The next step of the thread of loop [l]; once told to quit it stays where it is. *)
Definition advance (l : ptr) (t : pc) : M (World K) pc :=
  match t with
  | Starting =>
      upd_loop l (set_el_looping true);;
      upd_loop l (set_el_quit false);;
      assertInLoopThread l;;
      mret Waiting
  | Waiting =>
      x ← get_loop l;
      if el_quit x then mret Waiting else
      upd_loop l (set_el_activeChannels []);;
      '(now, active) ← in_reactor (poller_poll l kPollTimeMs);
      upd_loop l (set_el_activeChannels active);;
      upd_loop l (set_el_pollReturnTime now);;
      upd_loop l (set_el_eventHandling true);;
      mret (Handling active)
  | Handling (channel :: rest) =>
      upd_loop l (set_el_currentActiveChannel (Some channel));;
      x ← get_loop l;
      handleEvent invoke release channel (el_pollReturnTime x);;
      mret (Handling rest)
  | Handling [] =>
      upd_loop l (set_el_currentActiveChannel None);;
      upd_loop l (set_el_eventHandling false);;
      upd_loop l (set_el_callingPendingFunctors true);;
      x ← get_loop l;
      let functors := el_pendingFunctors x in
      hold (omap functor_holds functors);;
      upd_loop l (set_el_pendingFunctors []);;
      mret (Running functors (omap functor_holds functors))
  | Running (f :: todo) held =>
      when (negb (bool_decide (f = FnEmpty))) (run f);;
      mret (Running todo held)
  | Running [] held =>
      upd_loop l (set_el_callingPendingFunctors false);;
      mret (Releasing held)
  | Releasing (c :: held) => release c;; mret (Releasing held)
  | Releasing [] => mret Waiting
  end.

(** The thread of loop [l] runs next. *)
Definition become (l : ptr) : M (World K) unit :=
  x ← get_loop l; modify (set_w_tid (el_threadId x)).

Definition step_thread (l : ptr) (pcs : gmap ptr pc) : M (World K) (gmap ptr pc) :=
  match pcs !! l with
  | Some t => become l;; t' ← advance l t; mret (<[l := t']> pcs)
  | None => mret pcs
  end.

(** *** Steps at the same time *)

(** The loops whose queue a step has changed. *)
Definition changed_queues w w' : list ptr :=
  filter (λ l, el_pendingFunctors <$> w_loops w !! l ≠ el_pendingFunctors <$> w_loops w' !! l)
    (elements (dom (w_loops w'))).

(** The accesses to queues of functors in a step that leads from [w] to [w']: taking the
    functors is the [swap] of [doPendingFunctors], and whatever else changes a queue is
    [queueInLoop]. *)
Definition accesses (l : ptr) (t : option pc) w w' : list access :=
  match t with
  | None => []
  | Some (Handling []) => [swap_access l]
  | Some _ => push_access <$> changed_queues w w'
  end.

(** What comes next: one thread's step, or the steps of two threads at the same time. *)
Inductive turn : Type :=
  | One (l : ptr)
  | Both (l l' : ptr).

(** Steps that overlap and race are undefined behaviour; without a race they come to
    the same as one after the other. *)
Definition take_turn (tn : turn) (pcs : gmap ptr pc) : M (World K) (gmap ptr pc) :=
  match tn with
  | One l => step_thread l pcs
  | Both l l' =>
      w ← get;
      pcs1 ← step_thread l pcs;
      w1 ← get;
      pcs2 ← step_thread l' pcs1;
      w2 ← get;
      when (negb (bool_decide (l = l'))
            && races (accesses l (pcs !! l) w w1) (accesses l' (pcs1 !! l') w1 w2))
        (fail (DataRace "pendingFunctors_"));;
      mret pcs2
  end.

(** A schedule: any sequence of these. *)
Fixpoint run_schedule (schedule : list turn) (pcs : gmap ptr pc) : M (World K) (gmap ptr pc) :=
  match schedule with
  | [] => mret pcs
  | tn :: schedule => pcs' ← take_turn tn pcs; run_schedule schedule pcs'
  end.
End threads.

(** How many steps a schedule has. *)
Definition turn_steps (tn : turn) : nat := match tn with One _ => 1 | Both _ _ => 2 end.
Definition steps (schedule : list turn) : nat := sum_list (turn_steps <$> schedule).

Lemma steps_cons tn schedule : steps (tn :: schedule) = (turn_steps tn + steps schedule)%nat.
Proof. done. Qed.

(** Whether two threads ever take a step at the same time. *)
Definition overlaps (tn : turn) : bool :=
  match tn with One _ => false | Both l l' => negb (bool_decide (l = l')) end.
