(* ===== verification/Acceptor.v ===== *)
(** * Acceptor: the listening socket (Acceptor.h, Acceptor.cpp)

    [new_connection] is what [newConnectionCallback_] is bound to, called with
    the server's pointer, the descriptor and the peer's address. *)
From S2P Require Import Prelude Endian OS Objects Poller LoopCore Channel Sockets Calls.

Set Default Goal Selector "!".

Section acceptor.
Context {K : Type} `{!OS K} {P : Poller K}.

Definition Acceptor_ctor (loop : ptr) (listenAddr : sockaddr) (reuseport : bool) : M (World K) ptr :=
  a ← fresh;
  sockfd ← createNonblockingOrDie (family listenAddr);
  channel ← fresh;
  in_reactor (put_chan channel (Channel_ctor loop sockfd));;
  r ← syscall_ SysOpenDevNull;
  put_acceptor a (mkAcceptor loop sockfd channel None false (ret r));;
  assert_ "Acceptor.cpp:20" (0 <=? ret r);;
  Socket_setReuseAddr sockfd true;;
  Socket_setReusePort sockfd reuseport;;
  Socket_bindAddress sockfd listenAddr;;
  upd_chan channel (set_ch_readCallback (Some (CbAcceptor_handleRead a)));;
  mret a.

(** [~Acceptor()]: the body, then the channel and the socket. *)
Definition Acceptor_dtor (a : ptr) : M (World K) unit :=
  x ← get_acceptor a;
  disableAll (ac_channel x);;
  remove (ac_channel x);;
  _ ← syscall_ (SysClose (ac_idleFd x));
  Channel_dtor (ac_channel x);;
  Socket_dtor (ac_socket x);;
  modify (λ w, set_w_acceptors (delete a (w_acceptors w)) w).

Definition Acceptor_listen (a : ptr) : M (World K) unit :=
  x ← get_acceptor a;
  assertInLoopThread (ac_loop x);;
  upd_acceptor a (set_ac_listening true);;
  Socket_listen (ac_socket x);;
  enableReading (ac_channel x).

(** Out of descriptors: the spare one is given up to take the connection off the
    queue and close it, and opened again. *)
Definition shed_connection (a : ptr) : M (World K) unit :=
  x ← get_acceptor a;
  _ ← syscall_ (SysClose (ac_idleFd x));
  r ← syscall_ (SysAccept (ac_socket x));
  upd_acceptor a (set_ac_idleFd (ret r));;
  _ ← syscall_ (SysClose (ret r));
  r ← syscall_ SysOpenDevNull;
  upd_acceptor a (set_ac_idleFd (ret r)).

Section handling.
Context (new_connection : ptr → Z → sockaddr → M (World K) unit).

Definition Acceptor_handleRead (a : ptr) : M (World K) unit :=
  x ← get_acceptor a;
  assertInLoopThread (ac_loop x);;
  '(connfd, peerAddr) ← Socket_accept (ac_socket x) (InetAddress_port zero_addr 0 false false);
  if 0 <=? connfd then
    match ac_newConnectionCallback x with
    | Some s => new_connection s connfd peerAddr
    | None => sockets_close connfd
    end
  else
    LOG_ERROR "in Acceptor::handleRead";;
    e ← errno;
    when (e =? EMFILE) (shed_connection a).
End handling.
End acceptor.

(** ** Every descriptor is accounted for *)

Section accounting.
Context {K : Type} `{!OS K} {P : Poller K}.
Implicit Types w : World K.

Lemma sockets_accept_wp sockfd addr (Q : Z * sockaddr → World K → Prop) w :
  let c := SysAccept4 sockfd in let r := result_of c w in
  (∀ log, (0 ≤ ret r → log = []) → Q (ret r, filled addr (payload r)) (after_call c log w)) →
  wp (sockets_accept sockfd addr) Q w.
Proof.
  intros c r HQ. apply wp_bind, call_wp. fold c r. apply wp_bind.
  destruct (Z.ltb_spec (ret r) 0) as [Hr|Hr].
  - apply wp_bind, errno_after_call; [done|]. apply wp_bind, log_after_call.
    repeat case_bool_decide.
    + apply set_errno_after_call; [done|]. apply wp_ret, HQ. lia.
    + apply log_after_call, wp_ret, HQ. lia.
    + apply log_after_call, wp_ret, HQ. lia.
  - apply wp_ret, wp_ret, HQ. auto.
Qed.

(** From [w] to [w'] the calls [calls] were made, and nothing changed but the
    acceptors. *)
Definition only_calls w (acceptors : gmap ptr Acceptor) (calls : list (syscall * sysres)) w' : Prop :=
  made (set_w_acceptors acceptors w) calls w'.

Lemma only_calls_one c log w : only_calls w (w_acceptors w) [(c, result_of c w)] (after_call c log w).
Proof. unfold only_calls. replace (set_w_acceptors _ w) with w by (by destruct w). apply made_one. Qed.

Lemma only_calls_acceptors w m m' calls w' :
  only_calls w m calls w' → only_calls w m' calls (set_w_acceptors m' w').
Proof. intros [E Ht]. split; [|done]. by rewrite E. Qed.

Lemma shed_connection_wp a x m calls w0 (Q : unit → World K → Prop) w :
  only_calls w0 m calls w → m !! a = Some x →
  (∀ w' r1 r2 r3 r4,
     only_calls w0 (<[a := set_ac_idleFd (ret r4) x]> m)
       (calls ++ [(SysClose (ac_idleFd x), r1); (SysAccept (ac_socket x), r2);
                  (SysClose (ret r2), r3); (SysOpenDevNull, r4)]) w' → Q tt w') →
  wp (shed_connection a) Q w.
Proof.
  intros Hw Ha HQ. assert (w_acceptors w !! a = Some x) as Hx by (rewrite (proj1 Hw); exact Ha).
  apply wp_bind. eapply wp_gets_some; [exact Hx|].
  apply wp_bind, call_wp. apply wp_bind, call_wp.
  set (w1 := after_call (SysClose _) [] w). set (w2 := after_call (SysAccept _) [] w1).
  assert (only_calls w0 m (calls ++ [(SysClose (ac_idleFd x), result_of (SysClose (ac_idleFd x)) w)]
    ++ [(SysAccept (ac_socket x), result_of (SysAccept (ac_socket x)) w1)]) w2) as Hw2.
  { rewrite app_assoc. by apply made_call, made_call. }
  assert (w_acceptors w2 = m) as Hm2 by (by rewrite (proj1 Hw2)).
  apply wp_bind, wp_bind. eapply wp_gets_some; [by rewrite Hm2|]. apply wp_modify. rewrite Hm2.
  apply wp_bind, call_wp. apply wp_bind, call_wp.
  set (w3 := set_w_acceptors _ w2).
  assert (only_calls w0 (<[a := set_ac_idleFd (ret (result_of (SysAccept (ac_socket x)) w1)) x]> m)
            _ w3) as Hw3 by exact (only_calls_acceptors _ _ _ _ _ Hw2).
  eapply (made_call (SysClose (ret (result_of (SysAccept (ac_socket x)) w1))) []),
    (made_call SysOpenDevNull []) in Hw3.
  set (w5 := after_call SysOpenDevNull [] _) in *.
  assert (w_acceptors w5
          = <[a := set_ac_idleFd (ret (result_of (SysAccept (ac_socket x)) w1)) x]> m) as Hm5
    by (by rewrite (proj1 Hw3)).
  apply wp_bind. eapply wp_gets_some; [by rewrite Hm5, lookup_insert_eq|]. apply wp_modify.
  rewrite Hm5, insert_insert_eq. eapply HQ.
  rewrite <- !app_assoc in Hw3. exact (only_calls_acceptors _ _ _ _ _ Hw3).
Qed.
End accounting.

Section handleRead_contract.
Context {K : Type} `{!OS K} {P : Poller K}.
Context (new_connection : ptr → Z → sockaddr → M (World K) unit).
Implicit Types w : World K.

(** What [handleRead] does once [accept4] has returned. *)
Lemma Acceptor_handleRead_run a x lx w :
  w_acceptors w !! a = Some x → w_loops w !! ac_loop x = Some lx → el_threadId lx = w_tid w →
  let c := SysAccept4 (ac_socket x) in
  let r := result_of c w in
  ∃ log, (0 ≤ ret r → log = []) ∧
    Acceptor_handleRead new_connection a w
    = (if 0 <=? ret r then
         match ac_newConnectionCallback x with
         | Some s => new_connection s (ret r) (filled zero_addr (payload r))
         | None => sockets_close (ret r)
         end
       else
         LOG_ERROR "in Acceptor::handleRead";;
         e ← errno; when (e =? EMFILE) (shed_connection a)) (after_call c log w).
Proof.
  intros Ha Hl Ht c r.
  assert (wp (assertInLoopThread (ac_loop x)) (λ _ w', w' = w) w) as H1
    by (by eapply assertInLoopThread_here).
  assert (wp (sockets_accept (ac_socket x) zero_addr) (λ v w', ∃ log, (0 ≤ ret r → log = [])
    ∧ v = (ret r, filled zero_addr (payload r)) ∧ w' = after_call c log w) w) as H2
    by (apply sockets_accept_wp; eauto).
  apply wp_run in H1 as ([] & w1 & Hrun1 & ->).
  apply wp_run in H2 as (v & w2 & Hrun2 & log & Hlog & -> & ->).
  exists log. split; [done|]. unfold Acceptor_handleRead, get_acceptor, gets_some.
  rewrite bind_run, Ha, bind_run, Hrun1, bind_run. unfold Socket_accept.
  rewrite bind_run, Hrun2. cbn -[Z.leb]. by destruct (0 <=? ret r) eqn:E; rewrite ?E.
Qed.

(** [accept4] failed. *)
Lemma Acceptor_handleRead_failed_wp a x lx (Q : unit → World K → Prop) w :
  w_acceptors w !! a = Some x → w_loops w !! ac_loop x = Some lx → el_threadId lx = w_tid w →
  let c := SysAccept4 (ac_socket x) in
  let r := result_of c w in
  ret r < 0 →
  (∀ log, if err r =? EMFILE then wp (shed_connection a) Q (after_call c log w)
          else Q tt (after_call c log w)) →
  wp (Acceptor_handleRead new_connection a) Q w.
Proof.
  intros Ha Hl Ht c r Hr HQ. destruct (Acceptor_handleRead_run a x lx w Ha Hl Ht) as (log & _ & Hrun).
  fold c r in Hrun. unfold wp at 1. rewrite Hrun, (proj2 (Z.leb_gt _ _)) by done.
  match goal with |- context [?m (after_call c log w)] => change (wp m Q (after_call c log w)) end.
  specialize (HQ (log ++ ["in Acceptor::handleRead"])).
  apply wp_bind, log_after_call, wp_bind, errno_after_call; [done|]. fold c r.
  apply wp_when; intros He; by rewrite He in HQ.
Qed.

(** C27: no accepted descriptor is lost.  When the listening socket is readable,
    [handleRead] makes one [accept4]; a descriptor it gets goes to the connection
    callback with the peer's address the kernel filled in, or is closed when there
    is no callback.  When the process is out of descriptors the spare one is
    closed, the waiting connection is accepted and closed, and the spare one is
    opened again, so the listening socket does not stay readable for ever.  Any
    other error makes no further call and changes nothing. *)
Theorem Acceptor_handleRead_keeps_track (a : ptr) (x : Acceptor) (lx : EventLoop) w
    (Ha : w_acceptors w !! a = Some x)
    (Hl : w_loops w !! ac_loop x = Some lx) (Ht : el_threadId lx = w_tid w) :
  let c := SysAccept4 (ac_socket x) in
  let r := result_of c w in
  let peer := filled zero_addr (payload r) in
  let run := Acceptor_handleRead new_connection a w in
  (∀ s, 0 ≤ ret r → ac_newConnectionCallback x = Some s →
     run = new_connection s (ret r) peer (after_call c [] w))
  ∧ (0 ≤ ret r → ac_newConnectionCallback x = None → ∃ w' r',
     run = Ok (tt, w') ∧ only_calls w (w_acceptors w) [(c, r); (SysClose (ret r), r')] w')
  ∧ (ret r < 0 → err r = EMFILE → ∃ w' r1 r2 r3 r4,
     run = Ok (tt, w')
     ∧ only_calls w (<[a := set_ac_idleFd (ret r4) x]> (w_acceptors w))
         [(c, r); (SysClose (ac_idleFd x), r1); (SysAccept (ac_socket x), r2);
          (SysClose (ret r2), r3); (SysOpenDevNull, r4)] w')
  ∧ (ret r < 0 → err r ≠ EMFILE → ∃ w',
     run = Ok (tt, w') ∧ only_calls w (w_acceptors w) [(c, r)] w').
Proof.
  intros c r peer run.
  destruct (Acceptor_handleRead_run a x lx w Ha Hl Ht) as (log & Hlog & Hrun).
  fold c r peer run in Hrun. fold c r in Hlog.
  assert (ret r < 0 → ∀ Q : unit → World K → Prop,
    (∀ log, if err r =? EMFILE then wp (shed_connection a) Q (after_call c log w)
            else Q tt (after_call c log w)) →
    ∃ w', run = Ok (tt, w') ∧ Q tt w') as Hfail.
  { intros Hr Q HQ. pose proof (Acceptor_handleRead_failed_wp a x lx Q w Ha Hl Ht Hr HQ) as Hwp.
    apply wp_run in Hwp as ([] & w' & ? & ?). eauto. }
  split_and!.
  - intros s Hr Hcb. rewrite Hrun, Hcb, (proj2 (Z.leb_le _ _)), Hlog by done. done.
  - intros Hr Hcb. rewrite Hrun, Hcb, (proj2 (Z.leb_le _ _)) by done.
    assert (wp (sockets_close (ret r)) (λ _ w', ∃ r',
      only_calls w (w_acceptors w) [(c, r); (SysClose (ret r), r')] w') (after_call c log w)) as Hwp.
    { eapply sockets_close_wp; [apply only_calls_one|]. intros w'' Hc. eexists. exact Hc. }
    apply wp_run in Hwp as ([] & w' & Hc & r' & Hw'). eauto.
  - intros Hr He. destruct (Hfail Hr (λ _ w', ∃ r1 r2 r3 r4,
     only_calls w (<[a := set_ac_idleFd (ret r4) x]> (w_acceptors w))
         [(c, r); (SysClose (ac_idleFd x), r1); (SysAccept (ac_socket x), r2);
          (SysClose (ret r2), r3); (SysOpenDevNull, r4)] w')) as (w' & Hw' & r1 & r2 & r3 & r4 & Hc).
    { intros log'. rewrite (proj2 (Z.eqb_eq _ _)) by done.
      eapply shed_connection_wp; [apply only_calls_one|done|].
      intros w' r1 r2 r3 r4 Hc. exists r1, r2, r3, r4. exact Hc. }
    exists w', r1, r2, r3, r4. by split.
  - intros Hr He. destruct (Hfail Hr (λ _ w', only_calls w (w_acceptors w) [(c, r)] w'))
      as (w' & Hw' & Hc); [|eauto].
    intros log'. rewrite (proj2 (Z.eqb_neq _ _)) by done. apply only_calls_one.
Qed.
End handleRead_contract.

(** *** Out of descriptors: accept4 fails with EMFILE *)

Definition sample_acceptor : Acceptor := mkAcceptor 0%nat 9 41%nat (Some 40%nat) true 10.

Definition acceptor_world (script : list sysres) : World sim :=
  set_w_acceptors {[42%nat := sample_acceptor]}
    (with_io (mkIO (mkSim script ∅) [] 0 []) sample_world).

Lemma Acceptor_handleRead_keeps_track_witness :
  ∃ w', Acceptor_handleRead (λ _ _ _, mret tt) 42%nat
          (acceptor_world [mkRes (-1) EMFILE [] []; done_res; mkRes 11 0 [] []; done_res; mkRes 12 0 [] []])
        = Ok (tt, w')
    ∧ (io_trace (w_io w')).*1
      = [SysAccept4 9; SysClose 10; SysAccept 9; SysClose 11; SysOpenDevNull].
Proof.
  set (script := [mkRes (-1) EMFILE [] []; done_res; mkRes 11 0 [] []; done_res; mkRes 12 0 [] []]).
  destruct (Acceptor_handleRead_keeps_track (λ _ _ _, mret tt) 42%nat sample_acceptor sample_loop
    (acceptor_world script) ltac:(by vm_compute) ltac:(by vm_compute) eq_refl)
    as (_ & _ & H & _).
  destruct H as (w' & r1 & r2 & r3 & r4 & Hrun & _); [vm_compute; done|by vm_compute|].
  exists w'. split; [exact Hrun|].
  assert (Acceptor_handleRead (λ _ _ _, mret tt) 42%nat (acceptor_world script)
          = Ok (tt, w')) as Hrun' by exact Hrun.
  vm_compute in Hrun'. injection Hrun' as <-. reflexivity.
Defined.
