(* ===== verification/Connector.v ===== *)
(** * Connector: connecting with retries (Connector.h, Connector.cpp)

    [new_connection] is what [newConnectionCallback_] is bound to, called with
    the client's pointer and the connected descriptor. *)
From S2P Require Import Prelude Endian OS Double Objects Poller LoopCore Channel TimerQueue Sockets.

Set Default Goal Selector "!".

Definition kMaxRetryDelayMs : Z := 30 * 1000.
Definition kInitRetryDelayMs : Z := 500.

(** What [connect] does with the error of connect(2). *)
Inductive connect_outcome : Type := InProgress | TryAgain | GiveUp.

Definition connect_case (savedErrno : Z) : connect_outcome :=
  if bool_decide (savedErrno ∈ [0; EINPROGRESS; EINTR; EISCONN]) then InProgress
  else if bool_decide (savedErrno ∈ [EAGAIN; EADDRINUSE; EADDRNOTAVAIL; ECONNREFUSED; ENETUNREACH])
  then TryAgain
  else GiveUp.

(** [retryDelayMs_ / 1000.0] *)
Definition retry_seconds (retryDelayMs : Z) : double :=
  double_div (double_of_Z retryDelayMs) (double_of_Z 1000).

Section connector.
Context {K : Type} `{!OS K} {P : Poller K}.

Definition Connector_ctor (loop : ptr) (serverAddr : sockaddr) : M (World K) ptr :=
  c ← fresh;
  put_connector c (mkConnector loop serverAddr false cDisconnected None None kInitRetryDelayMs);;
  mret c.

Definition Connector_dtor (c : ptr) : M (World K) unit :=
  x ← get_connector c;
  assert_ "Connector.cpp:28" (bool_decide (cn_channel x = None));;
  modify (λ w, set_w_connectors (delete c (w_connectors w)) w).

(** A [ConnectorPtr] is in a client or bound to a timer's callback; functors and channel
    callbacks have [this] only. *)
Definition timer_connector (cb : TimerCallback) : option ptr :=
  match cb with
  | TcbConnector_startInLoop c | TcbDetail_removeConnector c => Some c
  | _ => None
  end.

Definition connector_owned (c : ptr) (w : World K) : bool :=
  bool_decide (c ∈ (cl_connector ∘ snd) <$> map_to_list (w_clients w))
  || bool_decide (Some c ∈ (timer_connector ∘ tm_callback ∘ snd) <$> map_to_list (w_timers w)).

(** A pointer to a connector has gone: the last one takes the connector along. *)
Definition reap_connector (c : ptr) : M (World K) unit :=
  owned ← gets (connector_owned c);
  when (negb owned) (Connector_dtor c).

Definition connector_assertInLoopThread (c : ptr) : M (World K) unit :=
  x ← get_connector c; assertInLoopThread (cn_loop x).

Definition connecting (c : ptr) (sockfd : Z) : M (World K) unit :=
  upd_connector c (set_cn_state cConnecting);;
  x ← get_connector c;
  assert_ "Connector.cpp:111" (bool_decide (cn_channel x = None));;
  channel ← fresh;
  in_reactor (put_chan channel (Channel_ctor (cn_loop x) sockfd));;
  upd_connector c (set_cn_channel (Some channel));;
  upd_chan channel (set_ch_writeCallback (Some (CbConnector_handleWrite c)));;
  upd_chan channel (set_ch_errorCallback (Some (CbConnector_handleError c)));;
  enableWriting channel.

Definition retry (c : ptr) (sockfd : Z) : M (World K) unit :=
  sockets_close sockfd;;
  upd_connector c (set_cn_state cDisconnected);;
  x ← get_connector c;
  when (cn_connect x)
    (_ ← runAfter (cn_loop x) (retry_seconds (cn_retryDelayMs x)) (TcbConnector_startInLoop c);
     upd_connector c (λ x, set_cn_retryDelayMs (Z.min (cn_retryDelayMs x * 2) kMaxRetryDelayMs) x)).

Definition Connector_connect (c : ptr) : M (World K) unit :=
  x ← get_connector c;
  sockfd ← createNonblockingOrDie (family (cn_serverAddr x));
  r ← sockets_connect sockfd (cn_serverAddr x);
  savedErrno ← (if r =? 0 then mret 0 else errno);
  match connect_case savedErrno with
  | InProgress => connecting c sockfd
  | TryAgain => retry c sockfd
  | GiveUp => LOG_ERROR "connect error in Connector::startInLoop";; sockets_close sockfd
  end.

Definition Connector_startInLoop (c : ptr) : M (World K) unit :=
  connector_assertInLoopThread c;;
  x ← get_connector c;
  assert_ "Connector.cpp:39" (bool_decide (cn_state x = cDisconnected));;
  when (cn_connect x) (Connector_connect c).

Definition Connector_start (c : ptr) : M (World K) unit :=
  upd_connector c (set_cn_connect true);;
  x ← get_connector c;
  runInLoop (cn_loop x) (FnConnector_startInLoop c) (Connector_startInLoop c).

Definition Connector_restart (c : ptr) : M (World K) unit :=
  connector_assertInLoopThread c;;
  upd_connector c (set_cn_state cDisconnected);;
  upd_connector c (set_cn_retryDelayMs kInitRetryDelayMs);;
  upd_connector c (set_cn_connect true);;
  Connector_startInLoop c.

(** The channel, which must be there ([channel_->]). *)
Definition connector_channel (c : ptr) : M (World K) ptr :=
  x ← get_connector c; gets_some "channel_" (λ _, cn_channel x).

Definition removeAndResetChannel (c : ptr) : M (World K) Z :=
  channel ← connector_channel c;
  disableAll channel;;
  remove channel;;
  ch ← chan_at channel;
  x ← get_connector c;
  queueInLoop (cn_loop x) (FnConnector_resetChannel c);;
  mret (ch_fd ch).

Definition resetChannel (c : ptr) : M (World K) unit :=
  x ← get_connector c;
  upd_connector c (set_cn_channel None);;
  match cn_channel x with
  | Some channel => Channel_dtor channel
  | None => mret tt
  end.

Definition stopInLoop (c : ptr) : M (World K) unit :=
  connector_assertInLoopThread c;;
  x ← get_connector c;
  when (bool_decide (cn_state x = cConnecting))
    (upd_connector c (set_cn_state cDisconnected);;
     sockfd ← removeAndResetChannel c;
     retry c sockfd).

Definition Connector_stop (c : ptr) : M (World K) unit :=
  upd_connector c (set_cn_connect false);;
  x ← get_connector c;
  queueInLoop (cn_loop x) (FnConnector_stopInLoop c).

Section handling.
Context (new_connection : ptr → Z → M (World K) unit).

Definition run_newConnectionCallback (c : ptr) (sockfd : Z) : M (World K) unit :=
  x ← get_connector c;
  match cn_newConnectionCallback x with
  | None => fail (Terminated "std::bad_function_call")
  | Some client => new_connection client sockfd
  end.

Definition Connector_handleWrite (c : ptr) : M (World K) unit :=
  x ← get_connector c;
  if bool_decide (cn_state x = cConnecting) then
    sockfd ← removeAndResetChannel c;
    err ← getSocketError sockfd;
    if nonzero err then retry c sockfd
    else
      self ← isSelfConnect sockfd;
      if self : bool then retry c sockfd
      else
        upd_connector c (set_cn_state cConnected);;
        x ← get_connector c;
        if cn_connect x then run_newConnectionCallback c sockfd
        else sockets_close sockfd
  else assert_ "Connector.cpp:157" (bool_decide (cn_state x = cDisconnected)).
End handling.

Definition Connector_handleError (c : ptr) : M (World K) unit :=
  LOG_ERROR "Connector::handleError";;
  x ← get_connector c;
  when (bool_decide (cn_state x = cConnecting))
    (sockfd ← removeAndResetChannel c;
     _ ← getSocketError sockfd;
     retry c sockfd).
End connector.
