(* ===== verification/TcpServer.v ===== *)
(** * TcpServer: accepting connections (TcpServer.h, TcpServer.cpp)

    [user] is the program that uses the library, as in TcpConnection.v. *)
From stdpp Require Import sorting.
From S2P Require Import Prelude Endian Buffer OS Objects Poller LoopCore Channel TimerQueue Sockets TcpConnection EventLoop Threads Acceptor.

Set Default Goal Selector "!".

(** [TcpServer::Option] *)
Inductive Option : Type := kNoReusePort | kReusePort.

#[export] Instance Option_eq_dec : EqDecision Option.
Proof. solve_decision. Defined.

(** [snprintf(buf, 64, "-%s#%d", ipPort_.c_str(), nextConnId_)] and the name made
    with it. *)
Definition server_conn_name (name ipPort : string) (nextConnId : Z) : string :=
  name +:+ snprintf 64 ("-" +:+ ipPort +:+ "#" +:+ pretty nextConnId).

(** The entries of a [std::map] in the order of its keys. *)
Definition in_key_order (m : gmap string ptr) : list (string * ptr) :=
  merge_sort (λ e e', String.le e.1 e'.1) (map_to_list m).

Section server.
Context {K : Type} `{!OS K} {P : Poller K} `{Inet}.
Context (user : UserCall → M (World K) unit).

(** [started_] is not initialised: [indeterminate] is its value. *)
Definition TcpServer_ctor (loop : ptr) (listenAddr : sockaddr) (nameArg : string) (option : Option)
    (indeterminate : Z) : M (World K) ptr :=
  s ← fresh;
  ipPort ← lift (toIpPort listenAddr);
  acceptor ← Acceptor_ctor loop listenAddr (bool_decide (option = kReusePort));
  pool ← EventLoopThreadPool_ctor loop nameArg;
  put_server s (mkTcpServer loop ipPort nameArg acceptor pool
    defaultConnectionCallback defaultMessageCallback None None indeterminate 1 ∅);;
  upd_acceptor acceptor (set_ac_newConnectionCallback (Some s));;
  mret s.

Definition TcpServer_setThreadNum (s : ptr) (numThreads : Z) : M (World K) unit :=
  assert_ "TcpServer.cpp:39" (0 <=? numThreads);;
  x ← get_server s; EventLoopThreadPool_setThreadNum (sv_threadPool x) numThreads.

(** [started_.fetch_add(1)] *)
Definition fetch_add_started (s : ptr) : M (World K) Z :=
  x ← get_server s;
  upd_server s (set_sv_started (i32 (sv_started x + 1)));;
  mret (sv_started x).

Definition TcpServer_start (s : ptr) (indeterminate : bool) : M (World K) unit :=
  started ← fetch_add_started s;
  when (started =? 0)
    (x ← get_server s;
     EventLoopThreadPool_start user (sv_threadPool x) (sv_threadInitCallback x) indeterminate;;
     a ← get_acceptor (sv_acceptor x);
     assert_ "TcpServer.cpp:47" (negb (ac_listening a));;
     runInLoop (sv_loop x) (FnAcceptor_listen (sv_acceptor x)) (Acceptor_listen (sv_acceptor x))).

(** [++nextConnId_]: signed overflow is undefined. *)
Definition next_conn_id (n : Z) : M (World K) Z :=
  if n <? 2 ^ 31 - 1 then mret (n + 1) else fail (OutOfBounds "nextConnId_").

(** [connections_[connName] = conn]: the pointer that was there goes. *)
Definition enter_connection (s : ptr) (connName : string) (conn : ptr) : M (World K) unit :=
  x ← get_server s;
  upd_server s (set_sv_connections (<[connName := conn]> (sv_connections x)));;
  match sv_connections x !! connName with
  | Some old => reap old
  | None => mret tt
  end.

(** The local [conn] adds nothing to the pointer in the map. *)
Definition TcpServer_newConnection (s : ptr) (sockfd : Z) (peerAddr : sockaddr) : M (World K) unit :=
  x ← get_server s;
  assertInLoopThread (sv_loop x);;
  ioLoop ← getNextLoop (sv_threadPool x);
  n ← next_conn_id (sv_nextConnId x);
  upd_server s (set_sv_nextConnId n);;
  let connName := server_conn_name (sv_name x) (sv_ipPort x) (sv_nextConnId x) in
  localAddr ← getLocalAddr sockfd;
  conn ← TcpConnection_ctor ioLoop connName sockfd localAddr peerAddr;
  enter_connection s connName conn;;
  x ← get_server s;
  upd_conn conn (set_tc_connectionCallback (Some (sv_connectionCallback x)));;
  upd_conn conn (set_tc_messageCallback (Some (sv_messageCallback x)));;
  upd_conn conn (set_tc_writeCompleteCallback (sv_writeCompleteCallback x));;
  upd_conn conn (set_tc_closeCallback (Some (CcTcpServer_removeConnection s)));;
  runInLoop ioLoop (FnTcpConnection_connectEstablished conn) (connectEstablished user conn).

Definition removeConnectionInLoop (s conn : ptr) : M (World K) unit :=
  x ← get_server s;
  assertInLoopThread (sv_loop x);;
  c ← get_conn conn;
  upd_server s (λ x, set_sv_connections (delete (tc_name c) (sv_connections x)) x);;
  assert_ "TcpServer.cpp:85" (bool_decide (is_Some (sv_connections x !! tc_name c)));;
  queueInLoop (tc_loop c) (FnTcpConnection_connectDestroyed conn).

Definition TcpServer_removeConnection (s conn : ptr) : M (World K) unit :=
  x ← get_server s;
  runInLoop (sv_loop x) (FnTcpServer_removeConnectionInLoop s conn) (removeConnectionInLoop s conn).

(** The body of the [for] of [~TcpServer()]: [conn] takes over from the entry [e] of
    the map (which is reset: here it goes). *)
Definition destroy_connection (s : ptr) (e : string * ptr) : M (World K) unit :=
  hold [e.2];;
  upd_server s (λ x, set_sv_connections (delete e.1 (sv_connections x)) x);;
  c ← get_conn e.2;
  runInLoop (tc_loop c) (FnTcpConnection_connectDestroyed e.2) (connectDestroyed user e.2);;
  release e.2.

(** [~TcpServer()]: the body, then the members that do something: the thread pool
    and the acceptor. *)
Definition TcpServer_dtor (run_thread : tid → M (World K) unit) (s : ptr) : M (World K) unit :=
  x ← get_server s;
  assertInLoopThread (sv_loop x);;
  for_each (in_key_order (sv_connections x)) (destroy_connection s);;
  x ← get_server s;
  EventLoopThreadPool_dtor run_thread (sv_threadPool x);;
  Acceptor_dtor (sv_acceptor x);;
  modify (λ w, set_w_servers (delete s (w_servers w)) w).
End server.
