(* ===== verification/TcpClient.v ===== *)
(** * TcpClient: one outgoing connection (TcpClient.h, TcpClient.cpp)

    [user] is the program that uses the library, as in TcpConnection.v.  The
    mutex around [connection_] is held for single reads and writes of it, which
    are single steps here. *)
From S2P Require Import Prelude Endian Buffer OS Double Objects Poller LoopCore Channel TimerQueue Sockets TcpConnection Connector.

Set Default Goal Selector "!".

(** [snprintf(buf, 32, ":%s#%d", ...)] and the name made with it. *)
Definition client_conn_name (name peer : string) (nextConnId : Z) : string :=
  name +:+ snprintf 32 (":" +:+ peer +:+ "#" +:+ pretty nextConnId).

Section client.
Context {K : Type} `{!OS K} {P : Poller K} `{Inet}.
Context (user : UserCall → M (World K) unit).

(** [detail::removeConnection] *)
Definition detail_removeConnection (loop conn : ptr) : M (World K) unit :=
  queueInLoop loop (FnTcpConnection_connectDestroyed conn).

(** [detail::removeConnector] *)
Definition detail_removeConnector (connector : ptr) : M (World K) unit := mret tt.

Definition TcpClient_ctor (loop : ptr) (serverAddr : sockaddr) (nameArg : string) : M (World K) ptr :=
  cl ← fresh;
  connector ← Connector_ctor loop serverAddr;
  put_client cl (mkTcpClient loop connector nameArg defaultConnectionCallback
    defaultMessageCallback None false true 1 None);;
  upd_connector connector (set_cn_newConnectionCallback (Some cl));;
  mret cl.

Definition TcpClient_connect (cl : ptr) : M (World K) unit :=
  upd_client cl (set_cl_connect true);;
  x ← get_client cl;
  Connector_start (cl_connector x).

Definition TcpClient_disconnect (cl : ptr) : M (World K) unit :=
  upd_client cl (set_cl_connect false);;
  x ← get_client cl;
  match cl_connection x with
  | Some conn => shutdown conn
  | None => mret tt
  end.

Definition TcpClient_stop (cl : ptr) : M (World K) unit :=
  upd_client cl (set_cl_connect false);;
  x ← get_client cl;
  Connector_stop (cl_connector x).

(** [++nextConnId_]: signed overflow is undefined. *)
Definition client_next_conn_id (n : Z) : M (World K) Z :=
  if n <? 2 ^ 31 - 1 then mret (n + 1) else fail (OutOfBounds "nextConnId_").

(** [connection_ = conn]: the pointer that was there goes. *)
Definition set_connection (cl : ptr) (conn : option ptr) : M (World K) unit :=
  x ← get_client cl;
  upd_client cl (set_cl_connection conn);;
  match cl_connection x with
  | Some old => reap old
  | None => mret tt
  end.

(** The local [conn] adds nothing to [connection_]. *)
Definition TcpClient_newConnection (cl : ptr) (sockfd : Z) : M (World K) unit :=
  x ← get_client cl;
  assertInLoopThread (cl_loop x);;
  peerAddr ← getPeerAddr sockfd;
  peer ← lift (toIpPort peerAddr);
  n ← client_next_conn_id (cl_nextConnId x);
  upd_client cl (set_cl_nextConnId n);;
  let connName := client_conn_name (cl_name x) peer (cl_nextConnId x) in
  localAddr ← getLocalAddr sockfd;
  conn ← TcpConnection_ctor (cl_loop x) connName sockfd localAddr peerAddr;
  upd_conn conn (set_tc_connectionCallback (Some (cl_connectionCallback x)));;
  upd_conn conn (set_tc_messageCallback (Some (cl_messageCallback x)));;
  upd_conn conn (set_tc_writeCompleteCallback (cl_writeCompleteCallback x));;
  upd_conn conn (set_tc_closeCallback (Some (CcTcpClient_removeConnection cl)));;
  set_connection cl (Some conn);;
  connectEstablished user conn.

Definition TcpClient_removeConnection (cl conn : ptr) : M (World K) unit :=
  x ← get_client cl;
  assertInLoopThread (cl_loop x);;
  c ← get_conn conn;
  assert_ "TcpClient.cpp:119" (bool_decide (cl_loop x = tc_loop c));;
  assert_ "TcpClient.cpp:123" (bool_decide (cl_connection x = Some conn));;
  upd_client cl (set_cl_connection None);;
  queueInLoop (cl_loop x) (FnTcpConnection_connectDestroyed conn);;
  when (cl_retry x && cl_connect x) (Connector_restart (cl_connector x)).

(** [~TcpClient()]: [unique] tells whether the client holds the only reference
    to its connection; [conn] is the local copy of it.  The members go last,
    [connection_] before [connector_]. *)
Definition TcpClient_dtor (cl : ptr) : M (World K) unit :=
  x ← get_client cl;
  match cl_connection x with
  | Some conn =>
      unique ← gets (λ w, bool_decide (use_count conn w = 1%nat));
      hold [conn];;
      c ← get_conn conn;
      assert_ "TcpClient.cpp:56" (bool_decide (cl_loop x = tc_loop c));;
      let cb := CcDetail_removeConnection (cl_loop x) in
      runInLoop (cl_loop x) (FnTcpConnection_setCloseCallback conn cb)
        (upd_conn conn (set_tc_closeCallback (Some cb)));;
      when unique (forceClose conn);;
      release conn
  | None =>
      Connector_stop (cl_connector x);;
      _ ← runAfter (cl_loop x) (double_of_Z 1) (TcbDetail_removeConnector (cl_connector x));
      mret tt
  end;;
  x ← get_client cl;
  modify (λ w, set_w_clients (delete cl (w_clients w)) w);;
  match cl_connection x with
  | Some conn => reap conn
  | None => mret tt
  end;;
  reap_connector (cl_connector x).
End client.
