(* ===== verification/Program.v ===== *)
(** * Program: the whole library tied together

    What the callables of Objects.v run: [invoke] for channels' callbacks,
    [run_functor] for queued functors, [run_timer] for timers and
    [close_callback] for connections' close callbacks.  No recursion is needed:
    the members that call back into the library do so through the loop's queue
    or through these tables in a fixed order. *)
From S2P Require Import Prelude Endian Buffer OS Double Objects Poller LoopCore Channel TimerQueue Sockets TcpConnection EventLoop Threads Acceptor Connector TcpServer TcpClient.

Set Default Goal Selector "!".

Section program.
Context {K : Type} `{!OS K} {P : Poller K} `{Inet}.
Context (user : UserCall → M (World K) unit).

Definition close_callback (cb : CloseCallback) (conn : ptr) : M (World K) unit :=
  match cb with
  | CcTcpServer_removeConnection s => TcpServer_removeConnection s conn
  | CcTcpClient_removeConnection cl => TcpClient_removeConnection cl conn
  | CcDetail_removeConnection loop => detail_removeConnection loop conn
  end.

Definition run_timer (cb : TimerCallback) : M (World K) unit :=
  match cb with
  | TcbEmpty => mret tt
  | TcbConnector_startInLoop c => Connector_startInLoop c
  | TcbTcpConnection_forceClose_weak conn => forceClose_weak conn
  | TcbDetail_removeConnector c => detail_removeConnector c
  | TcbUser id => call_user user (UcTimer id)
  end.

Definition invoke (cb : Callback) (receiveTime : Z) : M (World K) unit :=
  match cb with
  | CbTimerQueue_handleRead l => TimerQueue_handleRead run_timer l
  | CbEventLoop_handleRead l => EventLoop_handleRead l
  | CbAcceptor_handleRead a => Acceptor_handleRead (TcpServer_newConnection user) a
  | CbConnector_handleWrite c => Connector_handleWrite (TcpClient_newConnection user) c
  | CbConnector_handleError c => Connector_handleError c
  | CbTcpConnection_handleRead conn => handleRead user close_callback conn receiveTime
  | CbTcpConnection_handleWrite conn => handleWrite conn
  | CbTcpConnection_handleClose conn => handleClose user close_callback conn
  | CbTcpConnection_handleError conn => handleError conn
  | CbUser id => call_user user (UcChannel id receiveTime)
  end.

Definition run_functor (f : Functor) : M (World K) unit :=
  match f with
  | FnEmpty => fail bad_function_call
  | FnTimerQueue_addTimerInLoop l timer => addTimerInLoop l timer
  | FnTcpConnection_sendInLoop_raw conn message len => sendInLoop conn (Memory message) len
  | FnTcpConnection_sendInLoop_string conn message => sendInLoop_string conn message
  | FnTcpConnection_shutdownInLoop conn => shutdownInLoop conn
  | FnTcpConnection_forceCloseInLoop conn => forceCloseInLoop user close_callback conn
  | FnTcpConnection_startReadInLoop conn => startReadInLoop conn
  | FnTcpConnection_stopReadInLoop conn => stopReadInLoop conn
  | FnTcpConnection_connectEstablished conn => connectEstablished user conn
  | FnTcpConnection_connectDestroyed conn => connectDestroyed user conn
  | FnTcpConnection_setCloseCallback conn cb => upd_conn conn (set_tc_closeCallback (Some cb))
  | FnWriteCompleteCallback id conn => call_user user (UcWriteComplete id conn)
  | FnHighWaterMarkCallback id conn len => call_user user (UcHighWaterMark id conn len)
  | FnTcpServer_removeConnectionInLoop s conn => removeConnectionInLoop s conn
  | FnAcceptor_listen a => Acceptor_listen a
  | FnConnector_startInLoop c => Connector_startInLoop c
  | FnConnector_stopInLoop c => stopInLoop c
  | FnConnector_resetChannel c => resetChannel c
  | FnEventLoop_quit l => quit l
  | FnUser id => call_user user (UcFunctor id)
  end.

(** [loop()] of the library, at most [rounds] rounds of it. *)
Definition loop (rounds : nat) (l : ptr) : M (World K) bool :=
  EventLoop_loop invoke run_functor rounds l.
End program.
