(* ===== verification/PingPong.v ===== *)
(** * PingPong: the example server and client (example/pingpong/server.cc,
    example/pingpong/client.cc)

    Two programs over the library: each is what it does when the library calls it
    ([server_user], [client_user]) and its [main].  A [std::string] whose address
    is handed to the library lives in [w_mem].  What [LOG_WARN] prints is not
    kept.  The ids of the callbacks are the pointers they are bound to. *)
From Stdlib Require Import Ascii.
From S2P Require Import Prelude Endian Buffer OS Double Objects Poller LoopCore Channel TimerQueue Sockets TcpConnection EventLoop Threads Acceptor Connector TcpServer TcpClient Program.

Set Default Goal Selector "!".

(** ** The C library's [atoi] *)

Definition digit (a : Ascii.ascii) : option Z :=
  let n := Z.of_nat (Ascii.nat_of_ascii a) in
  if (48 <=? n) && (n <=? 57) then Some (n - 48) else None.

Fixpoint digits (acc : Z) (s : string) : Z :=
  match s with
  | EmptyString => acc
  | String a s => match digit a with Some d => digits (10 * acc + d) s | None => acc end
  end.

Definition is_space (a : Ascii.ascii) : bool :=
  let n := Z.of_nat (Ascii.nat_of_ascii a) in (n =? 32) || ((9 <=? n) && (n <=? 13)).

Fixpoint skip_spaces (s : string) : string :=
  match s with
  | String a s' => if is_space a then skip_spaces s' else s
  | EmptyString => s
  end.

(** A value that is no [int] is undefined behaviour. *)
Definition atoi (s : string) : outcome Z :=
  let n := match skip_spaces s with
           | String "-"%char s => - digits 0 s
           | String "+"%char s => digits 0 s
           | s => digits 0 s
           end in
  if (- 2 ^ 31 <=? n) && (n <? 2 ^ 31) then Ok n else Fault (OutOfBounds "atoi").

Section pingpong.
Context {K : Type} `{!OS K} {P : Poller K} `{Inet}.

(** A string at an address of its own. *)
Definition new_string (s : list byte) : M (World K) ptr :=
  p ← fresh; modify (λ w, set_w_mem (<[p := s]> (w_mem w)) w);; mret p.
Definition delete_string (p : ptr) : M (World K) unit :=
  modify (λ w, set_w_mem (delete p (w_mem w)) w).

(** ** The server *)

Definition server_onConnection (conn : ptr) : M (World K) unit :=
  b ← connected conn; when b (setTcpNoDelay conn true).

Definition server_onMessage (conn : ptr) : M (World K) unit :=
  s ← on_buffer (input_of conn) retrieveAllAsString;
  msg ← new_string s;
  send_string conn msg;;
  delete_string msg.

Definition server_user (u : UserCall) : M (World K) unit :=
  match u with
  | UcConnection _ conn _ => server_onConnection conn
  | UcMessage _ conn _ => server_onMessage conn
  | _ => mret tt
  end.

(** [main] up to [loop.loop()], with the arguments it takes from the command line:
    [before] is what lies where [listenAddr] is made, [started] the value of the
    server's uninitialised counter.  The result is the loop and the server. *)
Definition server_setup (before : sockaddr) (ind : bool) (started : Z) (ip port threads : string)
    : M (World K) (ptr * ptr) :=
  port ← lift (atoi port);
  listenAddr ← InetAddress_ip before ip (u16 port) false;
  threadCount ← lift (atoi threads);
  l ← EventLoop_ctor ind;
  server ← TcpServer_ctor l listenAddr "PingPong" kNoReusePort started;
  upd_server server (set_sv_connectionCallback (UserConnectionCallback server));;
  upd_server server (set_sv_messageCallback (UserMessageCallback server));;
  when (1 <? threadCount) (TcpServer_setThreadNum server threadCount);;
  TcpServer_start server_user server ind;;
  mret (l, server).

(** [main]: [run_thread] is what the pool's threads do until they end.  It tells
    whether [loop()] returned within [rounds]. *)
Definition server_main (rounds : nat) (before : sockaddr) (ind : bool) (started : Z)
    (run_thread : tid → M (World K) unit) (argv : list string) : M (World K) bool :=
  match argv with
  | _ :: ip :: port :: threads :: _ =>
      '(l, server) ← server_setup before ind started ip port threads;
      finished ← loop server_user rounds l;
      when finished (TcpServer_dtor server_user run_thread server;; EventLoop_dtor l);;
      mret finished
  | _ => mret true
  end.

(** ** The client's objects *)

Definition get_session (s : ptr) : M (World K) Session :=
  gets_some "Session" (λ w, ap_sessions (w_app w) !! s).
Definition put_session (s : ptr) (x : Session) : M (World K) unit :=
  modify (λ w, set_w_app (set_ap_sessions (<[s := x]> (ap_sessions (w_app w))) (w_app w)) w).
Definition upd_session (s : ptr) (f : Session → Session) : M (World K) unit :=
  x ← get_session s; put_session s (f x).

Definition get_pingpong (p : ptr) : M (World K) Client :=
  gets_some "Client" (λ w, ap_clients (w_app w) !! p).
Definition put_pingpong (p : ptr) (x : Client) : M (World K) unit :=
  modify (λ w, set_w_app (set_ap_clients (<[p := x]> (ap_clients (w_app w))) (w_app w)) w).
Definition upd_pingpong (p : ptr) (f : Client → Client) : M (World K) unit :=
  x ← get_pingpong p; put_pingpong p (f x).

(** ** Client: what sessions call *)

(** [numConnected_] is atomic: it wraps around. *)
Definition Client_onConnect (p : ptr) : M (World K) unit :=
  upd_pingpong p (λ x, set_pp_numConnected (i32 (pp_numConnected x + 1)) x).

(** [timeout_ * 1024 * 1024] as an [int]: overflow is undefined. *)
Definition throughput_divisor (timeout : Z) : outcome Z :=
  let d := timeout * 1024 * 1024 in
  if (- 2 ^ 31 <=? d) && (d <? 2 ^ 31) then Ok d else Fault (OutOfBounds "timeout_ * 1024 * 1024").

(** The totals and the throughput that [onDisconnect] reports. *)
Definition Client_report (p : ptr) : M (World K) (Z * Z * double) :=
  x ← get_pingpong p;
  totals ← foldr (λ s rest,
    y ← get_session s; '(bytes, messages) ← rest;
    mret (bytes + ss_bytesRead y, messages + ss_messagesRead y)) (mret (0, 0)) (pp_sessions x);
  d ← lift (throughput_divisor (pp_timeout x));
  mret (totals, double_div (double_of_Z totals.1) (double_of_Z d)).

Definition Client_onDisconnect (p conn : ptr) : M (World K) unit :=
  upd_pingpong p (λ x, set_pp_numConnected (i32 (pp_numConnected x - 1)) x);;
  x ← get_pingpong p;
  when (pp_numConnected x =? 0)
    (_ ← Client_report p;
     l ← conn_loop conn;
     queueInLoop l (FnUser p)).

(** ** Session *)

Definition Session_ctor (l : ptr) (serverAddr : sockaddr) (name : string) (owner : ptr)
    : M (World K) ptr :=
  s ← fresh;
  client ← TcpClient_ctor l serverAddr name;
  put_session s (mkSession client owner 0 0 0);;
  upd_client client (set_cl_connectionCallback (UserConnectionCallback s));;
  upd_client client (set_cl_messageCallback (UserMessageCallback s));;
  mret s.

Definition Session_start (s : ptr) : M (World K) unit :=
  x ← get_session s; TcpClient_connect (ss_client x).
Definition Session_stop (s : ptr) : M (World K) unit :=
  x ← get_session s; TcpClient_disconnect (ss_client x).

Definition Session_onConnection (s conn : ptr) : M (World K) unit :=
  b ← connected conn;
  x ← get_session s;
  if b : bool then
    setTcpNoDelay conn true;;
    owner ← get_pingpong (ss_owner x);
    send_string conn (pp_message owner);;
    Client_onConnect (ss_owner x)
  else Client_onDisconnect (ss_owner x) conn.

Definition Session_onMessage (s conn : ptr) : M (World K) unit :=
  b ← gets_some "Buffer" (br_look (input_of conn));
  upd_session s (λ x, set_ss_messagesRead (ss_messagesRead x + 1) x);;
  upd_session s (λ x, set_ss_bytesRead (ss_bytesRead x + readableBytes b) x);;
  upd_session s (λ x, set_ss_bytesWritten (ss_bytesWritten x + readableBytes b) x);;
  send_buffer conn (input_of conn).

(** ** Client *)

Definition Client_quit (p : ptr) : M (World K) unit :=
  x ← get_pingpong p; queueInLoop (pp_loop x) (FnEventLoop_quit (pp_loop x)).

Definition Client_handleTimeout (p : ptr) : M (World K) unit :=
  x ← get_pingpong p; for_each (pp_sessions x) Session_stop.

Definition client_user (u : UserCall) : M (World K) unit :=
  match u with
  | UcConnection s conn _ => Session_onConnection s conn
  | UcMessage s conn _ => Session_onMessage s conn
  | UcTimer p => Client_handleTimeout p
  | UcFunctor p => Client_quit p
  | _ => mret tt
  end.

(** [snprintf(buf, 32, "C%05d", i)] *)
Definition session_name (i : Z) : string :=
  let d : string := pretty i in
  snprintf 32 ("C" +:+ String.concat EmptyString (replicate (5 - String.length d) "0") +:+ d).

(** [message_] after the loop that fills it: the bytes 0 to 127 over and over. *)
Definition block (blockSize : Z) : list byte :=
  (λ i, byte_of_Z (Z.of_nat i `mod` 128)) <$> seq 0 (Z.to_nat blockSize).

Definition Client_add_session (p : ptr) (serverAddr : sockaddr) (i : nat) : M (World K) unit :=
  x ← get_pingpong p;
  l ← getNextLoop (pp_threadPool x);
  session ← Session_ctor l serverAddr (session_name (Z.of_nat i)) p;
  Session_start session;;
  upd_pingpong p (λ x, set_pp_sessions (pp_sessions x ++ [session]) x).

(** [numConnected_] is not initialised: [indeterminate] is its value. *)
Definition Client_ctor (l : ptr) (serverAddr : sockaddr)
    (blockSize sessionCount timeout threadCount indeterminate : Z) (ind : bool) : M (World K) ptr :=
  p ← fresh;
  pool ← EventLoopThreadPool_ctor l "pingpong-client";
  message ← new_string [];
  put_pingpong p (mkClient l pool sessionCount timeout [] message indeterminate);;
  _ ← runAfter l (double_of_Z timeout) (TcbUser p);
  when (1 <? threadCount) (EventLoopThreadPool_setThreadNum pool threadCount);;
  EventLoopThreadPool_start client_user pool None ind;;
  modify (λ w, set_w_mem (<[message := block blockSize]> (w_mem w)) w);;
  for_each (seq 0 (Z.to_nat sessionCount)) (Client_add_session p serverAddr);;
  mret p.

(** [main]; the client is never deleted. *)
Definition client_main (rounds : nat) (before : sockaddr) (ind : bool) (indeterminate : Z)
    (argv : list string) : M (World K) bool :=
  match argv with
  | [_; ip; port; threads; blockSize; sessions; time] =>
      port ← lift (atoi port);
      threadCount ← lift (atoi threads);
      blockSize ← lift (atoi blockSize);
      sessionCount ← lift (atoi sessions);
      timeout ← lift (atoi time);
      l ← EventLoop_ctor ind;
      serverAddr ← InetAddress_ip before ip (u16 port) false;
      _ ← Client_ctor l serverAddr blockSize sessionCount timeout threadCount indeterminate ind;
      finished ← loop client_user rounds l;
      when finished (EventLoop_dtor l);;
      mret finished
  | _ => mret true
  end.
End pingpong.

Example atoi_port : atoi " 8080x" = Ok 8080.
Proof. done. Qed.
Example session_name_7 : session_name 7 = "C00007".
Proof. by vm_compute. Qed.
