(* ===== verification/Isolation.v ===== *)
(** * Isolation: what handling one connection leaves alone

    The members that a loop runs for one connection's events touch that connection,
    its channel and the poller's record of it, and nothing else: not another
    connection or channel, not a loop's queue, not a server, and not a descriptor
    of somebody else. *)
From S2P Require Import Prelude Endian Buffer OS Descriptors Double Objects Poller LoopCore Channel TimerQueue Sockets Calls TcpConnection EventLoop Threads Acceptor Connector TcpServer TcpClient Program PingPong.

Set Default Goal Selector "!".

(** ** Following a program by its structure *)

Ltac steady_step :=
  lazymatch goal with
  | |- steady ?I ?R (mbind ?k ?m) ?Ψ => refine (steady_bind I R m k _ Ψ _ _); [|intros ? ?]
  | |- steady ?I ?R (mret ?a) ?Φ => first [exact (steady_ret I R a (λ _, True) Logic.I) | refine (steady_ret I R a Φ _)]
  | |- steady ?I ?R (fail ?e) ?Φ => exact (steady_fail I R e Φ)
  | |- steady ?I ?R (when ?b ?m) _ => refine (steady_when I R b m _); intros ?
  | |- steady ?I ?R (assert_ ?s ?b) _ => exact (steady_assert I R s b)
  | |- steady ?I ?R (gets ?f) _ => exact (steady_gets I R f)
  | |- steady _ _ (match ?x with _ => _ end) _ => destruct x eqn:?
  | |- steady _ _ (let _ := _ in _) _ => cbv zeta
  end.

(** ** Descriptors *)

Section descriptors.
Context {K : Type} `{!OS K} `{!EpollLaws K} `{!FdLaws K}.

Definition same_fds (io io' : IO K) : Prop := open_fds (io_k io') = open_fds (io_k io).

#[global] Instance same_fds_preorder : PreOrder same_fds.
Proof. unfold same_fds. split; [done|]. intros a b c ? ?. congruence. Qed.

Definition fds_kept_r {A} (m : M (Reactor K) A) : Prop := ∀ r, wlp m (λ _ r', same_fds (r_io r) (r_io r')) r.
Definition fds_kept {A} (m : M (World K) A) : Prop := ∀ w, wlp m (λ _ w', same_fds (w_io w) (w_io w')) w.

Lemma fds_kept_bind {A B} (m : M (World K) A) (k : A → M (World K) B) :
  fds_kept m → (∀ a, fds_kept (k a)) → fds_kept (m ≫= k).
Proof.
  intros Hm Hk w. apply wlp_bind. eapply wlp_mono; [apply Hm|]. intros a w1 H1.
  eapply wlp_mono; [apply Hk|]. intros b w2 H2. by trans (w_io w1).
Qed.

Lemma fds_kept_r_bind {A B} (m : M (Reactor K) A) (k : A → M (Reactor K) B) :
  fds_kept_r m → (∀ a, fds_kept_r (k a)) → fds_kept_r (m ≫= k).
Proof.
  intros Hm Hk w. apply wlp_bind. eapply wlp_mono; [apply Hm|]. intros a w1 H1.
  eapply wlp_mono; [apply Hk|]. intros b w2 H2. by trans (r_io w1).
Qed.

Lemma fds_kept_sys c : keeps_fds c = true → fds_kept_r (in_io (sys c)).
Proof.
  intros Hc r. unfold wlp, in_io, zoom, sys. pose proof (fds_frame c (io_k (r_io r)) Hc) as E.
  destruct (os_call c (io_k (r_io r))) as [res k]. exact E.
Qed.

Lemma fds_kept_in_reactor {A} (m : M (Reactor K) A) : fds_kept_r m → fds_kept (in_reactor m).
Proof.
  intros Hm w. specialize (Hm (w_r w)). unfold wlp, in_reactor, zoom in *. by destruct (m (w_r w)) as [[a r]|].
Qed.

Lemma fds_kept_r_gets_some {A} what (f : Reactor K → option A) : fds_kept_r (gets_some what f).
Proof. intros r. unfold wlp, gets_some. by destruct (f r). Qed.

Lemma fds_kept_gets_some {A} what (f : World K → option A) : fds_kept (gets_some what f).
Proof. intros r. unfold wlp, gets_some. by destruct (f r). Qed.

Ltac fds_r :=
  repeat first
    [ apply fds_kept_r_gets_some | by apply fds_kept_sys | apply fds_kept_r_bind; [|intros ?]
    | done | match goal with |- fds_kept_r (if ?b then _ else _) => destruct b end ].

Lemma fds_kept_updateChannel l c : fds_kept_r (EPollPoller.updateChannel l c).
Proof.
  unfold EPollPoller.updateChannel, EPollPoller.update, get_poller, get_chan, put_poller, put_chan, when,
    assert_. fds_r.
Qed.

Lemma fds_kept_removeChannel l c : fds_kept_r (EPollPoller.removeChannel l c).
Proof.
  unfold EPollPoller.removeChannel, EPollPoller.update, get_poller, get_chan, put_poller, put_chan, when,
    assert_. fds_r.
Qed.

Ltac fds_w :=
  repeat first
    [ apply fds_kept_gets_some | apply fds_kept_in_reactor, fds_kept_updateChannel
    | apply fds_kept_in_reactor, fds_kept_removeChannel | apply fds_kept_bind; [|intros ?]
    | apply fds_kept_in_reactor; solve [unfold get_chan, put_chan; fds_r]
    | done | match goal with |- fds_kept (if ?b then _ else _) => destruct b end ].

Lemma fds_kept_run_interest op c : fds_kept (run_interest op c).
Proof.
  rewrite run_interest_form. unfold upd_chan, update, EventLoop_updateChannel, chan_at,
    Poller_assertInLoopThread, assertInLoopThread, isInLoopThread, abortNotInLoopThread, LOG_ERROR,
    get_loop, when, assert_.
  fds_w.
Qed.

Lemma fds_kept_remove c : fds_kept (remove c).
Proof.
  unfold remove, EventLoop_removeChannel, upd_chan, chan_at,
    Poller_assertInLoopThread, assertInLoopThread, isInLoopThread, abortNotInLoopThread, LOG_ERROR,
    get_loop, when, assert_.
  fds_w.
Qed.
End descriptors.

(** ** Pollers *)

Section pollers.
Context {K : Type} `{!OS K} `{!EpollLaws K}.
Context (l : ptr) (ep : Z) (c : ptr).

(** Loop [l] has a poller, with the epoll instance [ep], and [c] is a channel of its. *)
Definition polls (r : Reactor K) : Prop :=
  (∃ p, r_pollers r !! l = Some p ∧ ep_epollfd p = ep) ∧ ∀ ch, r_chans r !! c = Some ch → ch_loop ch = l.

(** The pollers of the other loops, and what other epoll instances watch, are as
    they were. *)
Definition apart (r r' : Reactor K) : Prop :=
  (∀ l', l' ≠ l → r_pollers r' !! l' = r_pollers r !! l')
  ∧ ∀ ep', ep' ≠ ep → interest (io_k (r_io r')) ep' = interest (io_k (r_io r)) ep'.

#[global] Instance apart_preorder : PreOrder apart.
Proof.
  split; [done|]. intros r1 r2 r3 [A1 A2] [B1 B2]. split.
  - intros l' Hne. by rewrite B1, A1.
  - intros ep' Hne. by rewrite B2, A2.
Qed.

Abbreviation keeps_apart m Φ := (steady polls apart m Φ).

Lemma apart_get_poller : keeps_apart (get_poller l) (λ p, ep_epollfd p = ep).
Proof. intros r [(p & Hp & E) Hc]. unfold wlp, get_poller, gets_some. rewrite Hp. by split; [|split; [split; [exists p|]|]]. Qed.

Lemma apart_put_poller p : ep_epollfd p = ep → keeps_apart (put_poller l p) (λ _, True).
Proof.
  intros E. apply steady_modify. intros r [_ Hc]. split; [split; [|done]|split; [|done]].
  - exists p. simpl. by rewrite lookup_insert_eq.
  - intros l' Hne. simpl. by rewrite lookup_insert_ne.
Qed.

Lemma apart_get_chan : keeps_apart (get_chan c) (λ ch, ch_loop ch = l).
Proof.
  intros r Hr. unfold wlp, get_chan, gets_some. destruct (r_chans r !! c) as [ch|] eqn:E; [|done].
  by split; [apply (proj2 Hr)|].
Qed.

Lemma apart_put_chan ch : ch_loop ch = l → keeps_apart (put_chan c ch) (λ _, True).
Proof.
  intros Hl. apply steady_modify. intros r [Hp Hc]. split; [split; [exact Hp|]|by split].
  intros ch'. simpl. rewrite lookup_insert_eq. by intros [= <-].
Qed.

Lemma apart_log msg : keeps_apart (in_io (log_error msg)) (λ _, True).
Proof. intros r Hr. unfold wlp, in_io, zoom, log_error, modify. by split_and!. Qed.

Lemma apart_ctl op fd ev : keeps_apart (in_io (sys (SysEpollCtl ep op fd ev c))) (λ _, True).
Proof.
  intros r Hr. unfold wlp, in_io, zoom, sys.
  pose proof (λ ep', epoll_ctl_other (io_k (r_io r)) ep op fd ev c ep') as E.
  destruct (os_call _ (io_k (r_io r))) as [res k]. split_and!; [done|done|by split; [|exact E]].
Qed.

Ltac apart_step :=
  cbv beta in *; first
    [ exact apart_get_poller | exact apart_get_chan | exact (apart_log _)
    | refine (apart_put_poller _ _); simpl; assumption
    | refine (apart_put_chan _ _); simpl; assumption
    | match goal with E : ep_epollfd ?p = ep |- context [ep_epollfd ?p] => rewrite E end; exact (apart_ctl _ _ _)
    | refine (steady_gets_some _ _ _ _)
    | steady_step
    | exact (steady_mono _ _ _ _ _ (steady_assert _ _ _ _) (λ _ _, Logic.I)) ].

Lemma apart_update op : keeps_apart (EPollPoller.update l op c) (λ _, True).
Proof. unfold EPollPoller.update. repeat apart_step. Qed.

Lemma apart_updateChannel : keeps_apart (EPollPoller.updateChannel l c) (λ _, True).
Proof. unfold EPollPoller.updateChannel. repeat first [exact (apart_update _)|apart_step]. Qed.

Lemma apart_removeChannel : keeps_apart (EPollPoller.removeChannel l c) (λ _, True).
Proof. unfold EPollPoller.removeChannel. repeat first [exact (apart_update _)|apart_step]. Qed.

(** The same in the world. *)
Definition polling (w : World K) : Prop := polls (w_r w).
Definition parted (w w' : World K) : Prop := apart (w_r w) (w_r w').

#[global] Instance parted_preorder : PreOrder parted.
Proof. split; [by intros w|]. intros w1 w2 w3 H1 H2. unfold parted in *. by trans (w_r w2). Qed.

Lemma parted_same w w' :
  r_pollers (w_r w') = r_pollers (w_r w) →
  (∀ ep', interest (io_k (w_io w')) ep' = interest (io_k (w_io w)) ep') → parted w w'.
Proof. intros Ep Ei. split; [by rewrite Ep|intros ep' _; apply Ei]. Qed.

Abbreviation keeps_parted m Φ := (steady polling parted m Φ).

Lemma parted_in_reactor {A} (m : M (Reactor K) A) Φ : keeps_apart m Φ → keeps_parted (in_reactor m) Φ.
Proof.
  intros Hm w Hw. specialize (Hm (w_r w) Hw). unfold wlp, in_reactor, zoom in *.
  destruct (m (w_r w)) as [[a r]|]; [|done]. exact Hm.
Qed.

Lemma parted_upd_chan f : (∀ ch, ch_loop (f ch) = ch_loop ch) → keeps_parted (upd_chan c f) (λ _, True).
Proof.
  intros Hf. apply parted_in_reactor. steady_step; [exact apart_get_chan|]. cbv beta in *.
  apply apart_put_chan. by rewrite Hf.
Qed.

Lemma parted_chan_at : keeps_parted (chan_at c) (λ ch, ch_loop ch = l).
Proof. apply parted_in_reactor, apart_get_chan. Qed.

Ltac parted_step :=
  cbv beta in *; first
    [ exact parted_chan_at | refine (parted_upd_chan _ _); done
    | exact (parted_in_reactor _ _ (apart_log _))
    | refine (steady_gets_some _ _ _ _)
    | match goal with E : ch_loop ?ch = l |- context [ch_loop ?ch] => rewrite E end
    | steady_step
    | exact (steady_mono _ _ _ _ _ (steady_assert _ _ _ _) (λ _ _, Logic.I)) ].

Lemma parted_assertInLoopThread : keeps_parted (assertInLoopThread l) (λ _, True).
Proof. unfold assertInLoopThread, isInLoopThread, abortNotInLoopThread, LOG_ERROR, get_loop. repeat parted_step. Qed.

Ltac parted := repeat first [exact parted_assertInLoopThread|parted_step].

Lemma parted_run_interest op : keeps_parted (run_interest op c) (λ _, True).
Proof.
  rewrite run_interest_form. unfold update, EventLoop_updateChannel, Poller_assertInLoopThread.
  parted. exact (parted_in_reactor _ _ apart_updateChannel).
Qed.

Lemma parted_remove : keeps_parted (remove c) (λ _, True).
Proof.
  unfold remove, EventLoop_removeChannel, Poller_assertInLoopThread, get_loop.
  parted; exact (parted_in_reactor _ _ apart_removeChannel).
Qed.
End pollers.

(** ** One connection *)

(** A connection with other buffers. *)
Definition similar (x x' : TcpConnection) : Prop :=
  x' = set_tc_outputBuffer (tc_outputBuffer x') (set_tc_inputBuffer (tc_inputBuffer x') x).

Lemma similar_refl x : similar x x.
Proof. by destruct x. Qed.

Lemma similar_trans x y z : similar x y → similar y z → similar x z.
Proof. unfold similar. intros Hy Hz. rewrite Hy in Hz. exact Hz. Qed.

Lemma same_but_registration_trans ch1 ch2 ch3 :
  same_but_registration ch1 ch2 → same_but_registration ch2 ch3 → same_but_registration ch1 ch3.
Proof. unfold same_but_registration. intros H2 H3. rewrite H2 in H3. exact H3. Qed.

(** A channel that epoll watches for input. *)
Definition waiting (ch : Channel) : Prop := isReading ch = true ∧ ch_index ch = EPollPoller.kAdded.

(** The operations that leave the waiting for input alone. *)
Definition keeps_reading (op : interest_op) : bool :=
  match op with EnableWriting | DisableWriting => true | _ => false end.

Lemma keeps_reading_events op ev :
  keeps_reading op = true → Z.land (events_after op ev) kReadEvent = Z.land ev kReadEvent.
Proof.
  destruct op; try done; intros _; cbn [events_after].
  - rewrite Z.land_lor_distr_l. change (Z.land kWriteEvent kReadEvent) with 0. apply Z.lor_0_r.
  - by rewrite <- Z.land_assoc.
Qed.

Lemma waiting_after op ch ch1 :
  keeps_reading op = true → waiting ch → ch_events ch1 = events_after op (ch_events ch) →
  ch_index ch1 = ch_index ch → waiting (set_ch_index (next_index ch1) ch1).
Proof.
  intros Hop [Hr Hi] He Hi1. unfold waiting, isReading, next_index in *. cbn [ch_index set_ch_index ch_events].
  rewrite He, keeps_reading_events by done. split; [done|]. rewrite Hi1, Hi. cbn [Z.eqb orb].
  unfold isNoneEvent. rewrite He. destruct (Z.eqb_spec (events_after op (ch_events ch)) 0) as [E|E]; [exfalso|done].
  rewrite <- (keeps_reading_events op), E in Hr by done. done.
Qed.

(** The objects of the library other than connections and channels. *)
Definition objects {K} (w : World K) :=
  (w_tid w, w_loops w, w_timers w, w_acceptors w, w_connectors w, w_servers w, w_clients w,
   w_pools w, w_threads w, w_app w, w_held w).

Section isolation.
Context {K : Type} `{!OS K} `{!EpollLaws K} `{!FdLaws K} `{!EpollRoom K}.
Context (l c : ptr) (x0 : TcpConnection) (ch0 : Channel) (p0 : EPollPoller).
Implicit Types w : World K.

Record within w : Prop := {
  wi_loop : ∃ m, loop_ok l (set_ep_channels m p0) w;
  wi_conn : ∃ x, w_conns w !! c = Some x ∧ similar x0 x;
  wi_chan : ∃ ch, r_chans (w_r w) !! tc_channel x0 = Some ch ∧ same_but_registration ch0 ch
                  ∧ (waiting ch0 → waiting ch);
  wi_open : can_watch p0 (ch_fd ch0) (io_k (w_io w))
}.

Record elsewhere w w' : Prop := {
  ew_objects : objects w' = objects w;
  ew_conns : ∀ c', c' ≠ c → w_conns w' !! c' = w_conns w !! c';
  ew_chans : ∀ q, q ≠ tc_channel x0 → r_chans (w_r w') !! q = r_chans (w_r w) !! q;
  ew_fds : same_fds (w_io w) (w_io w');
  ew_next : (w_next w ≤ w_next w')%nat;
  ew_parted : parted l (ep_epollfd p0) w w'
}.

#[global] Instance elsewhere_preorder : PreOrder elsewhere.
Proof.
  split; [by split; [..|reflexivity]|]. intros w1 w2 w3 [A1 A2 A3 A4 A5 A6] [B1 B2 B3 B4 B5 B6]. split.
  - congruence.
  - intros c' Hne. by rewrite B2, A2.
  - intros q Hne. by rewrite B3, A3.
  - by trans (w_io w2).
  - lia.
  - by trans w2.
Qed.

Definition isolated {A} (m : M (World K) A) (Φ : A → Prop) : Prop := steady within elsewhere m Φ.

(** *** Steps *)

Lemma isolated_io io w :
  within w → (∀ ep, interest (io_k io) ep = interest (io_k (w_io w)) ep) → same_fds (w_io w) io →
  within (with_io io w) ∧ elsewhere w (with_io io w).
Proof.
  intros [(m & Hl) Hc Hch Ho] Hk Hf.
  split; [split; [|exact Hc|exact Hch|unfold can_watch in *; change (io_k (w_io (with_io io w))) with (io_k io); by rewrite Hf]|by split; [..|apply parted_same; [|exact Hk]]].
  exists m. eapply loop_ok_frame; [exact Hl|done|done|apply Hk|exact (lk_thread _ _ _ Hl)].
Qed.

Lemma isolated_syscall call : harmless call = true → isolated (syscall_ call) (λ _, True).
Proof.
  intros [Hi Hf]%andb_true_iff w Hw. apply wp_wlp, call_by_wp. intros io [_ Hk]. split; [done|].
  unfold replay in Hk. simpl in Hk. apply isolated_io; [done| |].
  - intros ep. rewrite Hk. by apply interest_frame.
  - unfold same_fds. rewrite Hk. by apply fds_frame.
Qed.

Lemma isolated_log msg : isolated (LOG_ERROR msg) (λ _, True).
Proof.
  intros w Hw. apply wp_wlp, LOG_ERROR_wp. split; [done|]. by apply (isolated_io _ w Hw).
Qed.

Lemma isolated_get_conn : isolated (get_conn c) (similar x0).
Proof.
  intros w Hw. unfold wlp, get_conn, gets_some. destruct (wi_conn _ Hw) as (x & -> & Hx). done.
Qed.

Lemma isolated_chan_at : isolated (chan_at (tc_channel x0)) (same_but_registration ch0).
Proof.
  intros w Hw. destruct (wi_chan _ Hw) as (ch & Hch & Hs & _). apply wp_wlp. by eapply chan_at_wp.
Qed.

Lemma isolated_in_loop : isolated (isInLoopThread l) (λ b, b = true).
Proof.
  intros w Hw. destruct (wi_loop _ Hw) as (m & Hl). destruct (lk_thread _ _ _ Hl) as (x & Hx & Ht).
  apply wp_wlp. eapply isInLoopThread_wp; [done|]. by rewrite bool_decide_true.
Qed.

Lemma isolated_assert : isolated (assertInLoopThread l) (λ _, True).
Proof.
  unfold isolated, assertInLoopThread. steady_step; [exact isolated_in_loop|].
  steady_step. apply isolated_log.
Qed.

Lemma isolated_fetch src off len : isolated (fetch src off len) (λ _, True).
Proof.
  intros w Hw. unfold wlp, fetch. destruct (match src with Memory p => _ | Bytes b => _ end); [|done].
  destruct (_ <=? _); [|done]. split; [done|]. split; [done|reflexivity].
Qed.

(** Changing a buffer of the connection. *)
Lemma isolated_set_conn w x' :
  within w → (∃ x, w_conns w !! c = Some x ∧ similar x x') →
  let w' := set_w_conns (<[c := x']> (w_conns w)) w in within w' ∧ elsewhere w w'.
Proof.
  intros [(m & Hl) (x & Hx & Hs) Hch Ho] (x1 & Hx1 & Hs1) w'. simplify_eq. split; split; try done.
  - exists m. by eapply loop_ok_frame; [exact Hl|..|exact (lk_thread _ _ _ Hl)].
  - exists x'. split; [apply lookup_insert_eq|by eapply similar_trans].
  - intros c' Hne. simpl. by rewrite lookup_insert_ne.
Qed.

Lemma alter_insert_conn (f : TcpConnection → TcpConnection) x (m : gmap ptr TcpConnection) :
  m !! c = Some x → alter f c m = <[c := f x]> m.
Proof.
  intros Hx. apply map_eq. intros c'. destruct (decide (c' = c)) as [->|Hne].
  - by rewrite lookup_alter_eq, lookup_insert_eq, Hx.
  - by rewrite lookup_alter_ne, lookup_insert_ne.
Qed.

Lemma isolated_input {A} (m : M Buffer A) : isolated (on_buffer (input_of c) m) (λ _, True).
Proof.
  intros w Hw. destruct (wi_conn _ Hw) as (x & Hx & _). unfold wlp, on_buffer, zoom. simpl.
  rewrite Hx. simpl. destruct (m (tc_inputBuffer x)) as [[a b]|]; [|done]. split; [done|].
  rewrite (alter_insert_conn _ x) by done. apply isolated_set_conn; [done|].
  exists x. split; [done|]. unfold similar. by destruct x.
Qed.

Lemma isolated_output {A} (m : M Buffer A) : isolated (on_buffer (output_of c) m) (λ _, True).
Proof.
  intros w Hw. destruct (wi_conn _ Hw) as (x & Hx & _). unfold wlp, on_buffer, zoom. simpl.
  rewrite Hx. simpl. destruct (m (tc_outputBuffer x)) as [[a b]|]; [|done]. split; [done|].
  rewrite (alter_insert_conn _ x) by done. apply isolated_set_conn; [done|].
  exists x. split; [done|]. unfold similar. by destruct x.
Qed.

(** Changing what its channel waits for, but for input. *)
Lemma isolated_interest op :
  ch_loop ch0 = l → keeps_reading op = true → isolated (run_interest op (tc_channel x0)) (λ _, True).
Proof.
  intros Hch0 Hop w Hw. pose proof Hw as [(m & Hl) Hc (ch & Hch & Hs & Hwait) Ho].
  assert (ch_loop ch = l) as Hloop by (by rewrite Hs).
  assert (ch_index ch = EPollPoller.kAdded ∨ can_watch (set_ep_channels m p0) (ch_fd ch) (io_k (w_io w))) as Hopen
    by (right; by rewrite Hs).
  pose proof (wp_wlp _ _ _ (run_interest_indexed_wp op _ ch l _ w Hl Hch Hloop Hopen)) as H1.
  pose proof (fds_kept_run_interest op (tc_channel x0) w) as H2.
  assert (polling l (ep_epollfd p0) (tc_channel x0) w) as Hpol.
  { split; [eexists; split; [exact (sy_poller _ _ _ _ (lk_synced _ _ _ Hl))|done]|].
    intros ch1. rewrite Hch. by intros [= <-]. }
  pose proof (parted_run_interest _ _ _ op w Hpol) as H3. unfold wlp in *.
  destruct (run_interest op (tc_channel x0) w) as [[[] w']|]; [|done].
  destruct H1 as (Hl' & Hch' & E), H3 as (_ & _ & H3). split; [done|]. split.
  - split.
    + by eexists.
    + rewrite E. exact Hc.
    + eexists. rewrite Hch', lookup_insert_eq. split_and!; [done| |].
      * unfold same_but_registration in *. by rewrite Hs.
      * intros Hw0. by eapply waiting_after; [exact Hop|by apply Hwait|..].
    + unfold can_watch in *. by rewrite H2.
  - split; [by rewrite E|by rewrite E| |exact H2|by rewrite E|exact H3].
    intros q Hne. by rewrite Hch', lookup_insert_ne.
Qed.
End isolation.

(** *** The members *)

Section members.
Context {K : Type} `{!OS K} `{!EpollLaws K} `{!FdLaws K} `{!EpollRoom K} `{Inet}.
Context (l c : ptr) (x0 : TcpConnection) (ch0 : Channel) (p0 : EPollPoller).
Context (Hhome : tc_loop x0 = l) (Hch0 : ch_loop ch0 = l).
Context (Hwc : tc_writeCompleteCallback x0 = None) (Hhw : tc_highWaterMarkCallback x0 = None).
Implicit Types w : World K.

Abbreviation isolated m Φ := (steady (within l c x0 ch0 p0) (elsewhere l c x0 p0) m Φ).

Ltac iso_step :=
  first
    [ exact (isolated_get_conn l c x0 ch0 p0)
    | exact (isolated_log l c x0 ch0 p0 _)
    | refine (isolated_syscall l c x0 ch0 p0 _ _); done
    | exact (isolated_fetch l c x0 ch0 p0 _ _ _)
    | exact (isolated_input l c x0 ch0 p0 _)
    | exact (isolated_output l c x0 ch0 p0 _)
    | steady_step ].
Ltac iso := repeat iso_step.

Lemma similar_members x : similar x0 x →
  tc_loop x = l ∧ tc_channel x = tc_channel x0 ∧ tc_socket x = tc_socket x0
  ∧ tc_writeCompleteCallback x = None ∧ tc_highWaterMarkCallback x = None
  ∧ tc_messageCallback x = tc_messageCallback x0.
Proof using Hhome Hwc Hhw. intros ->. by split_and!. Qed.

Lemma isolated_conn_assert : isolated (conn_assertInLoopThread c) (λ _, True).
Proof using Hhome Hwc Hhw.
  unfold conn_assertInLoopThread, conn_loop.
  refine (steady_bind _ _ _ _ (λ a, a = l) _ _ _).
  - steady_step; [iso|]. refine (steady_ret _ _ _ _ _). by apply similar_members.
  - intros ? ->. exact (isolated_assert l c x0 ch0 p0).
Qed.

Lemma isolated_conn_channel : isolated (conn_channel c) (same_but_registration ch0).
Proof using Hhome Hwc Hhw.
  unfold conn_channel. steady_step; [iso|]. cbv beta.
  destruct (similar_members _ H0) as (_ & -> & _). exact (isolated_chan_at l c x0 ch0 p0).
Qed.

Lemma isolated_writeComplete : isolated (queue_writeComplete c) (λ _, True).
Proof using Hhome Hwc Hhw.
  unfold queue_writeComplete. steady_step; [iso|]. cbv beta.
  destruct (similar_members _ H0) as (_ & _ & _ & -> & _). iso.
Qed.

Lemma isolated_write fd data : isolated (sockets_write fd data) (λ _, True).
Proof. unfold sockets_write. iso. Qed.

Lemma isolated_sendInLoop_write src len : isolated (sendInLoop_write c src len) (λ _, True).
Proof using Hhome Hwc Hhw.
  unfold sendInLoop_write, errno.
  repeat first [exact isolated_conn_channel|exact (isolated_write _ _)|exact isolated_writeComplete|iso_step].
Qed.

Lemma isolated_enableWriting x : similar x0 x → isolated (enableWriting (tc_channel x)) (λ _, True).
Proof using EpollRoom0 Hhome Hch0 Hwc Hhw.
  intros Hx. destruct (similar_members _ Hx) as (_ & -> & _).
  exact (isolated_interest l c x0 ch0 p0 EnableWriting Hch0 eq_refl).
Qed.

Lemma isolated_sendInLoop_append src n r : isolated (sendInLoop_append c src n r) (λ _, True).
Proof using EpollRoom0 Hhome Hch0 Hwc Hhw.
  unfold sendInLoop_append. steady_step; [iso|]. cbv beta zeta.
  destruct (similar_members _ H0) as (_ & _ & _ & _ & -> & _).
  repeat first [exact isolated_conn_channel|eapply isolated_enableWriting; eassumption|iso_step].
Qed.

Lemma isolated_sendInLoop src len : isolated (sendInLoop c src len) (λ _, True).
Proof using EpollRoom0 Hhome Hch0 Hwc Hhw.
  unfold sendInLoop.
  repeat first [exact isolated_conn_assert|exact isolated_conn_channel|
    exact (isolated_sendInLoop_write _ _)|exact (isolated_sendInLoop_append _ _ _)|iso_step].
Qed.

Lemma isolated_send p len : isolated (send c p len) (λ _, True).
Proof using EpollRoom0 Hhome Hch0 Hwc Hhw.
  unfold send. steady_step; [iso|]. steady_step; [iso|]. cbv beta.
  destruct (similar_members _ H0) as (-> & _). steady_step.
  refine (steady_bind _ _ _ _ (λ b, b = true) _ (isolated_in_loop l c x0 ch0 p0) _). intros ? ->.
  exact (isolated_sendInLoop _ _).
Qed.

Lemma isolated_fresh : isolated fresh (λ _, True).
Proof.
  intros w [(m & Hl) Hc Hch Ho]. split; [done|]. split; [split; [|exact Hc|exact Hch|exact Ho]|by split; simpl; try lia].
  exists m. by eapply loop_ok_frame; [exact Hl|..|exact (lk_thread _ _ _ Hl)].
Qed.

(** The program's memory and the record of calls. *)
Lemma isolated_program (f : World K → World K) :
  (∀ w, ∃ mem calls, f w = set_w_mem mem (set_w_calls calls w)) → isolated (modify f) (λ _, True).
Proof.
  intros Hf w [(m & Hl) Hc Hch Ho]. split; [done|]. destruct (Hf w) as (mem & calls & ->).
  split; [split; [|exact Hc|exact Hch|exact Ho]|by split].
  exists m. by eapply loop_ok_frame; [exact Hl|..|exact (lk_thread _ _ _ Hl)].
Qed.

Lemma isolated_onMessage : isolated (server_onMessage c) (λ _, True).
Proof using EpollRoom0 Hhome Hch0 Hwc Hhw.
  unfold server_onMessage, new_string, delete_string, send_string.
  repeat first [exact isolated_fresh|exact (isolated_send _ _)|exact (steady_gets_some _ _ _ _)
    |refine (isolated_program _ _); intros w; eexists _, (w_calls w); by destruct w|iso_step].
Qed.

Lemma isolated_user_call u : isolated (user_call u) (λ _, True).
Proof. apply isolated_program. intros w. exists (w_mem w), (w_calls w ++ [u]). by destruct w. Qed.

Lemma isolated_messageCallback t : isolated (run_messageCallback server_user c t) (λ _, True).
Proof using EpollRoom0 Hhome Hch0 Hwc Hhw.
  unfold run_messageCallback, call_user.
  repeat first [exact isolated_onMessage|exact (isolated_user_call _)|iso_step].
Qed.

Lemma isolated_shutdownInLoop : isolated (shutdownInLoop c) (λ _, True).
Proof using Hhome Hwc Hhw.
  unfold shutdownInLoop, Socket_shutdownWrite, sockets_shutdownWrite.
  repeat first [exact isolated_conn_assert|exact isolated_conn_channel|iso_step].
Qed.

Lemma isolated_disableWriting x : similar x0 x → isolated (disableWriting (tc_channel x)) (λ _, True).
Proof using EpollRoom0 Hhome Hch0 Hwc Hhw.
  intros Hx. destruct (similar_members _ Hx) as (_ & -> & _).
  exact (isolated_interest l c x0 ch0 p0 DisableWriting Hch0 eq_refl).
Qed.

Lemma isolated_handleWrite : isolated (handleWrite c) (λ _, True).
Proof using EpollRoom0 Hhome Hch0 Hwc Hhw.
  unfold handleWrite.
  repeat first [exact isolated_conn_assert|exact isolated_conn_channel|exact (isolated_write _ _)
    |exact isolated_writeComplete|exact isolated_shutdownInLoop
    |eapply isolated_disableWriting; eassumption|iso_step].
Qed.
End members.
