(* ===== verification/Connecting.v ===== *)
(** * Connecting: what becomes of a connection attempt

    Properties of the definitions of Connector.v: where the socket of an attempt
    goes on each outcome, how retries are spaced, and what a retry timer does to
    an attempt started in the meantime. *)
From S2P Require Import Prelude Endian OS Double Objects Poller LoopCore Channel TimerQueue Sockets Calls Connector Program.

Set Default Goal Selector "!".

(** The pause before the retry that follows [k] failed ones. *)
Definition retry_delay (k : nat) : Z := Z.min (kInitRetryDelayMs * 2 ^ Z.of_nat k) kMaxRetryDelayMs.

Lemma retry_delay_succ k : Z.min (retry_delay k * 2) kMaxRetryDelayMs = retry_delay (S k).
Proof.
  unfold retry_delay, kMaxRetryDelayMs, kInitRetryDelayMs.
  rewrite Nat2Z.inj_succ, Z.pow_succ_r by lia. lia.
Qed.

(** Every pause there can be survives the round trip through [double]. *)
Lemma retry_delay_ms k :
  ms_of_seconds (retry_seconds (retry_delay k)) = Some (retry_delay k * ns_per_ms).
Proof.
  destruct (decide (k < 6)%nat) as [Hk|Hk].
  - do 6 (destruct k as [|k]; [by vm_compute|]). lia.
  - assert (retry_delay k = kMaxRetryDelayMs) as ->; [|by vm_compute].
    unfold retry_delay, kMaxRetryDelayMs, kInitRetryDelayMs.
    assert (2 ^ 6 ≤ 2 ^ Z.of_nat k) by (apply Z.pow_le_mono_r; lia). lia.
Qed.

Section connecting.
Context {K : Type} `{!OS K} {P : Poller K}.
Implicit Types w : World K.

Lemma get_connector_wp c x (Q : Connector → World K → Prop) w :
  w_connectors w !! c = Some x → Q x w → wp (get_connector c) Q w.
Proof. intros H HQ. by eapply wp_gets_some. Qed.

Lemma upd_connector_wp c f x (Q : unit → World K → Prop) w :
  w_connectors w !! c = Some x → Q tt (set_w_connectors (<[c := f x]> (w_connectors w)) w) →
  wp (upd_connector c f) Q w.
Proof. intros H HQ. apply wp_bind. eapply get_connector_wp; [done|]. by apply wp_modify. Qed.

(** ** Retrying *)

(** A connector whose loop's timers are in order, and no timer at the addresses
    still to be given out. *)
Record retrying (c : ptr) (x : Connector) (lx : EventLoop) w : Prop := {
  rt_connector : w_connectors w !! c = Some x;
  rt_connect : cn_connect x = true;
  rt_queue : queue_ok (cn_loop x) lx w;
  rt_fresh : ∀ t, (w_next w ≤ t)%nat → w_timers w !! t = None
}.

(** Connector [x] after a failed attempt. *)
Definition failed (x : Connector) : Connector :=
  set_cn_retryDelayMs (Z.min (cn_retryDelayMs x * 2) kMaxRetryDelayMs) (set_cn_state cDisconnected x).

Definition is_retry_timer (c : ptr) (when_ : Z) (e : Timer) : Prop :=
  tm_callback e = TcbConnector_startInLoop c ∧ tm_expiration e = when_ ∧ tm_repeat e = false.

Lemma retry_wp c fd x lx k (Q : unit → World K → Prop) w :
  retrying c x lx w → cn_retryDelayMs x = retry_delay k →
  (∀ w' lx' e r now calls,
     retrying c (failed x) lx' w' →
     w_timers w' = <[w_next w := e]> (w_timers w) → w_next w' = S (w_next w) →
     is_retry_timer c (ret now + retry_delay k * ns_per_ms) e →
     io_trace (w_io w') = io_trace (w_io w) ++ (SysClose fd, r) :: (SysNow, now) :: calls →
     timer_calls calls → Q tt w') →
  wp (retry c fd) Q w.
Proof.
  intros [Hc Hconn Hq Hfresh] Hk HQ.
  apply wp_bind. eapply sockets_close_wp; [apply made_nil|]. intros w1 [E1 [[Ht1 _] _]].
  apply wp_bind. eapply upd_connector_wp; [rewrite E1; exact Hc|].
  set (w2 := set_w_connectors _ w1).
  assert (w_connectors w2 !! c = Some (set_cn_state cDisconnected x)) as Hc2
    by (simpl; by rewrite lookup_insert_eq).
  assert (queue_ok (cn_loop x) lx w2) as Hq2 by (unfold w2; rewrite E1; exact Hq).
  apply wp_bind. eapply get_connector_wp; [exact Hc2|].
  cbn [cn_connect set_cn_state cn_retryDelayMs cn_loop]. rewrite Hconn, Hk. cbn [when].
  apply wp_bind, wp_bind, system_clock_now_wp. intros now k1 e1 Hnow.
  apply wp_bind. eapply wp_gets_some; [apply retry_delay_ms|].
  set (w3 := with_io _ w2).
  assert (w_timers w3 !! w_next w3 = None) as Hn3 by (simpl; rewrite E1; by apply Hfresh).
  eapply addTimer_wp; [exact Hq2|exact Hn3|]. intros io calls Hio Hcalls.
  eapply upd_connector_wp; [exact Hc2|].
  assert (w_next w3 = w_next w ∧ w_timers w3 = w_timers w) as [Hnext Htimers]
    by (simpl; by rewrite E1).
  set (e := new_timer _ _ _ w3) in *.
  eapply (HQ _ _ e _ now calls); [split|..]; simpl.
  - by rewrite insert_insert_eq, lookup_insert_eq.
  - done.
  - exact (queue_ok_insert _ _ (w_next w3) _
      (queue_ok_allocated _ _ e w3 Hq2 Hn3) ltac:(simpl; rewrite lookup_insert_eq; by eexists)).
  - rewrite E1. simpl. intros t Ht. rewrite lookup_insert_ne by lia. apply Hfresh. lia.
  - by rewrite E1.
  - by rewrite E1.
  - split_and!; [done|done|by vm_compute].
  - etrans; [exact Hio|]. change (io_trace (w_io w3)) with (io_trace (w_io w1) ++ [(SysNow, now)]).
    rewrite Ht1. by rewrite <- !app_assoc.
  - exact Hcalls.
Qed.

(** The descriptors [fds] given up one after the other, from the [k]-th retry
    and the address [t] on: the calls made, and the timers left in the heap. *)
Fixpoint retried (c : ptr) (k : nat) (t : ptr) (fds : list Z) (timers : gmap ptr Timer)
    (calls : list (syscall * sysres)) : Prop :=
  match fds with
  | [] => calls = []
  | fd :: fds => ∃ r now armed calls' e,
      calls = (SysClose fd, r) :: (SysNow, now) :: armed ++ calls' ∧ timer_calls armed
      ∧ timers !! t = Some e ∧ is_retry_timer c (ret now + retry_delay k * ns_per_ms) e
      ∧ retried c (S k) (S t) fds timers calls'
  end.

Lemma failures_delay x k n :
  cn_retryDelayMs x = retry_delay k →
  cn_retryDelayMs (Nat.iter n failed x) = retry_delay (k + n).
Proof.
  intros Hk. induction n as [|n IH]; simpl; [by rewrite Nat.add_0_r|].
  by rewrite IH, retry_delay_succ, Nat.add_succ_r.
Qed.

Lemma retries_wp c fds : ∀ x lx k w,
  retrying c x lx w → cn_retryDelayMs x = retry_delay k →
  wp (for_each fds (retry c)) (λ _ w', ∃ calls,
    retried c k (w_next w) fds (w_timers w') calls
    ∧ io_trace (w_io w') = io_trace (w_io w) ++ calls
    ∧ (∀ t, (t < w_next w)%nat → w_timers w' !! t = w_timers w !! t)
    ∧ w_connectors w' !! c = Some (Nat.iter (length fds) failed x)) w.
Proof.
  induction fds as [|fd fds IH]; intros x lx k w Hr Hk; cbn [for_each].
  - apply wp_ret. exists []. split_and!; [done|by rewrite app_nil_r|done|by destruct Hr].
  - apply wp_bind. eapply retry_wp; [done..|].
    intros w1 lx1 e r now armed Hr1 Htm Hnext He Htr Harmed.
    eapply wp_mono; [apply (IH (failed x) lx1 (S k)); [done|simpl; by rewrite Hk, retry_delay_succ]|].
    intros [] w2 (calls & Hcalls & Htr2 & Hsame & Hc'). rewrite Hnext in *.
    exists ((SysClose fd, r) :: (SysNow, now) :: armed ++ calls). split_and!.
    + exists r, now, armed, calls, e. split_and!; [done..| |done|done].
      rewrite Hsame by lia. by rewrite Htm, lookup_insert_eq.
    + rewrite Htr2, Htr. by rewrite <- app_assoc.
    + intros t Ht. rewrite Hsame by lia. rewrite Htm. by rewrite lookup_insert_ne by lia.
    + rewrite Hc'. cbn [length]. by rewrite Nat.iter_succ_r.
Qed.

(** C26: retries back off.  A connector whose attempts keep failing closes each
    attempt's descriptor at once and once, and arms a one-shot timer for the next
    attempt 500 ms after the first failure, then 1, 2, 4, 8 and 16 seconds after
    each further one, and 30 seconds from then on, counted from the time it reads
    then; no rounding in the [double] arithmetic changes these pauses. *)
Theorem retries_back_off (c : ptr) (fds : list Z) (x : Connector) (lx : EventLoop) w
    (Hr : retrying c x lx w) (Hinit : cn_retryDelayMs x = kInitRetryDelayMs) :
  ∃ w' calls, for_each fds (retry c) w = Ok (tt, w')
    ∧ io_trace (w_io w') = io_trace (w_io w) ++ calls
    ∧ retried c 0 (w_next w) fds (w_timers w') calls
    ∧ (cn_retryDelayMs <$> w_connectors w' !! c) = Some (retry_delay (length fds)).
Proof.
  assert (cn_retryDelayMs x = retry_delay 0) as H0 by (by rewrite Hinit).
  destruct (proj1 (wp_run _ _ _) (retries_wp c fds x lx 0 w Hr H0))
    as ([] & w' & Hrun & calls & Hcalls & Htr & _ & Hc).
  exists w', calls. split_and!; [done..|]. rewrite Hc. simpl. f_equal.
  by apply (failures_delay x 0).
Qed.
End connecting.

Section attempts.
Context {K : Type} `{!OS K} {P : Poller K} `{!PollerLaws K P}.
Implicit Types w : World K.

(** A connector without a channel, run by its loop's thread. *)
Record idle (c : ptr) (x : Connector) w : Prop := {
  id_connector : w_connectors w !! c = Some x;
  id_channel : cn_channel x = None;
  id_thread : ∃ lx, w_loops w !! cn_loop x = Some lx ∧ el_threadId lx = w_tid w
}.

Definition in_progress (chan : ptr) (x : Connector) : Connector :=
  set_cn_channel (Some chan) (set_cn_state cConnecting x).

(** The channel of an attempt: it waits for the socket to become writable. *)
Definition attempt_chan (loop c : ptr) (fd i : Z) : Channel :=
  mkChannel loop fd kWriteEvent 0 i true None false false true
    None (Some (CbConnector_handleWrite c)) None (Some (CbConnector_handleError c)).

Lemma connecting_wp c fd x (Q : unit → World K → Prop) w :
  idle c x w → poller_free (w_r w) (cn_loop x) fd →
  (∀ i w', let chan := w_next w in
     w' = set_w_r (w_r w') (set_w_connectors (<[c := in_progress chan x]> (w_connectors w))
                              (set_w_next (S chan) w)) →
     live_channel w' chan (attempt_chan (cn_loop x) c fd i) →
     poller_attached (attempt_chan (cn_loop x) c fd i) →
     quiet (w_io w) (w_io w') → Q tt w') →
  wp (connecting c fd) Q w.
Proof.
  intros [Hc Hnone (lx & Hl & Ht)] Hfree HQ.
  apply wp_bind. eapply upd_connector_wp; [done|].
  apply wp_bind. eapply get_connector_wp; [simpl; by rewrite lookup_insert_eq|].
  apply wp_bind, wp_assert; [by apply bool_decide_eq_true|].
  apply wp_bind. unfold fresh, wp at 1. cbn [w_next set_w_connectors].
  apply wp_bind, in_reactor_wp, wp_modify. simpl.
  apply wp_bind. eapply upd_connector_wp; [simpl; by rewrite lookup_insert_eq|]. simpl.
  rewrite insert_insert_eq.
  do 2 (apply wp_bind; eapply upd_chan_wp; [simpl; by rewrite lookup_insert_eq|]; simpl;
        unfold set_r_chans; simpl; rewrite insert_insert_eq).
  match goal with |- wp _ _ ?w1 => set (w1' := w1) end.
  set (ch := set_ch_errorCallback (Some (CbConnector_handleError c))
    (set_ch_writeCallback (Some (CbConnector_handleWrite c)) (Channel_ctor (cn_loop x) fd))).
  assert (live_channel w1' (w_next w) ch) as Hlive.
  { split_and!; [simpl; by rewrite lookup_insert_eq| |simpl; eauto].
    eapply poller_ok_new; [simpl; by rewrite lookup_insert_eq|done|].
    by eapply poller_free_frame; [|exact Hfree]. }
  eapply set_events_update_wp; [exact Hlive|reflexivity|].
  cbv zeta. intros i w' (E & _ & Hq & _) Hlive' Hatt. apply (HQ i); [|done..].
  rewrite E. done.
Qed.

(** The results of an attempt's two calls. *)
Definition attempt_socket (x : Connector) w : sysres :=
  (os_call (SysSocket (family (cn_serverAddr x))) (io_k (w_io w))).1.
Definition attempt_connect (x : Connector) w : sysres :=
  (os_call (SysConnect (ret (attempt_socket x w)) (cn_serverAddr x))
     (os_call (SysSocket (family (cn_serverAddr x))) (io_k (w_io w))).2).1.
Definition attempt_errno (x : Connector) w : Z :=
  if ret (attempt_connect x w) =? 0 then 0 else err (attempt_connect x w).
Definition attempt_calls (x : Connector) w : list (syscall * sysres) :=
  [(SysSocket (family (cn_serverAddr x)), attempt_socket x w);
   (SysConnect (ret (attempt_socket x w)) (cn_serverAddr x), attempt_connect x w)].

(** [connect()] up to the switch. *)
Lemma Connector_connect_run c x w :
  w_connectors w !! c = Some x → ret (attempt_connect x w) ≤ 0 →
  ∃ w', made w (attempt_calls x w) w' ∧
    Connector_connect c w
    = match connect_case (attempt_errno x w) with
      | InProgress => connecting c (ret (attempt_socket x w))
      | TryAgain => retry c (ret (attempt_socket x w))
      | GiveUp => LOG_ERROR "connect error in Connector::startInLoop";;
                  sockets_close (ret (attempt_socket x w))
      end w'.
Proof.
  intros Hc Hret. set (k := match connect_case (attempt_errno x w) with InProgress => _ | _ => _ end).
  cut (leads_to (Connector_connect c) (made w (attempt_calls x w)) k w).
  { intros (w' & Hmade & Hrun). eauto. }
  apply leads_to_bind. eapply get_connector_wp; [done|].
  apply leads_to_bind, wp_bind, call_wp. change (result_of _ w) with (attempt_socket x w).
  assert (∀ log, io_k (w_io (after_call (SysSocket (family (cn_serverAddr x))) log w))
    = (os_call (SysSocket (family (cn_serverAddr x))) (io_k (w_io w))).2) as Hk.
  { intros log. unfold after_call. by destruct (os_call _ _). }
  assert (∀ log, leads_to
    (r ← sockets_connect (ret (attempt_socket x w)) (cn_serverAddr x);
     savedErrno ← (if r =? 0 then mret 0 else errno);
     match connect_case savedErrno with
     | InProgress => connecting c (ret (attempt_socket x w))
     | TryAgain => retry c (ret (attempt_socket x w))
     | GiveUp => LOG_ERROR "connect error in Connector::startInLoop";;
                 sockets_close (ret (attempt_socket x w))
     end) (made w (attempt_calls x w)) k (after_call (SysSocket (family (cn_serverAddr x))) log w))
    as Hrest.
  { intros log. apply leads_to_bind, wp_bind, call_wp, wp_ret. set (w1 := after_call _ log w).
    set (call := SysConnect _ _).
    assert (result_of call w1 = attempt_connect x w) as Hr by (unfold result_of, w1; by rewrite Hk).
    apply leads_to_bind. rewrite Hr.
    assert (made w (attempt_calls x w) (after_call call [] w1)) as Hm.
    { unfold attempt_calls. rewrite <- Hr. apply (made_call call [] w [_]), made_one. }
    destruct (Z.eqb_spec (ret (attempt_connect x w)) 0) as [E|E].
    - apply wp_ret. unfold k, attempt_errno. rewrite (proj2 (Z.eqb_eq _ _) E). by apply leads_to_end.
    - apply errno_after_call; [rewrite Hr; lia|]. rewrite Hr.
      unfold k, attempt_errno. rewrite (proj2 (Z.eqb_neq _ _) E). by apply leads_to_end. }
  apply wp_bind, wp_when; intros _; [apply log_after_call|]; apply wp_ret; apply Hrest.
Qed.

(** C25: an attempt accounts for its socket.  [connect] makes one socket and one
    call of connect(2), and then, by the error of that call: on success or while
    it is in progress the connector is [kConnecting] with a channel of its own,
    which waits for the socket to become writable; on an error that may pass the
    socket goes to [retry]; on any other it is closed, the connector is as it
    was, and nothing will try again. *)
Theorem connect_accounts_for_its_socket (c : ptr) (x : Connector) w
    (Hidle : idle c x w) (Hret : ret (attempt_connect x w) ≤ 0) :
  let fd := ret (attempt_socket x w) in
  let run := Connector_connect c w in
  match connect_case (attempt_errno x w) with
  | InProgress => poller_free (w_r w) (cn_loop x) fd → ∃ w' i calls,
      run = Ok (tt, w') ∧ w_connectors w' !! c = Some (in_progress (w_next w) x)
      ∧ live_channel w' (w_next w) (attempt_chan (cn_loop x) c fd i)
      ∧ io_trace (w_io w') = io_trace (w_io w) ++ attempt_calls x w ++ calls
      ∧ Forall (λ cr, is_epoll_ctl cr.1 = true) calls
  | TryAgain => ∃ w', made w (attempt_calls x w) w' ∧ run = retry c fd w'
  | GiveUp => ∃ w' r, run = Ok (tt, w') ∧ made w (attempt_calls x w ++ [(SysClose fd, r)]) w'
  end.
Proof.
  intros fd run. pose proof Hidle as [Hc _ _].
  destruct (Connector_connect_run c x w Hc Hret) as (w1 & Hmade & Hrun). fold run in Hrun.
  destruct (connect_case (attempt_errno x w)).
  - intros Hfree. pose proof Hmade as [E [[Ht _] _]]. destruct Hidle as [_ Hnone Hth].
    assert (wp (connecting c fd) (λ _ w', ∃ i calls,
      w_connectors w' !! c = Some (in_progress (w_next w) x)
      ∧ live_channel w' (w_next w) (attempt_chan (cn_loop x) c fd i)
      ∧ io_trace (w_io w') = io_trace (w_io w) ++ attempt_calls x w ++ calls
      ∧ Forall (λ cr, is_epoll_ctl cr.1 = true) calls) w1) as Hwp.
    { assert (w_next w1 = w_next w) as Hn by (by rewrite E).
      eapply (connecting_wp c fd x).
      - split; [by rewrite E|done|by rewrite E].
      - eapply poller_free_frame; [|exact Hfree]. by rewrite E.
      - cbv zeta. rewrite Hn. intros i w' E' Hlive _ (calls & Htr & Hq). exists i, calls.
        split_and!; [rewrite E'; simpl; by rewrite lookup_insert_eq|exact Hlive| |exact Hq].
        by rewrite Htr, Ht, <- app_assoc. }
    apply wp_run in Hwp as ([] & w' & Hrun' & i & calls & H). exists w', i, calls.
    rewrite Hrun. by split.
  - eauto.
  - assert (wp (LOG_ERROR "connect error in Connector::startInLoop";; sockets_close fd)
      (λ _ w', ∃ r, made w (attempt_calls x w ++ [(SysClose fd, r)]) w') w1) as Hwp.
    { apply wp_bind. eapply made_log; [exact Hmade|]. intros w2 Hmade2.
      eapply sockets_close_wp; [exact Hmade2|]. eauto. }
    apply wp_run in Hwp as ([] & w' & Hrun' & r & H). exists w', r. by rewrite Hrun.
Qed.

(** C35: a retry timer outlives [stop] and kills the next attempt.  [stop] leaves
    the timer of an earlier retry queued; if the connector is started again and
    its new attempt is in progress when that timer fires, [startInLoop] finds
    the state [kConnecting] and its assertion fails. *)
Theorem stale_retry_timer_aborts (c : ptr) (x : Connector) w
    (Hidle : idle c x w) (Hst : cn_state x = cDisconnected)
    (Hret : ret (attempt_connect x w) ≤ 0)
    (Hprogress : connect_case (attempt_errno x w) = InProgress)
    (Hfree : poller_free (w_r w) (cn_loop x) (ret (attempt_socket x w))) :
  ∃ w1, Connector_start c w = Ok (tt, w1)
    ∧ ∀ user, run_timer user (TcbConnector_startInLoop c) w1
              = Fault (AssertFailed "Connector.cpp:39").
Proof.
  destruct Hidle as [Hc Hnone (lx & Hl & Ht)].
  set (x1 := set_cn_connect true x).
  set (w0 := set_w_connectors (<[c := x1]> (w_connectors w)) w).
  assert (w_connectors w0 !! c = Some x1) as Hc0 by (simpl; by rewrite lookup_insert_eq).
  destruct (Connector_connect_run c x1 w0 Hc0 Hret) as (w2 & [E _] & Hrun).
  change (attempt_errno x1 w0) with (attempt_errno x w) in Hrun. rewrite Hprogress in Hrun.
  assert (wp (Connector_start c) (λ _ w1, w_connectors w1 !! c = Some (in_progress (w_next w) x1)
    ∧ w_loops w1 = w_loops w ∧ w_tid w1 = w_tid w) w) as Hwp.
  { apply wp_bind. eapply upd_connector_wp; [exact Hc|]. fold x1 w0.
    apply wp_bind. eapply get_connector_wp; [exact Hc0|].
    apply wp_bind. eapply isInLoopThread_wp; [exact Hl|]. rewrite bool_decide_true by done.
    apply wp_bind, wp_bind. eapply get_connector_wp; [exact Hc0|].
    eapply assertInLoopThread_here; [exact Hl|done|].
    apply wp_bind. eapply get_connector_wp; [exact Hc0|].
    apply wp_bind, wp_assert; [by apply bool_decide_eq_true|]. cbn [cn_connect x1 set_cn_connect when].
    unfold wp at 1. rewrite Hrun.
    assert (w_next w2 = w_next w) as Hn by (by rewrite E).
    eapply (connecting_wp c _ x1).
    - split; [by rewrite E|done|]. rewrite E. eauto.
    - eapply poller_free_frame; [|exact Hfree]. by rewrite E.
    - cbv zeta. rewrite Hn. intros i w' E' _ _ _. rewrite E', E. simpl.
      by rewrite !lookup_insert_eq. }
  apply wp_run in Hwp as ([] & w1 & Hstart & Hc1 & Hl1 & Ht1). exists w1. split; [done|].
  intros user. simpl. unfold Connector_startInLoop.
  assert (wp (connector_assertInLoopThread c) (λ _ w', w' = w1) w1) as Hassert.
  { apply wp_bind. eapply get_connector_wp; [exact Hc1|].
    eapply assertInLoopThread_here; [by rewrite Hl1|by rewrite Ht1|done]. }
  apply wp_run in Hassert as ([] & w' & Ha & ->). rewrite bind_run, Ha, bind_run.
  unfold get_connector, gets_some. rewrite Hc1, bind_run. done.
Qed.
End attempts.

(** ** The socket becomes writable *)

(** What [getSocketError] makes of its call. *)
Definition so_error (r : sysres) : Z :=
  if ret r <? 0 then err r else i32 (load LittleEndian (payload r)).

Section settling.
Context {K : Type} `{!OS K} {P : Poller K} `{!PollerLaws K P}.
Context (new_connection : ptr → Z → M (World K) unit).
Implicit Types w : World K.

(** A connector whose attempt is in progress on channel [chan]. *)
Record attempting (c : ptr) (x : Connector) (chan : ptr) (ch : Channel) (lx : EventLoop) w : Prop := {
  at_connector : w_connectors w !! c = Some x;
  at_state : cn_state x = cConnecting;
  at_channel : cn_channel x = Some chan;
  at_live : live_channel w chan ch;
  at_loop : ch_loop ch = cn_loop x;
  at_lookup : w_loops w !! cn_loop x = Some lx;
  at_active : el_eventHandling lx = true →
    el_currentActiveChannel lx = Some chan ∨ chan ∉ el_activeChannels lx
}.

(** What [removeAndResetChannel] leaves: the poller without the descriptor and the
    channel's deletion queued. *)
Record detached (c : ptr) (x : Connector) (ch : Channel) (lx : EventLoop) w w' : Prop := {
  de_connectors : w_connectors w' = w_connectors w;
  de_free : poller_free (w_r w') (cn_loop x) (ch_fd ch);
  de_loops : w_loops w' = w_loops (enqueue (cn_loop x) lx (FnConnector_resetChannel c) w)
}.

Lemma removeAndResetChannel_wp c x chan ch lx (Q : Z → World K → Prop) w :
  attempting c x chan ch lx w → (∀ w', detached c x ch lx w w' → Q (ch_fd ch) w') →
  wp (removeAndResetChannel c) Q w.
Proof.
  intros [Hc _ Hchan Hlive Hloop Hl Hact] HQ.
  apply wp_bind, wp_bind. eapply get_connector_wp; [done|]. eapply wp_gets_some; [exact Hchan|].
  apply wp_bind. eapply set_events_update_wp; [exact Hlive|reflexivity|].
  cbv zeta. intros i w1 (E1 & _ & _ & _) Hlive1 Hatt.
  apply wp_bind. eapply remove_wp; [exact Hlive1|done|exact Hatt| |].
  { rewrite E1. simpl. rewrite Hloop, Hl. by intros lx0 [= <-]. }
  cbv zeta. intros j w2 (E2 & _ & _ & _) Hlive2 Hfree _.
  pose proof Hlive2 as (Hch2 & _ & lx2 & Hl2 & Ht2). simpl in Hl2. rewrite Hloop in Hl2.
  assert (w_connectors w2 = w_connectors w ∧ w_loops w2 = w_loops w) as [Hcs Hls]
    by (by rewrite E2, E1).
  assert (lx2 = lx) as -> by congruence.
  apply wp_bind. eapply chan_at_wp; [exact Hch2|].
  apply wp_bind. eapply get_connector_wp; [by rewrite Hcs|].
  apply wp_bind. eapply queueInLoop_wp; [exact Hl2|done|].
  intros io tr _ _. apply wp_ret, HQ. split.
  - exact Hcs.
  - eapply poller_free_frame; [|rewrite <- Hloop; exact Hfree]. done.
  - simpl. by rewrite Hls.
Qed.

Lemma getSocketError_wp fd (Q : Z → World K → Prop) w :
  Q (so_error (result_of (SysSoError fd) w)) (after_call (SysSoError fd) [] w) →
  wp (getSocketError fd) Q w.
Proof.
  intros HQ. apply wp_bind, call_wp. unfold so_error in HQ.
  destruct (Z.ltb_spec (ret (result_of (SysSoError fd) w)) 0).
  - by apply errno_after_call.
  - by apply wp_ret.
Qed.

(** Both address calls log and go on when they fail. *)
Lemma local_peer_wp fd calls w0 (Q : bool → World K → Prop) w :
  made w0 calls w →
  (∀ r2 r3 w', made w0 (calls ++ [(SysGetsockname fd, r2); (SysGetpeername fd, r3)]) w' →
     Q (same_endpoint (filled zero_addr (payload r2)) (filled zero_addr (payload r3))) w') →
  wp (isSelfConnect fd) Q w.
Proof.
  intros Hm HQ.
  assert (∀ call msg addr calls (R : sockaddr → World K → Prop) w1,
    made w0 calls w1 →
    (∀ w2, made w0 (calls ++ [(call, result_of call w1)]) w2 → R (addr (result_of call w1)) w2) →
    wp (r ← syscall_ call; when (ret r <? 0) (LOG_ERROR msg);; mret (addr r)) R w1) as Hstep.
  { intros call msg addr calls' R w1 Hw1 HR. apply wp_bind, call_wp.
    pose proof (made_call call [] _ _ _ Hw1) as Hc.
    apply wp_bind, wp_when; intros _; [eapply made_log; [exact Hc|]; intros w2 Hw2|];
      by apply wp_ret, HR. }
  apply wp_bind, Hstep with (calls := calls); [exact Hm|]. intros w1 Hw1.
  apply wp_bind, Hstep with (calls := calls ++ [(SysGetsockname fd, result_of (SysGetsockname fd) w)]);
    [exact Hw1|]. intros w2 Hw2.
  apply wp_ret. eapply HQ. rewrite <- app_assoc in Hw2. exact Hw2.
Qed.

Lemma get_connector_run c x w : w_connectors w !! c = Some x → get_connector c w = Ok (x, w).
Proof. intros H. unfold get_connector, gets_some. by rewrite H. Qed.

Definition probes (fd : Z) (r1 r2 r3 : sysres) : list (syscall * sysres) :=
  [(SysSoError fd, r1); (SysGetsockname fd, r2); (SysGetpeername fd, r3)].

(** C24: a writable socket is settled, once.  When the socket of an attempt becomes
    writable the connector first takes its channel out of the poller and queues
    the channel's deletion.  Then it asks for the socket's error: if there is one,
    or if the two ends of the connection have the same address and port, the
    socket goes to [retry]; otherwise the connector is [kConnected] and the socket
    goes to the connection callback, or is closed if [stop] came in between. *)
Theorem handleWrite_settles_the_socket (c : ptr) (x : Connector) (chan : ptr) (ch : Channel)
    (lx : EventLoop) (client : ptr) w (Hat : attempting c x chan ch lx w)
    (Hcb : cn_newConnectionCallback x = Some client) :
  let fd := ch_fd ch in
  let run := Connector_handleWrite new_connection c w in
  ∃ w1, detached c x ch lx w w1 ∧
    let r1 := result_of (SysSoError fd) w1 in
    if nonzero (so_error r1) then run = retry c fd (after_call (SysSoError fd) [] w1)
    else ∃ r2 r3 w2, made w1 (probes fd r1 r2 r3) w2 ∧
      let w2' := set_w_connectors (<[c := set_cn_state cConnected x]> (w_connectors w2)) w2 in
      if same_endpoint (filled zero_addr (payload r2)) (filled zero_addr (payload r3))
      then run = retry c fd w2
      else if cn_connect x then run = new_connection client fd w2'
      else ∃ r4 w3, run = Ok (tt, w3) ∧ made w2' [(SysClose fd, r4)] w3.
Proof.
  intros fd run. pose proof Hat as [Hc Hst _ _ _ _ _].
  assert (wp (removeAndResetChannel c) (λ v w1, v = fd ∧ detached c x ch lx w w1) w) as H1
    by (eapply removeAndResetChannel_wp; eauto).
  apply wp_run in H1 as (? & w1 & Hrun1 & -> & Hd).
  exists w1. split; [done|]. intros r1.
  assert (wp (getSocketError fd) (λ v w2, v = so_error r1 ∧ w2 = after_call (SysSoError fd) [] w1) w1)
    as H2 by (by apply getSocketError_wp).
  apply wp_run in H2 as (? & ? & Hrun2 & -> & ->).
  assert (w_connectors w1 !! c = Some x) as Hc1 by (by rewrite (de_connectors _ _ _ _ _ _ Hd)).
  unfold run, Connector_handleWrite.
  rewrite bind_run, (get_connector_run _ _ _ Hc), Hst, bool_decide_true, bind_run, Hrun1,
    bind_run, Hrun2 by done.
  destruct (nonzero (so_error r1)); [done|].
  assert (wp (isSelfConnect fd) (λ v w2, ∃ r2 r3,
    v = same_endpoint (filled zero_addr (payload r2)) (filled zero_addr (payload r3))
    ∧ made w1 (probes fd r1 r2 r3) w2) (after_call (SysSoError fd) [] w1)) as H3
    by (eapply local_peer_wp; [apply (made_one (SysSoError fd) [] w1)|eauto]).
  apply wp_run in H3 as (self & w2 & Hrun3 & r2 & r3 & -> & Hm).
  exists r2, r3, w2. split; [done|]. set (w2' := set_w_connectors _ w2). rewrite bind_run, Hrun3.
  destruct (same_endpoint _ _); [done|].
  assert (w_connectors w2 !! c = Some x) as Hc2 by (by rewrite (proj1 Hm)).
  assert (upd_connector c (set_cn_state cConnected) w2 = Ok (tt, w2')) as Hupd.
  { unfold upd_connector. by rewrite bind_run, (get_connector_run _ _ _ Hc2). }
  assert (w_connectors w2' !! c = Some (set_cn_state cConnected x)) as Hc3
    by (simpl; by rewrite lookup_insert_eq).
  rewrite bind_run, Hupd, bind_run, (get_connector_run _ _ _ Hc3).
  cbn [cn_connect set_cn_state]. destruct (cn_connect x).
  - unfold run_newConnectionCallback. rewrite bind_run, (get_connector_run _ _ _ Hc3).
    cbn [cn_newConnectionCallback set_cn_state]. by rewrite Hcb.
  - assert (wp (sockets_close fd) (λ _ w3, ∃ r4, made w2' [(SysClose fd, r4)] w3) w2') as H4
      by (eapply sockets_close_wp; [apply made_nil|eauto]).
    apply wp_run in H4 as ([] & w3 & Hrun4 & r4 & Hm4). eauto.
Qed.
End settling.

(** *** A connector at address 50 on loop 0 *)

Definition sample_connector (connect : bool) : Connector :=
  mkConnector 0%nat (set_port 20480 (set_family AF_INET zero_addr)) connect cDisconnected None
    (Some 51%nat) kInitRetryDelayMs.

Definition connector_world (x : Connector) (script : list sysres) : World sim :=
  set_w_connectors {[50%nat := x]}
    (set_w_r (set_r_io (mkIO (mkSim script (sim_interest (io_k (r_io sample_reactor)))) [] 0 [])
       sample_reactor) sample_world).

Lemma sample_idle connect script :
  idle 50%nat (sample_connector connect) (connector_world (sample_connector connect) script).
Proof. split; [done|done|by exists sample_loop]. Qed.

Lemma retries_back_off_witness :
  ∃ w' calls, for_each [8; 9; 10] (retry 50%nat) (connector_world (sample_connector true) []) = Ok (tt, w')
    ∧ retried 50%nat 0 10%nat [8; 9; 10] (w_timers w') calls
    ∧ (cn_retryDelayMs <$> w_connectors w' !! 50%nat) = Some 4000.
Proof.
  destruct (retries_back_off 50%nat [8; 9; 10] (sample_connector true) sample_loop
    (connector_world (sample_connector true) [])) as (w' & calls & Hrun & _ & Hr & Hd).
  - split; [done|done| |done]. split_and!; [done|done|by constructor|by constructor].
  - done.
  - exists w', calls. split; [exact Hrun|]. split; [exact Hr|]. rewrite Hd. by vm_compute.
Defined.

(** socket(2) gives 8, connect(2) says EINPROGRESS. *)
Definition progress_script : list sysres := [mkRes 8 0 [] []; mkRes (-1) EINPROGRESS [] []].

Lemma progress_attempt connect :
  ret (attempt_connect (sample_connector connect)
         (connector_world (sample_connector connect) progress_script)) ≤ 0.
Proof. by vm_compute. Qed.

Lemma progress_free connect :
  poller_free (w_r (connector_world (sample_connector connect) progress_script)) 0%nat 8.
Proof. exists sample_poller. split; [done|by vm_compute]. Qed.

Lemma connect_accounts_for_its_socket_witness :
  ∃ w' i, Connector_connect 50%nat (connector_world (sample_connector true) progress_script) = Ok (tt, w')
    ∧ live_channel w' 10%nat (attempt_chan 0%nat 50%nat 8 i).
Proof.
  pose proof (connect_accounts_for_its_socket 50%nat (sample_connector true)
    (connector_world (sample_connector true) progress_script) (sample_idle true progress_script)
    (progress_attempt true)) as H. cbv zeta in H.
  change (connect_case _) with InProgress in H.
  destruct (H (progress_free true)) as (w' & i & calls & Hrun & _ & Hlive & _).
  exists w', i. split; [exact Hrun|exact Hlive].
Defined.

Lemma stale_retry_timer_aborts_witness :
  ∃ w1, Connector_start 50%nat (connector_world (sample_connector false) progress_script) = Ok (tt, w1)
    ∧ run_timer (λ _, mret tt) (TcbConnector_startInLoop 50%nat) w1
      = Fault (AssertFailed "Connector.cpp:39").
Proof.
  destruct (stale_retry_timer_aborts 50%nat (sample_connector false)
    (connector_world (sample_connector false) progress_script) (sample_idle false progress_script)
    eq_refl (progress_attempt false) eq_refl (progress_free false)) as (w1 & Hrun & Hfault).
  exists w1. split; [exact Hrun|apply Hfault].
Defined.

(** The attempt on channel 52, descriptor 8, watched by the kernel; no error, and
    a peer on another port. *)
Definition attempt_reactor (script : list sysres) : Reactor sim :=
  mkReactor (mkIO (mkSim script {[3 := {[8 := (4, 52%nat)]}]}) [] 0 [])
    {[52%nat := attempt_chan 0%nat 50%nat 8 1]}
    {[0%nat := set_ep_channels {[8 := 52%nat]} sample_poller]}.

Definition attempt_world (script : list sysres) : World sim :=
  set_w_connectors {[50%nat := in_progress 52%nat (sample_connector true)]}
    (set_w_r (attempt_reactor script) sample_world).

Definition settle_script : list sysres :=
  [mkRes 0 0 (store LittleEndian 4 0) [];
   mkRes 0 0 (set_port 1 (set_family AF_INET zero_addr)) [];
   mkRes 0 0 (set_port 2 (set_family AF_INET zero_addr)) []].

Lemma handleWrite_settles_the_socket_witness :
  ∃ w1 w', detached 50%nat (in_progress 52%nat (sample_connector true)) (attempt_chan 0%nat 50%nat 8 1)
      sample_loop (attempt_world settle_script) w1
    ∧ Connector_handleWrite (λ _ _, mret tt) 50%nat (attempt_world settle_script) = Ok (tt, w')
    ∧ (cn_state <$> w_connectors w' !! 50%nat) = Some cConnected.
Proof.
  destruct (handleWrite_settles_the_socket (λ _ _, mret tt) 50%nat
    (in_progress 52%nat (sample_connector true)) 52%nat (attempt_chan 0%nat 50%nat 8 1) sample_loop
    51%nat (attempt_world settle_script)) as (w1 & Hd & _).
  - split; try done. split_and!; [done| |by exists sample_loop].
    exists (set_ep_channels {[8 := 52%nat]} sample_poller), (attempt_chan 0%nat 50%nat 8 1).
    split_and!; [done..|]. right. split; [by left|done].
  - done.
  - exists w1. eexists. split; [exact Hd|]. by vm_compute.
Defined.

(** A client's connector goes with the client, unless a timer has it; its channel has to be
    gone by then. *)
Definition client_world (timers : gmap ptr Timer) (channel : option ptr) : World sim :=
  let w := connector_world (set_cn_channel channel (sample_connector true)) [] in
  set_w_timers timers (set_w_next 60%nat w).

Example connector_goes_with_its_last_owner :
  let gone timers channel :=
    match reap_connector 50%nat (client_world timers channel) with
    | Ok (_, w') => Ok (bool_decide (w_connectors w' !! 50%nat = None))
    | Fault e => Fault e
    end in
  gone ∅ None = Ok true
  ∧ gone {[9%nat := mkTimer (TcbConnector_startInLoop 50%nat) 5 (double_of_Z 0) false 1]} None = Ok false
  ∧ gone ∅ (Some 52%nat) = Fault (AssertFailed "Connector.cpp:28").
Proof. by vm_compute. Qed.
