(* ===== verification/Serving.v ===== *)
(** * Serving: connections from accept to removal

    The server's side of a connection's life, over the definitions of
    TcpServer.v: a new connection is registered and established, and one that is
    closed is forgotten. *)
From S2P Require Import Prelude Endian Buffer OS Objects Poller LoopCore Channel TimerQueue Sockets Calls TcpConnection ByteStream Lifecycle EventLoop Threads Acceptor TcpServer Program.

Set Default Goal Selector "!".

Section parts.
Context {K : Type} `{!OS K} {P : Poller K}.
Implicit Types w : World K.

Lemma get_server_wp s x (Q : TcpServer → World K → Prop) w :
  w_servers w !! s = Some x → Q x w → wp (get_server s) Q w.
Proof. intros H HQ. by eapply wp_gets_some. Qed.

Lemma upd_server_wp s f x (Q : unit → World K → Prop) w :
  w_servers w !! s = Some x → Q tt (set_w_servers (<[s := f x]> (w_servers w)) w) →
  wp (upd_server s f) Q w.
Proof. intros H HQ. apply wp_bind. eapply get_server_wp; [done|]. by apply wp_modify. Qed.

Lemma enter_connection_wp s x name conn (Q : unit → World K → Prop) w :
  w_servers w !! s = Some x → sv_connections x !! name = None →
  Q tt (set_w_servers (<[s := set_sv_connections (<[name := conn]> (sv_connections x)) x]>
          (w_servers w)) w) → wp (enter_connection s name conn) Q w.
Proof.
  intros Hs Hnone HQ. apply wp_bind. eapply get_server_wp; [done|]. rewrite Hnone.
  apply wp_bind. eapply upd_server_wp; [done|]. by apply wp_ret.
Qed.

Lemma upd_conn_wp c f x (Q : unit → World K → Prop) w :
  w_conns w !! c = Some x → Q tt (set_w_conns (<[c := f x]> (w_conns w)) w) →
  wp (upd_conn c f) Q w.
Proof. intros H HQ. apply wp_bind. eapply wp_gets_some; [done|]. by apply wp_modify. Qed.

Lemma getNextLoop_single_wp p pl lx (Q : ptr → World K → Prop) w :
  w_pools w !! p = Some pl → pl_loops pl = [] →
  w_loops w !! pl_baseLoop pl = Some lx → el_threadId lx = w_tid w →
  Q (pl_baseLoop pl) w → wp (getNextLoop p) Q w.
Proof.
  intros Hs Hnone Hl Ht HQ. apply wp_bind. eapply get_pool_wp; [done|]. rewrite Hnone.
  apply wp_bind. eapply assertInLoopThread_here; [done..|]. by apply wp_ret.
Qed.

Lemma getLocalAddr_wp sockfd (Q : sockaddr → World K → Prop) w :
  (∀ addr r io, length addr = sizeof_sockaddr → io_by [(SysGetsockname sockfd, r)] (w_io w) io →
     Q addr (with_io io w)) →
  wp (getLocalAddr sockfd) Q w.
Proof.
  intros HQ. apply wp_bind, call_wp. set (r := result_of _ w).
  assert (length (filled zero_addr (payload r)) = sizeof_sockaddr) as Hlen.
  { unfold filled. rewrite length_overwrite; [done|]. rewrite length_take. unfold zero_addr.
    rewrite length_replicate. lia. }
  apply wp_bind, wp_when; intros _; [apply log_after_call|]; apply wp_ret; rewrite after_call_same;
    (eapply HQ; [exact Hlen|apply io_by_call]).
Qed.

(** The channel and the connection as the constructor leaves them. *)
Definition new_chan (loop conn : ptr) (sockfd : Z) : Channel :=
  mkChannel loop sockfd 0 0 (-1) true None false false false
    (Some (CbTcpConnection_handleRead conn)) (Some (CbTcpConnection_handleWrite conn))
    (Some (CbTcpConnection_handleClose conn)) (Some (CbTcpConnection_handleError conn)).

Definition new_conn (loop : ptr) (name : string) (sockfd : Z) (channel : ptr)
    (localAddr peerAddr : sockaddr) : TcpConnection :=
  mkTcpConnection loop name kConnecting true sockfd channel localAddr peerAddr
    None None None None None (64 * 1024 * 1024) (fresh_buffer kInitialSize) (fresh_buffer kInitialSize).

Lemma TcpConnection_ctor_wp loop name sockfd la pa (Q : ptr → World K → Prop) w :
  (∀ r io, io_by [(SysSetsockopt sockfd "SO_KEEPALIVE" 1, r)] (w_io w) io → Q (w_next w)
     (with_io io
        (set_w_conns (<[w_next w := new_conn loop name sockfd (S (w_next w)) la pa]> (w_conns w))
        (set_w_r (set_r_chans (<[S (w_next w) := new_chan loop (w_next w) sockfd]> (r_chans (w_r w)))
                    (w_r w))
        (set_w_next (S (S (w_next w))) w))))) →
  wp (TcpConnection_ctor loop name sockfd la pa) Q w.
Proof.
  intros HQ. unfold TcpConnection_ctor. apply wp_bind. unfold fresh at 1, wp at 1.
  apply wp_bind. unfold fresh, wp at 1. cbn [w_next set_w_next].
  apply wp_bind, in_reactor_wp, wp_modify. unfold set_w_r, set_r_chans at 1.
  do 2 (apply wp_bind, Buffer_ctor_wp; [done..|]). simpl.
  do 4 (apply wp_bind; eapply upd_chan_wp; [simpl; by rewrite lookup_insert_eq|]; simpl;
        rewrite insert_insert_eq).
  apply wp_bind, wp_modify. apply wp_bind, wp_bind. unfold setsockopt. apply wp_bind, call_by_wp.
  intros io Hio. apply wp_ret, wp_ret, wp_ret. exact (HQ _ io Hio).
Qed.
End parts.

Section establishing.
Context {K : Type} `{!OS K} {P : Poller K} `{!PollerLaws K P}.
Context (user : UserCall → M (World K) unit).
Implicit Types w : World K.

(** [connectEstablished] up to the connection callback, given what enabling reading
    comes to. *)
Lemma connectEstablished_leads c y ch lx (D : World K → Prop) w :
  w_conns w !! c = Some y → tc_state y = kConnecting → r_chans (w_r w) !! tc_channel y = Some ch →
  w_loops w !! tc_loop y = Some lx → el_threadId lx = w_tid w →
  wp (enableReading (tc_channel y)) (λ _, D)
    (set_w_r (set_r_chans (<[tc_channel y := tie_channel c ch]> (r_chans (w_r w))) (w_r w))
       (set_w_conns (<[c := set_tc_state kConnected y]> (w_conns w)) w)) →
  leads_to (connectEstablished user c) D (run_connectionCallback user c) w.
Proof.
  intros Hc Hst Hch Hl Ht Hen.
  apply leads_to_bind, wp_bind, wp_bind. eapply wp_gets_some; [done|]. apply wp_ret.
  eapply assertInLoopThread_here; [done..|].
  apply leads_to_bind. eapply wp_gets_some; [done|].
  apply leads_to_bind, wp_assert; [by rewrite Hst|].
  apply leads_to_bind. eapply upd_conn_wp; [done|].
  apply leads_to_bind. eapply upd_chan_wp; [exact Hch|].
  apply leads_to_bind. eapply wp_mono; [exact Hen|]. intros [] w'. apply leads_to_end.
Qed.

(** The connection a server makes. *)
Definition served_conn (s : ptr) (x : TcpServer) (sockfd : Z) (channel : ptr)
    (localAddr peerAddr : sockaddr) : TcpConnection :=
  mkTcpConnection (sv_loop x) (server_conn_name (sv_name x) (sv_ipPort x) (sv_nextConnId x))
    kConnected true sockfd channel localAddr peerAddr
    (Some (sv_connectionCallback x)) (Some (sv_messageCallback x)) (sv_writeCompleteCallback x)
    None (Some (CcTcpServer_removeConnection s)) (64 * 1024 * 1024)
    (fresh_buffer kInitialSize) (fresh_buffer kInitialSize).

(** A server without threads of its own, run by its loop's thread, and a new
    descriptor. *)
Record ready_for (s : ptr) (x : TcpServer) (sockfd : Z) w : Prop := {
  rf_server : w_servers w !! s = Some x;
  rf_pool : ∃ pl, w_pools w !! sv_threadPool x = Some pl
                  ∧ pl_loops pl = [] ∧ pl_baseLoop pl = sv_loop x;
  rf_thread : ∃ lx, w_loops w !! sv_loop x = Some lx ∧ el_threadId lx = w_tid w
                    ∧ el_wakeupFd lx ≠ sockfd;
  rf_id : 0 ≤ sv_nextConnId x < 2 ^ 31 - 1;
  rf_name : sv_connections x !! server_conn_name (sv_name x) (sv_ipPort x) (sv_nextConnId x) = None;
  rf_fd : poller_free (w_r w) (sv_loop x) sockfd
}.

Definition after_accept (conn : ptr) (x : TcpServer) : TcpServer :=
  set_sv_connections (<[server_conn_name (sv_name x) (sv_ipPort x) (sv_nextConnId x) := conn]>
    (sv_connections x)) (set_sv_nextConnId (sv_nextConnId x + 1) x).

(** The world in which the channel of a new connection is about to be enabled. *)
Definition entered (s : ptr) (x : TcpServer) (sockfd : Z) (localAddr peerAddr : sockaddr) w : World K :=
  let conn := w_next w in
  set_w_conns (<[conn := served_conn s x sockfd (S conn) localAddr peerAddr]> (w_conns w))
    (set_w_r (set_r_chans
       (<[S conn := tie_channel conn (new_chan (sv_loop x) conn sockfd)]> (r_chans (w_r w))) (w_r w))
    (set_w_servers (<[s := after_accept conn x]> (w_servers w)) (set_w_next (S (S conn)) w))).

(** [newConnection] up to the connection callback. *)
Lemma newConnection_leads s x sockfd peerAddr (D : World K → Prop) w :
  ready_for s x sockfd w →
  (∀ localAddr r r' io,
     io_by [(SysGetsockname sockfd, r); (SysSetsockopt sockfd "SO_KEEPALIVE" 1, r')] (w_io w) io →
     wp (enableReading (S (w_next w))) (λ _, D) (with_io io (entered s x sockfd localAddr peerAddr w))) →
  leads_to (TcpServer_newConnection user s sockfd peerAddr) D
    (run_connectionCallback user (w_next w)) w.
Proof.
  intros [Hs (pl & Hpl & Hnone & Hbase) (lx & Hl & Ht & _) Hid Hname _] HD.
  set (conn := w_next w) in *. set (name := server_conn_name _ _ _) in Hname.
  apply leads_to_bind. eapply get_server_wp; [done|].
  apply leads_to_bind. eapply assertInLoopThread_here; [done..|].
  apply leads_to_bind. eapply getNextLoop_single_wp; [exact Hpl|exact Hnone|by rewrite Hbase|done|]. rewrite Hbase.
  apply leads_to_bind. unfold next_conn_id. rewrite (proj2 (Z.ltb_lt _ _)) by lia. apply wp_ret.
  apply leads_to_bind. eapply upd_server_wp; [done|]. fold name.
  apply leads_to_bind, getLocalAddr_wp. intros la r io _ Hio.
  apply leads_to_bind, TcpConnection_ctor_wp. intros r' io' Hio'. cbn [w_next with_io set_w_r set_w_servers].
  fold conn. apply leads_to_bind.
  eapply enter_connection_wp; [simpl; by rewrite lookup_insert_eq|exact Hname|].
  simpl. rewrite insert_insert_eq.
  apply leads_to_bind. eapply get_server_wp; [simpl; by rewrite lookup_insert_eq|].
  do 4 (apply leads_to_bind; eapply upd_conn_wp; [simpl; by rewrite lookup_insert_eq|]; simpl;
        rewrite insert_insert_eq).
  apply leads_to_bind. eapply isInLoopThread_wp; [exact Hl|].
  rewrite bool_decide_true by exact Ht.
  eapply (connectEstablished_leads conn
    (set_tc_state kConnecting (served_conn s x sockfd (S conn) la peerAddr))
    (new_chan (sv_loop x) conn sockfd)); [simpl; by rewrite lookup_insert_eq|done|
    simpl; by rewrite lookup_insert_eq|exact Hl|exact Ht|].
  pose proof (HD la r r' io' (io_by_app _ _ _ _ _ Hio Hio')) as Hen.
  unfold entered in Hen. unfold_world. unfold_world in Hen. rewrite !insert_insert_eq. exact Hen.
Qed.

(** C21: an accepted connection is established before the program hears of it.
    [newConnection] of a single-threaded server gives the descriptor to a new
    connection, enters it in the server's map under the next name, with the
    server's callbacks, and runs nothing of the program's until the connection is
    in state [kConnected], its channel tied to it, bound to its members and
    waiting for input, and its buffers empty: the state in which sending and
    receiving are a byte stream.  Then it calls the connection callback. *)
Theorem newConnection_establishes (s : ptr) (x : TcpServer) (sockfd : Z) (peerAddr : sockaddr) w
    (Hready : ready_for s x sockfd w) :
  let conn := w_next w in
  ∃ channel localAddr ch w',
    TcpServer_newConnection user s sockfd peerAddr w = run_connectionCallback user conn w'
    ∧ w_servers w' !! s = Some (after_accept conn x)
    ∧ conn_ok conn (served_conn s x sockfd channel localAddr peerAddr) ch w'
    ∧ ch_events ch = kReadEvent ∧ ch_tie ch = Some conn ∧ ch_tied ch = true
    ∧ ch_readCallback ch = Some (CbTcpConnection_handleRead conn)
    ∧ ch_writeCallback ch = Some (CbTcpConnection_handleWrite conn)
    ∧ ch_closeCallback ch = Some (CbTcpConnection_handleClose conn)
    ∧ ∀ c, c ≠ conn → w_conns w' !! c = w_conns w !! c.
Proof.
  intros conn. pose proof Hready as [_ _ (lx & Hl & Ht & Hwake) _ _ Hfd].
  set (ch0 := tie_channel conn (new_chan (sv_loop x) conn sockfd)).
  cut (leads_to (TcpServer_newConnection user s sockfd peerAddr) (λ w', ∃ la i,
    let ch := set_ch_index i (set_ch_addedToLoop true (set_ch_events kReadEvent ch0)) in
    w' = set_w_r (w_r w') (entered s x sockfd la peerAddr w) ∧ live_channel w' (S conn) ch)
    (run_connectionCallback user conn) w).
  { intros (w' & (la & i & E & Hlive) & Hrun).
    exists (S conn), la, (set_ch_index i (set_ch_addedToLoop true (set_ch_events kReadEvent ch0))), w'.
    split_and!; [exact Hrun| | |done..|].
    - rewrite E. simpl. by rewrite lookup_insert_eq.
    - split; [split|]; [|exact Hlive|done|done| |vm_compute; by repeat split|done].
      + rewrite E. simpl. by rewrite lookup_insert_eq.
      + rewrite E. simpl. intros lx'. rewrite Hl. by intros [= <-].
    - intros c Hc. rewrite E. simpl. by rewrite lookup_insert_ne. }
  eapply newConnection_leads; [done|]. intros la r r' io _.
  eapply (set_events_update_wp (S conn) ch0).
  - split_and!; [simpl; by rewrite lookup_insert_eq| |simpl; eauto].
    eapply poller_ok_new; [simpl; by rewrite lookup_insert_eq|done|].
    by eapply poller_free_frame; [|exact Hfd].
  - reflexivity.
  - cbv zeta. intros i w' (E & _) Hlive _. exists la, i. split; [|exact Hlive].
    rewrite E. reflexivity.
Qed.
End establishing.

Section closing.
Context {K : Type} `{!OS K} {P : Poller K} `{!PollerLaws K P}.
Context (user : UserCall → M (World K) unit).
Implicit Types w : World K.

(** A program that leaves a connection alone when it hears that it is down. *)
Definition leaves_closed_alone : Prop := ∀ id c y w,
  w_conns w !! c = Some y → tc_state y = kDisconnected →
  user (UcConnection id c false) w = Ok (tt, w).

Context (Huser : leaves_closed_alone).

(** What a program that sets callback [cb] hears. *)
Definition heard (cb : ConnectionCallback) (c : ptr) (up : bool) : list UserCall :=
  match cb with
  | defaultConnectionCallback => []
  | UserConnectionCallback id => [UcConnection id c up]
  end.

Lemma closed_connectionCallback_wp c y cb (Q : unit → World K → Prop) w :
  w_conns w !! c = Some y → tc_state y = kDisconnected → tc_connectionCallback y = Some cb →
  Q tt (set_w_calls (w_calls w ++ heard cb c false) w) → wp (run_connectionCallback user c) Q w.
Proof.
  intros Hc Hst Hcb HQ. apply wp_bind. eapply wp_gets_some; [done|]. rewrite Hcb, Hst.
  destruct cb as [|id].
  - apply wp_ret. simpl in HQ. rewrite app_nil_r in HQ. by destruct w.
  - apply wp_bind, wp_modify. unfold wp. by rewrite (Huser id c y).
Qed.

(** The server a connection belongs to, in the same thread. *)
Record member_of (s : ptr) (x : TcpServer) (c : ptr) (y : TcpConnection) w : Prop := {
  mo_server : w_servers w !! s = Some x;
  mo_close : tc_closeCallback y = Some (CcTcpServer_removeConnection s);
  mo_loop : sv_loop x = tc_loop y;
  mo_entry : sv_connections x !! tc_name y = Some c
}.

Definition forget (y : TcpConnection) (x : TcpServer) : TcpServer :=
  set_sv_connections (delete (tc_name y) (sv_connections x)) x.

(** [removeConnection] in the server's thread. *)
Lemma TcpServer_removeConnection_wp s x c y lx (Q : unit → World K → Prop) w :
  w_conns w !! c = Some y → w_servers w !! s = Some x → sv_loop x = tc_loop y →
  sv_connections x !! tc_name y = Some c →
  w_loops w !! tc_loop y = Some lx → el_threadId lx = w_tid w →
  (∀ io, (el_callingPendingFunctors lx = false → io = w_io w) → Q tt (with_io io
     (set_w_servers (<[s := forget y x]> (w_servers w))
        (enqueue (tc_loop y) lx (FnTcpConnection_connectDestroyed c) w)))) →
  wp (TcpServer_removeConnection s c) Q w.
Proof.
  intros Hc Hs Hloop Hin Hl Ht HQ.
  apply wp_bind. eapply get_server_wp; [done|]. rewrite Hloop.
  apply wp_bind. eapply isInLoopThread_wp; [done|]. rewrite bool_decide_true by done.
  apply wp_bind. eapply get_server_wp; [done|]. rewrite Hloop.
  apply wp_bind. eapply assertInLoopThread_here; [done..|].
  apply wp_bind. eapply wp_gets_some; [done|].
  apply wp_bind. eapply upd_server_wp; [done|]. fold (forget y x).
  apply wp_bind, wp_assert; [rewrite Hin; by apply bool_decide_eq_true|].
  eapply queueInLoop_wp; [done..|]. intros io tr _ Hwake. apply HQ. intros Hcall.
  unfold must_wake in Hwake. cbn [w_tid set_w_servers] in Hwake.
  rewrite Hcall, bool_decide_true in Hwake by done. by destruct Hwake.
Qed.

(** A channel stays live when the I/O state, the servers, the calls and a loop's
    queue change. *)
Lemma live_channel_enqueue w chan ch l lx f io servers calls :
  live_channel w chan ch → w_loops w !! l = Some lx →
  live_channel (with_io io (set_w_servers servers (enqueue l lx f (set_w_calls calls w)))) chan ch.
Proof.
  intros (Hch & Hok & lx0 & Hl0 & Ht) Hl. split_and!; [done|by apply poller_ok_io|]. simpl.
  destruct (decide (ch_loop ch = l)) as [El|Hne].
  - rewrite El in *. rewrite lookup_insert_eq. rewrite Hl in Hl0. injection Hl0 as <-. by eexists.
  - rewrite lookup_insert_ne by done. eauto.
Qed.

(** The world after [handleClose], [r] being the reactor after its [disableAll]. *)
Definition after_close (s : ptr) (x : TcpServer) (c : ptr) (y : TcpConnection) (lx : EventLoop)
    (cb : ConnectionCallback) (r : Reactor K) w : World K :=
  set_w_servers (<[s := forget y x]> (w_servers w))
    (enqueue (tc_loop y) lx (FnTcpConnection_connectDestroyed c)
      (set_w_calls (w_calls w ++ heard cb c false)
        (set_w_r r (set_w_conns (<[c := set_tc_state kDisconnected y]> (w_conns w)) w)))).

(** [handleClose] of a server's connection, given what disabling its channel comes to. *)
Lemma handleClose_run_wp s x c y ch lx cb (D : Reactor K → Prop) (Q : unit → World K → Prop) w :
  conn_core c y ch w → closable (tc_state y) = true → member_of s x c y w →
  tc_connectionCallback y = Some cb → w_loops w !! tc_loop y = Some lx →
  (let w1 := set_w_conns (<[c := set_tc_state kDisconnected y]> (w_conns w)) w in
   wp (disableAll (tc_channel y)) (λ _ w2, w2 = set_w_r (w_r w2) w1 ∧ D (w_r w2)) w1) →
  (∀ r io, D r → (el_callingPendingFunctors lx = false → io = r_io r) →
     Q tt (with_io io (after_close s x c y lx cb r w))) →
  wp (handleClose user close_callback c) Q w.
Proof.
  intros Hok Hst [Hs Hclose Hloop Hin] Hcb Hl Hdis HQ.
  destruct (conn_loop_lookup _ _ _ _ Hok) as (lx' & Hl' & Ht). assert (lx' = lx) as -> by congruence.
  apply wp_bind. eapply conn_assertInLoopThread_wp; [done|].
  apply wp_bind. eapply get_conn_wp; [apply Hok|]. apply wp_bind, wp_assert; [done|].
  apply wp_bind. eapply upd_conn_wp; [apply Hok|].
  set (y' := set_tc_state kDisconnected y) in *. set (w1 := set_w_conns _ w) in *.
  apply wp_bind. eapply wp_mono; [exact Hdis|]. intros [] w2 [E HD].
  apply wp_bind. eapply (closed_connectionCallback_wp c y' cb);
    [rewrite E; simpl; by rewrite lookup_insert_eq|done|exact Hcb|].
  set (w3 := set_w_calls _ w2).
  apply wp_bind. eapply wp_gets_some; [simpl; rewrite E; simpl; by rewrite lookup_insert_eq|].
  cbn [tc_closeCallback y' set_tc_state]. rewrite Hclose. cbn [close_callback].
  eapply (TcpServer_removeConnection_wp s x c y');
    try (simpl; rewrite E; simpl; (rewrite lookup_insert_eq || idtac); done); [done|done|].
  intros io Hio. assert (with_io io (after_close s x c y lx cb (w_r w2) w)
    = with_io io (set_w_servers (<[s := forget y' x]> (w_servers w3))
        (enqueue (tc_loop y') lx (FnTcpConnection_connectDestroyed c) w3))) as <-.
  { unfold w3. rewrite E. reflexivity. }
  by apply HQ.
Qed.

Lemma handleClose_served_wp s x c y ch lx cb (Q : unit → World K → Prop) w :
  conn_core c y ch w → closable (tc_state y) = true → member_of s x c y w →
  tc_connectionCallback y = Some cb → w_loops w !! tc_loop y = Some lx →
  (∀ i r io, let ch' := set_ch_index i (set_ch_addedToLoop true (set_ch_events kNoneEvent ch)) in
     let w' := with_io io (after_close s x c y lx cb r w) in
     live_channel w' (tc_channel y) ch' → poller_attached ch' → Q tt w') →
  wp (handleClose user close_callback c) Q w.
Proof.
  intros Hok Hst Hm Hcb Hl HQ.
  eapply (handleClose_run_wp s x c y ch lx cb (λ r, ∃ i,
    let ch' := set_ch_index i (set_ch_addedToLoop true (set_ch_events kNoneEvent ch)) in
    live_channel (set_w_r r w) (tc_channel y) ch' ∧ poller_attached ch')); [done..| |].
  - assert (live_channel (set_w_conns (<[c := set_tc_state kDisconnected y]> (w_conns w)) w)
      (tc_channel y) ch) as Hlive by exact (ck_live _ _ _ _ Hok).
    eapply set_events_update_wp; [exact Hlive|reflexivity|].
    cbv zeta. intros i w2 (E & _) (Hch & Hlive2) Hatt. split; [exact E|]. exists i.
    split; [|exact Hatt]. rewrite E in Hlive2. by split.
  - intros r io (i & Hlive & Hatt) _. eapply (HQ i); [|exact Hatt].
    assert (live_channel (set_w_r r (set_w_conns (<[c := set_tc_state kDisconnected y]> (w_conns w)) w))
      (tc_channel y) (set_ch_index i (set_ch_addedToLoop true (set_ch_events kNoneEvent ch))))
      as Hlive' by exact Hlive.
    by eapply live_channel_enqueue.
Qed.
End closing.

Section forgetting.
Context {K : Type} `{!OS K} {P : Poller K} `{!PollerLaws K P}.
Context (user : UserCall → M (World K) unit).
Context (Huser : leaves_closed_alone user).
Implicit Types w : World K.

(** [connectDestroyed] of a closed connection. *)
Lemma connectDestroyed_closed_wp c y ch lx (Q : unit → World K → Prop) w :
  w_conns w !! c = Some y → tc_state y = kDisconnected → live_channel w (tc_channel y) ch →
  ch_loop ch = tc_loop y → ch_events ch = kNoneEvent → poller_attached ch →
  w_loops w !! tc_loop y = Some lx →
  (el_eventHandling lx = true →
     el_currentActiveChannel lx = Some (tc_channel y) ∨ tc_channel y ∉ el_activeChannels lx) →
  (∀ i w', let ch' := set_ch_index i (set_ch_addedToLoop false ch) in
     channel_step (tc_channel y) ch' w w' → live_channel w' (tc_channel y) ch' →
     poller_free (w_r w') (tc_loop y) (ch_fd ch) → poller_detached ch' → Q tt w') →
  wp (connectDestroyed user c) Q w.
Proof.
  intros Hc Hst Hlive Hloop Hev Hatt Hl Hact HQ. pose proof Hlive as (_ & _ & lx' & Hl' & Ht).
  rewrite Hloop in Hl'.
  apply wp_bind, wp_bind, wp_bind. eapply wp_gets_some; [done|]. apply wp_ret.
  eapply assertInLoopThread_here; [done..|].
  apply wp_bind. eapply wp_gets_some; [done|]. rewrite Hst. apply wp_bind, wp_ret.
  eapply remove_wp; [exact Hlive|exact Hev|exact Hatt| |].
  - rewrite Hloop, Hl. by intros lx0 [= <-].
  - cbv zeta. intros i w' Hstep Hlive' Hfree Hdet. rewrite Hloop in Hfree. by eapply HQ.
Qed.

(** C22: a closed connection is forgotten.  Take a program that leaves closed
    connections alone.  When a connection of a server running in its thread is
    closed, the connection callback hears once that it is down,
    the server's map loses its entry and no other, and its destruction is queued
    last on its loop; when that runs, the poller no longer has the descriptor, so
    a new connection may use it, and the program is not told again. *)
Theorem closed_connection_is_forgotten (s : ptr) (x : TcpServer) (c : ptr) (y : TcpConnection)
    (ch : Channel) (lx : EventLoop) (cb : ConnectionCallback) w
    (Hok : conn_core c y ch w) (Hst : closable (tc_state y) = true) (Hm : member_of s x c y w)
    (Hcb : tc_connectionCallback y = Some cb) (Hl : w_loops w !! tc_loop y = Some lx)
    (Hact : el_eventHandling lx = true →
       el_currentActiveChannel lx = Some (tc_channel y) ∨ tc_channel y ∉ el_activeChannels lx) :
  ∃ w1 w2, handleClose user close_callback c w = Ok (tt, w1)
    ∧ w_servers w1 !! s = Some (forget y x)
    ∧ functors (tc_loop y) w1
      = functors (tc_loop y) w ++ [FnTcpConnection_connectDestroyed c]
    ∧ w_calls w1 = w_calls w ++ heard cb c false
    ∧ run_functor user (FnTcpConnection_connectDestroyed c) w1 = Ok (tt, w2)
    ∧ w_conns w2 !! c = Some (set_tc_state kDisconnected y)
    ∧ poller_free (w_r w2) (tc_loop y) (tc_socket y)
    ∧ w_calls w2 = w_calls w1.
Proof.
  pose proof (ck_loop _ _ _ _ Hok) as Hloop. pose proof (ck_fd _ _ _ _ Hok) as Hfd.
  cut (wp (handleClose user close_callback c) (λ _ w1, ∃ w2,
    w_servers w1 !! s = Some (forget y x)
    ∧ functors (tc_loop y) w1 = functors (tc_loop y) w ++ [FnTcpConnection_connectDestroyed c]
    ∧ w_calls w1 = w_calls w ++ heard cb c false
    ∧ run_functor user (FnTcpConnection_connectDestroyed c) w1 = Ok (tt, w2)
    ∧ w_conns w2 !! c = Some (set_tc_state kDisconnected y)
    ∧ poller_free (w_r w2) (tc_loop y) (tc_socket y) ∧ w_calls w2 = w_calls w1) w).
  { intros ([] & w1 & Hrun & w2 & H)%wp_run. eauto. }
  eapply handleClose_served_wp; [done..|].
  intros i r io ch' w1 Hlive Hatt.
  assert (w_conns w1 = <[c := set_tc_state kDisconnected y]> (w_conns w)) as Hconns by done.
  assert (w_servers w1 = <[s := forget y x]> (w_servers w)) as Hservers by done.
  assert (w_loops w1 = w_loops (enqueue (tc_loop y) lx (FnTcpConnection_connectDestroyed c) w))
    as Hloops by done.
  assert (w_calls w1 = w_calls w ++ heard cb c false) as Hcalls by done. clearbody w1.
  assert (wp (connectDestroyed user c) (λ _ w2, w2 = set_w_r (w_r w2) w1
            ∧ poller_free (w_r w2) (tc_loop y) (ch_fd ch)) w1) as Hd.
  { eapply (connectDestroyed_closed_wp c (set_tc_state kDisconnected y) ch');
      [by rewrite Hconns, lookup_insert_eq|done|exact Hlive|exact Hloop|done|exact Hatt| | |].
    - rewrite Hloops. unfold enqueue. simpl. by rewrite lookup_insert_eq.
    - exact Hact.
    - cbv zeta. intros j w2 (E & _) _ Hfree _. by split. }
  apply wp_run in Hd as ([] & w2 & Hrun2 & E & Hfree). exists w2. split_and!.
  - by rewrite Hservers, lookup_insert_eq.
  - unfold functors. rewrite Hloops, Hl. unfold enqueue. simpl. by rewrite lookup_insert_eq.
  - exact Hcalls.
  - exact Hrun2.
  - rewrite E. simpl. by rewrite Hconns, lookup_insert_eq.
  - by rewrite <- Hfd.
  - by rewrite E.
Qed.
End forgetting.

(** *** A server on loop 0 of ByteStream.v's world, with the connection there *)

Definition solo_server (conns : gmap string ptr) : TcpServer :=
  mkTcpServer 0%nat "127.0.0.1:8080" "echo" 20%nat 61%nat
    (UserConnectionCallback 1) (UserMessageCallback 2) None None 1 7 conns.

Definition serving_world : World sim :=
  set_w_servers {[60%nat := solo_server ∅]}
    (set_w_pools {[61%nat := mkEventLoopThreadPool 0%nat "echo" true 0 0 [] []]} sample_world).

Lemma newConnection_establishes_witness :
  ∃ w', TcpServer_newConnection user_call 60%nat 12 zero_addr serving_world
        = run_connectionCallback user_call 10%nat w'
    ∧ (tc_name <$> w_conns w' !! 10%nat) = Some "echo-127.0.0.1:8080#7".
Proof.
  destruct (newConnection_establishes user_call 60%nat (solo_server ∅) 12 zero_addr serving_world)
    as (chan & la & ch & w' & Hrun & _ & Hok & _).
  - split; try done.
    + eexists. by split_and!.
    + exists sample_loop. by split_and!.
    + exists sample_poller. by split_and!.
  - exists w'. split; [exact Hrun|]. pose proof (ck_conn _ _ _ _ (proj1 Hok)) as Hc.
    change (w_next serving_world) with 10%nat in Hc. rewrite Hc. by vm_compute.
Defined.

Definition served_sample : TcpConnection :=
  set_tc_connectionCallback (Some (UserConnectionCallback 1))
    (set_tc_closeCallback (Some (CcTcpServer_removeConnection 60%nat))
       (sample_conn kConnected (fresh_buffer 16))).

Definition closing_world : World sim :=
  set_w_servers {[60%nat := solo_server {["c" := 40%nat]}]}
    (set_w_conns {[40%nat := served_sample]} (conn_world kConnected (fresh_buffer 16) 3 [])).

Lemma closed_connection_is_forgotten_witness :
  ∃ w1 w2, handleClose (λ _, mret tt) close_callback 40%nat closing_world = Ok (tt, w1)
    ∧ (sv_connections <$> w_servers w1 !! 60%nat) = Some ∅
    ∧ w_calls w1 = [UcConnection 1 40%nat false]
    ∧ run_functor (λ _, mret tt) (FnTcpConnection_connectDestroyed 40%nat) w1 = Ok (tt, w2).
Proof.
  destruct (closed_connection_is_forgotten (λ _, mret tt) (λ _ _ _ _ _ _, eq_refl) 60%nat
    (solo_server {["c" := 40%nat]}) 40%nat served_sample (conn_chan 3) sample_loop
    (UserConnectionCallback 1) closing_world)
    as (w1 & w2 & Hrun & Hs & _ & Hc & Hrun2 & _).
  - destruct (conn_world_core kConnected (fresh_buffer 16) 3 [] empty_buffer_wf) as [H1 H2 H3 H4 H5 H6].
    split; try done.
  - done.
  - by split.
  - done.
  - done.
  - done.
  - exists w1, w2. split_and!; [exact Hrun| |exact Hc|exact Hrun2].
    rewrite Hs. by vm_compute.
Defined.
