(* ===== verification/Lifetimes.v ===== *)
(** * Lifetimes: when a connection is destroyed

    Connections are shared: the map of a server, a client, functors that wait in a
    loop's queue and local variables each hold a [TcpConnectionPtr].  Here: what
    keeps a connection, that a closed connection is destroyed and its descriptor
    closed at the end of the round that takes it out of the poller, and what the
    functors that hold no pointer do when they come too late. *)
From S2P Require Import Prelude Endian Buffer OS Objects Poller LoopCore Channel TimerQueue Sockets Calls TcpConnection ByteStream Lifecycle EventLoop Threads Acceptor TcpServer Program Serving.

Set Default Goal Selector "!".

(** ** Who holds a connection *)

Section owners.
Context {K : Type} `{!OS K} {P : Poller K}.
Implicit Types w : World K.

(** What keeps [c] but for local variables. *)
Definition kept_by_object (c : ptr) w : Prop :=
  (∃ s x name, w_servers w !! s = Some x ∧ sv_connections x !! name = Some c)
  ∨ (∃ cl x, w_clients w !! cl = Some x ∧ cl_connection x = Some c)
  ∨ (∃ l x f, w_loops w !! l = Some x ∧ f ∈ el_pendingFunctors x ∧ functor_holds f = Some c).

Lemma elem_of_owners c w : c ∈ owners w ↔ c ∈ w_held w ∨ kept_by_object c w.
Proof.
  unfold owners, kept_by_object.
  rewrite !elem_of_app, !list_elem_of_bind, list_elem_of_omap.
  apply or_iff_compat_l, Morphisms_Prop.or_iff_morphism; [|apply Morphisms_Prop.or_iff_morphism].
  - split.
    + intros ([s x] & Hc & Hs%elem_of_map_to_list).
      apply list_elem_of_fmap in Hc as ([name c'] & -> & Hx%elem_of_map_to_list). by exists s, x, name.
    + intros (s & x & name & Hs & Hx). exists (s, x). rewrite elem_of_map_to_list. split; [|done].
      apply list_elem_of_fmap. exists (name, c). by rewrite elem_of_map_to_list.
  - split.
    + intros ([cl x] & Hs%elem_of_map_to_list & Hc). by exists cl, x.
    + intros (cl & x & Hs & Hc). exists (cl, x). by rewrite elem_of_map_to_list.
  - split.
    + intros ([l x] & Hc & Hs%elem_of_map_to_list).
      apply list_elem_of_omap in Hc as (f & Hf & Hh). by exists l, x, f.
    + intros (l & x & f & Hs & Hf & Hh). exists (l, x). rewrite elem_of_map_to_list. split; [|done].
      apply list_elem_of_omap. by exists f.
Qed.

Lemma use_count_0 c w : use_count c w = 0%nat ↔ c ∉ owners w.
Proof.
  unfold use_count. rewrite length_zero_iff_nil. split.
  - intros E Hc. assert (c ∈ filter (λ o, o = c) (owners w)) as H by (by apply list_elem_of_filter).
    rewrite E in H. by apply elem_of_nil in H.
  - intros Hc. apply filter_none, Forall_forall. by intros o Ho ->.
Qed.

(** The end of a local pointer: the connection goes exactly when nobody else has it. *)
Lemma release_wp c (Q : unit → World K → Prop) w :
  let w1 := set_w_held (drop_one c (w_held w)) w in
  (c ∈ owners w1 → Q tt w1) → (c ∉ owners w1 → wp (TcpConnection_dtor c) Q w1) →
  wp (release c) Q w.
Proof.
  intros w1 Hkept Hlast. apply wp_bind, wp_modify. fold w1. apply wp_bind, wp_gets.
  apply wp_when; intros E.
  - apply Hlast. by apply bool_decide_eq_true, use_count_0 in E.
  - apply Hkept. apply bool_decide_eq_false in E. rewrite use_count_0 in E. by apply dec_stable.
Qed.
End owners.

(** ** Destroying closed connections *)

(** The descriptors closed, in order. *)
Definition closed_fds (calls : list (syscall * sysres)) : list Z :=
  omap (λ cr, match cr.1 with SysClose fd => Some fd | _ => None end) calls.

Lemma closed_fds_app l1 l2 : closed_fds (l1 ++ l2) = closed_fds l1 ++ closed_fds l2.
Proof. apply omap_app. Qed.

Lemma closed_fds_quiet l :
  Forall (λ x : syscall * sysres, is_epoll_ctl x.1 = true) l → closed_fds l = [].
Proof. induction 1 as [|[[] r] l Hc _ IH]; simpl in *; done. Qed.

Section destroying.
Context {K : Type} `{!OS K} {P : Poller K} `{!PollerLaws K P}.
Implicit Types w : World K.

(** A closed connection of loop [l]: its channel waits for nothing, and is in the
    state [reg] with respect to the poller. *)
Record closed (reg : Channel → Prop) (l : ptr) (cy : ptr * TcpConnection) (ch : Channel) w : Prop := {
  cd_conn : w_conns w !! cy.1 = Some cy.2;
  cd_state : tc_state cy.2 = kDisconnected;
  cd_home : tc_loop cy.2 = l;
  cd_live : live_channel w (tc_channel cy.2) ch;
  cd_loop : ch_loop ch = l;
  cd_fd : ch_fd ch = tc_socket cy.2;
  cd_events : ch_events ch = kNoneEvent;
  cd_reg : reg ch
}.

(** [~TcpConnection] of a connection whose channel was removed. *)
Lemma TcpConnection_dtor_wp l cy ch (Q : unit → World K → Prop) w :
  closed poller_detached l cy ch w →
  (∀ io r, io_by [(SysClose (tc_socket cy.2), r)] (w_io w) io →
     Q tt (with_io io (set_w_conns (delete cy.1 (w_conns w))
       (set_w_r (set_r_chans (delete (tc_channel cy.2) (r_chans (w_r w))) (w_r w)) w)))) →
  wp (TcpConnection_dtor cy.1) Q w.
Proof.
  intros [Hc _ _ (Hch & Hok & lx & Hl & Ht) _ Hfd _ Hdet] HQ.
  apply wp_bind. eapply wp_gets_some; [done|].
  apply wp_bind. unfold Channel_dtor. apply wp_bind. eapply chan_at_wp; [done|].
  apply wp_bind. eapply isInLoopThread_wp; [done|]. rewrite bool_decide_true by done.
  apply wp_bind, wp_bind, wp_bind. eapply chan_at_wp; [done|].
  apply wp_bind, wp_assert; [by apply bool_decide_eq_true|].
  apply wp_bind. eapply assertInLoopThread_here; [done..|].
  apply wp_bind. eapply assertInLoopThread_here; [done..|].
  apply in_reactor_wp. eapply wp_mono; [by eapply poller_free_hasChannel, poller_detached_free|].
  intros b r [-> ->]. replace (set_w_r (w_r w) w) with w by (by destruct w).
  apply wp_assert; [done|]. apply in_reactor_wp, wp_modify.
  apply wp_bind. eapply sockets_close_wp; [apply made_nil|].
  intros w2 [E Htr]. apply wp_modify. rewrite E. by eapply (HQ (w_io w2)).
Qed.

(** Being closed is a matter of the connection, its channel and its loop. *)
Lemma closed_frame reg l cy ch w w' :
  closed reg l cy ch w →
  w_conns w' !! cy.1 = w_conns w !! cy.1 →
  r_chans (w_r w') !! tc_channel cy.2 = r_chans (w_r w) !! tc_channel cy.2 →
  (poller_ok (w_r w) l (tc_channel cy.2) → poller_ok (w_r w') l (tc_channel cy.2)) →
  (∀ lx, w_loops w !! l = Some lx → el_threadId lx = w_tid w →
     ∃ lx', w_loops w' !! l = Some lx' ∧ el_threadId lx' = w_tid w') →
  closed reg l cy ch w'.
Proof.
  intros [Hc Hst Hhome (Hch & Hok & lx & Hl & Ht) Hloop Hfd Hev Hreg] Ec Ech Hk Hls.
  rewrite Hloop in Hok, Hl. destruct (Hls lx Hl Ht) as (lx' & Hl' & Ht').
  split; try done; [by rewrite Ec|]. split_and!; [by rewrite Ech|rewrite Hloop; auto|].
  rewrite Hloop. by exists lx'.
Qed.

(** A step of another channel does not concern it. *)
Lemma closed_step reg l cy ch c ch' w w' :
  closed reg l cy ch w → channel_step c ch' w w' → tc_channel cy.2 ≠ c →
  ch_fd ch' ≠ tc_socket cy.2 → closed reg l cy ch w'.
Proof.
  intros Hcy (E & Ech & _ & Ho) Hne Hfd. destruct (cd_live _ _ _ _ _ Hcy) as (Hch & _).
  eapply closed_frame; [exact Hcy|by rewrite E|by rewrite Ech, lookup_insert_ne| |].
  - intros Hok. eapply Ho; [exact Hne|exact Hok|exact Hch|]. right.
    by rewrite (cd_fd _ _ _ _ _ Hcy).
  - rewrite E. eauto.
Qed.

(** Connections that do not share a channel or a descriptor. *)
Definition distinct (cys : list (ptr * TcpConnection)) : Prop :=
  NoDup cys.*1 ∧ NoDup (tc_channel ∘ snd <$> cys) ∧ NoDup (tc_socket ∘ snd <$> cys).

Lemma distinct_cons cy cys : distinct (cy :: cys) → distinct cys
  ∧ ∀ cy', cy' ∈ cys → cy'.1 ≠ cy.1 ∧ tc_channel cy'.2 ≠ tc_channel cy.2
                        ∧ tc_socket cy'.2 ≠ tc_socket cy.2.
Proof.
  intros ([H1 N1]%NoDup_cons & [H2 N2]%NoDup_cons & [H3 N3]%NoDup_cons). split; [done|].
  intros cy' Hin. split_and!; intros E.
  - apply H1. rewrite <- E. apply list_elem_of_fmap. by exists cy'.
  - apply H2. simpl. rewrite <- E. apply list_elem_of_fmap. by exists cy'.
  - apply H3. simpl. rewrite <- E. apply list_elem_of_fmap. by exists cy'.
Qed.

(** Taking all of [ks] out of a map, the first one first. *)
Definition delete_all {A} (ks : list ptr) (m : gmap ptr A) : gmap ptr A := foldl (λ m k, delete k m) m ks.

Lemma lookup_delete_all {A} ks : ∀ (m : gmap ptr A) k,
  delete_all ks m !! k = if decide (k ∈ ks) then None else m !! k.
Proof.
  induction ks as [|k0 ks IH]; intros m k.
  - by rewrite decide_False by apply not_elem_of_nil.
  - change (delete_all (k0 :: ks) m) with (delete_all ks (delete k0 m)). rewrite IH. destruct (decide (k ∈ ks)) as [Hin|Hin].
    + by rewrite decide_True by (by right).
    + destruct (decide (k = k0)) as [->|Hne].
      * by rewrite lookup_delete_eq, decide_True by (by left).
      * rewrite lookup_delete_ne, decide_False by (done || rewrite elem_of_cons; tauto). done.
Qed.

(** The connections of [cys] that nothing but the pointers about to go keeps. *)
Definition unkept (held : list ptr) w (cys : list (ptr * TcpConnection)) : list (ptr * TcpConnection) :=
  filter (λ cy, cy.1 ∉ owners (set_w_held held w)) cys.

(** Giving up one pointer to each of some closed connections. *)
Lemma release_closed_wp l held : ∀ cys (Q : unit → World K → Prop) w,
  distinct cys → w_held w = cys.*1 ++ held →
  Forall (λ cy, ∃ ch, closed poller_detached l cy ch w) cys →
  let dead := unkept held w cys in
  (∀ io calls, io_trace io = io_trace (w_io w) ++ calls →
     closed_fds calls = tc_socket ∘ snd <$> dead →
     Q tt (with_io io (set_w_held held (set_w_conns (delete_all dead.*1 (w_conns w))
       (set_w_r (set_r_chans (delete_all (tc_channel ∘ snd <$> dead) (r_chans (w_r w))) (w_r w)) w))))) →
  wp (for_each cys.*1 release) Q w.
Proof.
  induction cys as [|[c y] cys IH]; intros Q w Hdist Hheld Hclosed dead HQ.
  { apply wp_ret. specialize (HQ (w_io w) []). rewrite app_nil_r in HQ. simpl in HQ, Hheld.
    specialize (HQ eq_refl eq_refl). rewrite <- Hheld in HQ. by destruct w as [[]]. }
  destruct (distinct_cons _ _ Hdist) as [Hdist' Hother]. apply Forall_cons in Hclosed as [[ch Hc] Hcs].
  cbn [for_each fmap list_fmap fst] in *. set (w1 := set_w_held (cys.*1 ++ held) w).
  assert (set_w_held (drop_one c (w_held w)) w = w1) as E1
    by (rewrite Hheld; simpl; by rewrite decide_True).
  assert (c ∈ owners w1 ↔ c ∈ owners (set_w_held held w)) as Hiff.
  { rewrite !elem_of_owners. cbn [w_held w1 set_w_held]. rewrite elem_of_app.
    assert (c ∉ cys.*1) by (intros ([c' y'] & -> & Hin)%list_elem_of_fmap; by destruct (Hother _ Hin)).
    unfold kept_by_object. simpl. tauto. }
  unfold dead, unkept in HQ. rewrite filter_cons in HQ. cbn [fst] in HQ.
  apply wp_bind, release_wp; rewrite E1; intros Ho; rewrite Hiff in Ho.
  - rewrite decide_False in HQ by (by intros []).
    apply IH; [done|done| |exact HQ].
    eapply Forall_impl; [exact Hcs|]. intros cy [chc Hcy]. exists chc. eapply closed_frame; eauto.
  - rewrite decide_True in HQ by done.
    assert (closed poller_detached l (c, y) ch w1) as Hc1 by (eapply closed_frame; eauto).
    eapply (TcpConnection_dtor_wp l (c, y)); [exact Hc1|]. cbn [fst snd]. intros io r [[Hio _] _].
    set (w2 := with_io io _). apply IH; [done|done| |].
    + apply Forall_forall. intros cy Hin. destruct (Hother cy Hin) as (N1 & N2 & _).
      destruct (proj1 (Forall_forall _ _) Hcs cy Hin) as [chc Hcy]. exists chc.
      eapply closed_frame; [exact Hcy|..].
      * simpl. by rewrite lookup_delete_ne.
      * simpl. by rewrite lookup_delete_ne.
      * intros Hk. apply poller_ok_io. simpl. by apply poller_ok_delete.
      * eauto.
    + intros io' calls Hio' Hcalls. eapply (HQ io' ((SysClose (tc_socket y), r) :: calls)).
      * rewrite Hio'. change (w_io w2) with io. by rewrite Hio, <- app_assoc.
      * simpl. f_equal. exact Hcalls.
Qed.

Context (user : UserCall → M (World K) unit).

(** Taking the channels of some closed connections out of the poller. *)
Lemma destroy_closed_wp l lx : ∀ todo done (Q : unit → World K → Prop) w,
  distinct (todo ++ done) →
  Forall (λ cy, ∃ ch, closed poller_attached l cy ch w) todo →
  Forall (λ cy, ∃ ch, closed poller_detached l cy ch w) done →
  w_loops w !! l = Some lx → el_eventHandling lx = false →
  (∀ w', w' = set_w_r (w_r w') w → quiet (w_io w) (w_io w') →
     Forall (λ cy, ∃ ch, closed poller_detached l cy ch w') (todo ++ done) → Q tt w') →
  wp (for_each (FnTcpConnection_connectDestroyed <$> todo.*1)
        (λ f, when (negb (bool_decide (f = FnEmpty))) (run_functor user f))) Q w.
Proof.
  induction todo as [|[c y] todo IH]; intros done Q w Hdist Htodo Hdone Hl Hev HQ.
  { apply wp_ret, HQ; [by destruct w|reflexivity|done]. }
  cbn [app] in Hdist. destruct (distinct_cons _ _ Hdist) as [_ Hother].
  apply Forall_cons in Htodo as [[ch Hc] Htodo].
  cbn [for_each fmap list_fmap fst]. apply wp_bind. cbn [bool_decide negb when run_functor].
  destruct Hc as [H1 H2 H3 H4 H5 H6 H7 H8]. cbn [fst snd] in *.
  eapply (connectDestroyed_closed_wp user c y ch lx);
    [done|done|exact H4|by rewrite H5|done|done|by rewrite H3|by rewrite Hev|].
  cbv zeta. intros i w1 Hstep Hlive1 _ Hdet1. pose proof Hstep as (E & _ & Hq & _).
  set (ch' := set_ch_index i _) in *.
  assert (∀ reg cy, cy ∈ todo ++ done → (∃ chc, closed reg l cy chc w) → ∃ chc, closed reg l cy chc w1)
    as Hkeep.
  { intros reg cy Hin [chc Hcy]. destruct (Hother _ Hin) as (N1 & N2 & N3). exists chc.
    eapply closed_step; [exact Hcy|exact Hstep|exact N2|]. simpl. by rewrite H6. }
  apply (IH (done ++ [(c, y)])).
  - rewrite app_assoc. unfold distinct. by rewrite <- !(Permutation_cons_append (todo ++ done)).
  - apply Forall_forall. intros cy Hin. apply Hkeep; [apply elem_of_app; by left|].
    by apply (proj1 (Forall_forall _ _) Htodo).
  - apply Forall_app. split.
    + apply Forall_forall. intros cy Hin. apply Hkeep; [apply elem_of_app; by right|].
      by apply (proj1 (Forall_forall _ _) Hdone).
    + constructor; [|done]. exists ch'. split; try done; simpl. by rewrite E.
  - by rewrite E.
  - done.
  - intros w2 E2 Hq2 Hall. apply HQ.
    + rewrite E2, E. reflexivity.
    + by trans (w_io w1).
    + rewrite app_assoc, Forall_app, Forall_singleton in Hall. destruct Hall as [Hall Hlast].
      by constructor.
Qed.

(** The pointers there are once loop [l] gave up its functors. *)
Definition other_owners (l : ptr) (lx : EventLoop) w : list ptr :=
  owners (set_w_loops (<[l := set_el_pendingFunctors [] lx]> (w_loops w)) w).

Lemma kept_by_object_loop c l x x' m w w' :
  el_pendingFunctors x = el_pendingFunctors x' →
  w_servers w' = w_servers w → w_clients w' = w_clients w → w_loops w' = <[l := x']> m →
  kept_by_object c (set_w_loops (<[l := x]> m) w) → kept_by_object c w'.
Proof.
  unfold kept_by_object. intros Ep -> -> ->. simpl. intros [H|[H|(l0 & y & f & Hl & Hf & Hh)]]; [by left|by auto|].
  right; right. destruct (decide (l0 = l)) as [->|Hne].
  - rewrite lookup_insert_eq in Hl. injection Hl as <-. exists l, x', f.
    by rewrite lookup_insert_eq, <- Ep.
  - rewrite lookup_insert_ne in Hl by done. exists l0, y, f. by rewrite lookup_insert_ne.
Qed.

Lemma unkept_other_owners l lx lx' w w' cys :
  w_servers w' = w_servers w → w_clients w' = w_clients w → w_loops w' = <[l := lx']> (w_loops w) →
  el_pendingFunctors lx' = [] →
  unkept (w_held w) w' cys = filter (λ cy, cy.1 ∉ other_owners l lx w) cys.
Proof.
  intros Es Ec El Ep. apply list_filter_iff. intros cy. unfold other_owners. rewrite !elem_of_owners.
  cut (kept_by_object cy.1 w' ↔
       kept_by_object cy.1 (set_w_loops (<[l := set_el_pendingFunctors [] lx]> (w_loops w)) w));
    [intros H; change (kept_by_object cy.1 (set_w_held (w_held w) w')) with (kept_by_object cy.1 w');
     simpl; tauto|].
  split; intros Hk.
  - apply (kept_by_object_loop _ l lx' (set_el_pendingFunctors [] lx) (w_loops w) w); [done..|].
    unfold kept_by_object in *. rewrite Es, Ec, El in Hk. exact Hk.
  - by apply (kept_by_object_loop _ l (set_el_pendingFunctors [] lx) lx' (w_loops w) w).
Qed.

(** The same with loop [l] changed, in the same thread. *)
Lemma closed_with_loop reg l lx lx' cys held w :
  w_loops w !! l = Some lx → el_threadId lx' = el_threadId lx →
  Forall (λ cy, ∃ ch, closed reg l cy ch w) cys →
  Forall (λ cy, ∃ ch, closed reg l cy ch
    (set_w_loops (<[l := lx']> (w_loops w)) (set_w_held held w))) cys.
Proof.
  intros Hl Et Hall. eapply Forall_impl; [exact Hall|]. intros cy [ch Hcy]. exists ch.
  eapply closed_frame; [exact Hcy|done|done|done|]. intros lx0 Hl0 Ht. exists lx'.
  simpl. rewrite lookup_insert_eq. split; [done|]. congruence.
Qed.

(** What a round that destroys the connections [cys] comes to. *)
Definition destroyed (l : ptr) (cys dead : list (ptr * TcpConnection)) w w' : Prop :=
  (∃ calls, io_trace (w_io w') = io_trace (w_io w) ++ calls
     ∧ closed_fds calls = tc_socket ∘ snd <$> dead)
  ∧ (∀ c, w_conns w' !! c = if decide (c ∈ dead.*1) then None else w_conns w !! c)
  ∧ (∀ cy, cy ∈ dead → r_chans (w_r w') !! tc_channel cy.2 = None)
  ∧ (∀ cy, cy ∈ cys → poller_free (w_r w') l (tc_socket cy.2))
  ∧ functors l w' = [] ∧ w_calls w' = w_calls w ∧ w_servers w' = w_servers w.

Lemma doPendingFunctors_closed_wp l lx cys (Q : unit → World K → Prop) w :
  w_loops w !! l = Some lx → el_eventHandling lx = false →
  el_pendingFunctors lx = FnTcpConnection_connectDestroyed <$> cys.*1 →
  distinct cys → Forall (λ cy, ∃ ch, closed poller_attached l cy ch w) cys →
  let dead := filter (λ cy, cy.1 ∉ other_owners l lx w) cys in
  (∀ w', destroyed l cys dead w w' → Q tt w') →
  wp (doPendingFunctors (run_functor user) release l) Q w.
Proof.
  intros Hl Hev Hpending Hdist Hclosed dead HQ.
  assert (omap functor_holds (FnTcpConnection_connectDestroyed <$> cys.*1) = cys.*1) as Hholds
    by (generalize cys.*1; intros cs; induction cs as [|c cs IH]; simpl; by f_equal).
  apply wp_bind. eapply upd_loop_wp; [done|].
  apply wp_bind. eapply get_loop_wp; [simpl; by rewrite lookup_insert_eq|]. cbv zeta.
  cbn [el_pendingFunctors set_el_callingPendingFunctors]. rewrite Hpending, Hholds.
  apply wp_bind, wp_modify.
  apply wp_bind. eapply upd_loop_wp; [simpl; by rewrite lookup_insert_eq|]. simpl.
  rewrite insert_insert_eq. set (lx1 := set_el_pendingFunctors [] _). set (w1 := set_w_loops _ _).
  assert (Forall (λ cy, ∃ ch, closed poller_attached l cy ch w1) cys) as Hclosed1.
  { exact (closed_with_loop _ l lx lx1 cys (cys.*1 ++ w_held w) w Hl eq_refl Hclosed). }
  assert (w_loops w1 !! l = Some lx1) as Hl1 by (simpl; by rewrite lookup_insert_eq).
  apply wp_bind. apply (destroy_closed_wp l lx1 cys []);
    [by rewrite app_nil_r|exact Hclosed1|constructor|exact Hl1|done|].
  intros w2 E2 (calls2 & Htr2 & Hq2) Hall. rewrite app_nil_r in Hall.
  assert (w_loops w2 !! l = Some lx1) as Hl2 by (by rewrite E2).
  apply wp_bind. eapply upd_loop_wp; [exact Hl2|].
  set (lx3 := set_el_callingPendingFunctors false lx1). set (w3 := set_w_loops _ w2).
  assert (w_loops w3 = <[l := lx3]> (w_loops w)) as El3
    by (unfold w3; rewrite E2; simpl; by rewrite insert_insert_eq).
  assert (∀ cy, cy ∈ cys → poller_free (w_r w2) l (tc_socket cy.2)) as Hfree.
  { intros cy Hin. destruct (proj1 (Forall_forall _ _) Hall cy Hin) as [ch [_ _ _ (Hch & Hok & _) Hlp <- _ Hdet]].
    rewrite Hlp in Hok. by eapply poller_detached_free. }
  eapply (release_closed_wp l (w_held w)); [exact Hdist|unfold w3; by rewrite E2| |].
  { exact (closed_with_loop _ l lx1 lx3 cys (w_held w2) w2 Hl2 eq_refl Hall). }
  rewrite (unkept_other_owners l lx lx3 w w3) by (done || (unfold w3; by rewrite E2)). fold dead.
  intros io calls Hio Hcalls. apply HQ. split_and!.
  - exists (calls2 ++ calls). change (w_io (with_io _ _)) with io. split.
    + rewrite Hio, app_assoc. f_equal. exact Htr2.
    + by rewrite closed_fds_app, closed_fds_quiet.
  - intros c. simpl. rewrite lookup_delete_all. by rewrite E2.
  - intros cy Hin. simpl. rewrite lookup_delete_all, decide_True; [done|].
    apply list_elem_of_fmap. by exists cy.
  - intros cy Hin. eapply poller_free_frame; [|by apply Hfree]. done.
  - unfold functors. simpl. by rewrite lookup_insert_eq.
  - simpl. by rewrite E2.
  - simpl. by rewrite E2.
Qed.

(** C23: a closed connection is destroyed once, when its last pointer goes.  Take a
    loop whose round runs [connectDestroyed] of any number of closed connections.
    No assertion fails, and at the end of the round the connections that no
    server, client, other loop or local variable holds any more, and no others,
    are gone with their channels; each of their descriptors was closed exactly
    once, in order, and no other was; no descriptor of the connections is left in
    the poller; and the program was not called. *)
Theorem closed_connections_are_destroyed_once (l : ptr) (lx : EventLoop)
    (cys : list (ptr * TcpConnection)) w
    (Hl : w_loops w !! l = Some lx) (Hev : el_eventHandling lx = false)
    (Hpending : el_pendingFunctors lx = FnTcpConnection_connectDestroyed <$> cys.*1)
    (Hdist : distinct cys) (Hclosed : Forall (λ cy, ∃ ch, closed poller_attached l cy ch w) cys) :
  let dead := filter (λ cy, cy.1 ∉ other_owners l lx w) cys in
  ∃ w', doPendingFunctors (run_functor user) release l w = Ok (tt, w') ∧ destroyed l cys dead w w'.
Proof.
  intros dead.
  assert (wp (doPendingFunctors (run_functor user) release l) (λ _ w', destroyed l cys dead w w') w)
    as ([] & w' & H)%wp_run by (by eapply doPendingFunctors_closed_wp; eauto).
  by exists w'.
Qed.
End destroying.

(** ** Functors that hold no pointer *)

Section dangling.
Context {K : Type} `{!OS K} {P : Poller K}.
Context (user : UserCall → M (World K) unit).
Implicit Types w : World K.

(** [~TcpConnection] in another thread than the loop's looks at nothing. *)
Lemma TcpConnection_dtor_elsewhere_wp c y ch lx (Q : unit → World K → Prop) w :
  w_conns w !! c = Some y → r_chans (w_r w) !! tc_channel y = Some ch →
  w_loops w !! ch_loop ch = Some lx → el_threadId lx ≠ w_tid w →
  (∀ io r, io_by [(SysClose (tc_socket y), r)] (w_io w) io → Q tt (with_io io (set_w_conns (delete c (w_conns w))
     (set_w_r (set_r_chans (delete (tc_channel y) (r_chans (w_r w))) (w_r w)) w)))) →
  wp (TcpConnection_dtor c) Q w.
Proof.
  intros Hc Hch Hl Ht HQ. apply wp_bind. eapply wp_gets_some; [done|].
  apply wp_bind. unfold Channel_dtor. apply wp_bind. eapply chan_at_wp; [done|].
  apply wp_bind. eapply isInLoopThread_wp; [done|]. rewrite bool_decide_false by done.
  apply wp_bind, wp_ret, in_reactor_wp, wp_modify.
  apply wp_bind. eapply sockets_close_wp; [apply made_nil|].
  intros w2 [E Hio]. apply wp_modify. rewrite E. by eapply (HQ (w_io w2)).
Qed.

(** Queueing a functor that holds no pointer keeps nothing. *)
Lemma kept_by_object_enqueue c l lx f io w :
  w_loops w !! l = Some lx → functor_holds f = None →
  kept_by_object c (with_io io (enqueue l lx f w)) → kept_by_object c w.
Proof.
  intros Hl Hf [H'|[H'|(l0 & x & g & Hl0 & Hg & Hh)]]; [by left|right; by left|].
  right; right. simpl in Hl0. destruct (decide (l0 = l)) as [->|Hne].
  - rewrite lookup_insert_eq in Hl0. injection Hl0 as <-. simpl in Hg.
    apply elem_of_app in Hg as [Hg| ->%list_elem_of_singleton]; [|congruence]. eauto 10.
  - rewrite lookup_insert_ne in Hl0 by done. eauto 10.
Qed.

(** [startRead] and [stopRead] with what they queue. *)
Inductive read_op : Type := StartRead | StopRead.

Definition run_read_op (op : read_op) (c : ptr) : M (World K) unit :=
  match op with StartRead => startRead c | StopRead => stopRead c end.
Definition read_functor (op : read_op) (c : ptr) : Functor :=
  match op with
  | StartRead => FnTcpConnection_startReadInLoop c
  | StopRead => FnTcpConnection_stopReadInLoop c
  end.

(** C39: [startRead] and [stopRead] from another thread do not keep the connection.
    They bind [this], not a [TcpConnectionPtr].  If the caller has the last pointer
    to a connection (the server and the loop have let go of it after it was
    closed) and drops it after the call, the connection is destroyed while the
    functor is queued, and the loop will use it after its end. *)
Theorem read_op_from_another_thread_dangles (op : read_op) (c : ptr) (y : TcpConnection)
    (ch : Channel) (lx : EventLoop) w
    (Hc : w_conns w !! c = Some y) (Hch : r_chans (w_r w) !! tc_channel y = Some ch)
    (Hloop : ch_loop ch = tc_loop y) (Hl : w_loops w !! tc_loop y = Some lx)
    (Ht : el_threadId lx ≠ w_tid w) (Hheld : w_held w = [c]) (Hkept : ¬ kept_by_object c w) :
  ∃ w', (run_read_op op c;; release c) w = Ok (tt, w')
    ∧ functors (tc_loop y) w' = functors (tc_loop y) w ++ [read_functor op c]
    ∧ run_functor user (read_functor op c) w' = Fault (NullDeref "TcpConnection").
Proof.
  assert (read_functor op c ≠ FnEmpty ∧ functor_holds (read_functor op c) = None) as [Hne Hnone]
    by (by destruct op).
  assert (∀ body (Q : unit → World K → Prop),
    (∀ io, Q tt (with_io io (enqueue (tc_loop y) lx (read_functor op c) w))) →
    wp (l ← conn_loop c; runInLoop l (read_functor op c) body) Q w) as Hqueue.
  { intros body Q HQ. apply wp_bind, wp_bind. eapply get_conn_wp; [exact Hc|]. apply wp_ret.
    apply wp_bind. eapply isInLoopThread_wp; [exact Hl|]. rewrite bool_decide_false by done.
    eapply queueInLoop_wp; [done..|]. intros io tr _ _. apply HQ. }
  cut (wp (run_read_op op c;; release c) (λ _ w',
    functors (tc_loop y) w' = functors (tc_loop y) w ++ [read_functor op c]
    ∧ w_conns w' !! c = None) w).
  { intros ([] & w' & Hrun & Hf & Hgone)%wp_run. exists w'. split_and!; [done..|].
    destruct op; cbn [read_functor run_functor]; unfold startReadInLoop, stopReadInLoop,
      conn_assertInLoopThread, conn_loop, get_conn; rewrite !bind_run;
      unfold gets_some; by rewrite Hgone. }
  apply wp_bind.
  assert (∀ Q : unit → World K → Prop,
    (∀ io, Q tt (with_io io (enqueue (tc_loop y) lx (read_functor op c) w))) →
    wp (run_read_op op c) Q w) as Hop by (destruct op; exact (Hqueue _)).
  apply Hop. intros io. set (w1 := with_io io _). apply release_wp.
  - intros [Hin|Hin]%elem_of_owners; simpl in Hin.
    + rewrite Hheld in Hin. simpl in Hin. rewrite decide_True in Hin by done. by apply elem_of_nil in Hin.
    + exfalso. by apply Hkept, (kept_by_object_enqueue _ _ _ _ io _ Hl Hnone).
  - intros _. eapply (TcpConnection_dtor_elsewhere_wp c y ch); [done|exact Hch| | |].
    + simpl. rewrite Hloop. apply lookup_insert_eq.
    + exact Ht.
    + intros io' r _. simpl. split; [|apply lookup_delete_eq].
      unfold functors. simpl. by rewrite lookup_insert_eq, Hl.
Qed.
End dangling.

(** ** A loop that is destroyed too early *)

Section too_early.
Context {K : Type} `{!OS K}.
Implicit Types w : World K.

(** [~TcpConnection] of a connection that is still registered. *)
Lemma TcpConnection_dtor_registered l cy ch w :
  closed epoll_attached l cy ch w →
  TcpConnection_dtor cy.1 w = Fault (AssertFailed "Channel.cpp:28").
Proof.
  intros [Hc _ _ (Hch & (p & ch0 & Hp & Hch0 & Hreg) & lx & Hl & Ht) Hloop _ _ Hatt].
  assert (ch0 = ch) as -> by congruence.
  assert (ep_channels p !! ch_fd ch = Some (tc_channel cy.2)) as Hin.
  { destruct Hreg as [[Hnew _]|[_ H]]; [|done]. destruct Hatt as [H|H]; rewrite H in Hnew; done. }
  unfold TcpConnection_dtor, get_conn, gets_some. rewrite bind_run, Hc.
  assert (leads_to (Channel_dtor (tc_channel cy.2)) (λ w', w' = w)
    (assert_ "Channel.cpp:28" (negb true);;
     in_reactor (modify (λ r, set_r_chans (delete (tc_channel cy.2) (r_chans r)) r))) w)
    as (w' & -> & E).
  { apply leads_to_bind. eapply chan_at_wp; [done|].
    apply leads_to_bind. eapply isInLoopThread_wp; [done|]. rewrite bool_decide_true by done.
    exists w. split; [done|]. rewrite !bind_run.
    cut (wp (EventLoop_hasChannel (ch_loop ch) (tc_channel cy.2)) (λ b w', b = true ∧ w' = w) w).
    { intros (b & w' & -> & -> & ->)%wp_run. done. }
    apply wp_bind. eapply chan_at_wp; [done|]. apply wp_bind, wp_assert; [by apply bool_decide_eq_true|].
    apply wp_bind. eapply assertInLoopThread_here; [done..|].
    apply wp_bind. eapply assertInLoopThread_here; [done..|].
    apply in_reactor_wp, wp_bind. eapply get_poller_wp; [by rewrite <- Hloop in Hp || exact Hp|].
    apply wp_bind. eapply get_chan_wp; [exact Hch|]. apply wp_ret.
    split; [by apply bool_decide_eq_true|by destruct w]. }
  by rewrite bind_run, E.
Qed.

(** C38: a loop must not be destroyed while a closed connection waits for its end.
    A connection that is closed in the round in which the loop is told to quit (by
    a functor, such as that of [forceClose]) is only removed from the poller by a
    functor of the next round, which never comes.  The destructor of the loop then
    drops that functor, which destroys the connection while its channel is still
    registered: the assertion of [~Channel] fails and the process stops. *)
Theorem loop_destructor_aborts_over_a_closed_connection (l : ptr) (lx : EventLoop) (wch : Channel)
    (cy : ptr * TcpConnection) (ch : Channel) (fs : list Functor) w
    (Hl : w_loops w !! l = Some lx) (Hev : el_eventHandling lx = false)
    (Hwake : live_channel w (el_wakeupChannel lx) wch) (Hwloop : ch_loop wch = l)
    (Hpending : el_pendingFunctors lx = FnTcpConnection_connectDestroyed cy.1 :: fs)
    (Hfs : cy.1 ∉ omap functor_holds fs) (Hlast : cy.1 ∉ other_owners l lx w)
    (Hclosed : closed epoll_attached l cy ch w)
    (Hchan : tc_channel cy.2 ≠ el_wakeupChannel lx) (Hfd : ch_fd wch ≠ tc_socket cy.2) :
  EventLoop_dtor l w = Fault (AssertFailed "Channel.cpp:28").
Proof.
  cut (leads_to (EventLoop_dtor l) (λ w', closed epoll_attached l cy ch w')
    (TcpConnection_dtor cy.1;; for_each (omap functor_holds fs) release;;
     Channel_dtor (el_wakeupChannel lx);; TimerQueue_dtor l;; in_reactor (poller_delete l);;
     modify (λ w, set_w_loops (delete l (w_loops w)) w)) w).
  { intros (w' & Hcl & ->). by rewrite bind_run, (TcpConnection_dtor_registered _ _ _ _ Hcl). }
  apply leads_to_bind. eapply get_loop_wp; [done|].
  apply leads_to_bind. eapply set_events_update_wp; [exact Hwake|reflexivity|].
  cbv zeta. intros i w1 Hstep1 Hlive1 Hatt1. pose proof (proj1 Hstep1) as E1.
  apply (closed_step _ _ _ _ _ _ _ _ Hclosed) in Hstep1; [|done|done].
  apply leads_to_bind. eapply remove_wp; [exact Hlive1|done|exact Hatt1| |].
  { rewrite E1. simpl. rewrite Hwloop, Hl. intros lx0 [= <-]. by rewrite Hev. }
  cbv zeta. intros j w2 Hstep2 _ _ _. pose proof (proj1 Hstep2) as E2.
  apply (closed_step _ _ _ _ _ _ _ _ Hstep1) in Hstep2; [|done|done].
  assert (w2 = set_w_r (w_r w2) w) as E by (by rewrite E2, E1). clear E1 E2 Hstep1.
  apply leads_to_bind, syscall_wp. intros r k _. set (w3 := set_w_r _ w2).
  assert (w_loops w3 !! l = Some lx) as Hl3 by (simpl; by rewrite E).
  unfold drop_pending. apply leads_to_assoc, leads_to_bind. eapply get_loop_wp; [exact Hl3|].
  rewrite Hpending. cbn [omap list_omap functor_holds].
  apply leads_to_assoc, leads_to_bind, wp_modify.
  apply leads_to_assoc, leads_to_bind. eapply upd_loop_wp; [exact Hl3|]. set (w4 := set_w_loops _ _).
  assert (closed epoll_attached l cy ch w4) as Hclosed4.
  { eapply closed_frame; [exact Hstep2|done|done|by apply poller_ok_io|].
    intros lx0 Hl0 Ht. exists (set_el_pendingFunctors [] lx). simpl.
    rewrite lookup_insert_eq. split; [done|]. rewrite E in Hl0. simpl in Hl0. by simplify_eq. }
  cbn [for_each]. unfold release at 1.
  apply leads_to_assoc, leads_to_assoc, leads_to_bind, wp_modify. unfold reap.
  apply leads_to_assoc, leads_to_bind, wp_gets. rewrite bool_decide_true.
  { apply leads_to_end. by eapply closed_frame; [exact Hclosed4|..|eauto]. }
  apply use_count_0. intros Ho. apply Hlast, elem_of_owners.
  apply elem_of_owners in Ho as [Hin|Hin]; [left|right].
  - simpl in Hin. rewrite decide_True, E in Hin by done. by apply elem_of_app in Hin as [Hin|Hin].
  - eapply (kept_by_object_loop _ l (set_el_pendingFunctors [] lx) _ (w_loops w) w); [done..|].
    revert Hin. unfold kept_by_object. simpl. by rewrite E.
Qed.
End too_early.

(** *** Witnesses *)

(** Two closed connections of loop 0; a local variable still has the second. *)
Definition gone_conn (fd : Z) (chan : ptr) : TcpConnection :=
  mkTcpConnection 0%nat "c" kDisconnected true fd chan zero_addr zero_addr
    (Some defaultConnectionCallback) (Some defaultMessageCallback) None None None
    3 (fresh_buffer 16) (fresh_buffer 16).

Definition gone_chan (fd : Z) : Channel :=
  mkChannel 0%nat fd 0 0 EPollPoller.kAdded true None true false true None None None None.

Definition gone_list : list (ptr * TcpConnection) :=
  [(40%nat, gone_conn 5 1%nat); (41%nat, gone_conn 8 2%nat)].

Definition gone_loop : EventLoop :=
  set_el_pendingFunctors (FnTcpConnection_connectDestroyed <$> [40%nat; 41%nat]) sample_loop.

Definition gone_world : World sim :=
  set_w_held [41%nat] (set_w_loops {[0%nat := gone_loop]} (set_w_conns (list_to_map gone_list)
    (set_w_r (mkReactor (mkIO (mkSim [] {[3 := ∅]}) [] 0 [])
       {[1%nat := gone_chan 5; 2%nat := gone_chan 8]}
       {[0%nat := mkEPollPoller {[5 := 1%nat; 8 := 2%nat]} 3 16]}) sample_world))).

Lemma gone_world_closed c fd chan :
  w_conns gone_world !! c = Some (gone_conn fd chan) →
  r_chans (w_r gone_world) !! chan = Some (gone_chan fd) →
  (mkEPollPoller {[5 := 1%nat; 8 := 2%nat]} 3 16).(ep_channels) !! fd = Some chan →
  closed epoll_attached 0%nat (c, gone_conn fd chan) (gone_chan fd) gone_world.
Proof.
  intros Hc Hch Hp. split; [exact Hc|done|done| |done|done|done|by left].
  split_and!; [exact Hch| |by exists gone_loop].
  eexists _, (gone_chan fd). split_and!; [reflexivity|exact Hch|]. right. split; [by left|exact Hp].
Qed.

Lemma closed_connections_are_destroyed_once_witness :
  ∃ w', doPendingFunctors (run_functor (λ _, mret tt)) release 0%nat gone_world
        = Ok (tt, w')
    ∧ (∃ calls, io_trace (w_io w') = calls ∧ closed_fds calls = [5])
    ∧ w_conns w' !! 40%nat = None ∧ is_Some (w_conns w' !! 41%nat).
Proof.
  destruct (closed_connections_are_destroyed_once (λ _, mret tt) 0%nat gone_loop
    gone_list gone_world) as (w' & Hrun & (calls & Htr & Hfds) & Hconns & _).
  - reflexivity.
  - reflexivity.
  - reflexivity.
  - split_and!; apply (bool_decide_unpack _); vm_compute; exact I.
  - repeat constructor; eexists; by apply gone_world_closed.
  - exists w'. split_and!; [exact Hrun| | |].
    + exists calls. split; [exact Htr|]. rewrite Hfds. by vm_compute.
    + rewrite Hconns. by vm_compute.
    + rewrite Hconns. vm_compute. by eexists.
Defined.

Lemma read_op_from_another_thread_dangles_witness :
  let w := set_w_held [40%nat] (set_w_tid 8%nat (conn_world kDisconnected (fresh_buffer 16) 0 [])) in
  ∃ w', (stopRead 40%nat;; release 40%nat) w = Ok (tt, w')
    ∧ run_functor (λ _, mret tt) (FnTcpConnection_stopReadInLoop 40%nat) w'
      = Fault (NullDeref "TcpConnection").
Proof.
  intros w.
  destruct (read_op_from_another_thread_dangles (λ _, mret tt) StopRead 40%nat
    (sample_conn kDisconnected (fresh_buffer 16)) (conn_chan 0) sample_loop w)
    as (w' & Hrun & _ & Hf).
  - reflexivity.
  - reflexivity.
  - reflexivity.
  - reflexivity.
  - discriminate.
  - reflexivity.
  - intros [(s & x & name & Hs & _)|[(cl & x & Hs & _)|(l & x & f & Hl & Hf & _)]]; [done|done|].
    simpl in Hl. apply lookup_singleton_Some in Hl as [_ <-]. by apply elem_of_nil in Hf.
  - exists w'. split; [exact Hrun|exact Hf].
Defined.

(** Loop 0 with its wakeup channel and the first of the two connections. *)
Definition ending_loop : EventLoop :=
  set_el_pendingFunctors [FnTcpConnection_connectDestroyed 40%nat] sample_loop.

Definition ending_world : World sim :=
  set_w_loops {[0%nat := ending_loop]} (set_w_conns {[40%nat := gone_conn 5 1%nat]}
    (set_w_r (mkReactor (mkIO (mkSim [] {[3 := {[6 := (3, 3%nat)]}]}) [] 0 [])
       {[1%nat := gone_chan 5;
         3%nat := mkChannel 0%nat 6 3 0 EPollPoller.kAdded true None false false true
                    (Some (CbEventLoop_handleRead 0%nat)) None None None]}
       {[0%nat := mkEPollPoller {[5 := 1%nat; 6 := 3%nat]} 3 16]}) sample_world)).

Lemma loop_destructor_aborts_over_a_closed_connection_witness :
  EventLoop_dtor 0%nat ending_world = Fault (AssertFailed "Channel.cpp:28").
Proof.
  eapply (loop_destructor_aborts_over_a_closed_connection 0%nat ending_loop _
    (40%nat, gone_conn 5 1%nat) (gone_chan 5) [] ending_world).
  - reflexivity.
  - reflexivity.
  - split_and!; [reflexivity| |by exists ending_loop].
    eexists _, _. split_and!; [reflexivity|reflexivity|]. right. split; [by left|reflexivity].
  - reflexivity.
  - reflexivity.
  - apply not_elem_of_nil.
  - apply (bool_decide_unpack _). vm_compute. exact I.
  - split; try done.
    + split_and!; [reflexivity| |by exists ending_loop].
      eexists _, _. split_and!; [reflexivity|reflexivity|]. right. split; [by left|reflexivity].
    + by left.
  - done.
  - done.
Defined.
