(* ===== verification/Bench.v ===== *)
(** * Bench: the event-loop benchmark (example/pingpong/bench.cc)

    A chain of socket pairs watched by one loop: each byte read makes one more be
    sent, until [numWrites] have been, and the loop quits when everything that was
    sent has been read.  The globals are the [Bench] record of Objects.v; an [int]
    that overflows is undefined behaviour.  What is printed is not kept. *)
From S2P Require Import Prelude Endian Buffer OS Double Objects Poller LoopCore Channel TimerQueue Sockets TcpConnection EventLoop Threads Acceptor Connector TcpServer TcpClient Program PingPong.

Set Default Goal Selector "!".

(** The value of an [int] expression. *)
Definition int (n : Z) : outcome Z :=
  if (- 2 ^ 31 <=? n) && (n <? 2 ^ 31) then Ok n else Fault (OutOfBounds "int").

Section bench.
Context {K : Type} `{!OS K} {P : Poller K} `{Inet}.

Definition get_bench : M (World K) Bench := gets (λ w, ap_bench (w_app w)).
Definition upd_bench (f : Bench → Bench) : M (World K) unit :=
  modify (λ w, set_w_app (set_ap_bench (f (ap_bench (w_app w))) (w_app w)) w).

(** An element of a [std::vector]. *)
Definition at_ {A} (what : string) (l : list A) (i : Z) : M (World K) A :=
  lift (if i <? 0 then Fault (OutOfBounds what)
        else match l !! Z.to_nat i with Some a => Ok a | None => Fault (OutOfBounds what) end).

(** [::send(fd, "m", 1, 0)]; the result is not looked at. *)
Definition send_m (fd : Z) : M (World K) unit := _ ← syscall_ (SysSend fd [x6d]); mret tt.

Definition readCallback (fd idx : Z) : M (World K) unit :=
  r ← syscall_ (SysRecv fd 1);
  b ← get_bench;
  reads ← lift (int (bn_reads b + i32 (ret r)));
  upd_bench (set_bn_reads reads);;
  b ← get_bench;
  when (0 <? bn_writes b)
    (widx ← lift (int (idx + 1));
     let widx := if bn_numPipes b <=? widx then widx - bn_numPipes b else widx in
     fd' ← at_ "g_pipes" (bn_pipes b) (2 * widx + 1);
     send_m fd';;
     upd_bench (set_bn_writes (bn_writes b - 1));;
     fired ← lift (int (bn_fired b + 1));
     upd_bench (set_bn_fired fired));;
  b ← get_bench;
  when (bn_fired b =? bn_reads b) (quit (bn_loop b)).

(** Channel [i]'s callback: [capture0] is the channel's descriptor. *)
Definition bench_user (u : UserCall) : M (World K) unit :=
  match u with
  | UcChannel i _ =>
      b ← get_bench;
      c ← at_ "g_channels" (bn_channels b) (Z.of_nat i);
      ch ← chan_at c;
      readCallback (ch_fd ch) (Z.of_nat i)
  | _ => mret tt
  end.

(** Milliseconds between two readings of the clock, as an [int]. *)
Definition elapsed_ms (before after : Z) : Z := i32 (Z.quot (after - before) 1000000).

(** [None] if the loop did not return within [rounds]. *)
Definition runOnce (rounds : nat) : M (World K) (option (Z * Z)) :=
  beforeInit ← system_clock_now;
  b ← get_bench;
  for_each (seq 0 (Z.to_nat (bn_numPipes b))) (λ i,
    c ← at_ "g_channels" (bn_channels b) (Z.of_nat i);
    upd_chan c (set_ch_readCallback (Some (CbUser i)));;
    enableReading c);;
  (if bn_numActive b =? 0 then fail (OutOfBounds "numPipes / numActive") else mret tt);;
  space ← lift (int (Z.quot (bn_numPipes b) (bn_numActive b)));
  space ← lift (int (space * 2));
  for_each (seq 0 (Z.to_nat (bn_numActive b))) (λ i,
    j ← lift (int (Z.of_nat i * space));
    fd ← at_ "g_pipes" (bn_pipes b) (j + 1);
    send_m fd);;
  upd_bench (set_bn_fired (bn_numActive b));;
  upd_bench (set_bn_reads 0);;
  upd_bench (set_bn_writes (bn_numWrites b));;
  beforeLoop ← system_clock_now;
  finished ← loop bench_user rounds (bn_loop b);
  if finished : bool then
    end_ ← system_clock_now;
    mret (Some (elapsed_ms beforeInit end_, elapsed_ms beforeLoop end_))
  else mret None.

(** What [getopt(argc, argv, "n:a:w:")] finds. *)
Inductive bench_opt : Type := OptN (arg : string) | OptA (arg : string) | OptW (arg : string) | OptIllegal.

(** Whether every option is legal. *)
Fixpoint parse_options (opts : list bench_opt) : M (World K) bool :=
  match opts with
  | [] => mret true
  | OptN arg :: opts => n ← lift (atoi arg); upd_bench (set_bn_numPipes n);; parse_options opts
  | OptA arg :: opts => n ← lift (atoi arg); upd_bench (set_bn_numActive n);; parse_options opts
  | OptW arg :: opts => n ← lift (atoi arg); upd_bench (set_bn_numWrites n);; parse_options opts
  | OptIllegal :: _ => mret false
  end.

(** [socketpair] for pair [i], ..., of [todo] more; whether all of them worked. *)
Fixpoint open_pipes (i todo : nat) : M (World K) bool :=
  match todo with
  | O => mret true
  | S todo =>
      r ← syscall_ SysSocketpair;
      if ret r =? -1 then mret false
      else
        upd_bench (λ b, set_bn_pipes
          (<[S (2 * i) := to_signed 32 (load LittleEndian (field 4 4 (payload r)))]>
            (<[(2 * i)%nat := to_signed 32 (load LittleEndian (field 0 4 (payload r)))]> (bn_pipes b))) b);;
        open_pipes (S i) todo
  end.

Fixpoint run_times (n rounds : nat) : M (World K) bool :=
  match n with
  | O => mret true
  | S n => t ← runOnce rounds; match t with Some _ => run_times n rounds | None => mret false end
  end.

(** The exit status; [None] if a run's loop did not return within [rounds]. *)
Definition bench_main (rounds : nat) (ind : bool) (opts : list bench_opt) : M (World K) (option Z) :=
  upd_bench (set_bn_numPipes 100);;
  upd_bench (set_bn_numActive 1);;
  upd_bench (set_bn_numWrites 100);;
  legal ← parse_options opts;
  if negb legal then mret (Some 1) else
  b ← get_bench;
  n ← lift (int (bn_numPipes b * 2));
  n ← lift (int (n + 50));
  _ ← syscall_ (SysSetrlimitNofile (u64 n));
  (if bn_numPipes b <? 0 then fail (Terminated "std::length_error") else mret tt);;
  upd_bench (set_bn_pipes (replicate (Z.to_nat (2 * bn_numPipes b)) 0));;
  ok ← open_pipes 0 (Z.to_nat (bn_numPipes b));
  if negb ok then mret (Some 1) else
  l ← EventLoop_ctor ind;
  upd_bench (set_bn_loop l);;
  for_each (seq 0 (Z.to_nat (bn_numPipes b))) (λ i,
    b ← get_bench;
    fd ← at_ "g_pipes" (bn_pipes b) (2 * Z.of_nat i);
    c ← fresh;
    in_reactor (put_chan c (Channel_ctor l fd));;
    upd_bench (λ b, set_bn_channels (bn_channels b ++ [c]) b));;
  finished ← run_times 25 rounds;
  if negb finished then mret None else
  b ← get_bench;
  for_each (bn_channels b) (λ c, disableAll c;; remove c);;
  for_each (bn_channels b) Channel_dtor;;
  upd_bench (set_bn_channels []);;
  EventLoop_dtor l;;
  mret (Some 0).

(** ** Rules *)

Context `{!OSLaws K}.
Implicit Types w : World K.

(** Between callbacks, in the loop's thread: the counters are those of [b], and
    [quit_] is [q]. *)
Record benching (b : Bench) (q : bool) w : Prop := {
  be_bench : ap_bench (w_app w) = b;
  be_loop : ∃ x, w_loops w !! bn_loop b = Some x ∧ el_threadId x = w_tid w ∧ el_quit x = q
}.

(** The pipes are those of [numPipes] pairs. *)
Definition pipes_ok (b : Bench) : Prop :=
  0 < bn_numPipes b < 2 ^ 30 ∧ Z.of_nat (length (bn_pipes b)) = 2 * bn_numPipes b.

(** The counters after one callback whose [recv] returned [n]. *)
Definition count_read (n : Z) (b : Bench) : Bench :=
  let b := set_bn_reads (bn_reads b + n) b in
  if 0 <? bn_writes b then set_bn_fired (bn_fired b + 1) (set_bn_writes (bn_writes b - 1) b) else b.

Lemma get_bench_wp b q (Q : Bench → World K → Prop) w :
  benching b q w → Q b w → wp get_bench Q w.
Proof. intros [<- _] HQ. by apply wp_gets. Qed.

Lemma upd_bench_wp f b q (Q : unit → World K → Prop) w :
  benching b q w → bn_loop (f b) = bn_loop b →
  (∀ w', benching (f b) q w' → w_io w' = w_io w → Q tt w') → wp (upd_bench f) Q w.
Proof.
  intros [Hb Hl] Hf HQ. apply wp_modify, HQ; [|done]. split; simpl; [by rewrite Hb|by rewrite Hf].
Qed.

Lemma lift_ok_wp {A} (a : A) (o : outcome A) (Q : A → World K → Prop) w :
  o = Ok a → Q a w → wp (lift o) Q w.
Proof. intros -> HQ. exact HQ. Qed.

Lemma int_ok n : - 2 ^ 31 ≤ n < 2 ^ 31 → int n = Ok n.
Proof.
  intros Hn. unfold int. by rewrite (proj2 (Z.leb_le _ _)), (proj2 (Z.ltb_lt _ _)) by lia.
Qed.

Lemma at_wp {A} what (l : list A) i (Q : A → World K → Prop) w :
  0 ≤ i < Z.of_nat (length l) → (∀ a, l !! Z.to_nat i = Some a → Q a w) → wp (at_ what l i) Q w.
Proof.
  intros Hi HQ. destruct (lookup_lt_is_Some_2 l (Z.to_nat i)) as [a Ha]; [lia|].
  eapply (lift_ok_wp a); [|by apply HQ]. rewrite (proj2 (Z.ltb_ge _ _)) by lia. by rewrite Ha.
Qed.

Lemma bench_syscall_wp c b q (Q : sysres → World K → Prop) w :
  benching b q w →
  (∀ w', benching b q w' → io_trace (w_io w') = io_trace (w_io w) ++ [(c, (os_call c (io_k (w_io w))).1)] →
     Q (os_call c (io_k (w_io w))).1 w') →
  wp (syscall_ c) Q w.
Proof.
  intros [Hb Hl] HQ. apply syscall_wp. intros r k Hk. unfold w_io in *. rewrite Hk in HQ.
  apply HQ; [by split|done].
Qed.

Lemma bench_quit_wp b q (Q : unit → World K → Prop) w :
  benching b q w → (∀ w', benching b true w' → w_io w' = w_io w → Q tt w') → wp (quit (bn_loop b)) Q w.
Proof.
  intros [Hb (x & Hx & Ht & Hq)] HQ. apply wp_bind. eapply upd_loop_wp; [done|].
  apply wp_bind. eapply isInLoopThread_wp; [simpl; by rewrite lookup_insert_eq|].
  simpl. rewrite bool_decide_true by done. apply wp_when; intros E; [done|].
  apply HQ; [|done]. split; [done|]. eexists. simpl. by rewrite lookup_insert_eq.
Qed.

Definition sent_by (b : Bench) (calls : list (syscall * sysres)) : Prop :=
  if 0 <? bn_writes b then ∃ fd r, calls = [(SysSend fd [x6d], r)] else calls = [].

Lemma readCallback_wp fd idx b q (Q : unit → World K → Prop) w :
  benching b q w → pipes_ok b → 0 ≤ idx < bn_numPipes b →
  - 2 ^ 30 ≤ bn_reads b < 2 ^ 30 → 0 ≤ bn_fired b < 2 ^ 30 →
  (∀ r calls w', let b' := count_read (ret r) b in
     benching b' (q || (bn_fired b' =? bn_reads b')) w' → -1 ≤ ret r ≤ 1 → sent_by b calls →
     io_trace (w_io w') = io_trace (w_io w) ++ (SysRecv fd 1, r) :: calls → Q tt w') →
  wp (readCallback fd idx) Q w.
Proof.
  intros Hw [Hnum Hlen] Hidx Hreads Hfired HQ.
  apply wp_bind. eapply bench_syscall_wp; [done|]. intros w1 Hw1 Htr1.
  pose proof (recv_bound fd 1 (io_k (w_io w))) as Hr. set (r := (os_call _ _).1) in *.
  assert (i32 (ret r) = ret r) as Ei.
  { assert (ret r = -1 ∨ ret r = 0 ∨ ret r = 1) as [->|[->| ->]] by lia; done. }
  rewrite Ei. apply wp_bind. eapply get_bench_wp; [done|]. apply wp_bind. eapply lift_ok_wp; [apply int_ok; lia|].
  apply wp_bind. eapply upd_bench_wp; [done|done|]. intros w2 Hw2 Hio2.
  apply wp_bind. eapply get_bench_wp; [done|]. set (b1 := set_bn_reads _ b) in *.
  assert (∀ (R : unit → World K → Prop),
    (∀ w' calls, benching (count_read (ret r) b) q w' → sent_by b calls →
       io_trace (w_io w') = io_trace (w_io w2) ++ calls → R tt w') →
    wp (when (0 <? bn_writes b1)
      (widx ← lift (int (idx + 1));
       let widx := if bn_numPipes b1 <=? widx then widx - bn_numPipes b1 else widx in
       fd' ← at_ "g_pipes" (bn_pipes b1) (2 * widx + 1);
       send_m fd';;
       upd_bench (set_bn_writes (bn_writes b1 - 1));;
       fired ← lift (int (bn_fired b1 + 1));
       upd_bench (set_bn_fired fired))) R w2) as Hsend.
  { intros R HR. unfold count_read, sent_by in HR. fold b1 in HR.
    change (bn_writes b1) with (bn_writes b) in *. destruct (0 <? bn_writes b) eqn:Ew.
    2:{ apply wp_when; intros E; [done|]. apply (HR w2 []); [done|done|by rewrite app_nil_r]. }
    apply wp_when; intros E; [|done].
    apply wp_bind. eapply lift_ok_wp; [apply int_ok; lia|]. cbv zeta.
    apply wp_bind. eapply at_wp.
    { simpl. destruct (Z.leb_spec (bn_numPipes b) (idx + 1)); lia. }
    intros fd' _. apply wp_bind, wp_bind. eapply bench_syscall_wp; [done|]. intros w3 Hw3 Htr3.
    apply wp_ret, wp_bind. eapply upd_bench_wp; [done|done|]. intros w4 Hw4 Hio4.
    apply wp_bind. eapply lift_ok_wp; [apply int_ok; simpl; lia|].
    eapply upd_bench_wp; [done|done|]. intros w5 Hw5 Hio5.
    eapply HR; [exact Hw5|by do 2 eexists|]. by rewrite Hio5, Hio4, Htr3. }
  apply wp_bind, Hsend. intros w3 calls Hw3 Hcalls Htr3. clear Hsend.
  apply wp_bind. eapply get_bench_wp; [done|].
  assert (io_trace (w_io w3) = io_trace (w_io w) ++ (SysRecv fd 1, r) :: calls) as Htr.
  { by rewrite Htr3, Hio2, Htr1, <- app_assoc. }
  apply wp_when; intros E.
  - eapply bench_quit_wp; [done|]. intros w4 Hw4 Hio4. eapply (HQ r calls); [|lia|done|by rewrite Hio4].
    by rewrite E, orb_true_r.
  - eapply (HQ r calls); [|lia|done|done]. by rewrite E, orb_false_r.
Qed.

(** ** A run: one callback after another *)

(** The counters after [n] callbacks that each read a byte, with [A] bytes sent at
    the start and [W] to send. *)
Record counted (A W n : Z) (b0 b : Bench) : Prop := {
  cd_reads : bn_reads b = n;
  cd_writes : bn_writes b = Z.max 0 (W - n);
  cd_fired : bn_fired b = A + Z.min n W;
  cd_same : bn_pipes b = bn_pipes b0 ∧ bn_numPipes b = bn_numPipes b0 ∧ bn_loop b = bn_loop b0
}.

Definition recvs_one (calls : list (syscall * sysres)) : Prop :=
  Forall (λ cr : syscall * sysres, match cr.1 with SysRecv _ _ => ret cr.2 = 1 | _ => True end) calls.

Definition is_send (cr : syscall * sysres) : bool :=
  match cr.1 with SysSend _ _ => true | _ => false end.

Definition sends_of (calls : list (syscall * sysres)) : Z := Z.of_nat (length (filter is_send calls)).

(** What never changes: every write left or fired is one of the [A + W]. *)
Record conserved (A W n : Z) (b : Bench) : Prop := {
  cv_sum : bn_fired b + bn_writes b = A + W;
  cv_writes : 0 ≤ bn_writes b ≤ W;
  cv_reads : - n ≤ bn_reads b ≤ n
}.

Lemma count_read_conserved A W n r b :
  -1 ≤ r ≤ 1 → conserved A W n b → conserved A W (n + 1) (count_read r b).
Proof.
  intros Hr [H1 H2 H3]. unfold count_read. simpl.
  destruct (Z.ltb_spec 0 (bn_writes b)); split; simpl; lia.
Qed.

Lemma count_read_pipes r b : pipes_ok b → pipes_ok (count_read r b).
Proof. unfold pipes_ok, count_read. simpl. by destruct (0 <? bn_writes b). Qed.

Lemma count_read_same r b : bn_pipes (count_read r b) = bn_pipes b
  ∧ bn_numPipes (count_read r b) = bn_numPipes b ∧ bn_loop (count_read r b) = bn_loop b.
Proof. unfold count_read. simpl. by destruct (0 <? bn_writes b). Qed.

Lemma count_read_counted A W n b0 b :
  0 < A → 0 ≤ n → 0 ≤ W → counted A W n b0 b → counted A W (n + 1) b0 (count_read 1 b)
  ∧ (bn_fired (count_read 1 b) =? bn_reads (count_read 1 b)) = (A + W =? n + 1).
Proof.
  intros HA Hn HW [H1 H2 H3 H4]. split; [split|].
  4: by destruct (count_read_same 1 b) as (-> & -> & ->).
  all: unfold count_read; simpl; rewrite ?H1, ?H2, ?H3;
    destruct (Z.ltb_spec 0 (Z.max 0 (W - n))); simpl; lia.
Qed.

Lemma sends_of_sent A W n b0 b calls :
  0 ≤ n → 0 ≤ W → counted A W n b0 b → sent_by b calls →
  sends_of calls = Z.min (n + 1) W - Z.min n W.
Proof.
  intros Hn HW [_ H2 _ _]. unfold sent_by. rewrite H2. unfold sends_of.
  destruct (Z.ltb_spec 0 (Z.max 0 (W - n))).
  - intros (fd & r & ->). simpl. lia.
  - intros ->. simpl. lia.
Qed.

Lemma sends_of_app l1 l2 : sends_of (l1 ++ l2) = sends_of l1 + sends_of l2.
Proof. unfold sends_of. rewrite filter_app, length_app. lia. Qed.

Lemma readCallbacks_wp A W b0 cbs : ∀ n b q w,
  0 < A → 0 ≤ W → A + W < 2 ^ 30 → 0 ≤ n → n + Z.of_nat (length cbs) < 2 ^ 30 →
  benching b q w → pipes_ok b → conserved A W n b →
  Forall (λ cb : Z * Z, 0 ≤ cb.2 < bn_numPipes b) cbs →
  wp (for_each cbs (λ cb, readCallback cb.1 cb.2)) (λ _ w', ∃ b' q' calls,
    benching b' q' w' ∧ conserved A W (n + Z.of_nat (length cbs)) b'
    ∧ io_trace (w_io w') = io_trace (w_io w) ++ calls
    ∧ (counted A W n b0 b → q = (A + W <=? n) → recvs_one calls →
       counted A W (n + Z.of_nat (length cbs)) b0 b'
       ∧ q' = (A + W <=? n + Z.of_nat (length cbs))
       ∧ sends_of calls = Z.min (n + Z.of_nat (length cbs)) W - Z.min n W)) w.
Proof.
  induction cbs as [|[fd idx] cbs IH]; intros n b q w HA HW Hsum Hn Hlen Hw Hp Hcons Hall.
  { apply wp_ret. simpl. rewrite Z.add_0_r. exists b, q, []. rewrite app_nil_r.
    split_and!; [done..|]. intros Hc Hq _. split_and!; [done|done|]. unfold sends_of. simpl. lia. }
  apply Forall_cons in Hall as [Hidx Hall]. cbn [length] in *. pose proof Hcons as [Hs Hwr Hre].
  apply wp_bind. eapply (readCallback_wp fd idx); [done|done|done|lia|lia|].
  cbv zeta. intros r calls w1 Hw1 Hr Hsent Htr1. set (b1 := count_read (ret r) b) in *.
  destruct (count_read_same (ret r) b) as (_ & Hnum & _). fold b1 in Hnum.
  eapply wp_mono.
  - apply (IH (n + 1) b1 (q || (bn_fired b1 =? bn_reads b1)) w1); [done..|lia|lia|exact Hw1|by apply count_read_pipes| |by rewrite Hnum].
    by apply count_read_conserved.
  - intros [] w2 (b2 & q2 & calls2 & Hw2 & Hcons2 & Htr2 & Hrest).
    replace (n + Z.of_nat (S (length cbs))) with (n + 1 + Z.of_nat (length cbs)) by lia.
    exists b2, q2, ((SysRecv fd 1, r) :: calls ++ calls2).
    split_and!; [exact Hw2|exact Hcons2|by rewrite Htr2, Htr1, <- app_assoc|].
    intros Hc Hq [Hr1 Hones]%Forall_cons. simpl in Hr1. apply Forall_app in Hones as [_ Hones].
    destruct (count_read_counted A W n b0 b HA Hn HW Hc) as [Hc1 Hq1]. unfold b1 in *. rewrite Hr1 in *.
    destruct Hrest as (H1 & H2 & H3); [done| |done|].
    { rewrite Hq1, Hq. lia. }
    split_and!; [done|done|].
    pose proof (sends_of_sent A W n b0 b calls Hn HW Hc Hsent) as Hone.
    change (sends_of ((SysRecv fd 1, r) :: calls ++ calls2)) with (sends_of (calls ++ calls2)).
    rewrite sends_of_app, Hone, H3. lia.
Qed.

(** ** Properties *)

(** C32: a round of the benchmark ends exactly when every byte sent has been read.
    With [A] bytes sent at the start and [W] more to send, whatever callbacks run
    in whatever order, no assertion fails, no [int] overflows and no index is out
    of range, and the writes fired and those left always add up to [A + W].  If
    every callback finds its byte, [n] callbacks have read [n] bytes and sent
    [min n W], and the loop has been told to quit exactly when [n] has reached
    [A + W]. *)
Theorem bench_quits_when_all_read (A W : Z) (cbs : list (Z * Z)) (b : Bench) w
    (HA : 0 < A) (HW : 0 ≤ W) (Hsum : A + W < 2 ^ 30) (Hlen : Z.of_nat (length cbs) < 2 ^ 30)
    (Hw : benching b false w) (Hp : pipes_ok b)
    (Hstart : bn_reads b = 0 ∧ bn_writes b = W ∧ bn_fired b = A)
    (Hcbs : Forall (λ cb : Z * Z, 0 ≤ cb.2 < bn_numPipes b) cbs) :
  let n := Z.of_nat (length cbs) in
  ∃ w' b' q calls, for_each cbs (λ cb, readCallback cb.1 cb.2) w = Ok (tt, w')
    ∧ benching b' q w' ∧ io_trace (w_io w') = io_trace (w_io w) ++ calls
    ∧ bn_fired b' + bn_writes b' = A + W
    ∧ (recvs_one calls →
         bn_reads b' = n ∧ sends_of calls = Z.min n W ∧ q = (A + W <=? n)).
Proof.
  cbv zeta. destruct Hstart as (H1 & H2 & H3).
  assert (counted A W 0 b b) as Hc by (split; [done|lia|lia|done]).
  destruct (proj1 (wp_run _ _ _) (readCallbacks_wp A W b cbs 0 b false w HA HW Hsum ltac:(lia) Hlen Hw Hp
    ltac:(split; lia) Hcbs)) as ([] & w' & Hrun & b' & q & calls & Hw' & Hcons & Htr & Hrest).
  exists w', b', q, calls. split_and!; [exact Hrun|exact Hw'|exact Htr|apply (cv_sum _ _ _ _ Hcons)|].
  intros Hones. destruct (Hrest Hc) as ([Hreads _ _ _] & Hq & Hs); [lia|done|].
  rewrite Z.add_0_l in *. split_and!; [done|lia|done].
Qed.
End bench.

(** *** Two pairs, one byte sent at the start and one more to send *)

Definition small_bench : Bench := mkBench [10; 11; 12; 13] 2 1 1 0%nat [] 0 1 1.

Definition bench_world : World sim :=
  set_w_app (set_ap_bench small_bench no_app)
    (with_io (mkIO (mkSim [mkRes 1 0 [] []; mkRes 1 0 [] []; mkRes 1 0 [] []] ∅) [] 0 []) sample_world).

Lemma bench_quits_when_all_read_witness :
  ∃ w' b' q calls, for_each [(10, 0); (12, 1)] (λ cb, readCallback cb.1 cb.2) bench_world = Ok (tt, w')
    ∧ benching b' q w' ∧ io_trace (w_io w') = calls
    ∧ (recvs_one calls → bn_reads b' = 2 ∧ sends_of calls = 1 ∧ q = true).
Proof.
  destruct (bench_quits_when_all_read 1 1 [(10, 0); (12, 1)] small_bench bench_world)
    as (w' & b' & q & calls & Hrun & Hw & Htr & _ & Hrest).
  - lia.
  - lia.
  - lia.
  - simpl. lia.
  - split; [done|]. by exists sample_loop.
  - split; [simpl; lia|done].
  - done.
  - repeat constructor; simpl; lia.
  - exists w', b', q, calls. split_and!; [exact Hrun|exact Hw|exact Htr|exact Hrest].
Defined.

Example bench_scenario :
  match for_each [(10, 0); (12, 1)] (λ cb, readCallback cb.1 cb.2) bench_world with
  | Ok (_, w') => Some ((io_trace (w_io w')).*1, el_quit <$> w_loops w' !! 0%nat)
  | Fault _ => None
  end = Some ([SysRecv 10 1; SysSend 13 [x6d]; SysRecv 12 1], Some true).
Proof. by vm_compute. Qed.
