(* ===== verification/Echo.v ===== *)
(** * Echo: what the example server and a draining connection promise

    The ping-pong server of PingPong.v over the byte stream of ByteStream.v: what
    it reads comes back.  And the progress of a connection's output: pending bytes
    leave within as many writability events as there are bytes. *)
From S2P Require Import Prelude Endian Buffer OS Double Objects Poller LoopCore Channel TimerQueue Sockets TcpConnection ByteStream EventLoop Threads Acceptor Connector TcpServer TcpClient Program Serving Lifetimes PingPong.

Set Default Goal Selector "!".

(** ** Emptying a buffer *)

(** A buffer with nothing in it, its indices at the start, and of the size that
    reads of at most twice 64 KiB can bring about. *)
Definition max_input : Z := kCheapPrepend + 2 * sizeof_extrabuf.

Record input_idle (b : Buffer) : Prop := {
  ii_reader : readerIndex_ b = kCheapPrepend;
  ii_writer : writerIndex_ b = kCheapPrepend;
  ii_size : kCheapPrepend ≤ bsize b ≤ max_input
}.

Lemma input_idle_wf b : input_idle b → wf b ∧ content b = [] ∧ writableBytes b = bsize b - kCheapPrepend.
Proof.
  intros [Hr Hw Hs]. unfold max_input, sizeof_extrabuf, kCheapPrepend in *.
  assert (wf b) as Hwf by (unfold wf, max_size; lia).
  split_and!; [done| |rewrite writableBytes_wf by done; lia].
  unfold content, bytes_at. by rewrite Hr, Hw.
Qed.

(** With less than 2 GiB in it, [retrieveAllAsString] takes everything. *)
Lemma retrieveAllAsString_wp b (Q : list byte → Buffer → Prop) :
  wf b → readableBytes b < 2 ^ 31 →
  Q (content b) (set_indices kCheapPrepend kCheapPrepend b) → wp retrieveAllAsString Q b.
Proof.
  intros Hwf Hlt HQ. pose proof (readableBytes_wf b Hwf) as Hr. unfold wf in Hwf.
  unfold retrieveAllAsString, retrieveAsString, retrieve, retrieveAll.
  apply wp_bind, wp_get, wp_bind, wp_get, wp_bind, wp_assert; [lia|]. cbv zeta.
  apply wp_bind, wp_bind, wp_get. rewrite (to_signed_small 32), wrap_small by lia.
  rewrite (proj2 (Z.ltb_ge _ _)) by lia. apply wp_modify, wp_ret. by rewrite Hr.
Qed.

(** One read offers an idle buffer's free tail, and at least 64 KiB. *)
Lemma readFd_iov_idle b :
  input_idle b → Forall (Z.le 0) (readFd_iov b)
  ∧ foldr Z.add 0 (readFd_iov b) ≤ 2 * sizeof_extrabuf
  ∧ foldr Z.add 0 (readFd_iov b) ≤ writableBytes b + (if writableBytes b <? sizeof_extrabuf then sizeof_extrabuf else 0).
Proof.
  intros Hb. destruct (input_idle_wf b Hb) as (_ & _ & Hw). destruct Hb as [_ _ Hs].
  unfold readFd_iov, max_input, sizeof_extrabuf, kCheapPrepend in *.
  destruct (Z.ltb_spec (writableBytes b) 65536); simpl; split_and!; try lia; repeat constructor; lia.
Qed.

Section echo.
Context {K : Type} `{!OS K} `{!OSLaws K} {P : Poller K} `{!PollerLaws K P}.
Context (close_callback : CloseCallback → ptr → M (World K) unit) (c : ptr) (receiveTime : Z).
Implicit Types w : World K.

(** What the socket of [x] saw from [w] to [w']. *)
Definition seen (x : TcpConnection) w w' (vs : list (syscall * sysres)) : Prop :=
  ∃ calls, io_trace (w_io w') = io_trace (w_io w) ++ calls ∧ visible (tc_socket x) calls = vs.

Lemma ext_seen x w w' vs fs : ext x w w' vs fs → seen x w w' vs.
Proof. by intros [H _]. Qed.

Lemma seen_refl x w : seen x w w [].
Proof. exists []. by rewrite app_nil_r. Qed.

Lemma seen_trans x x' w1 w2 w3 vs vs' :
  tc_socket x' = tc_socket x → seen x w1 w2 vs → seen x' w2 w3 vs' → seen x w1 w3 (vs ++ vs').
Proof.
  intros Hs (l1 & E1 & V1) (l2 & E2 & V2). exists (l1 ++ l2). rewrite Hs in V2.
  rewrite E2, E1, <- app_assoc, visible_app. by subst.
Qed.

(** Steps outside the kernel. *)
Definition same_io w w' : Prop := w_io w' = w_io w.

Lemma same_io_seen x w w' : same_io w w' → seen x w w' [].
Proof. intros E. exists []. by rewrite E, app_nil_r. Qed.

(** An operation on the input buffer. *)
Lemma conn_input_wp {A} x ch (m : M Buffer A) (Q : A → World K → Prop) w :
  conn_core c x ch w →
  wp m (λ a b, ∀ w', conn_core c (set_tc_inputBuffer b x) ch w' → same_io w w' → Q a w')
    (tc_inputBuffer x) →
  wp (on_buffer (input_of c) m) Q w.
Proof.
  intros Hok Hm. pose proof (ck_conn _ _ _ _ Hok) as Hc.
  eapply wp_zoom; [simpl; by rewrite Hc|]. eapply wp_mono; [exact Hm|]. intros a b HQ. apply HQ.
  - simpl. replace (alter (set_tc_inputBuffer b) c (w_conns w))
      with (<[c := set_tc_inputBuffer b x]> (w_conns w)).
    + eapply conn_core_set; [done..|apply Hok].
    + apply map_eq. intros c'. destruct (decide (c' = c)) as [->|Hne].
      * by rewrite lookup_alter_eq, lookup_insert_eq, Hc.
      * by rewrite lookup_alter_ne, lookup_insert_ne.
  - done.
Qed.

Lemma conn_core_mem x ch m w : conn_core c x ch w → conn_core c x ch (set_w_mem m w).
Proof. by intros []. Qed.

Lemma new_string_wp s x ch (Q : ptr → World K → Prop) w :
  conn_core c x ch w →
  (∀ p w', conn_core c x ch w' → w_mem w' !! p = Some s → same_io w w' → Q p w') →
  wp (new_string s) Q w.
Proof.
  intros Hok HQ. apply wp_bind. unfold fresh, wp at 1. apply wp_bind, wp_modify, wp_ret, HQ.
  - apply conn_core_mem. by destruct Hok.
  - simpl. by rewrite lookup_insert_eq.
  - done.
Qed.

(** [send(const std::string&)] in the loop's thread. *)
Lemma send_string_wp x ch p data (Q : unit → World K → Prop) w :
  conn_ok c x ch w → tc_state x = kConnected → w_mem w !! p = Some data →
  data ≠ [] → Z.of_nat (length data) < 2 ^ 31 →
  bsize (tc_outputBuffer x) + Z.of_nat (length data) ≤ max_size →
  let r := write_result x data w in
  (∀ b' ch' w', conn_ok c (set_tc_outputBuffer b' x) ch' w' →
     content b' = send_pending x data r →
     bsize b' ≤ bsize (tc_outputBuffer x) + Z.of_nat (length data) →
     seen x w w' (send_calls x data r) → Q tt w') →
  wp (send_string c p) Q w.
Proof.
  cbv zeta. intros Hok Hst Hmem Hne Hlen Hmax HQ. pose proof Hok as [Hcore _].
  assert (0 < Z.of_nat (length data)) by (destruct data; [done|simpl; lia]).
  apply wp_bind. eapply wp_gets_some; [done|]. unfold send. rewrite to_signed_small by lia.
  rewrite (proj2 (Z.leb_gt _ _)) by lia. apply wp_bind. eapply get_conn_wp; [apply Hcore|].
  rewrite bool_decide_true by done. destruct (conn_loop_lookup _ _ _ _ Hcore) as (lx & Hl & Ht).
  apply wp_bind. eapply isInLoopThread_wp; [exact Hl|]. rewrite bool_decide_true by done.
  eapply (sendInLoop_wp c x ch (Memory p) data); [exact Hok|by rewrite Hst| |done|done|].
  - exists []. by rewrite app_nil_r.
  - intros b' ch' w' Hok' Hc Hs Hext. apply ext_seen in Hext. by eapply HQ.
Qed.

(** [send] of the input buffer itself in the loop's thread. *)
Lemma send_input_wp x ch (Q : unit → World K → Prop) w :
  let data := content (tc_inputBuffer x) in
  let r := write_result x data w in
  conn_ok c x ch w → tc_state x = kConnected → wf (tc_inputBuffer x) → data ≠ [] →
  bsize (tc_outputBuffer x) + Z.of_nat (length data) ≤ max_size →
  (∀ b' ch' w', conn_ok c (set_tc_inputBuffer (set_indices kCheapPrepend kCheapPrepend (tc_inputBuffer x))
       (set_tc_outputBuffer b' x)) ch' w' →
     content b' = send_pending x data r → seen x w w' (send_calls x data r) → Q tt w') →
  wp (send_buffer c (input_of c)) Q w.
Proof.
  cbv zeta. intros Hok Hst Hwf Hne Hmax HQ. pose proof Hok as [Hcore _].
  assert (0 < Z.of_nat (length (content (tc_inputBuffer x)))) by (destruct (content _); [done|simpl; lia]).
  apply wp_bind. eapply get_conn_wp; [apply Hcore|].
  apply wp_bind. eapply wp_gets_some; [simpl; by rewrite (ck_conn _ _ _ _ Hcore)|].
  rewrite bool_decide_true, <- length_content by done. apply wp_when; intros E; [|simpl in E; lia].
  destruct (conn_loop_lookup _ _ _ _ Hcore) as (lx & Hl & Ht).
  apply wp_bind. eapply isInLoopThread_wp; [exact Hl|]. rewrite bool_decide_true by done.
  replace (bytes_at (readerIndex_ (tc_inputBuffer x)) (Z.of_nat (length (content (tc_inputBuffer x))))
             (tc_inputBuffer x)) with (content (tc_inputBuffer x))
    by (by rewrite length_content, readableBytes_wf).
  apply wp_bind. eapply (sendInLoop_wp c x ch (Bytes _) _); [exact Hok|by rewrite Hst|done|done|done|].
  intros b' ch' w1 [Hcore1 Hwi1] Hc Hs Hext. apply ext_seen in Hext.
  eapply conn_input_wp; [exact Hcore1|]. simpl. apply wp_modify. intros w2 Hcore2 Hio2.
  eapply HQ; [by split|exact Hc|].
  pose proof (seen_trans x x _ _ _ _ _ eq_refl Hext (same_io_seen x _ _ Hio2)) as Hs2.
  by rewrite app_nil_r in Hs2.
Qed.

(** The server sends what it was told of. *)
Lemma server_onMessage_wp x ch (Q : unit → World K → Prop) w :
  let data := content (tc_inputBuffer x) in
  let r := write_result x data w in
  conn_ok c x ch w → tc_state x = kConnected → wf (tc_inputBuffer x) → data ≠ [] →
  Z.of_nat (length data) < 2 ^ 31 →
  bsize (tc_outputBuffer x) + Z.of_nat (length data) ≤ max_size →
  (∀ b' ch' w',
     conn_ok c (set_tc_outputBuffer b'
       (set_tc_inputBuffer (set_indices kCheapPrepend kCheapPrepend (tc_inputBuffer x)) x)) ch' w' →
     content b' = send_pending x data r →
     bsize b' ≤ bsize (tc_outputBuffer x) + Z.of_nat (length data) →
     seen x w w' (send_calls x data r) → Q tt w') →
  wp (server_onMessage c) Q w.
Proof.
  intros data r Hok Hst Hwf Hne Hlen Hmax HQ. pose proof Hok as [Hcore Hwi].
  apply wp_bind. eapply conn_input_wp; [exact Hcore|].
  apply retrieveAllAsString_wp; [done|by rewrite <- length_content|]. fold data.
  set (x1 := set_tc_inputBuffer _ x). intros w1 Hcore1 Hio1.
  apply wp_bind. eapply new_string_wp; [exact Hcore1|]. intros p w2 Hcore2 Hmem Hio2.
  assert (write_result x1 data w2 = r) as Er by (unfold write_result; by rewrite Hio2, Hio1).
  apply wp_bind. eapply (send_string_wp x1); [split; [exact Hcore2|done]|done|exact Hmem|done|done|done|].
  rewrite Er. intros b' ch' w3 [Hcore3 Hwi3] Hc Hs Hseen3. apply wp_modify.
  eapply HQ; [split; [by apply conn_core_mem|done]|exact Hc|exact Hs|].
  assert (seen x w w2 []) as H12 by (apply same_io_seen; unfold same_io; by rewrite Hio2).
  exact (seen_trans x x1 _ _ _ _ _ eq_refl H12 Hseen3).
Qed.

(** The client counts and then sends its input buffer back. *)
Lemma upd_session_wp sn y (f : Session → Session) (Q : unit → World K → Prop) w :
  ap_sessions (w_app w) !! sn = Some y →
  (∀ w', w' = set_w_app (w_app w') w → ap_sessions (w_app w') !! sn = Some (f y) → Q tt w') →
  wp (upd_session sn f) Q w.
Proof.
  intros Hy HQ. apply wp_bind. eapply wp_gets_some; [done|]. apply wp_modify, HQ; [done|].
  simpl. by rewrite lookup_insert_eq.
Qed.

Lemma Session_onMessage_wp sn y x ch (Q : unit → World K → Prop) w :
  let data := content (tc_inputBuffer x) in
  let r := write_result x data w in
  conn_ok c x ch w → tc_state x = kConnected → wf (tc_inputBuffer x) → data ≠ [] →
  bsize (tc_outputBuffer x) + Z.of_nat (length data) ≤ max_size →
  ap_sessions (w_app w) !! sn = Some y →
  (∀ b' ch' w', conn_ok c (set_tc_inputBuffer (set_indices kCheapPrepend kCheapPrepend (tc_inputBuffer x))
       (set_tc_outputBuffer b' x)) ch' w' →
     content b' = send_pending x data r → seen x w w' (send_calls x data r) → Q tt w') →
  wp (Session_onMessage sn c) Q w.
Proof.
  cbv zeta. intros Hok Hst Hwf Hne Hmax Hy HQ.
  apply wp_bind. eapply wp_gets_some; [simpl; by rewrite (ck_conn _ _ _ _ (proj1 Hok))|].
  apply wp_bind. eapply upd_session_wp; [exact Hy|]. intros w1 E1 Hy1.
  apply wp_bind. eapply upd_session_wp; [exact Hy1|]. intros w2 E2 Hy2.
  apply wp_bind. eapply upd_session_wp; [exact Hy2|]. intros w3 E3 Hy3.
  assert (conn_ok c x ch w3) as Hok3.
  { destruct Hok as [[] Hwi]. rewrite E3, E2, E1. split; [by split|done]. }
  assert (w_io w3 = w_io w) as Hio by (by rewrite E3, E2, E1).
  eapply send_input_wp; [done..|]. intros b' ch' w' Hok' Hc Hs.
  unfold write_result, seen in *. rewrite Hio in Hc, Hs. by eapply HQ.
Qed.

(** *** Events *)

Inductive socket_event : Type := Readable | Writable.

#[export] Instance socket_event_eq_dec : EqDecision socket_event.
Proof. solve_decision. Defined.

Definition run_event (e : socket_event) : M (World K) unit :=
  match e with
  | Readable => handleRead server_user close_callback c receiveTime
  | Writable => handleWrite c
  end.

(** The bytes read from [fd], in order. *)
Definition received (fd : Z) (calls : list (syscall * sysres)) : list byte :=
  calls ≫= λ cr, match cr.1 with
                 | SysReadv fd' _ => if fd' =? fd then take (Z.to_nat (ret cr.2)) (payload cr.2) else []
                 | _ => []
                 end.

(** A connection of the server, between events. *)
Record echoing (id : nat) (x : TcpConnection) : Prop := {
  eo_state : tc_state x = kConnected;
  eo_message : tc_messageCallback x = Some (UserMessageCallback id);
  eo_input : input_idle (tc_inputBuffer x)
}.

(** The answer to a read that the connection makes next. *)
Definition next_read (x : TcpConnection) w : sysres :=
  (os_call (SysReadv (tc_socket x) (readFd_iov (tc_inputBuffer x))) (io_k (w_io w))).1.

(** One event: the bytes read are sent. *)
Definition echo_step (x x' : TcpConnection) (vs : list (syscall * sysres)) (msgs : list (list byte))
    : Prop :=
  received (tc_socket x) vs = concat msgs ∧ total msgs ≤ 2 * sizeof_extrabuf
  ∧ ∃ accepted, stream_step x x' vs msgs accepted.

Lemma received_app fd l1 l2 : received fd (l1 ++ l2) = received fd l1 ++ received fd l2.
Proof. apply bind_app. Qed.

Lemma conn_core_calls x ch l w : conn_core c x ch w → conn_core c x ch (set_w_calls l w).
Proof. by intros []. Qed.

(** What [readFd] leaves, in terms of the call's answer. *)
Lemma read_input_wp b r (Q : Z → Buffer → Prop) :
  input_idle b → (ret r = -1 ∨ ret r = Z.of_nat (length (payload r)) ∧ ret r ≤ foldr Z.add 0 (readFd_iov b)) →
  (∀ b', wf b' → bsize b ≤ bsize b' ≤ max_input →
     content b' = (if ret r <? 0 then [] else payload r) → (ret r < 0 → b' = b) → Q (ret r) b') →
  wp (readFd (λ _, if ret r <? 0 then None else Some (take (Z.to_nat (ret r)) (payload r)))) Q b.
Proof.
  intros Hb Hr HQ. destruct (input_idle_wf b Hb) as (Hwf & Hc & Hw).
  destruct (readFd_iov_idle b Hb) as (_ & _ & Hiov). pose proof (ii_size b Hb) as Hs.
  unfold max_input, sizeof_extrabuf, kCheapPrepend in *.
  apply wp_bind, wp_get. destruct (Z.ltb_spec (ret r) 0) as [Hneg|Hpos].
  - assert (ret r = -1) as E by lia. rewrite E in HQ. apply wp_ret, HQ; [done|lia|done|done].
  - destruct Hr as [Hr|[Hr Hle]]; [lia|]. rewrite take_ge by lia.
    assert (ret r ≤ writableBytes b + 65536 ∧ (writableBytes b < 65536 ∨ ret r ≤ writableBytes b))
      by (destruct (Z.ltb_spec (writableBytes b) 65536); lia).
    eapply wp_mono; [apply readFd_store_wp; [done|unfold kCheapPrepend; lia|unfold max_size; simpl; lia]|].
    simpl. intros n b' (Hwf' & Hs' & Hc' & -> & _). rewrite <- Hr. apply HQ; [done| |by rewrite Hc', Hc|intros ?; exfalso; lia].
    lia.
Qed.

Lemma handleRead_echo_wp id x ch w :
  conn_ok c x ch w → echoing id x → bsize (tc_outputBuffer x) + 2 * sizeof_extrabuf ≤ max_size →
  ret (next_read x w) ≠ 0 →
  wp (run_event Readable) (λ _ w', ∃ x' ch' vs msgs,
    conn_ok c x' ch' w' ∧ echoing id x' ∧ seen x w w' vs ∧ echo_step x x' vs msgs) w.
Proof.
  intros [Hcore Hwi] [Hst Hcb Hin] Hmax Hr.
  pose proof (readFd_iov_idle _ Hin) as (Hpos & Hle & _). unfold sizeof_extrabuf in *.
  pose proof (readv_bound (tc_socket x) _ (io_k (w_io w)) Hpos) as Hbound. fold (next_read x w) in Hbound.
  apply wp_bind. eapply conn_assertInLoopThread_wp; [done|].
  apply wp_bind. eapply conn_channel_wp; [done|].
  apply wp_bind. eapply get_conn_wp; [apply Hcore|]. rewrite (ck_fd _ _ _ _ Hcore).
  apply wp_bind, wp_bind. eapply conn_syscall_wp; [exact Hcore|]. fold (next_read x w).
  simpl on_fd. rewrite Z.eqb_refl. intros w1 Hcore1 Hext1 _. apply ext_seen in Hext1 as Hseen1.
  apply wp_ret. set (r := next_read x w) in *.
  apply wp_bind. eapply conn_input_wp; [exact Hcore1|].
  apply read_input_wp; [done|done|]. intros b Hwfb Hsb Hcb' Heq w2 Hcore2 Hio2.
  apply (same_io_seen x) in Hio2 as Hseen2. pose proof (seen_trans x _ _ _ _ _ _ eq_refl Hseen1 Hseen2) as H12. rewrite app_nil_r in H12.
  destruct (Z.ltb_spec 0 (ret r)) as [Hgt|Hngt].
  - destruct (Z.ltb_spec (ret r) 0); [lia|]. destruct Hbound as [Hbound|[Hbound Hle']]; [lia|].
    assert (Z.of_nat (length (content b)) = ret r) as Hlen by (rewrite Hcb'; lia).
    apply wp_bind. eapply get_conn_wp; [apply Hcore2|]. simpl. rewrite Hcb.
    apply wp_bind, wp_modify. set (x1 := set_tc_inputBuffer b x) in *.
    eapply (server_onMessage_wp x1); simpl.
    + split; [by apply conn_core_calls|done].
    + done.
    + done.
    + intros E. rewrite E in Hlen. simpl in Hlen. lia.
    + lia.
    + lia.
    + set (r' := write_result x1 (content b) _).
      intros b' ch' w' Hok' Hc' Hs' Hseen'. eexists _, ch', _, [content b].
      split_and!; [exact Hok'| |exact (seen_trans x x1 _ _ _ _ _ eq_refl H12 Hseen')|].
      { split; [done|done|]. split; [done|done|]. exact (conj (Z.le_trans _ _ _ (proj1 (ii_size _ Hin)) (proj1 Hsb)) (proj2 Hsb)). }
      destruct (send_step x b' (content b) r' Hc' Hs') as [acc Hacc].
      unfold echo_step. split_and!.
      * rewrite received_app. unfold received at 1. cbn [mbind list_bind fst snd].
        rewrite Z.eqb_refl, app_nil_r, take_ge, Hcb' by lia. simpl. f_equal.
        unfold send_calls. by case_bool_decide.
      * rewrite total_one. unfold sizeof_extrabuf. lia.
      * exists acc. destruct Hacc as (? & ? & ? & Hd & ? & Hnf & ?). split_and!; try done.
        intros Hall. apply Hnf. by apply Forall_cons in Hall as [_ ?].
  - assert (ret r < 0) as Hneg by lia. rewrite (proj2 (Z.eqb_neq _ _)) by lia. rewrite (Heq Hneg) in *.
    eapply conn_log_wp; [exact Hcore2|]. intros w3 Hcore3 Hext3 _. apply ext_seen in Hext3.
    assert (set_tc_inputBuffer (tc_inputBuffer x) x = x) as Ex by (by destruct x). rewrite Ex in *.
    exists x, ch, [(SysReadv (tc_socket x) (readFd_iov (tc_inputBuffer x)), r)], [].
    split_and!; [by split|by split| |].
    + pose proof (seen_trans x _ _ _ _ _ _ eq_refl H12 Hext3) as H. by rewrite app_nil_r in H.
    + unfold echo_step. split_and!.
      * unfold received. cbn [mbind list_bind fst snd]. rewrite Z.eqb_refl.
        replace (Z.to_nat (ret r)) with 0%nat by lia. done.
      * unfold total, sizeof_extrabuf. simpl. lia.
      * exists []. by apply stream_step_idle.
Qed.

Lemma handleWrite_echo_wp id x ch w :
  conn_ok c x ch w → echoing id x →
  wp (run_event Writable) (λ _ w', ∃ x' ch' vs,
    conn_ok c x' ch' w' ∧ echoing id x' ∧ seen x w w' vs ∧ echo_step x x' vs []) w.
Proof.
  intros Hok Hecho. assert (total [] ≤ 2 * sizeof_extrabuf) as H0 by (by vm_compute).
  destruct (decide (pending_bytes x = [])) as [Hp|Hp].
  - eapply handleWrite_idle_wp; [done..|]. exists x, ch, [].
    split_and!; [exact Hok|exact Hecho|apply seen_refl|].
    split_and!; [done|done|exists []; by apply stream_step_idle].
  - eapply handleWrite_wp; [done..|]. intros b ch' w' vs Hok' Hc Hs Hext Hvs. apply ext_seen in Hext.
    eexists _, ch', _. split_and!; [exact Hok'|by destruct Hecho|exact Hext|].
    rewrite (eo_state _ _ Hecho), andb_false_r in Hvs. subst vs.
    split_and!; [done|done|]. exists []. apply write_step; [done|done|by left].
Qed.

(** The next event finds the end of the peer's stream. *)
Definition at_end (e : socket_event) (x : TcpConnection) w : Prop :=
  e = Readable ∧ ret (next_read x w) = 0.

#[local] Instance at_end_dec e x w : Decision (at_end e x w).
Proof. unfold at_end. solve_decision. Defined.

Lemma run_events id evs : ∀ x ch w,
  conn_ok c x ch w → echoing id x →
  bsize (tc_outputBuffer x) + 2 * sizeof_extrabuf * Z.of_nat (length evs) ≤ max_size →
  ∃ n x' ch' w' vs msgs accepted,
    for_each (take n evs) run_event w = Ok (tt, w') ∧ conn_ok c x' ch' w' ∧ echoing id x'
    ∧ seen x w w' vs ∧ received (tc_socket x) vs = concat msgs ∧ stream_step x x' vs msgs accepted
    ∧ (n = length evs ∨ ∃ e, evs !! n = Some e ∧ at_end e x' w').
Proof.
  induction evs as [|e evs IH]; intros x ch w Hok Hecho Hmax.
  { exists 0%nat, x, ch, w, [], [], []. split_and!; [done|exact Hok|exact Hecho|apply seen_refl|done| |by left].
    by apply stream_step_idle. }
  destruct (decide (at_end e x w)) as [Hend|Hend].
  { exists 0%nat, x, ch, w, [], [], []. split_and!; [done|exact Hok|exact Hecho|apply seen_refl|done| |].
    - by apply stream_step_idle.
    - right. by exists e. }
  cbn [length] in Hmax.
  assert (wp (run_event e) (λ _ w', ∃ x' ch' vs msgs,
    conn_ok c x' ch' w' ∧ echoing id x' ∧ seen x w w' vs ∧ echo_step x x' vs msgs) w) as Hstep.
  { destruct e.
    - eapply handleRead_echo_wp; [done|done|unfold sizeof_extrabuf in *; lia|]. intros E. by apply Hend.
    - eapply wp_mono; [by apply (handleWrite_echo_wp id x ch)|].
      intros [] w' (x' & ch' & vs & H). by exists x', ch', vs, []. }
  apply wp_run in Hstep as ([] & w1 & Hrun1 & x1 & ch1 & vs1 & m1 & Hok1 & Hecho1 & Hseen1 & Hr1 & Ht1 & a1 & Hs1).
  pose proof Hs1 as (_ & Hfd & _ & _ & _ & _ & Hb1).
  destruct (IH x1 ch1 w1 Hok1 Hecho1) as (n & x2 & ch2 & w2 & vs2 & m2 & a2 & Hrun2 & Hok2 & Hecho2 & Hseen2 & Hr2 & Hs2 & Hn).
  { unfold sizeof_extrabuf in *. lia. }
  exists (S n), x2, ch2, w2, (vs1 ++ vs2), (m1 ++ m2), (a1 ++ a2).
  split_and!; [|exact Hok2|exact Hecho2|by eapply seen_trans| |by eapply stream_step_trans|].
  - cbn [take for_each]. by rewrite bind_run, Hrun1.
  - rewrite received_app, concat_app, Hr1, <- Hr2. by rewrite Hfd.
  - destruct Hn as [->|Hn]; [by left|by right].
Qed.

Lemma received_visible fd calls : received fd (visible fd calls) = received fd calls.
Proof.
  unfold received, visible. induction calls as [|[s r] l IH]; [done|].
  rewrite filter_cons. cbn [fst]. destruct (on_fd fd s) eqn:E.
  - rewrite decide_True by done. cbn [mbind list_bind]. by rewrite IH.
  - rewrite decide_False by done. cbn [mbind list_bind]. rewrite IH.
    destruct s; simpl in *; try done. by rewrite E.
Qed.

(** ** Progress of the output *)

(** Every write made on the socket took something. *)
Definition writes_take (calls : list (syscall * sysres)) : Prop :=
  Forall (λ cr : syscall * sysres,
    match cr.1 with SysWrite _ _ => 1 ≤ ret cr.2 | _ => True end) calls.

(** Nothing to write: nothing seen.  Otherwise writes that deliver what was pending
    and then, on a connection being shut down, the end of its sending side. *)
Definition all_delivered (x : TcpConnection) (vs : list (syscall * sysres)) : Prop :=
  if bool_decide (pending_bytes x = []) then vs = [] else
  ∃ writes fin, vs = writes ++ fin
    ∧ Forall (λ cr : syscall * sysres, ∃ data, cr.1 = SysWrite (tc_socket x) data) writes
    ∧ delivered (tc_socket x) writes = pending_bytes x
    ∧ (if bool_decide (tc_state x = kDisconnecting)
       then ∃ r, fin = [(SysShutdownWr (tc_socket x), r)] else fin = []).

Lemma all_delivered_write x b r vs1 vs :
  pending_bytes x ≠ [] → content b = write_pending x r →
  (if drained x r && bool_decide (tc_state x = kDisconnecting)
   then ∃ r', vs1 = [(SysShutdownWr (tc_socket x), r')] else vs1 = []) →
  all_delivered (set_tc_outputBuffer b x) vs →
  all_delivered x ((SysWrite (tc_socket x) (pending_bytes x), r) :: vs1 ++ vs).
Proof.
  intros Hp Hc Hvs1. unfold all_delivered. rewrite pending_bytes_set, Hc. simpl.
  rewrite (bool_decide_false (pending_bytes x = [])) by done. unfold drained in Hvs1.
  assert (∀ l, delivered (tc_socket x) l = write_pending x r →
    delivered (tc_socket x) ((SysWrite (tc_socket x) (pending_bytes x), r) :: l) = pending_bytes x) as Hd.
  { intros l Hl. rewrite delivered_write, Hl. apply take_drop. }
  case_bool_decide as Ew; simpl in Hvs1.
  - intros ->. rewrite app_nil_r. exists [(SysWrite (tc_socket x) (pending_bytes x), r)], vs1.
    split_and!; [done|by constructor; [eexists|]| |done].
    apply Hd. by rewrite Ew.
  - subst vs1. intros (writes & fin & -> & Hw & Hdw & Hfin). eexists (_ :: writes), fin.
    split_and!; [done|by constructor; [eexists|]|by apply Hd|exact Hfin].
Qed.

Lemma handleWrites_wp n : ∀ x ch w,
  conn_ok c x ch w →
  wp (for_each (replicate n OpHandleWrite) (run_stream_op c)) (λ _ w', ∃ x' ch' vs,
    conn_ok c x' ch' w' ∧ seen x w w' vs
    ∧ (writes_take vs → (length (pending_bytes x) ≤ n)%nat →
       pending_bytes x' = [] ∧ all_delivered x vs)) w.
Proof.
  induction n as [|n IH]; intros x ch w Hok.
  { apply wp_ret. exists x, ch, []. split_and!; [exact Hok|apply seen_refl|].
    intros _ Hn. assert (pending_bytes x = []) as Hp by (apply nil_length_inv; lia).
    split; [done|]. unfold all_delivered. by rewrite bool_decide_true. }
  cbn [replicate for_each]. apply wp_bind. destruct (decide (pending_bytes x = [])) as [Hp|Hp].
  - eapply handleWrite_idle_wp; [done..|]. eapply wp_mono; [by apply (IH x ch)|].
    intros [] w' (x' & ch' & vs & Hok' & Hseen & H). exists x', ch', vs.
    split_and!; [exact Hok'|exact Hseen|]. intros Hvs _. apply H; [done|]. rewrite Hp. simpl. lia.
  - eapply handleWrite_wp; [done..|]. intros b ch1 w1 vs1 Hok1 Hc _ Hext Hfin. apply ext_seen in Hext.
    eapply wp_mono; [by eapply IH|].
    intros [] w' (x' & ch' & vs & Hok' & Hseen & H). eexists x', ch', _.
    split_and!; [exact Hok'|by eapply (seen_trans x (set_tc_outputBuffer b x))|]. intros Hvs Hn.
    apply Forall_app in Hvs as [Hvs1 Hvs]. apply Forall_cons in Hvs1 as [Hr _]. simpl in Hr.
    destruct H as [Hp' H]; [done| |split; [done|by eapply all_delivered_write]].
    rewrite pending_bytes_set, Hc. unfold write_pending. rewrite length_drop.
    destruct (pending_bytes x); simpl in *; lia.
Qed.

(** ** Properties *)

(** C7: the ping-pong server echoes.  On an established connection of the server,
    whatever readiness events the poller reports and however little the kernel
    reads or takes each time, no assertion fails and no memory is misused; up to
    the end of the peer's stream, the bytes the kernel has accepted followed by
    those still in the output buffer are the bytes that were pending at the start
    followed by exactly the bytes read from the socket, in order; this provided that no
    write failed with EPIPE or ECONNRESET ([no_fatal]), on which [sendInLoop] drops the
    message. *)
Theorem echo_server_echoes (id : nat) (x : TcpConnection) (ch : Channel) (evs : list socket_event) w
    (Hok : conn_ok c x ch w) (Hecho : echoing id x)
    (Hmax : bsize (tc_outputBuffer x) + 2 * sizeof_extrabuf * Z.of_nat (length evs) ≤ max_size) :
  ∃ n x' ch' w' calls,
    for_each (take n evs) run_event w = Ok (tt, w')
    ∧ (n = length evs ∨ ∃ e, evs !! n = Some e ∧ at_end e x' w')
    ∧ conn_ok c x' ch' w' ∧ echoing id x'
    ∧ io_trace (w_io w') = io_trace (w_io w) ++ calls
    ∧ (no_fatal (visible (tc_socket x) calls) →
       delivered (tc_socket x) calls ++ pending_bytes x'
       = pending_bytes x ++ received (tc_socket x) calls).
Proof.
  destruct (run_events id evs x ch w Hok Hecho Hmax)
    as (n & x' & ch' & w' & vs & msgs & acc & Hrun & Hok' & Hecho' & (calls & Htr & Hvs) & Hr & Hs & Hn).
  exists n, x', ch', w', calls. split_and!; [done|done|exact Hok'|exact Hecho'|done|].
  destruct Hs as (_ & _ & _ & Hd & _ & Hnf & _). subst vs.
  rewrite delivered_visible in Hd. rewrite received_visible in Hr.
  intros H. by rewrite Hd, (Hnf H), Hr.
Qed.

(** C31: the two ways of echoing agree.  The example server takes the input out as
    a string and sends the string; the example client sends the input buffer
    itself.  From the same state, in the loop thread, both succeed, make the same
    calls on the socket, leave the same bytes pending, and empty the input. *)
Theorem echo_by_buffer_is_echo_by_string (sn : ptr) (y : Session) (x : TcpConnection) (ch : Channel) w
    (Hok : conn_ok c x ch w) (Hst : tc_state x = kConnected) (Hwf : wf (tc_inputBuffer x))
    (Hne : content (tc_inputBuffer x) ≠ [])
    (Hlen : Z.of_nat (length (content (tc_inputBuffer x))) < 2 ^ 31)
    (Hmax : bsize (tc_outputBuffer x) + Z.of_nat (length (content (tc_inputBuffer x))) ≤ max_size)
    (Hy : ap_sessions (w_app w) !! sn = Some y) :
  ∃ x1 x2 ch1 ch2 w1 w2 calls1 calls2,
    server_onMessage c w = Ok (tt, w1) ∧ Session_onMessage sn c w = Ok (tt, w2)
    ∧ conn_ok c x1 ch1 w1 ∧ conn_ok c x2 ch2 w2
    ∧ io_trace (w_io w1) = io_trace (w_io w) ++ calls1
    ∧ io_trace (w_io w2) = io_trace (w_io w) ++ calls2
    ∧ visible (tc_socket x) calls1 = visible (tc_socket x) calls2
    ∧ pending_bytes x1 = pending_bytes x2
    ∧ content (tc_inputBuffer x1) = [] ∧ content (tc_inputBuffer x2) = [].
Proof.
  set (data := content (tc_inputBuffer x)). set (r := write_result x data w).
  assert (∀ m, (m = server_onMessage c ∨ m = Session_onMessage sn c) →
    ∃ x' ch' w' calls, m w = Ok (tt, w') ∧ conn_ok c x' ch' w'
      ∧ io_trace (w_io w') = io_trace (w_io w) ++ calls
      ∧ visible (tc_socket x) calls = send_calls x data r
      ∧ pending_bytes x' = send_pending x data r ∧ content (tc_inputBuffer x') = []) as Hboth.
  { intros m Hm. cut (wp m (λ _ w', ∃ x' ch', conn_ok c x' ch' w' ∧ seen x w w' (send_calls x data r)
      ∧ pending_bytes x' = send_pending x data r ∧ content (tc_inputBuffer x') = []) w).
    { intros ([] & w' & Hrun & x' & ch' & Hok' & (calls & Htr & Hvs) & Hp & Hi)%wp_run.
      by exists x', ch', w', calls. }
    destruct Hm as [->| ->].
    - eapply server_onMessage_wp; [done..|]. intros b' ch' w' Hok' Hc _ Hs. by eexists _, ch'.
    - eapply Session_onMessage_wp; [done..|]. intros b' ch' w' Hok' Hc Hs. by eexists _, ch'. }
  destruct (Hboth _ (or_introl eq_refl)) as (x1 & ch1 & w1 & calls1 & ? & ? & ? & Hv1 & Hp1 & ?).
  destruct (Hboth _ (or_intror eq_refl)) as (x2 & ch2 & w2 & calls2 & ? & ? & ? & Hv2 & Hp2 & ?).
  exists x1, x2, ch1, ch2, w1, w2, calls1, calls2.
  split_and!; [done..|congruence|congruence|done|done].
Qed.

(** C8: pending bytes drain.  If each write takes at least one byte, as many
    writability events as there are bytes pending empty the output buffer: the
    writes deliver exactly the pending bytes, and a connection that was shut down
    meanwhile closes its sending side once, after the last of them; a connection
    with nothing pending makes no call. *)
Theorem pending_bytes_drain (n : nat) (x : TcpConnection) (ch : Channel) w
    (Hok : conn_ok c x ch w) (Hn : (length (pending_bytes x) ≤ n)%nat) :
  ∃ x' ch' w' calls,
    for_each (replicate n OpHandleWrite) (run_stream_op c) w = Ok (tt, w')
    ∧ conn_ok c x' ch' w' ∧ io_trace (w_io w') = io_trace (w_io w) ++ calls
    ∧ (writes_take (visible (tc_socket x) calls) →
       pending_bytes x' = [] ∧ all_delivered x (visible (tc_socket x) calls)).
Proof.
  destruct (proj1 (wp_run _ _ _) (handleWrites_wp n x ch w Hok))
    as ([] & w' & Hrun & x' & ch' & vs & Hok' & (calls & Htr & <-) & H).
  exists x', ch', w', calls. split_and!; [exact Hrun|exact Hok'|exact Htr|auto].
Qed.
End echo.

(** *** A connection of the server: pointer 40, descriptor 5 *)

Definition echo_conn (out : Buffer) : TcpConnection :=
  set_tc_messageCallback (Some (UserMessageCallback 7%nat)) (sample_conn kConnected out).

Definition echo_world (out : Buffer) (events : Z) (script : list sysres) : World sim :=
  set_w_conns {[40%nat := echo_conn out]} (conn_world kConnected out events script).

Lemma echo_world_core out events script :
  wf out ∧ kCheapPrepend ≤ bsize out →
  conn_core 40%nat (echo_conn out) (conn_chan events) (echo_world out events script).
Proof.
  intros Hwf. destruct (conn_world_core kConnected out events script Hwf) as [_ H2 H3 H4 H5 H6].
  by split.
Qed.

Definition no_close (cb : CloseCallback) (conn : ptr) : M (World sim) unit := mret tt.

(** Two reads of "ab" and "c", the kernel taking one byte of the first at once. *)
Definition echo_script : list sysres :=
  [mkRes 2 0 [x61; x62] []; mkRes 1 0 [] []; mkRes 1 0 [x63] []; mkRes 2 0 [] []].

Lemma echo_server_echoes_witness :
  ∃ n x' w' calls,
    for_each (take n [Readable; Readable; Writable]) (run_event no_close 40%nat 0)
      (echo_world (fresh_buffer 16) 3 echo_script) = Ok (tt, w')
    ∧ io_trace (w_io w') = calls
    ∧ (no_fatal (visible 5 calls) → delivered 5 calls ++ pending_bytes x' = received 5 calls).
Proof.
  destruct (echo_server_echoes no_close 40%nat 0 7%nat (echo_conn (fresh_buffer 16)) (conn_chan 3)
    [Readable; Readable; Writable] (echo_world (fresh_buffer 16) 3 echo_script))
    as (n & x' & ch' & w' & calls & Hrun & _ & _ & _ & Htr & H).
  - split; [apply echo_world_core, empty_buffer_wf|reflexivity].
  - split; [done|done|]. split; [done|done|]. by vm_compute.
  - vm_compute. discriminate.
  - exists n, x', w', calls. split_and!; [exact Hrun|exact Htr|exact H].
Defined.

(** "ab" waits in the input buffer; 60 is a session of the client. *)
Definition told_world : World sim :=
  set_w_app (set_ap_sessions {[60%nat := mkSession 61%nat 62%nat 0 0 0]} (w_app sample_world))
    (set_w_conns {[40%nat := set_tc_inputBuffer ab_buffer (echo_conn (fresh_buffer 16))]}
       (conn_world kConnected (fresh_buffer 16) 3 [mkRes 1 0 [] []])).

Lemma told_world_ok :
  conn_ok 40%nat (set_tc_inputBuffer ab_buffer (echo_conn (fresh_buffer 16))) (conn_chan 3) told_world.
Proof.
  destruct (conn_world_core kConnected (fresh_buffer 16) 3 [mkRes 1 0 [] []] empty_buffer_wf)
    as [_ H2 H3 H4 H5 H6].
  split; [by split|reflexivity].
Qed.

Lemma echo_by_buffer_is_echo_by_string_witness :
  ∃ x1 x2 ch1 ch2 w1 w2,
    server_onMessage 40%nat told_world = Ok (tt, w1)
    ∧ Session_onMessage 60%nat 40%nat told_world = Ok (tt, w2)
    ∧ conn_ok 40%nat x1 ch1 w1 ∧ conn_ok 40%nat x2 ch2 w2
    ∧ pending_bytes x1 = pending_bytes x2
    ∧ visible 5 (io_trace (w_io w1)) = visible 5 (io_trace (w_io w2)).
Proof.
  destruct (echo_by_buffer_is_echo_by_string 40%nat 60%nat (mkSession 61%nat 62%nat 0 0 0)
    (set_tc_inputBuffer ab_buffer (echo_conn (fresh_buffer 16))) (conn_chan 3) told_world told_world_ok)
    as (x1 & x2 & ch1 & ch2 & w1 & w2 & calls1 & calls2 & R1 & R2 & O1 & O2 & T1 & T2 & V & Hp & _).
  - reflexivity.
  - apply ab_buffer_wf.
  - vm_compute. discriminate.
  - reflexivity.
  - vm_compute. discriminate.
  - reflexivity.
  - exists x1, x2, ch1, ch2, w1, w2. split_and!; [exact R1|exact R2|exact O1|exact O2|exact Hp|].
    rewrite T1, T2. exact V.
Defined.

Lemma pending_bytes_drain_witness :
  ∃ x' w' calls,
    for_each (replicate 2 OpHandleWrite) (run_stream_op 40%nat)
      (conn_world kDisconnecting ab_buffer 7 [mkRes 1 0 [] []; mkRes 1 0 [] []]) = Ok (tt, w')
    ∧ io_trace (w_io w') = calls
    ∧ (writes_take (visible 5 calls) → pending_bytes x' = []
       ∧ all_delivered (sample_conn kDisconnecting ab_buffer) (visible 5 calls)).
Proof.
  destruct (pending_bytes_drain 40%nat 2 (sample_conn kDisconnecting ab_buffer) (conn_chan 7)
    (conn_world kDisconnecting ab_buffer 7 [mkRes 1 0 [] []; mkRes 1 0 [] []]))
    as (x' & ch' & w' & calls & Hrun & _ & Htr & H).
  - split; [apply conn_world_core, ab_buffer_wf|reflexivity].
  - by vm_compute; lia.
  - exists x', w', calls. split_and!; [exact Hrun|exact Htr|exact H].
Defined.

(** What the first scenario comes to: all three bytes are back. *)
Example echo_scenario :
  match for_each [Readable; Readable; Writable] (run_event no_close 40%nat 0)
          (echo_world (fresh_buffer 16) 3 echo_script) with
  | Ok (_, w') => Some (delivered 5 (io_trace (w_io w')), received 5 (io_trace (w_io w')))
  | _ => None
  end = Some ([x61; x62; x63], [x61; x62; x63]).
Proof. by vm_compute. Qed.

(** *** The whole server program on one client

    [main] of the server for five rounds: the loop is made (descriptors 3, 4 and
    5), the listener (6, its channel 15) and the spare descriptor (7); round 1
    accepts a client as descriptor 8 (channel 18); round 2 reads "ab" and the
    kernel takes one byte of the answer; round 3 writes the other; round 4 finds
    the end of the stream, and at its end the connection is destroyed and 8
    closed. *)

#[local] Existing Instance sample_inet.

Definition plain (n : Z) : sysres := mkRes n 0 [] [].
Definition event (c : ptr) (e : Z) : sysres := mkRes 1 0 [] [(c, e)].

Definition client_addr : list byte := [x02; x00; x27; x10; x7f; x00; x00; x01] ++ replicate 8 x00.
Definition server_addr : list byte := [x02; x00; x1f; x90; x7f; x00; x00; x01] ++ replicate 8 x00.

Definition server_script : list sysres :=
  [plain 3; plain 4; plain 5; plain 6; plain 7; plain 0; plain 0; plain 0; plain 0;
   event 15 POLLIN; plain 0; mkRes 8 0 client_addr []; mkRes 0 0 server_addr []; plain 0; plain 0;
   event 18 POLLIN; plain 0; mkRes 2 0 [x61; x62] []; plain 1;
   event 18 POLLOUT; plain 0; plain 1;
   event 18 POLLIN; plain 0; plain 0; plain 0].

Definition empty_world (script : list sysres) : World sim :=
  set_w_conns ∅ (set_w_loops ∅
    (set_w_r (mkReactor (mkIO (mkSim script ∅) [] 0 []) ∅ ∅) sample_world)).

Example server_scenario :
  match server_main 5 zero_addr false 0 (λ _, mret tt) ["server"; "127.0.0.1"; "8080"; "1"]
          (empty_world server_script) with
  | Ok (returned, w') =>
      Some (returned, received 8 (io_trace (w_io w')), delivered 8 (io_trace (w_io w')), w_calls w',
            size (w_conns w'), closed_fds (io_trace (w_io w')))
  | Fault _ => None
  end = Some (false, [x61; x62], [x61; x62],
              [UcConnection 13 17 true; UcMessage 13 17 0; UcConnection 13 17 false], 0%nat, [8]).
Proof. by vm_compute. Qed.
