(* ===== verification/Running.v ===== *)
(** * Running: the event loop from loop() to its return

    [EventLoop::loop()] with the functors a program posts: a loop that watches
    only its own two descriptors (the wakeup descriptor and the timer
    descriptor), with no timer set.  Functors are numbered; running one may post
    others, and some are calls of [quit()]. *)
From S2P Require Import Prelude Endian Buffer OS Descriptors Double Objects Poller LoopCore Channel TimerQueue Sockets Calls TcpConnection EventLoop Threads Acceptor Connector TcpServer TcpClient Program.

Set Default Goal Selector "!".

(** ** Events on the loop's own descriptors *)

Section own_events.
Context {K : Type} `{!OS K} {P : Poller K} `{Inet}.
Context (l : ptr) (user : UserCall → M (World K) unit).
Implicit Types w : World K.

(** A callback of the loop itself. *)
Definition own_callback (cb : option Callback) : Prop :=
  cb = None ∨ cb = Some (CbEventLoop_handleRead l) ∨ cb = Some (CbTimerQueue_handleRead l).

Record own_channel (ch : Channel) : Prop := {
  oc_tied : ch_tied ch = false;
  oc_read : own_callback (ch_readCallback ch);
  oc_write : own_callback (ch_writeCallback ch);
  oc_close : own_callback (ch_closeCallback ch);
  oc_error : own_callback (ch_errorCallback ch)
}.

(** What such a callback comes to when no timer is set: calls that concern neither
    interest lists nor what is open, and a flag of the timer queue. *)
Definition own_effect (x : EventLoop) w w' : Prop :=
  ∃ calls io b, io_by calls (w_io w) io ∧ Forall (λ cr, harmless cr.1 = true) calls
    ∧ w' = with_io io (set_w_loops (<[l := set_el_timerQueue
              (set_tq_callingExpiredTimers b (el_timerQueue x)) x]> (w_loops w)) w).

Lemma own_effect_made x w w' calls :
  w_loops w !! l = Some x → made w calls w' → Forall (λ cr, harmless cr.1 = true) calls →
  own_effect x w w'.
Proof.
  intros Hx [E Hio] Hall. exists calls, (w_io w'), (tq_callingExpiredTimers (el_timerQueue x)).
  split_and!; [done..|]. rewrite E at 1. f_equal.
  assert (set_el_timerQueue (set_tq_callingExpiredTimers
    (tq_callingExpiredTimers (el_timerQueue x)) (el_timerQueue x)) x = x) as ->
    by (by destruct x as [????????[]]).
  rewrite insert_id by done. by destruct w.
Qed.

Lemma own_event_wp cb t x (Q : unit → World K → Prop) w :
  own_callback cb → w_loops w !! l = Some x → el_threadId x = w_tid w →
  tq_timers (el_timerQueue x) = [] →
  (∀ w', own_effect x w w' → Q tt w') → wp (call (invoke user) cb t) Q w.
Proof.
  intros Hcb Hx Ht Htm HQ.
  assert (∀ fd msg calls w1 (R : unit → World K → Prop),
    made w calls w1 → Forall (λ cr, harmless cr.1 = true) calls →
    (∀ w2 calls', made w calls' w2 → Forall (λ cr, harmless cr.1 = true) calls' → R tt w2) →
    wp (r ← syscall_ (SysRead fd 8); when (negb (ret r =? 8)) (LOG_ERROR msg)) R w1) as Hread.
  { intros fd msg calls w1 R Hm Hall HR. apply wp_bind, call_wp.
    pose proof (made_call (SysRead fd 8) [] _ _ _ Hm) as Hm2.
    assert (Forall (λ cr : syscall * sysres, harmless cr.1 = true)
      (calls ++ [(SysRead fd 8, result_of (SysRead fd 8) w1)])) by (apply Forall_app; by repeat constructor).
    apply wp_when; intros _; [eapply made_log; [exact Hm2|]; intros w3 Hm3|]; by eapply HR. }
  destruct Hcb as [->|[->| ->]]; simpl.
  - apply wp_ret, HQ. by eapply own_effect_made, Forall_nil_2; [|apply made_nil].
  - apply wp_bind. eapply get_loop_wp; [done|]. eapply Hread; [apply made_nil|constructor|].
    intros w2 calls Hm Hall. apply HQ. by eapply own_effect_made.
  - unfold TimerQueue_handleRead. apply wp_bind. eapply assertInLoopThread_here; [done..|].
    apply wp_bind, wp_bind, call_wp. set (now := result_of SysNow w). apply wp_ret.
    pose proof (made_one SysNow [] w) as Hm1. fold now in Hm1.
    apply wp_bind, wp_bind. eapply get_loop_wp; [by rewrite (proj1 Hm1)|]. apply wp_ret.
    apply wp_bind. eapply Hread; [exact Hm1|by repeat constructor|]. intros w2 calls Hm Hall.
    assert (w_loops w2 !! l = Some x) as Hx2 by (by rewrite (proj1 Hm)).
    apply wp_bind, wp_bind, wp_bind. eapply get_loop_wp; [exact Hx2|]. apply wp_ret. rewrite Htm. apply wp_ret.
    apply wp_bind. eapply upd_loop_wp; [exact Hx2|]. apply wp_bind, wp_ret.
    apply wp_bind. eapply upd_loop_wp; [simpl; by rewrite lookup_insert_eq|]. simpl. rewrite insert_insert_eq.
    apply wp_bind, wp_ret, wp_bind, wp_bind. eapply get_loop_wp; [simpl; by rewrite lookup_insert_eq|].
    apply wp_ret. cbn [el_timerQueue set_el_timerQueue tq_timers set_tq_callingExpiredTimers]. rewrite Htm.
    apply wp_ret, HQ. exists calls, (w_io w2), false. split_and!; [exact (proj2 Hm)|exact Hall|].
    rewrite (proj1 Hm). by unfold_world.
Qed.
End own_events.

Section running.
Context {K : Type} `{!OS K} `{!OSLaws K} `{!EpollLaws K} `{Inet}.
Context (l : ptr) (own : list ptr) (spawn : nat → list nat) (quits : nat → bool).
Implicit Types w : World K.

(** Functor [i], and what it posts when it runs. *)
Definition task (i : nat) : Functor := if quits i then FnEventLoop_quit l else FnUser i.

Definition posting (u : UserCall) : M (World K) unit :=
  match u with
  | UcFunctor i => for_each (spawn i) (λ j, queueInLoop l (task j))
  | _ => mret tt
  end.

Definition children (i : nat) : list nat := if quits i then [] else spawn i.

(** What is posted [n] rounds after [pe]. *)
Fixpoint generation (pe : list nat) (n : nat) : list nat :=
  match n with O => pe | S n => generation (pe ≫= children) n end.

Definition ran (js : list nat) : list UserCall := UcFunctor <$> filter (λ i, quits i = false) js.

(** ** The invariant *)

(** The kernel watches only the loop's own channels [own], fewer than the event
    array has room for. *)
Record watches_own (r : Reactor K) : Prop := {
  wo_poller : ∃ p, r_pollers r !! l = Some p ∧ ep_nevents p < 2 ^ 31
    ∧ Z.of_nat (size (kernel_list r p)) < ep_nevents p
    ∧ ∀ fd ev c, kernel_list r p !! fd = Some (ev, c) → c ∈ own;
  wo_chans : ∀ c, c ∈ own → ∃ ch, r_chans r !! c = Some ch ∧ own_channel l ch
}.

(** In the loop's thread, [pe] waiting, [quit_] being [q], [cs] called so far. *)
Record running (cs : list UserCall) (pe : list nat) (q : bool) w : Prop := {
  ru_watches : watches_own (w_r w);
  ru_loop : ∃ x, w_loops w !! l = Some x ∧ el_threadId x = w_tid w ∧ el_quit x = q
    ∧ tq_timers (el_timerQueue x) = [] ∧ el_pendingFunctors x = task <$> pe;
  ru_calls : w_calls w = cs
}.

(** *** What the invariant survives *)

Lemma watches_own_io r io :
  (∀ ep, interest (io_k io) ep = interest (io_k (r_io r)) ep) →
  watches_own r → watches_own (set_r_io io r).
Proof.
  intros Hk [(p & Hp & Hn & Hs & Hall) Hch]. split; [|done]. exists p. unfold kernel_list in *.
  simpl. rewrite Hk. by split_and!.
Qed.

Lemma watches_own_chan r c ch ch' :
  r_chans r !! c = Some ch → (own_channel l ch → own_channel l ch') →
  watches_own r → watches_own (set_r_chans (<[c := ch']> (r_chans r)) r).
Proof.
  intros Hch Hown [Hp Hall]. split; [exact Hp|].
  intros c' Hc'. destruct (Hall _ Hc') as (ch0 & H0 & Ho). simpl.
  destruct (decide (c' = c)) as [->|Hne].
  - exists ch'. rewrite lookup_insert_eq. split; [done|]. apply Hown. by simplify_eq.
  - exists ch0. by rewrite lookup_insert_ne.
Qed.

Lemma running_io cs pe q w io :
  (∀ ep, interest (io_k io) ep = interest (io_k (w_io w)) ep) →
  running cs pe q w → running cs pe q (with_io io w).
Proof. intros Hk [Hw Hl Hc]. split; [by apply watches_own_io|done|done]. Qed.

Lemma running_syscall_wp c (Q : sysres → World K → Prop) cs pe q w :
  keeps_interest c = true → running cs pe q w →
  (∀ r w', running cs pe q w' → w_loops w' = w_loops w → Q r w') → wp (syscall_ c) Q w.
Proof.
  intros Hc Hw HQ. apply syscall_wp. intros r k Hk. apply HQ; [|done].
  apply running_io; [|done]. intros ep. simpl. rewrite <- (interest_frame (io_k (w_io w)) c ep Hc).
  unfold w_io. by rewrite Hk.
Qed.

Lemma running_log_wp msg (Q : unit → World K → Prop) cs pe q w :
  running cs pe q w → (∀ w', running cs pe q w' → w_loops w' = w_loops w → Q tt w') →
  wp (LOG_ERROR msg) Q w.
Proof. intros Hw HQ. apply LOG_ERROR_wp, HQ; [|done]. by apply running_io. Qed.

(** Members of the loop that the invariant does not look at. *)
Lemma running_upd_wp f (Q : unit → World K → Prop) cs pe q w :
  running cs pe q w →
  (∀ x, el_threadId (f x) = el_threadId x ∧ el_quit (f x) = el_quit x
     ∧ tq_timers (el_timerQueue (f x)) = tq_timers (el_timerQueue x)
     ∧ el_pendingFunctors (f x) = el_pendingFunctors x) →
  (∀ w', running cs pe q w' → Q tt w') → wp (upd_loop l f) Q w.
Proof.
  intros [Hw (x & Hx & Ht & Hq & Htm & Hp) Hc] Hf HQ. eapply upd_loop_wp; [done|]. apply HQ.
  split; [done| |done]. exists (f x). simpl. rewrite lookup_insert_eq.
  destruct (Hf x) as (-> & -> & -> & ->). by split_and!.
Qed.

Lemma running_in_loop_wp (Q : bool → World K → Prop) cs pe q w :
  running cs pe q w → Q true w → wp (isInLoopThread l) Q w.
Proof.
  intros [_ (x & Hx & Ht & _) _] HQ. eapply isInLoopThread_wp; [done|].
  by rewrite bool_decide_true.
Qed.

Lemma running_assert_wp (Q : unit → World K → Prop) cs pe q w :
  running cs pe q w → Q tt w → wp (assertInLoopThread l) Q w.
Proof.
  intros [_ (x & Hx & Ht & _) _] HQ. by eapply assertInLoopThread_here.
Qed.

Lemma running_get_wp (Q : EventLoop → World K → Prop) cs pe q w :
  running cs pe q w →
  (∀ x, el_quit x = q → tq_timers (el_timerQueue x) = [] → el_pendingFunctors x = task <$> pe → Q x w) →
  wp (get_loop l) Q w.
Proof. intros [_ (x & Hx & _ & Hq & Ht & Hp) _] HQ. eapply get_loop_wp; [done|]. auto. Qed.

Lemma running_chan_at_wp c (Q : Channel → World K → Prop) cs pe q w :
  running cs pe q w → c ∈ own → (∀ ch, own_channel l ch → Q ch w) → wp (chan_at c) Q w.
Proof.
  intros [Hw _ _] Hc HQ. destruct (wo_chans _ Hw c Hc) as (ch & Hch & Ho).
  eapply chan_at_wp; [done|auto].
Qed.

(** *** Posting and quitting *)

Lemma running_wakeup_wp (Q : unit → World K → Prop) cs pe q w :
  running cs pe q w → (∀ w', running cs pe q w' → Q tt w') → wp (wakeup l) Q w.
Proof.
  intros Hw HQ. apply wp_bind. eapply running_get_wp; [done|]. intros x _ _ _.
  apply wp_bind. eapply running_syscall_wp; [done..|]. intros r w1 Hw1 _.
  apply wp_when; intros _; [|by apply HQ]. eapply running_log_wp; [done|]. auto.
Qed.

Lemma running_queue_wp j (Q : unit → World K → Prop) cs pe q w :
  running cs pe q w → (∀ w', running cs (pe ++ [j]) q w' → Q tt w') →
  wp (queueInLoop l (task j)) Q w.
Proof.
  intros Hw HQ. unfold queueInLoop. apply wp_bind.
  rewrite bool_decide_false by (unfold task; by destruct (quits j)). apply wp_when; intros E; [done|].
  destruct Hw as [Hw (x & Hx & Ht & Hq & Htm & Hp) Hc].
  apply wp_bind. eapply upd_loop_wp; [done|]. set (w1 := set_w_loops _ w).
  assert (running cs (pe ++ [j]) q w1) as Hw1.
  { split; [done| |done]. eexists. simpl. rewrite lookup_insert_eq.
    split_and!; [done..|]. simpl. by rewrite Hp, fmap_app. }
  apply wp_bind. eapply running_in_loop_wp; [done|]. apply wp_bind.
  eapply running_get_wp; [done|]. intros y _ _ _. apply wp_when; intros _; [|by apply HQ].
  by eapply running_wakeup_wp.
Qed.

Lemma running_post_wp js : ∀ (Q : unit → World K → Prop) cs pe q w,
  running cs pe q w → (∀ w', running cs (pe ++ js) q w' → Q tt w') →
  wp (for_each js (λ j, queueInLoop l (task j))) Q w.
Proof.
  induction js as [|j js IH]; intros Q cs pe q w Hw HQ; cbn [for_each].
  - apply wp_ret, HQ. by rewrite app_nil_r.
  - apply wp_bind. eapply running_queue_wp; [done|]. intros w1 Hw1.
    eapply IH; [done|]. intros w2 Hw2. apply HQ. by rewrite <- app_assoc in Hw2.
Qed.

Lemma running_task_wp i (Q : unit → World K → Prop) cs pe q w :
  running cs pe q w →
  (∀ w', running (cs ++ ran [i]) (pe ++ children i) (q || quits i) w' → Q tt w') →
  wp (run_functor posting (task i)) Q w.
Proof.
  intros Hw HQ. unfold task, children, ran in *. rewrite filter_cons, filter_nil in HQ.
  destruct (quits i) eqn:E; simpl.
  - destruct Hw as [Hw (x & Hx & Ht & Hq & Htm & Hp) Hc].
    apply wp_bind. eapply upd_loop_wp; [done|]. set (w1 := set_w_loops _ w).
    rewrite decide_False in HQ by done. rewrite !app_nil_r, orb_true_r in HQ.
    assert (running cs pe true w1) as Hw1.
    { split; [done| |done]. eexists. simpl. rewrite lookup_insert_eq. by split_and!. }
    apply wp_bind. eapply running_in_loop_wp; [done|]. apply wp_when; intros E'; [done|by apply HQ].
  - rewrite decide_True, orb_false_r in HQ by done.
    apply wp_bind, wp_modify. eapply running_post_wp; [|exact HQ].
    destruct Hw as [Hw Hl Hc]. split; [done|done|]. simpl. by rewrite Hc.
Qed.

Lemma running_tasks_wp js : ∀ (Q : unit → World K → Prop) cs pe q w,
  running cs pe q w →
  (∀ w', running (cs ++ ran js) (pe ++ (js ≫= children)) (q || existsb quits js) w' → Q tt w') →
  wp (for_each (task <$> js)
        (λ f, when (negb (bool_decide (f = FnEmpty))) (run_functor posting f))) Q w.
Proof.
  induction js as [|i js IH]; intros Q cs pe q w Hw HQ; cbn [fmap list_fmap for_each].
  - apply wp_ret, HQ. unfold ran. simpl. by rewrite !app_nil_r, orb_false_r.
  - apply wp_bind. rewrite bool_decide_false by (unfold task; by destruct (quits i)).
    eapply running_task_wp; [done|]. intros w1 Hw1. eapply IH; [done|]. intros w2 Hw2. apply HQ.
    cbn [mbind list_bind existsb]. rewrite <- !app_assoc, <- orb_assoc in Hw2.
    replace (ran (i :: js)) with (ran [i] ++ ran js); [done|].
    unfold ran. by rewrite <- fmap_app, <- filter_app.
Qed.

(** Neither a user's functor nor [quit] keeps a connection. *)
Lemma tasks_hold_none js : omap functor_holds (task <$> js) = [].
Proof. induction js as [|j js IH]; [done|]. simpl. unfold task. by destruct (quits j). Qed.

Lemma running_pending_wp (Q : unit → World K → Prop) cs pe q w :
  running cs pe q w →
  (∀ w', running (cs ++ ran pe) (pe ≫= children) (q || existsb quits pe) w' → Q tt w') →
  wp (doPendingFunctors (run_functor posting) release l) Q w.
Proof.
  intros Hw HQ. unfold doPendingFunctors.
  apply wp_bind. eapply running_upd_wp; [done|done|]. intros w1 Hw1.
  apply wp_bind. eapply running_get_wp; [done|]. intros x _ _ ->. cbv zeta.
  rewrite tasks_hold_none. apply wp_bind, wp_modify. cbn [app].
  replace (set_w_held (w_held w1) w1) with w1 by (by destruct w1).
  destruct Hw1 as [Hw1 (y & Hy & Ht & Hq & Htm & Hp) Hc].
  apply wp_bind. eapply upd_loop_wp; [done|]. set (w2 := set_w_loops _ w1).
  assert (running cs [] q w2) as Hw2.
  { split; [done| |done]. eexists. simpl. rewrite lookup_insert_eq. by split_and!. }
  apply wp_bind. eapply running_tasks_wp; [done|]. intros w3 Hw3.
  apply wp_bind. eapply running_upd_wp; [done|done|]. intros w4 Hw4. by apply wp_ret, HQ.
Qed.

(** *** Events on the loop's own descriptors *)

Lemma running_own_wp cb t (Q : unit → World K → Prop) cs pe q w :
  own_callback l cb → running cs pe q w → (∀ w', running cs pe q w' → Q tt w') →
  wp (call (invoke posting) cb t) Q w.
Proof.
  intros Hcb Hw HQ. pose proof Hw as [Hwatch (x & Hx & Ht & Hq & Htm & Hp) Hc].
  eapply own_event_wp; [exact Hcb|exact Hx|exact Ht|exact Htm|].
  intros w' (calls & io & b & [_ Hk] & Hall & ->). apply HQ, running_io.
  - intros ep. simpl. rewrite Hk. by apply replay_interest.
  - split; [done| |done]. eexists. simpl. rewrite lookup_insert_eq. by split_and!.
Qed.

Lemma running_between_events cs pe q c :
  c ∈ own → between_events c (own_channel l) (running cs pe q).
Proof.
  intros Hc. split.
  - intros w [Hw _ _]. by apply (wo_chans _ Hw).
  - intros b ch w [Hw Hl Hcs] Hch. split; [|done|done]. eapply watches_own_chan; [done| |done].
    by intros [].
Qed.

Lemma running_handleEvent_wp c t (Q : unit → World K → Prop) cs pe q w :
  running cs pe q w → c ∈ own → (∀ w', running cs pe q w' → Q tt w') →
  wp (handleEvent (invoke posting) release c t) Q w.
Proof.
  intros Hw Hc HQ. apply wp_bind. eapply running_chan_at_wp; [done..|]. intros ch Ho.
  rewrite (oc_tied _ _ Ho). apply (wp_mono _ (λ _, running cs pe q)); [|intros [] w' Hw'; by apply HQ].
  pose proof (running_between_events cs pe q c Hc) as Hb.
  apply (handleEventWithGuard_wp _ c t _ _ _ w Hb Hb); [by auto| | | | |exact Hw].
  all: intros ch' w' [] Hw'; by eapply running_own_wp.
Qed.

(** *** One poll *)

Lemma reported_own events chans c ch :
  chans !! c = Some ch → own_channel l ch →
  ∃ ch', reported events chans !! c = Some ch' ∧ own_channel l ch'.
Proof.
  intros Hch Ho. pose proof (reported_lookup events _ _ _ Hch) as He. eexists. split; [exact He|by destruct Ho].
Qed.

Lemma running_poll_wp t (Q : Z * list ptr → World K → Prop) cs pe q w :
  running cs pe q w →
  (∀ now active w', running cs pe q w' → Forall (λ c, c ∈ own) active → Q (now, active) w') →
  wp (in_reactor (poller_poll l t)) Q w.
Proof.
  intros [[(p & Hp & Hn & Hs & Hall) Hch] Hl Hc] HQ. apply in_reactor_wp.
  set (k := io_k (r_io (w_r w))).
  set (call := SysEpollWait (ep_epollfd p) (ep_nevents p) t).
  assert (∀ ce, ce ∈ ready (os_call call k).1 → ce.1 ∈ own) as Hown.
  { intros [c e] (fd & ev & Hin)%epoll_wait_registered. by apply (Hall fd ev c). }
  eapply poll_wp; [done|lia|]. fold k call. cbv zeta. split.
  { apply Forall_forall. intros ce Hce. destruct (Hch _ (Hown _ Hce)) as (ch & -> & _). by eexists. }
  intros err log. set (io := mkIO _ _ _ _).
  assert (∀ ep, interest (io_k io) ep = interest k ep) as Hk.
  { intros ep. unfold io. simpl. by rewrite !interest_frame. }
  pose proof (epoll_wait_few k (ep_epollfd p) (ep_nevents p) t) as Hfew. fold call in Hfew.
  pose proof (epoll_wait_bound (ep_epollfd p) (ep_nevents p) t k) as Hb. cbv zeta in Hb. fold call in Hb.
  unfold kernel_list in Hs. fold k in Hs.
  destruct (Z.eqb_spec (ret (os_call call k).1) (ep_nevents p)) as [E|_]; [lia|].
  destruct (0 <? _).
  - apply HQ.
    + split; [|done|done]. split.
      * exists p. unfold kernel_list in *. simpl. rewrite !interest_frame by done. by split_and!.
      * intros c Hcin. destruct (Hch c Hcin) as (ch & Hc' & Ho). by eapply reported_own.
    + apply Forall_forall. intros c (ce & -> & Hin)%list_elem_of_fmap. auto.
  - apply HQ; [|done]. split; [|done|done]. by apply (watches_own_io (w_r w) io Hk); split; [exists p|].
Qed.

(** ** Rounds *)

Lemma running_round_wp (Q : unit → World K → Prop) cs pe q w :
  running cs pe q w →
  (∀ w', running (cs ++ ran pe) (pe ≫= children) (q || existsb quits pe) w' → Q tt w') →
  wp (loop_round (invoke posting) (run_functor posting) l) Q w.
Proof.
  intros Hw HQ. unfold loop_round.
  apply wp_bind. eapply running_upd_wp; [done|done|]. intros w1 Hw1.
  apply wp_bind. eapply running_poll_wp; [done|]. intros now active w2 Hw2 Hact. cbv beta iota.
  apply wp_bind. eapply running_upd_wp; [done|done|]. intros w3 Hw3.
  apply wp_bind. eapply running_upd_wp; [done|done|]. intros w4 Hw4.
  apply wp_bind. eapply running_upd_wp; [done|done|]. intros w5 Hw5.
  apply wp_bind.
  apply (wp_for_each active _ (λ rest w', Forall (λ c, c ∈ own) rest ∧ running cs pe q w')); [done| |].
  { intros c rest w6 [[Hc Hrest]%Forall_cons Hw6].
    apply wp_bind. eapply running_upd_wp; [done|done|]. intros w7 Hw7.
    apply wp_bind. eapply running_get_wp; [done|]. intros x _ _ _.
    eapply running_handleEvent_wp; [done|done|auto]. }
  intros w6 [_ Hw6].
  apply wp_bind. eapply running_upd_wp; [done|done|]. intros w7 Hw7.
  apply wp_bind. eapply running_upd_wp; [done|done|]. intros w8 Hw8.
  by eapply running_pending_wp.
Qed.

(** Everything that runs in the first [n] rounds. *)
Fixpoint ran_in (pe : list nat) (n : nat) : list UserCall :=
  match n with O => [] | S n => ran pe ++ ran_in (pe ≫= children) n end.

#[local] Abbreviation while_ rounds := (loop_while (invoke posting) (run_functor posting) rounds l).

Lemma while_quit rounds cs pe w : running cs pe true w → while_ rounds w = Ok (true, w).
Proof.
  intros [_ (x & Hx & _ & Hq & _) _]. destruct rounds; cbn [loop_while];
    rewrite bind_run; unfold get_loop, gets_some; by rewrite Hx, Hq.
Qed.

Lemma while_stopped cs pe w : running cs pe false w → while_ 0%nat w = Ok (false, w).
Proof.
  intros [_ (x & Hx & _ & Hq & _) _]. cbn [loop_while].
  rewrite bind_run; unfold get_loop, gets_some; by rewrite Hx, Hq.
Qed.

Lemma while_round cs pe w :
  running cs pe false w →
  ∃ w', running (cs ++ ran pe) (pe ≫= children) (existsb quits pe) w'
    ∧ ∀ rounds, while_ (S rounds) w = while_ rounds w'.
Proof.
  intros Hw. pose proof Hw as [_ (x & Hx & _ & Hq & _) _].
  assert (wp (loop_round (invoke posting) (run_functor posting) l)
    (λ _ w', running (cs ++ ran pe) (pe ≫= children) (existsb quits pe) w') w) as Hround
    by (by eapply running_round_wp).
  apply wp_run in Hround as ([] & w1 & Hrun & Hw1).
  exists w1. split; [exact Hw1|]. intros rounds. cbn [loop_while].
  rewrite bind_run. unfold get_loop at 1, gets_some. by rewrite Hx, Hq, bind_run, Hrun.
Qed.

(** As long as nothing quits. *)
Lemma while_rounds n : ∀ cs pe w,
  running cs pe false w → (∀ k, (k < n)%nat → existsb quits (generation pe k) = false) →
  ∃ w', running (cs ++ ran_in pe n) (generation pe n) false w'
    ∧ ∀ rounds, while_ (n + rounds)%nat w = while_ rounds w'.
Proof.
  induction n as [|n IH]; intros cs pe w Hw Hno.
  { exists w. cbn [ran_in generation]. by rewrite app_nil_r. }
  destruct (while_round cs pe w Hw) as (w1 & Hw1 & E1).
  pose proof (Hno 0%nat ltac:(lia)) as H0. simpl in H0. rewrite H0 in Hw1.
  destruct (IH _ _ _ Hw1) as (w2 & Hw2 & E2); [intros k Hk; apply (Hno (S k)); lia|].
  exists w2. cbn [ran_in generation]. rewrite app_assoc. split; [exact Hw2|].
  intros rounds. by rewrite <- E2, <- E1.
Qed.

Lemma ran_in_last n : ∀ pe, ran_in pe (S n) = ran_in pe n ++ ran (generation pe n).
Proof.
  induction n as [|n IH]; intros pe; [by cbn [ran_in generation]; rewrite app_nil_r|].
  change (ran_in pe (S (S n))) with (ran pe ++ ran_in (pe ≫= children) (S n)).
  rewrite IH. cbn [ran_in generation]. by rewrite app_assoc.
Qed.

(** Entering [loop()]: the flags are reset, whatever [quit_] was. *)
Lemma loop_enters cs pe q w :
  running cs pe q w →
  ∃ w0, running cs pe false w0 ∧ ∀ rounds, loop posting rounds l w
    = (finished ← while_ rounds; when finished (upd_loop l (set_el_looping false));; mret finished) w0.
Proof.
  intros Hw.
  assert (wp (upd_loop l (set_el_looping true)) (λ _, running cs pe q) w) as H1
    by (by eapply running_upd_wp).
  apply wp_run in H1 as ([] & w1 & E1 & [Hwatch (x & Hx & Ht & Hq & Htm & Hp) Hc]).
  set (w0 := set_w_loops (<[l := set_el_quit false x]> (w_loops w1)) w1).
  assert (running cs pe false w0) as Hw0.
  { split; [done| |done]. eexists. simpl. rewrite lookup_insert_eq. by split_and!. }
  assert (wp (assertInLoopThread l) (λ _ w', w' = w0) w0) as H2 by (by eapply running_assert_wp).
  apply wp_run in H2 as ([] & w2 & E2 & ->).
  exists w0. split; [done|]. intros rounds. unfold loop, EventLoop_loop.
  rewrite bind_run, E1, bind_run. unfold upd_loop at 1, get_loop at 1, gets_some.
  rewrite bind_run, Hx. unfold put_loop, modify. cbv beta iota. fold w0. by rewrite bind_run, E2.
Qed.

(** C9: [loop()] runs until it is told to quit, and then returns.  Take a loop
    that watches its own descriptors only, with functors waiting whose runs post
    further functors, and let round [n] be the first in which one of them calls
    [quit()].  Whatever the kernel reports and whether or not [quit_] was set
    before, no assertion fails; [loop()] returns exactly when it may make more
    than [n] rounds, always with the same outcome: every functor of the rounds up
    to and including [n] has run, round by round in the order of posting, and
    those posted in round [n] are left waiting. *)
Theorem loop_returns_after_quit (n : nat) (cs : list UserCall) (pe : list nat) (q : bool) w
    (Hw : running cs pe q w)
    (Hbefore : ∀ k, (k < n)%nat → existsb quits (generation pe k) = false)
    (Hquit : existsb quits (generation pe n) = true) :
  ∃ w' x, (∀ rounds, (n < rounds)%nat → loop posting rounds l w = Ok (true, w'))
    ∧ (∀ rounds, (rounds ≤ n)%nat → ∃ w'', loop posting rounds l w = Ok (false, w''))
    ∧ w_calls w' = cs ++ ran_in pe (S n)
    ∧ w_loops w' !! l = Some x ∧ el_looping x = false ∧ el_quit x = true
    ∧ el_pendingFunctors x = task <$> generation pe (S n).
Proof.
  destruct (loop_enters cs pe q w Hw) as (w0 & Hw0 & E0).
  destruct (while_rounds n cs pe w0 Hw0 Hbefore) as (w1 & Hw1 & E1).
  destruct (while_round _ _ _ Hw1) as (w2 & Hw2 & E2). rewrite Hquit in Hw2.
  pose proof Hw2 as [_ (x & Hx & _ & Hq & _ & Hp) Hc].
  exists (set_w_loops (<[l := set_el_looping false x]> (w_loops w2)) w2), (set_el_looping false x).
  split_and!; [| | |simpl; by rewrite lookup_insert_eq|done|done|].
  - intros rounds Hr. rewrite E0, bind_run. replace rounds with (n + S (rounds - S n))%nat by lia.
    rewrite E1, E2, (while_quit _ _ _ _ Hw2), bind_run. unfold when, upd_loop, get_loop, gets_some.
    by rewrite bind_run, Hx.
  - intros rounds Hr. destruct (while_rounds rounds cs pe w0 Hw0) as (w3 & Hw3 & E3).
    { intros k Hk. apply Hbefore. lia. }
    exists w3. rewrite E0, bind_run. replace rounds with (rounds + 0)%nat by lia.
    by rewrite E3, (while_stopped _ _ _ Hw3).
  - by rewrite ran_in_last, app_assoc.
  - simpl. rewrite Hp. f_equal. clear. revert pe.
    induction n as [|n IH]; intros pe; [done|]. apply (IH (pe ≫= children)).
Qed.
End running.

(** *** A concrete loop: channel 1 is its wakeup channel *)

Definition wakeup_chan : Channel :=
  mkChannel 0%nat 6 3 0 EPollPoller.kAdded true None false false true
    (Some (CbEventLoop_handleRead 0%nat)) None None None.

Definition running_world : World sim :=
  set_w_loops {[0%nat := set_el_pendingFunctors [FnUser 1%nat; FnUser 2%nat] sample_loop]}
    (set_w_r (mkReactor
       (mkIO (mkSim [mkRes 1 0 [] [(1%nat, 1)]; mkRes 5 0 [] []; mkRes 8 0 [] []]
                {[3 := {[6 := (3, 1%nat)]}]}) [] 0 [])
       {[1%nat := wakeup_chan]} {[0%nat := sample_poller]}) sample_world).

#[local] Existing Instance sample_inet.

(** Functor 1 posts 3, and 3 posts 4, which quits, and 5; 4 would post 6. *)
Definition running_spawn (i : nat) : list nat :=
  match i with 1 => [3] | 3 => [4; 5] | 4 => [6] | 5 => [7] | _ => [] end%nat.

Definition running_quits (i : nat) : bool := (i =? 4)%nat.

Lemma running_world_running :
  running 0%nat [1%nat] running_quits [] [1%nat; 2%nat] false running_world.
Proof.
  split; [split|by eexists|done].
  - exists sample_poller. split_and!; [done|done|by vm_compute|].
    intros fd ev c Hc. unfold kernel_list, running_world in Hc. simpl in Hc.
    change (({[6 := (3, 1%nat)]} : gmap Z (Z * ptr)) !! fd = Some (ev, c)) in Hc.
    apply lookup_singleton_Some in Hc as [_ [= _ <-]]. left.
  - intros c ->%list_elem_of_singleton. exists wakeup_chan. split; [done|].
    split; [done|right; by left|by left..].
Qed.

(** Round 2 quits: 1 and 2, then 3, then 4 (the quit) and 5 have run; 7 waits. *)
Lemma loop_returns_after_quit_witness :
  ∃ w' x, loop (posting 0%nat running_spawn running_quits) 3 0%nat running_world = Ok (true, w')
    ∧ w_calls w' = [UcFunctor 1; UcFunctor 2; UcFunctor 3; UcFunctor 5]
    ∧ w_loops w' !! 0%nat = Some x ∧ el_pendingFunctors x = [FnUser 7].
Proof.
  destruct (loop_returns_after_quit 0%nat [1%nat] running_spawn running_quits 2 [] [1%nat; 2%nat] false
    running_world running_world_running) as (w' & x & Hrun & _ & Hc & Hx & _ & _ & Hp).
  - intros k Hk. destruct k as [|[|]]; [reflexivity|reflexivity|lia].
  - reflexivity.
  - exists w', x. split_and!; [apply Hrun; lia|exact Hc|exact Hx|exact Hp].
Defined.
