(* ===== verification/Startup.v ===== *)
(** * Startup: what a new loop is

    The constructor of EventLoop.v establishes the invariants that the theorems
    about channels and timers start from: epoll in step with the loop's channels
    ([Channel.loop_ok]) and an ordered timer set ([TimerQueue.queue_ok]). *)
From S2P Require Import Prelude Endian OS Descriptors Objects Poller LoopCore Channel TimerQueue Sockets Calls EventLoop Isolation.

Set Default Goal Selector "!".

Section startup.
Context {K : Type} `{!OS K} `{!EpollLaws K} `{!FdLaws K} `{!EpollRoom K}.
Implicit Types w : World K.

(** No channel lies at an address still to be given out, or belongs to a loop
    there. *)
Definition chans_below w : Prop :=
  ∀ c ch, r_chans (w_r w) !! c = Some ch → (c < w_next w)%nat ∧ (ch_loop ch < w_next w)%nat.

(** The results of epoll_create1, timerfd_create and eventfd in the constructor's
    sequence of system calls from kernel [k], the timer queue's channel being at
    [c]. *)
Definition new_descriptors (k : K) (c : ptr) : Z * Z * Z :=
  let '(r1, k) := os_call SysEpollCreate k in
  let '(r2, k) := os_call SysTimerfdCreate k in
  let '(_, k) := os_call (SysEpollCtl (ret r1) EPOLL_CTL_ADD (ret r2) kReadEvent c) k in
  (ret r1, ret r2, ret (os_call SysEventfd k).1).

(** The kernel before its eventfd, and after the constructor. *)
Definition kernel_with_timerfd (k : K) (c : ptr) : K :=
  let '(r1, k) := os_call SysEpollCreate k in
  let '(r2, k) := os_call SysTimerfdCreate k in
  (os_call (SysEpollCtl (ret r1) EPOLL_CTL_ADD (ret r2) kReadEvent c) k).2.

Definition kernel_with_loop (k : K) (c : ptr) : K :=
  let '(ep, _, efd) := new_descriptors k c in
  (os_call (SysEpollCtl ep EPOLL_CTL_ADD efd kReadEvent (S c))
     (os_call SysEventfd (kernel_with_timerfd k c)).2).2.

(** A channel that reads, as [enableReading] leaves a new one. *)
Definition reading_chan (l : ptr) (fd : Z) (cb : Callback) (i : Z) : Channel :=
  mkChannel l fd kReadEvent 0 i true None false false true (Some cb) None None None.

(** The rest of the heap is as it was. *)
Definition beside_loops w0 w : Prop :=
  w = set_w_r (w_r w) (set_w_loops (w_loops w) (set_w_next (w_next w) w0)).

(** A loop under construction: its channels are [chans] beyond those of [w0]. *)
Record building (w0 : World K) (l : ptr) (p : EPollPoller) (x : EventLoop) (n : nat) (k : K) w
    : Prop := {
  bd_ok : loop_ok l p w;
  bd_loops : w_loops w = <[l := x]> (w_loops w0);
  bd_next : w_next w = n;
  bd_k : io_k (w_io w) = k;
  bd_rest : beside_loops w0 w;
  bd_apart : parted l (ep_epollfd p) w0 w
}.

(** *** Adding a channel *)

(** [update] of a channel that is not registered is one [EPOLL_CTL_ADD]. *)
Lemma enableReading_kernel l p c ch w :
  loop_ok l p w → r_chans (w_r w) !! c = Some ch → ch_loop ch = l →
  ep_channels p !! ch_fd ch = None → ch_events ch = 0 →
  wp (enableReading c) (λ _ w',
    io_k (w_io w') = (os_call (SysEpollCtl (ep_epollfd p) EPOLL_CTL_ADD (ch_fd ch) kReadEvent c)
                        (io_k (w_io w))).2) w.
Proof.
  intros [Hs Hfds (x & Hx & Ht)] Hch Hl Hfree Hev.
  assert (ch_index ch = EPollPoller.kNew) as Hi by (eapply sy_new; [done..|by rewrite Hfree]).
  apply wp_bind. eapply upd_chan_wp; [done|]. apply wp_bind.
  eapply upd_chan_wp; [simpl; by rewrite lookup_insert_eq|].
  apply wp_bind. eapply chan_at_wp; [simpl; by rewrite lookup_insert_eq|].
  apply wp_bind. eapply chan_at_wp; [simpl; by rewrite lookup_insert_eq|].
  apply wp_bind, wp_assert; [by apply bool_decide_eq_true|]. simpl. rewrite Hl.
  apply wp_bind. eapply assertInLoopThread_here; [done..|].
  apply wp_bind. eapply assertInLoopThread_here; [done..|].
  apply in_reactor_wp. eapply updateChannel_wp.
  - apply (sy_poller _ _ _ _ Hs).
  - simpl. by rewrite !lookup_insert_eq.
  - left. done.
  - intros res k err log Hk. unfold control in Hk. simpl in Hk. rewrite Hi, Hev in Hk.
    change (os_call (SysEpollCtl (ep_epollfd p) EPOLL_CTL_ADD (ch_fd ch) kReadEvent c)
      (io_k (w_io w)) = (res, k)) in Hk. by rewrite Hk.
Qed.

(** ... of that loop's epoll instance only. *)
Lemma enableReading_parted l p c ch w :
  loop_ok l p w → r_chans (w_r w) !! c = Some ch → ch_loop ch = l →
  wp (enableReading c) (λ _ w', parted l (ep_epollfd p) w w') w.
Proof.
  intros Hok Hch Hl.
  pose proof (run_interest_any_wp EnableReading c ch l p w (loop_ok_registered _ _ _ Hok) Hch Hl) as Hwp.
  assert (polling l (ep_epollfd p) c w) as Hpol.
  { split; [eexists; split; [exact (sy_poller _ _ _ _ (lk_synced _ _ _ Hok))|done]|].
    intros ch'. rewrite Hch. by intros [= <-]. }
  pose proof (parted_run_interest l (ep_epollfd p) c EnableReading w Hpol) as Hap. cbn [run_interest] in *.
  unfold wp, wlp in *. destruct (enableReading c w) as [[[] w']|]; [|done]. apply Hap.
Qed.

(** Where no channel lies at [n] or beyond, and none of loop [l] has [fd]. *)
Definition room_for (l : ptr) (fd : Z) (n : nat) (chans : gmap ptr Channel) : Prop :=
  ∀ c ch, chans !! c = Some ch → (c < n)%nat ∧ (ch_loop ch = l → ch_fd ch ≠ fd).

(** A new channel that starts reading. *)
Lemma enable_new_wp w0 l p x x' n k fd cb w w1 :
  building w0 l p x n k w → room_for l fd n (r_chans (w_r w)) → can_watch p fd k →
  w_r w1 = set_r_chans (<[n := set_ch_readCallback (Some cb) (Channel_ctor l fd)]> (r_chans (w_r w)))
             (w_r w) →
  w_loops w1 = <[l := x']> (w_loops w0) → el_threadId x' = el_threadId x →
  w_next w1 = S n → beside_loops w0 w1 →
  wp (enableReading n) (λ _ w', ∃ i,
    building w0 l (set_ep_channels (<[fd := n]> (ep_channels p)) p) x' (S n)
      (os_call (SysEpollCtl (ep_epollfd p) EPOLL_CTL_ADD fd kReadEvent n) k).2 w'
    ∧ r_chans (w_r w') = <[n := reading_chan l fd cb i]> (r_chans (w_r w))
    ∧ w' = set_w_r (w_r w') w1) w1.
Proof.
  intros [Hok Hls Hn Hk Hrest Hap] Hroom Hopen Er El Eth En Hrest1.
  set (ch := set_ch_readCallback (Some cb) (Channel_ctor l fd)) in *.
  assert (r_chans (w_r w) !! n = None) as Hfresh.
  { destruct (r_chans (w_r w) !! n) eqn:E; [|done]. apply Hroom in E as [? _]. lia. }
  assert (loop_ok l p w1) as Hok1.
  { eapply loop_ok_frame; [eapply (loop_ok_new l p n ch w Hok Hfresh)|..]; simpl; try done.
    - intros c' ch' Hc' Hl'. by apply (Hroom c' ch').
    - by rewrite Er.
    - by rewrite Er.
    - by rewrite Er.
    - exists x'. rewrite El, lookup_insert_eq. split; [done|]. rewrite Eth.
      destruct (lk_thread _ _ _ Hok) as (x0 & Hx0 & Ht). rewrite Hls, lookup_insert_eq in Hx0.
      injection Hx0 as <-. rewrite Hrest in Ht. by rewrite Hrest1. }
  assert (r_chans (w_r w1) !! n = Some ch) as Hch1 by (rewrite Er; simpl; by rewrite lookup_insert_eq).
  assert (ep_channels p !! fd = None) as Hfree.
  { destruct (loop_ok_free _ _ _ _ _ Hok1 Hch1 eq_refl) as [?|Hr]; [done|]. simpl in Hr.
    destruct (sy_registered _ _ _ _ (lk_synced _ _ _ Hok) _ _ Hr) as (ch' & Hch' & _). congruence. }
  eapply wp_mono; [apply wp_and;
    [apply (run_interest_wp EnableReading n ch l p w1 Hok1 Hch1 eq_refl); right; unfold w_io; rewrite Er;
     by rewrite <- Hk in Hopen
    |apply wp_and; [by apply (enableReading_kernel l p n ch w1)
      |by apply (enableReading_parted l p n ch w1)]]|].
  cbv zeta beta. intros [] w' [(i & Hok' & Hch' & E') [Hk' Hap']]. exists i. split_and!; [split| |exact E'].
  - exact Hok'.
  - rewrite E'. simpl. exact El.
  - rewrite E'. simpl. exact En.
  - rewrite Hk'. unfold w_io in *. rewrite Er. simpl. by rewrite Hk.
  - unfold beside_loops in *. rewrite E', Hrest1. reflexivity.
  - unfold parted in *. simpl. trans (w_r w); [exact Hap|]. rewrite Er in Hap'. exact Hap'.
  - rewrite Hch', Er. simpl. by rewrite insert_insert_eq.
Qed.

(** What a call opens is open after it, and so is what was open. *)
Lemma opened_in c (k : K) :
  opens c = true → 0 ≤ ret (os_call c k).1 → ret (os_call c k).1 ∈ open_fds (os_call c k).2.
Proof.
  intros Hc Hr. pose proof (opens_new c k Hc) as Ho. cbv zeta in Ho.
  rewrite (proj2 (Z.leb_le _ _) Hr) in Ho. destruct Ho as [_ ->]. set_solver.
Qed.

Lemma opening_keeps c (k : K) fd : opens c = true → fd ∈ open_fds k → fd ∈ open_fds (os_call c k).2.
Proof.
  intros Hc Hfd. pose proof (opens_new c k Hc) as Ho. cbv zeta in Ho.
  destruct (0 <=? _); [destruct Ho as [_ ->]; set_solver|by rewrite Ho].
Qed.

Lemma opened_can_watch p c (k : K) :
  opens c = true → ep_epollfd p ∈ open_fds k → 0 ≤ ret (os_call c k).1 →
  can_watch p (ret (os_call c k).1) (os_call c k).2.
Proof. intros Hc Hep Hr. split; [by apply opening_keeps|by apply opened_in]. Qed.

(** A system call that leaves the interest lists alone. *)
Lemma building_call w0 l p x n k w c log :
  building w0 l p x n k w → keeps_interest c = true →
  building w0 l p x n (os_call c k).2 (after_call c log w).
Proof.
  intros [Hok Hls Hn Hk Hrest Hap] Hc. rewrite after_call_same.
  assert (io_k (w_io (after_call c log w)) = (os_call c k).2) as E.
  { unfold after_call. rewrite Hk. by destruct (os_call c k). }
  assert (∀ ep, interest (io_k (w_io (after_call c log w))) ep = interest (io_k (w_io w)) ep) as Hi
    by (intros ep; rewrite E, interest_frame, Hk; done).
  split; [|done..|unfold beside_loops in *; by rewrite Hrest|].
  - eapply loop_ok_frame; [exact Hok|done|done|apply Hi|exact (lk_thread _ _ _ Hok)].
  - trans w; [exact Hap|]. by apply parted_same.
Qed.

(** *** The constructor *)

(** A loop with no channels yet, as its poller's constructor leaves it. *)
Lemma building_start l w :
  chans_below w → l = w_next w → 0 ≤ ret (result_of SysEpollCreate w) →
  wp (in_reactor (EPollPoller.ctor l)) (λ _ w',
    building w l (mkEPollPoller ∅ (ret (result_of SysEpollCreate w)) EPollPoller.kInitEventListSize)
      (raw_loop l (w_tid w)) (S (w_next w)) (os_call SysEpollCreate (io_k (w_io w))).2 w'
    ∧ r_chans (w_r w') = r_chans (w_r w))
    (set_w_loops (<[l := raw_loop l (w_tid w)]> (w_loops w)) (set_w_next (S (w_next w)) w)).
Proof.
  intros Hbelow -> Hep. apply in_reactor_wp, wp_bind, in_io_wp, sys_wp.
  change (io_k (r_io (w_r (set_w_loops _ _)))) with (io_k (w_io w)).
  intros r k Hk. pose proof (epoll_create_empty (io_k (w_io w))) as Hempty.
  pose proof (epoll_create_other (io_k (w_io w))) as Hother.
  unfold result_of in *. rewrite Hk in *. simpl in Hempty, Hother, Hep. apply wp_bind, wp_when; intros Hlt;
    simpl in Hlt; [lia|].
  apply wp_modify. split; [|done]. split; [|done..|].
  2:{ split; simpl; [|by intros ep' Hne; apply Hother]. intros l' Hne. by rewrite lookup_insert_ne. }
  split; simpl; [split; simpl| |by exists (raw_loop (w_next w) (w_tid w)); rewrite lookup_insert_eq].
  - by rewrite lookup_insert_eq.
  - intros fd c Hc. by rewrite lookup_empty in Hc.
  - intros fd _. unfold kernel_list. simpl. by rewrite (Hempty Hep), lookup_empty.
  - intros c ch Hch Hl. apply Hbelow in Hch as [_ H]. lia.
  - intros c c' ch ch' Hch _ Hl. apply Hbelow in Hch as [_ H]. lia.
Qed.

(** [TimerQueue(loop)] with its descriptor's channel. *)
Lemma TimerQueue_ctor_wp w0 l p x k ind (w : World K) :
  building w0 l p x (S l) k w → (∀ c ch, r_chans (w_r w) !! c = Some ch → (c < l)%nat ∧ (ch_loop ch < l)%nat) →
  let tfd := ret (os_call SysTimerfdCreate k).1 in
  let k1 := (os_call SysTimerfdCreate k).2 in
  0 ≤ tfd → ep_epollfd p ∈ open_fds k →
  wp (TimerQueue_ctor l ind) (λ _ w', ∃ i,
    building w0 l (set_ep_channels (<[tfd := S l]> (ep_channels p)) p)
      (set_el_timerQueue (mkTimerQueue ind tfd (S l) []) x) (S (S l))
      (os_call (SysEpollCtl (ep_epollfd p) EPOLL_CTL_ADD tfd kReadEvent (S l)) k1).2 w'
    ∧ r_chans (w_r w') = <[S l := reading_chan l tfd (CbTimerQueue_handleRead l) i]> (r_chans (w_r w))) w.
Proof.
  intros Hb Hbelow tfd k1 Htfd Hep.
  pose proof (building_call _ _ _ _ _ _ _ SysTimerfdCreate [] Hb eq_refl) as Hb1.
  assert (result_of SysTimerfdCreate w = (os_call SysTimerfdCreate k).1) as Hr
    by (unfold result_of; by rewrite (bd_k _ _ _ _ _ _ _ Hb)).
  apply wp_bind, wp_bind, call_wp. rewrite Hr. fold tfd.
  apply wp_bind, wp_when; intros Hlt; [apply Z.ltb_lt in Hlt; lia|]. clear Hlt. apply wp_ret.
  assert (r_chans (w_r (after_call SysTimerfdCreate [] w)) = r_chans (w_r w)) as Ec
    by (by rewrite after_call_same).
  revert Hb1 Ec. generalize (after_call SysTimerfdCreate [] w). intros w1 Hb1 Ec.
  pose proof Hb1 as [Hok1 Hls1 Hn1 Hk1 Hrest1 _].
  apply wp_bind. unfold fresh, wp at 1. rewrite Hn1.
  apply wp_bind, in_reactor_wp, wp_modify.
  apply wp_bind, wp_bind. eapply get_loop_wp; [simpl; by rewrite Hls1, lookup_insert_eq|].
  apply wp_modify. apply wp_bind. eapply upd_chan_wp; [simpl; by rewrite lookup_insert_eq|].
  eapply wp_mono; [eapply (enable_new_wp w0 l p x _ (S l) _ tfd); [exact Hb1| |..]|].
  - rewrite Ec. intros c ch Hch. apply Hbelow in Hch. split; lia.
  - by apply opened_can_watch.
  - simpl. unfold set_r_chans. simpl. by rewrite insert_insert_eq.
  - simpl. by rewrite Hls1, insert_insert_eq.
  - done.
  - done.
  - unfold beside_loops in *. by rewrite Hrest1.
  - intros [] w' (i & Hb' & Hch & E). exists i. split; [exact Hb'|by rewrite Hch, Ec].
Qed.

(** The members that [EventLoop_ctor] still constructs once the timer queue is
    there. *)
Definition make_wakeup (l : ptr) : M (World K) ptr :=
  wakeupFd ← createEventfd;
  c ← fresh;
  in_reactor (put_chan c (Channel_ctor l wakeupFd));;
  upd_loop l (set_el_wakeup wakeupFd c);;
  upd_chan c (set_ch_readCallback (Some (CbEventLoop_handleRead l)));;
  enableReading c;;
  mret l.

(** The poller of the new loop. *)
Definition new_poller (ep : Z) (channels : gmap Z ptr) : EPollPoller :=
  mkEPollPoller channels ep EPollPoller.kInitEventListSize.

Lemma ctor_makes_queue ind ep tfd efd w :
  chans_below w → new_descriptors (io_k (w_io w)) (S (w_next w)) = (ep, tfd, efd) →
  0 ≤ ep → 0 ≤ tfd →
  let l := w_next w in
  let k := kernel_with_timerfd (io_k (w_io w)) (S l) in
  leads_to (EventLoop_ctor ind) (λ w', ∃ i,
    building w l (new_poller ep {[tfd := S l]})
      (set_el_timerQueue (mkTimerQueue ind tfd (S l) []) (raw_loop l (w_tid w))) (S (S l)) k w'
    ∧ ret (os_call SysEventfd k).1 = efd
    ∧ r_chans (w_r w') = <[S l := reading_chan l tfd (CbTimerQueue_handleRead l) i]> (r_chans (w_r w)))
    (make_wakeup l) w.
Proof.
  intros Hbelow Hfds Hep Htfd l k. unfold new_descriptors in Hfds. subst k. unfold kernel_with_timerfd.
  destruct (os_call SysEpollCreate (io_k (w_io w))) as [r1 k1] eqn:E1.
  destruct (os_call SysTimerfdCreate k1) as [r2 k2] eqn:E2. fold l in Hfds.
  destruct (os_call (SysEpollCtl _ _ _ _ _) k2) as [r3 k3] eqn:E3. injection Hfds as Hr1 Hr2 Hr3.
  assert (result_of SysEpollCreate w = r1) as Hres by (unfold result_of; by rewrite E1).
  apply leads_to_bind. unfold fresh, wp at 1. apply leads_to_bind, wp_gets. fold l.
  pose proof (building_start l w Hbelow eq_refl) as Hstart. rewrite Hres, E1, Hr1 in Hstart.
  apply leads_to_bind, put_loop_wp, leads_to_bind.
  eapply wp_mono; [exact (Hstart Hep)|]. intros [] w1 (Hb & Hch).
  apply leads_to_bind. eapply wp_mono; [eapply (TimerQueue_ctor_wp _ _ _ _ _ ind _ Hb)|].
  - rewrite Hch. exact Hbelow.
  - simpl. rewrite E2. simpl. lia.
  - pose proof (opened_in SysEpollCreate (io_k (w_io w)) eq_refl) as Ho. rewrite E1 in Ho. simpl in Ho |- *.
    rewrite Hr1 in Ho. rewrite ?Hres, ?Hr1. by apply Ho.
  - simpl. rewrite E2. simpl. rewrite Hr1, Hr2 in *. rewrite E3.
    intros _ w2 (i & Hb2 & Hch2). apply leads_to_end. exists i.
    split_and!; [exact Hb2|done|by rewrite Hch2, Hch].
Qed.

(** A loop as its constructor leaves it. *)
Definition new_loop (t : tid) (ind : bool) (tfd efd : Z) (l : ptr) : EventLoop :=
  mkEventLoop t false false false false [] None 0 (mkTimerQueue ind tfd (S l) []) efd (S (S l)) [].

Lemma make_wakeup_fails l w :
  ret (result_of SysEventfd w) < 0 → make_wakeup l w = Fault (Terminated "abort").
Proof.
  intros Hlt. unfold make_wakeup, createEventfd.
  assert (wp (syscall_ SysEventfd) (λ r s, r = result_of SysEventfd w ∧ s = after_call SysEventfd [] w) w)
    as (r & s & Hrun & -> & ->)%wp_run by by apply call_wp.
  by rewrite bind_run, bind_run, Hrun, (proj2 (Z.ltb_lt _ _) Hlt), bind_run.
Qed.

Lemma make_wakeup_wp w0 l p x k (w : World K) :
  building w0 l p x (S (S l)) k w →
  let efd := ret (result_of SysEventfd w) in
  0 ≤ efd → ep_epollfd p ∈ open_fds k → room_for l efd (S (S l)) (r_chans (w_r w)) →
  wp (make_wakeup l) (λ a w', a = l ∧ ∃ j,
    building w0 l (set_ep_channels (<[efd := S (S l)]> (ep_channels p)) p)
      (set_el_wakeup efd (S (S l)) x) (S (S (S l)))
      (os_call (SysEpollCtl (ep_epollfd p) EPOLL_CTL_ADD efd kReadEvent (S (S l)))
         (os_call SysEventfd k).2).2 w'
    ∧ r_chans (w_r w') = <[S (S l) := reading_chan l efd (CbEventLoop_handleRead l) j]> (r_chans (w_r w))) w.
Proof.
  intros Hb efd Hge Hep Hroom.
  pose proof (building_call _ _ _ _ _ _ _ SysEventfd [] Hb eq_refl) as Hb1.
  apply wp_bind, wp_bind, call_wp. fold efd. rewrite (proj2 (Z.ltb_ge _ _) Hge). apply wp_ret.
  assert (r_chans (w_r (after_call SysEventfd [] w)) = r_chans (w_r w)) as Ec
    by (by rewrite after_call_same).
  revert Hb1 Ec. generalize (after_call SysEventfd [] w). intros w2 Hb1 Ec.
  pose proof Hb1 as [Hok1 Hls1 Hn1 Hk1 Hrest1 _].
  apply wp_bind. unfold fresh, wp at 1. rewrite Hn1.
  apply wp_bind, in_reactor_wp, wp_modify.
  apply wp_bind. eapply upd_loop_wp; [simpl; by rewrite Hls1, lookup_insert_eq|].
  apply wp_bind. eapply upd_chan_wp; [simpl; by rewrite lookup_insert_eq|].
  apply wp_bind. eapply wp_mono; [eapply (enable_new_wp w0 l _ _ _ _ _ efd); [exact Hb1| |..]|].
  - by rewrite Ec.
  - unfold efd, result_of. rewrite (bd_k _ _ _ _ _ _ _ Hb). apply opened_can_watch; [done..|].
    by rewrite <- (bd_k _ _ _ _ _ _ _ Hb).
  - simpl. unfold set_r_chans. simpl. by rewrite insert_insert_eq.
  - simpl. by rewrite Hls1, insert_insert_eq.
  - done.
  - done.
  - unfold beside_loops in *. by rewrite Hrest1.
  - intros [] w3 (j & Hb3 & Hch3 & E). apply wp_ret. split; [done|].
    exists j. split; [exact Hb3|by rewrite Hch3, Ec].
Qed.

(** A registered channel that reads is watched for reading. *)
Lemma reading_watched l p fd c ch w :
  loop_ok l p w → ep_channels p !! fd = Some c → r_chans (w_r w) !! c = Some ch →
  ch_events ch = kReadEvent → kernel_list (w_r w) p !! fd = Some (kReadEvent, c).
Proof.
  intros Hok Hc Hch Hev.
  destruct (sy_registered _ _ _ _ (lk_synced _ _ _ Hok) _ _ Hc) as (ch' & Hch' & <- & _ & Hw).
  assert (ch' = ch) as -> by congruence. rewrite <- Hev.
  destruct Hw as [(_ & _ & H)|(_ & _ & H)]; [by apply H|]. rewrite Hev in H. by specialize (H eq_refl).
Qed.

(** The new descriptors are open, and different. *)
Lemma new_descriptors_open k c ep tfd efd :
  new_descriptors k c = (ep, tfd, efd) → 0 ≤ ep → 0 ≤ tfd →
  ep ∈ open_fds (kernel_with_timerfd k c) ∧ (0 ≤ efd → efd ≠ tfd).
Proof.
  unfold new_descriptors, kernel_with_timerfd. intros Hfds Hep Htfd.
  pose proof (opened_in SysEpollCreate k eq_refl) as H1.
  destruct (os_call SysEpollCreate k) as [r1 k1].
  pose proof (opened_in SysTimerfdCreate k1 eq_refl) as H2.
  pose proof (opening_keeps SysTimerfdCreate k1 ep eq_refl) as H2'.
  destruct (os_call SysTimerfdCreate k1) as [r2 k2].
  pose proof (fds_frame (SysEpollCtl (ret r1) EPOLL_CTL_ADD (ret r2) kReadEvent c) k2 eq_refl) as H3.
  destruct (os_call _ k2) as [r3 k3]. pose proof (opens_new SysEventfd k3 eq_refl) as H4. cbv zeta in H4.
  injection Hfds as <- <- <-. simpl in *. rewrite H3. split; [by apply H2', H1|].
  intros Hefd E. rewrite (proj2 (Z.leb_le _ _) Hefd) in H4. destruct H4 as [Hn _]. apply Hn.
  rewrite H3, E. by apply H2.
Qed.

(** The constructor, when its descriptors are there. *)
Lemma EventLoop_ctor_wp (ind : bool) (ep tfd efd : Z) w :
  chans_below w → new_descriptors (io_k (w_io w)) (S (w_next w)) = (ep, tfd, efd) →
  0 ≤ ep → 0 ≤ tfd → 0 ≤ efd → let l := w_next w in
  wp (EventLoop_ctor ind) (λ a w', a = l ∧ ∃ i j,
    building w l (new_poller ep {[efd := S (S l); tfd := S l]}) (new_loop (w_tid w) ind tfd efd l)
      (S (S (S l))) (kernel_with_loop (io_k (w_io w)) (S l)) w'
    ∧ r_chans (w_r w') =
        <[S (S l) := reading_chan l efd (CbEventLoop_handleRead l) j]>
          (<[S l := reading_chan l tfd (CbTimerQueue_handleRead l) i]> (r_chans (w_r w)))) w.
Proof.
  intros Hheap Hfds Hep Htfd Hge l.
  destruct (new_descriptors_open _ _ _ _ _ Hfds Hep Htfd) as [Hopen Hne].
  destruct (ctor_makes_queue ind ep tfd efd w Hheap Hfds Hep Htfd) as (w1 & (i & Hb & Hefd & Hch) & E).
  fold l in Hb, Hefd, Hch, E. unfold wp. rewrite E.
  assert (ret (result_of SysEventfd w1) = efd) as Hr
    by (unfold result_of; by rewrite (bd_k _ _ _ _ _ _ _ Hb)).
  pose proof (make_wakeup_wp _ _ _ _ _ _ Hb) as Hwake. rewrite Hr in Hwake. cbv zeta in Hwake.
  unshelve epose proof (Hwake Hge Hopen _) as (a & w' & -> & -> & j & Hb' & Hch')%wp_run.
  { rewrite Hch. intros c ch [(<- & <-)|(_ & Hc)]%lookup_insert_Some.
    - split; [lia|]. simpl. intros _ E'. by apply Hne.
    - apply Hheap in Hc. fold l in Hc. split; lia. }
  split; [done|]. exists i, j. rewrite Hch in Hch'. split; [|exact Hch'].
  unfold kernel_with_loop. fold l in Hfds. rewrite Hfds. exact Hb'.
Qed.

(** C20: the constructor makes a loop that is ready to run, once its epoll and timer
    descriptors are obtained ([0 ≤ ep], [0 ≤ tfd]: a failure of either is only logged)
    and on a kernel that grants its two [epoll_ctl] requests ([EpollRoom]).  If eventfd
    fails, the process stops.  Otherwise the new loop belongs to the calling thread, its
    flags are down and its queues empty; it has two channels, the timer queue's
    and the wakeup one, both reading; epoll is in step with them and watches both
    descriptors; and the other loops and channels are as they were. *)
Theorem EventLoop_ctor_ready (ind : bool) (ep tfd efd : Z) w (Hheap : chans_below w)
    (Hfds : new_descriptors (io_k (w_io w)) (S (w_next w)) = (ep, tfd, efd))
    (Hep : 0 ≤ ep) (Htfd : 0 ≤ tfd) :
  let l := w_next w in
  let x := new_loop (w_tid w) ind tfd efd l in
  if efd <? 0 then EventLoop_ctor ind w = Fault (Terminated "abort")
  else ∃ w' p i j, EventLoop_ctor ind w = Ok (l, w')
    ∧ w_loops w' = <[l := x]> (w_loops w)
    ∧ r_chans (w_r w') =
        <[S (S l) := reading_chan l efd (CbEventLoop_handleRead l) j]>
          (<[S l := reading_chan l tfd (CbTimerQueue_handleRead l) i]> (r_chans (w_r w)))
    ∧ loop_ok l p w' ∧ queue_ok l x w'
    ∧ kernel_list (w_r w') p !! tfd = Some (kReadEvent, S l)
    ∧ kernel_list (w_r w') p !! efd = Some (kReadEvent, S (S l)).
Proof.
  intros l x. destruct (Z.ltb_spec efd 0) as [Hlt|Hge].
  { destruct (ctor_makes_queue ind ep tfd efd w Hheap Hfds Hep Htfd) as (w1 & (i & Hb & Hefd & _) & ->).
    apply make_wakeup_fails. unfold result_of. by rewrite (bd_k _ _ _ _ _ _ _ Hb), Hefd. }
  pose proof (EventLoop_ctor_wp ind ep tfd efd w Hheap Hfds Hep Htfd Hge)
    as (a & w' & Hrun & -> & i & j & [Hok Hls _ _ Hrest _] & Hch')%wp_run. fold l in Hls, Hch'.
  pose proof (proj2 (new_descriptors_open _ _ _ _ _ Hfds Hep Htfd) Hge) as Hne.
  eexists w', _, i, j. split_and!; [done|done|done|exact Hok| | |].
  - split_and!; [by rewrite Hls, lookup_insert_eq|by rewrite Hrest|by constructor|by constructor].
  - eapply reading_watched; [exact Hok|simpl; by rewrite lookup_insert_ne, lookup_singleton_eq
      |rewrite Hch', lookup_insert_ne by lia; by rewrite lookup_insert_eq|done].
  - eapply reading_watched; [exact Hok|simpl; by rewrite lookup_insert_eq
      |by rewrite Hch', lookup_insert_eq|done].
Qed.
End startup.

(** *** A kernel that answers 10, 11 and 12 *)

Definition startup_world : World fsim :=
  mkWorld
    (mkReactor
       (mkIO (mkFsim (mkSim [mkRes 10 0 [] []; mkRes 11 0 [] []; mkRes 12 0 [] []] ∅) {[0; 1; 2]})
          [] 0 []) ∅ ∅)
    7%nat ∅ ∅ ∅ ∅ ∅ ∅ ∅ ∅ ∅ no_app ∅ [] 10%nat 0 50%nat [].

Lemma EventLoop_ctor_ready_witness :
  ∃ w' p, EventLoop_ctor true startup_world = Ok (10%nat, w') ∧ loop_ok 10%nat p w'
    ∧ kernel_list (w_r w') p !! 12 = Some (kReadEvent, 12%nat).
Proof.
  destruct (EventLoop_ctor_ready true 10 11 12 startup_world) as (w' & p & i & j & H); try lia.
  - intros c ch H. simpl in H. by rewrite lookup_empty in H.
  - by vm_compute.
  - exists w', p. split_and!; apply H.
Defined.
