(* ===== verification/Table.v ===== *)
(** * Table: a server in service, as a table of connections

    The echo server of PingPong.v on one loop at any moment of its run: which
    connections there are, which of them wait for their end, which channel and
    which descriptor belongs to which.  Everything here is about the maps of the
    heap; Service.v ties them to the world and to the steps of the loop. *)
From S2P Require Import Prelude Endian Buffer OS Descriptors Double Objects Poller LoopCore Channel TimerQueue Sockets Calls TcpConnection ByteStream Lifecycle EventLoop Threads Acceptor Connector TcpServer TcpClient Program PingPong Serving Echo Isolation Running.

Set Default Goal Selector "!".

(** What one event may add to a connection's output. *)
Definition event_bytes : Z := 2 * sizeof_extrabuf.

(** Names of connections made one after the other differ. *)
Lemma server_conn_name_inj (name ipPort : string) (i j : Z) :
  (String.length ipPort ≤ 51)%nat → 0 ≤ i < 2 ^ 31 → 0 ≤ j < 2 ^ 31 →
  server_conn_name name ipPort i = server_conn_name name ipPort j → i = j.
Proof.
  intros Hlen Hi Hj E. unfold server_conn_name in E.
  assert (∀ k, 0 ≤ k < 2 ^ 31 → snprintf 64 ("-" +:+ ipPort +:+ "#" +:+ pretty k)
    = "-" +:+ ipPort +:+ "#" +:+ pretty k) as Hfit.
  { intros k Hk. apply snprintf_fits. rewrite !string_length_app. simpl.
    pose proof (pretty_Z_digits 10 k ltac:(lia) ltac:(lia)). lia. }
  rewrite !Hfit in E by done. by repeat apply (inj _) in E.
Qed.

Section table.
Context {hangups : Hangups}.
Context (l s a achan : ptr) (idc idm : nat) (base : gset Z).

(** The callbacks of a connection's channel. *)
Record bound_to (c : ptr) (ch : Channel) : Prop := {
  bt_tied : ch_tied ch = true;
  bt_tie : ch_tie ch = Some c;
  bt_read : ch_readCallback ch = Some (CbTcpConnection_handleRead c);
  bt_write : ch_writeCallback ch = Some (CbTcpConnection_handleWrite c);
  bt_close : ch_closeCallback ch = Some (CbTcpConnection_handleClose c);
  bt_error : ch_errorCallback ch = Some (CbTcpConnection_handleError c)
}.

(** The callbacks of the acceptor's. *)
Record accepts (ch : Channel) : Prop := {
  at_tied : ch_tied ch = false;
  at_read : ch_readCallback ch = Some (CbAcceptor_handleRead a);
  at_write : ch_writeCallback ch = None;
  at_close : ch_closeCallback ch = None;
  at_error : ch_errorCallback ch = None
}.

(** Connection [y] at [c] with its channel [ch]. *)
Record placed (c : ptr) (y : TcpConnection) (ch : Channel) : Prop := {
  pl_home : tc_loop y = l;
  pl_loop : ch_loop ch = l;
  pl_fd : ch_fd ch = tc_socket y;
  pl_bound : bound_to c ch;
  pl_revents : reportable (ch_revents ch);
  pl_out : wf (tc_outputBuffer y) ∧ kCheapPrepend ≤ bsize (tc_outputBuffer y)
}.

(** A connection that is up; its output may still grow by [room]. *)
Record up (room : Z) (x : TcpServer) (c : ptr) (y : TcpConnection) (ch : Channel) : Prop := {
  up_echo : echoing idm y;
  up_callback : tc_connectionCallback y = Some (UserConnectionCallback idc);
  up_close : tc_closeCallback y = Some (CcTcpServer_removeConnection s);
  up_wc : tc_writeCompleteCallback y = None;
  up_hw : tc_highWaterMarkCallback y = None;
  up_entry : sv_connections x !! tc_name y = Some c;
  up_writing : writing_iff_pending y ch;
  up_room : bsize (tc_outputBuffer y) + room ≤ max_size
}.

(** A closed connection, in state [reg] with respect to the poller. *)
Record down (reg : Channel → Prop) (y : TcpConnection) (ch : Channel) : Prop := {
  dn_state : tc_state y = kDisconnected;
  dn_events : ch_events ch = kNoneEvent;
  dn_reg : reg ch
}.

Definition unregistered (ch : Channel) : Prop := ch_index ch = EPollPoller.kNew.

(** [n] rounds are left to come; in this one the channels [rest] have yet to be
    served. *)
Definition to_come (n : Z) (rest : list ptr) (q : ptr) : Z := n + if decide (q ∈ rest) then 1 else 0.

(** Connections of [gone] are out of the poller, those of [dead] are closed, the
    others are up. *)
Definition standing (n : Z) (rest gone dead : list ptr) (x : TcpServer) (c : ptr) (y : TcpConnection)
    (ch : Channel) : Prop :=
  if decide (c ∈ gone) then down unregistered y ch
  else if decide (c ∈ dead) then down epoll_attached y ch
  else up (event_bytes * to_come n rest (tc_channel y)) x c y ch.

Record tables (n : Z) (rest gone dead : list ptr) (x : TcpServer) (conns : gmap ptr TcpConnection)
    (chans : gmap ptr Channel) (next : ptr) : Prop := {
  tb_conn : ∀ c y, conns !! c = Some y → ∃ ch, chans !! tc_channel y = Some ch
    ∧ placed c y ch ∧ standing n rest gone dead x c y ch;
  tb_map : ∀ name c, sv_connections x !! name = Some c →
    ∃ y, conns !! c = Some y ∧ tc_name y = name ∧ c ∉ gone ++ dead;
  tb_down : NoDup (gone ++ dead) ∧ ∀ c, c ∈ gone ++ dead → is_Some (conns !! c);
  tb_chans : ∀ q ch, chans !! q = Some ch → ch_loop ch = l ∧
    (own_channel l ch ∧ ch_fd ch ∈ base ∨ q = achan ∧ accepts ch ∧ ch_fd ch ∈ base
     ∨ ∃ c y, conns !! c = Some y ∧ tc_channel y = q);
  tb_rest : NoDup rest ∧ ∀ q, q ∈ rest → is_Some (chans !! q)
    ∧ ∀ c y, conns !! c = Some y → tc_channel y = q → c ∉ gone ++ dead;
  tb_fresh : ∀ q, (next ≤ q)%nat → conns !! q = None ∧ chans !! q = None;
  tb_names : ∀ name c, sv_connections x !! name = Some c →
    ∃ i, 0 ≤ i < sv_nextConnId x ∧ name = server_conn_name (sv_name x) (sv_ipPort x) i;
  tb_ids : 0 ≤ n ∧ 0 ≤ sv_nextConnId x ∧ sv_nextConnId x + to_come n rest achan < 2 ^ 31;
  tb_listening : ∃ ch, chans !! achan = Some ch ∧ accepts ch
}.

(** *** Reading the tables *)

Lemma tables_chan_inj n rest gone dead x conns chans next c c' y y' :
  tables n rest gone dead x conns chans next → conns !! c = Some y → conns !! c' = Some y' →
  tc_channel y = tc_channel y' → c = c'.
Proof.
  intros Ht Hy Hy' E.
  destruct (tb_conn _ _ _ _ _ _ _ _ Ht _ _ Hy) as (ch & Hch & Hp & _).
  destruct (tb_conn _ _ _ _ _ _ _ _ Ht _ _ Hy') as (ch' & Hch' & Hp' & _).
  rewrite E, Hch' in Hch. injection Hch as ->.
  pose proof (bt_tie _ _ (pl_bound _ _ _ Hp)) as H1. rewrite (bt_tie _ _ (pl_bound _ _ _ Hp')) in H1.
  by injection H1.
Qed.

(** The acceptor's channel is no connection's. *)
Lemma tables_chan_acceptor n rest gone dead x conns chans next c y :
  tables n rest gone dead x conns chans next → conns !! c = Some y → tc_channel y ≠ achan.
Proof.
  intros Ht Hy E. destruct (tb_conn _ _ _ _ _ _ _ _ Ht _ _ Hy) as (ch & Hch & Hp & _).
  destruct (tb_listening _ _ _ _ _ _ _ _ Ht) as (ch' & Hch' & Ha).
  assert (ch' = ch) as -> by congruence.
  pose proof (at_tied _ Ha). by rewrite (bt_tied _ _ (pl_bound _ _ _ Hp)) in *.
Qed.

Lemma to_come_mono n n' rest rest' q :
  n' ≤ n → (q ∈ rest' → q ∈ rest) → to_come n' rest' q ≤ to_come n rest q.
Proof. intros Hn Hr. unfold to_come. repeat case_decide; [lia|exfalso; auto|lia|lia]. Qed.

Lemma up_room_mono room room' x c y ch : room' ≤ room → up room x c y ch → up room' x c y ch.
Proof. intros Hr []. split; try done. lia. Qed.

(** Less to come. *)
Lemma tables_less n n' rest rest' gone dead x conns chans next next' :
  tables n rest gone dead x conns chans next →
  0 ≤ n' → (∀ q, to_come n' rest' q ≤ to_come n rest q) → (next ≤ next')%nat → NoDup rest' →
  (∀ q, q ∈ rest' → is_Some (chans !! q)
    ∧ ∀ c y, conns !! c = Some y → tc_channel y = q → c ∉ gone ++ dead) →
  tables n' rest' gone dead x conns chans next'.
Proof.
  intros [H1 H2 H3 H4 H5 H6 H7 (H8 & H9 & H10) H11] Hn' Hle Hnext Hnd Hrest. split; try done.
  - intros c y Hy. destruct (H1 c y Hy) as (ch & Hch & Hp & Hs). exists ch. split_and!; [done..|].
    unfold standing in *. repeat case_decide; [done..|]. eapply up_room_mono; [|exact Hs].
    pose proof (Hle (tc_channel y)). unfold event_bytes, sizeof_extrabuf. lia.
  - intros q Hq. apply H6. lia.
  - specialize (Hle achan). lia.
Qed.

(** The next channel is served. *)
Lemma tables_served n q rest gone dead x conns chans next :
  tables n (q :: rest) gone dead x conns chans next → tables n rest gone dead x conns chans next.
Proof.
  intros Ht. destruct (tb_rest _ _ _ _ _ _ _ _ Ht) as [[Hq Hnd]%NoDup_cons Hrest].
  eapply tables_less; [exact Ht|apply Ht| |done|done|].
  - intros q'. apply to_come_mono; [done|]. by right.
  - intros q' Hin. apply Hrest. by right.
Qed.

(** *** Changing the tables *)

(** A channel with other flags. *)
Record same_binding (ch ch' : Channel) : Prop := {
  sb_loop : ch_loop ch' = ch_loop ch;
  sb_fd : ch_fd ch' = ch_fd ch;
  sb_events : ch_events ch' = ch_events ch;
  sb_index : ch_index ch' = ch_index ch;
  sb_tie : ch_tie ch' = ch_tie ch;
  sb_tied : ch_tied ch' = ch_tied ch;
  sb_read : ch_readCallback ch' = ch_readCallback ch;
  sb_write : ch_writeCallback ch' = ch_writeCallback ch;
  sb_close : ch_closeCallback ch' = ch_closeCallback ch;
  sb_error : ch_errorCallback ch' = ch_errorCallback ch;
  sb_revents : reportable (ch_revents ch) → reportable (ch_revents ch')
}.

Lemma same_binding_bound c ch ch' : same_binding ch ch' → bound_to c ch → bound_to c ch'.
Proof. intros [] []. split; congruence. Qed.

Lemma same_binding_own ch ch' : same_binding ch ch' → own_channel l ch → own_channel l ch'.
Proof. intros [] []. split; congruence. Qed.

Lemma same_binding_accepts ch ch' : same_binding ch ch' → accepts ch → accepts ch'.
Proof. intros [] []. split; congruence. Qed.

Lemma placed_binding c y ch ch' : same_binding ch ch' → placed c y ch → placed c y ch'.
Proof.
  intros Hs [H1 H2 H3 H4 H5 H6]. split; try done.
  - by rewrite (sb_loop _ _ Hs).
  - by rewrite (sb_fd _ _ Hs).
  - by eapply same_binding_bound.
  - by apply (sb_revents _ _ Hs).
Qed.

Lemma standing_binding n rest gone dead x c y ch ch' :
  same_binding ch ch' → standing n rest gone dead x c y ch → standing n rest gone dead x c y ch'.
Proof.
  intros [] Hs. unfold standing in *. repeat case_decide.
  - destruct Hs as [H1 H2 H3]. split; [done|congruence|]. unfold unregistered in *. congruence.
  - destruct Hs as [H1 H2 H3]. split; [done|congruence|]. unfold epoll_attached in *.
    by rewrite sb_index0.
  - destruct Hs. split; try done. unfold writing_iff_pending, isWriting in *. congruence.
Qed.

Lemma tables_flags n rest gone dead x conns chans next q ch ch' :
  tables n rest gone dead x conns chans next → chans !! q = Some ch → same_binding ch ch' →
  tables n rest gone dead x conns (<[q := ch']> chans) next.
Proof.
  intros [H1 H2 H3 H4 H5 H6 H7 H8 (cha & Hcha & Ha)] Hq Hs. split; try done.
  - intros c y Hy. destruct (H1 c y Hy) as (ch0 & Hch0 & Hp & Hst).
    destruct (decide (tc_channel y = q)) as [<-|Hne].
    + exists ch'. rewrite lookup_insert_eq. rewrite Hq in Hch0. injection Hch0 as <-.
      split_and!; [done|by eapply placed_binding|by eapply standing_binding].
    + exists ch0. by rewrite lookup_insert_ne.
  - intros q' ch0 Hq'. destruct (decide (q = q')) as [<-|Hne].
    + rewrite lookup_insert_eq in Hq'. injection Hq' as <-.
      destruct (H4 q ch Hq) as (Hl & Hor). rewrite (sb_loop _ _ Hs), (sb_fd _ _ Hs). split; [done|].
      destruct Hor as [[? ?]|[(? & ? & ?)|?]]; [left|right; left|by do 2 right].
      * split; [by eapply same_binding_own|done].
      * split_and!; [done|by eapply same_binding_accepts|done].
    + rewrite lookup_insert_ne in Hq' by done. by apply H4.
  - destruct H5 as [H5 H5']. split; [done|]. intros q' Hin. destruct (H5' q' Hin) as [Hsome ?].
    split; [|done]. destruct (decide (q = q')) as [<-|Hne];
      [by rewrite lookup_insert_eq|by rewrite lookup_insert_ne].
  - intros q' Hle. destruct (H6 q' Hle) as [? Hn]. split; [done|].
    rewrite lookup_insert_ne; [done|]. congruence.
  - destruct (decide (q = achan)) as [->|Hne].
    + exists ch'. rewrite lookup_insert_eq. split; [done|]. assert (cha = ch) as -> by congruence.
      by eapply same_binding_accepts.
    + exists cha. by rewrite lookup_insert_ne.
Qed.

(** A server that differs in its map only. *)
Definition same_server (x x' : TcpServer) : Prop :=
  sv_name x' = sv_name x ∧ sv_ipPort x' = sv_ipPort x ∧ sv_nextConnId x' = sv_nextConnId x.

(** One connection and its channel change, and with them perhaps its standing. *)
Lemma tables_touch n rest gone dead gone' dead' x x' conns chans next c y ch y' ch' :
  tables n rest gone dead x conns chans next → conns !! c = Some y → chans !! tc_channel y = Some ch →
  tc_channel y' = tc_channel y → tc_name y' = tc_name y →
  placed c y' ch' → standing n rest gone' dead' x' c y' ch' →
  (∀ c', c' ≠ c → (c' ∈ gone' ↔ c' ∈ gone) ∧ (c' ∈ dead' ↔ c' ∈ dead)) → NoDup (gone' ++ dead') →
  same_server x x' →
  (∀ name c', sv_connections x' !! name = Some c' ↔
     sv_connections x !! name = Some c' ∧ (c' = c → c ∉ gone' ++ dead')) →
  (c ∈ gone' ++ dead' → tc_channel y ∉ rest) →
  tables n rest gone' dead' x' (<[c := y']> conns) (<[tc_channel y := ch']> chans) next.
Proof.
  intros Ht Hy Hch Hyc Hyn Hp Hst Hoth Hnd (En & Ei & Eid) Hmap Hout.
  pose proof Ht as [H1 H2 H3 H4 H5 H6 H7 H8 (cha & Hcha & Ha)].
  assert (∀ c', c' ≠ c → (c' ∈ gone' ++ dead' ↔ c' ∈ gone ++ dead)) as Hin.
  { intros c' Hne. destruct (Hoth c' Hne). rewrite !elem_of_app. tauto. }
  split; rewrite ?En, ?Ei, ?Eid; try done.
  - intros c' y0. destruct (decide (c = c')) as [<-|Hne].
    { rewrite lookup_insert_eq. intros [= <-]. exists ch'. rewrite Hyc, lookup_insert_eq. by split_and!. }
    rewrite lookup_insert_ne by done. intros Hy0.
    assert (tc_channel y0 ≠ tc_channel y) as Hneq by (intros E; apply Hne; symmetry; by eapply tables_chan_inj).
    destruct (H1 c' y0 Hy0) as (ch0 & Hch0 & Hp0 & Hst0). exists ch0.
    rewrite lookup_insert_ne by done. split_and!; [done..|].
    destruct (Hoth c') as [Hg Hd]; [done|]. unfold standing in *.
    rewrite (decide_ext (c' ∈ gone') (c' ∈ gone)), (decide_ext (c' ∈ dead') (c' ∈ dead)) by done.
    destruct (decide (c' ∈ gone)); [done|]. destruct (decide (c' ∈ dead)); [done|].
    destruct Hst0. split; try done. by apply Hmap.
  - intros name c' Hc'. apply Hmap in Hc' as [Hc' Hup]. destruct (H2 name c' Hc') as (y0 & Hy0 & Hn0 & Hni).
    destruct (decide (c = c')) as [<-|Hne].
    + exists y'. rewrite lookup_insert_eq. split_and!; [done|congruence|by apply Hup].
    + exists y0. rewrite lookup_insert_ne by done. rewrite Hin by done. by split_and!.
  - split; [done|]. intros c' Hc'. destruct (decide (c = c')) as [<-|Hne].
    + by rewrite lookup_insert_eq.
    + rewrite lookup_insert_ne by done. rewrite Hin in Hc' by done. by apply H3.
  - intros q ch0 Hq. destruct (decide (tc_channel y = q)) as [<-|Hne].
    + rewrite lookup_insert_eq in Hq. injection Hq as <-. split; [by apply Hp|].
      do 2 right. exists c, y'. by rewrite lookup_insert_eq.
    + rewrite lookup_insert_ne in Hq by done. destruct (H4 q ch0 Hq) as (Hl & Hor). split; [done|].
      destruct Hor as [?|[?|(c' & y0 & Hy0 & E)]]; [by left|by right; left|]. do 2 right.
      exists c', y0. split; [|done]. rewrite lookup_insert_ne; [done|]. congruence.
  - destruct H5 as [H5 H5']. split; [done|]. intros q Hq. destruct (H5' q Hq) as [Hsome Hall]. split.
    + destruct (decide (tc_channel y = q)) as [<-|Hne];
        [by rewrite lookup_insert_eq|by rewrite lookup_insert_ne].
    + intros c' y0. destruct (decide (c = c')) as [<-|Hne].
      * rewrite lookup_insert_eq. intros [= <-] E Hc. apply (Hout Hc). by rewrite <- Hyc, E.
      * rewrite lookup_insert_ne by done. intros Hy0 E. rewrite Hin by done. by eapply Hall.
  - intros q Hq. destruct (H6 q Hq) as [Hc' Hch']. rewrite !lookup_insert_ne; [done|congruence..].
  - intros name c' Hc'. apply Hmap in Hc' as [Hc' _]. by eapply H7.
  - exists cha. rewrite lookup_insert_ne by (by eapply tables_chan_acceptor). done.
Qed.

Lemma name_unused n rest gone dead x conns chans next :
  tables n rest gone dead x conns chans next → (String.length (sv_ipPort x) ≤ 51)%nat →
  sv_connections x !! server_conn_name (sv_name x) (sv_ipPort x) (sv_nextConnId x) = None.
Proof.
  intros Ht Hlen. destruct (sv_connections x !! _) as [c|] eqn:E; [exfalso|done].
  destruct (tb_names _ _ _ _ _ _ _ _ Ht _ _ E) as (i & Hi & En).
  destruct (tb_ids _ _ _ _ _ _ _ _ Ht) as (Hn & Hid & Hlt). unfold to_come in Hlt.
  assert (sv_nextConnId x < 2 ^ 31) by (case_decide; lia).
  apply server_conn_name_inj in En; [lia|done|lia|lia].
Qed.

(** A new connection. *)
Lemma tables_enter n rest gone dead x conns chans next y ch :
  tables n (achan :: rest) gone dead x conns chans next → (String.length (sv_ipPort x) ≤ 51)%nat →
  tc_channel y = S next →
  tc_name y = server_conn_name (sv_name x) (sv_ipPort x) (sv_nextConnId x) →
  placed next y ch → up (event_bytes * to_come n rest (S next)) (after_accept next x) next y ch →
  tables n rest gone dead (after_accept next x) (<[next := y]> conns) (<[S next := ch]> chans)
    (S (S next)).
Proof.
  intros Ht Hlen Hyc Hyn Hp Hup. pose proof (name_unused _ _ _ _ _ _ _ _ Ht Hlen) as Hfree.
  set (name := server_conn_name _ _ _) in *.
  pose proof Ht as [H1 H2 [H3 H3'] H4 [H5 H5'] H6 H7 (H8 & H9 & H10) (cha & Hcha & Ha)].
  apply NoDup_cons in H5 as [Hach Hnd].
  assert (∀ c y0, conns !! c = Some y0 → c ≠ next) as Hne.
  { intros c y0 Hy ->. destruct (H6 next) as [E _]; [lia|]. by rewrite E in Hy. }
  assert (∀ q ch0, chans !! q = Some ch0 → q ≠ S next) as Hneq.
  { intros q ch0 Hq ->. destruct (H6 (S next)) as [_ E]; [lia|]. by rewrite E in Hq. }
  assert (next ∉ gone ++ dead) as Hnew.
  { intros Hin. destruct (H3' _ Hin) as [y0 Hy]. by apply (Hne _ _ Hy). }
  split.
  - intros c y0. destruct (decide (c = next)) as [->|Hc].
    + rewrite lookup_insert_eq. intros [= <-]. exists ch. rewrite Hyc, lookup_insert_eq. split_and!; [done..|].
      unfold standing. rewrite !decide_False by (intros ?; apply Hnew, elem_of_app; auto). by rewrite Hyc.
    + rewrite lookup_insert_ne by done. intros Hy0. destruct (H1 c y0 Hy0) as (ch0 & Hch0 & Hp0 & Hst).
      exists ch0. rewrite lookup_insert_ne by (symmetry; by eapply Hneq). split_and!; [done..|].
      unfold standing in *. destruct (decide (c ∈ gone)); [done|]. destruct (decide (c ∈ dead)); [done|].
      assert (up (event_bytes * to_come n rest (tc_channel y0)) x c y0 ch0) as [].
      { eapply up_room_mono; [|exact Hst].
        assert (to_come n rest (tc_channel y0) ≤ to_come n (achan :: rest) (tc_channel y0))
          by (apply to_come_mono; [done|by right]). unfold event_bytes, sizeof_extrabuf. lia. }
      split; try done. simpl. fold name. rewrite lookup_insert_ne; [done|]. congruence.
  - intros name' c. simpl. fold name. destruct (decide (name' = name)) as [->|Hn].
    + rewrite lookup_insert_eq. intros [= <-]. exists y. rewrite lookup_insert_eq. by split_and!.
    + rewrite lookup_insert_ne by done. intros Hc. destruct (H2 name' c Hc) as (y0 & Hy0 & Hn0 & Hni).
      exists y0. rewrite lookup_insert_ne; [done|]. symmetry. by eapply Hne.
  - split; [done|]. intros c Hc. rewrite lookup_insert_ne; [by apply H3'|]. by intros <-.
  - intros q ch0. destruct (decide (q = S next)) as [->|Hq].
    + rewrite lookup_insert_eq. intros [= <-]. split; [by apply Hp|]. do 2 right. exists next, y.
      by rewrite lookup_insert_eq.
    + rewrite lookup_insert_ne by done. intros Hch0. destruct (H4 q ch0 Hch0) as (Hl & Hor). split; [done|].
      destruct Hor as [?|[?|(c & y0 & Hy0 & E)]]; [by left|by right; left|]. do 2 right. exists c, y0.
      rewrite lookup_insert_ne; [done|]. symmetry. by eapply Hne.
  - split; [done|]. intros q Hq. destruct (H5' q ltac:(by right)) as [[ch0 Hch0] Hall]. split.
    + rewrite lookup_insert_ne by (symmetry; by eapply Hneq). by eexists.
    + intros c y0. destruct (decide (c = next)) as [->|Hc]; [done|].
      rewrite lookup_insert_ne by done. apply Hall.
  - intros q Hq. rewrite !lookup_insert_ne by lia. apply H6. lia.
  - intros name' c. simpl. fold name. destruct (decide (name' = name)) as [->|Hn].
    + intros _. exists (sv_nextConnId x). split; [lia|done].
    + rewrite lookup_insert_ne by done. intros Hc. destruct (H7 name' c Hc) as (i & Hi & E). exists i.
      split; [lia|done].
  - simpl. unfold to_come in *. rewrite decide_True in H10 by (by left).
    rewrite decide_False by done. lia.
  - exists cha. rewrite lookup_insert_ne by (symmetry; by eapply Hneq). done.
Qed.

(** A connection is closed: it leaves the map and waits for its end. *)
Lemma tables_close n rest gone dead x conns chans next c y ch y' ch' :
  tables n rest gone dead x conns chans next → conns !! c = Some y → chans !! tc_channel y = Some ch →
  c ∉ gone ++ dead → sv_connections x !! tc_name y = Some c → tc_channel y ∉ rest →
  tc_channel y' = tc_channel y → tc_name y' = tc_name y → placed c y' ch' → down epoll_attached y' ch' →
  tables n rest gone (dead ++ [c]) (forget y' x) (<[c := y']> conns) (<[tc_channel y := ch']> chans) next.
Proof.
  intros Ht Hy Hch Hc Hentry Hrest Hyc Hyn Hp Hdown.
  assert (c ∈ gone ++ dead ++ [c]) as Hcin by (rewrite !elem_of_app; do 2 right; by left).
  eapply tables_touch; [exact Ht|exact Hy|exact Hch|exact Hyc|exact Hyn|exact Hp|..].
  - unfold standing. rewrite decide_False by (intros ?; apply Hc, elem_of_app; auto).
    rewrite decide_True by (apply elem_of_app; right; by left). exact Hdown.
  - intros c' Hne. split; [done|]. rewrite elem_of_app, list_elem_of_singleton. tauto.
  - rewrite app_assoc. apply NoDup_app. split_and!; [apply (tb_down _ _ _ _ _ _ _ _ Ht)| |].
    + by intros c' Hc' ->%list_elem_of_singleton.
    + by repeat constructor; apply not_elem_of_nil.
  - done.
  - intros name c'. simpl. rewrite Hyn, lookup_delete_Some. split.
    + intros [Hne Hc']. split; [done|]. intros ->.
      destruct (tb_map _ _ _ _ _ _ _ _ Ht _ _ Hc') as (y0 & Hy0 & Hn0 & _). congruence.
    + intros [Hc' Hout]. split; [|done]. intros E. rewrite <- E, Hentry in Hc'.
      injection Hc' as <-. by apply (Hout eq_refl).
  - by intros _.
Qed.

(** A connection at its end. *)
Lemma tables_delete n c gone x conns chans next y :
  tables n [] (c :: gone) [] x conns chans next → conns !! c = Some y →
  tables n [] gone [] x (delete c conns) (delete (tc_channel y) chans) next.
Proof.
  intros Ht Hy. pose proof Ht as [H1 H2 [H3 H3'] H4 [H5 H5'] H6 H7 H8 (cha & Hcha & Ha)].
  rewrite !app_nil_r in *. apply NoDup_cons in H3 as [Hc Hnd].
  split; try done.
  - intros c' y'. destruct (decide (c = c')) as [<-|Hne]; [by rewrite lookup_delete_eq|].
    rewrite lookup_delete_ne by done. intros Hy'. destruct (H1 c' y' Hy') as (ch' & Hch' & Hp & Hst).
    exists ch'. rewrite lookup_delete_ne.
    2:{ intros E. apply Hne. by eapply tables_chan_inj. }
    split_and!; [done..|]. unfold standing in *.
    rewrite (decide_ext (c' ∈ gone) (c' ∈ c :: gone)); [exact Hst|].
    rewrite elem_of_cons. split; [by right|]. intros [->|?]; done.
  - intros name c' Hc'. destruct (H2 name c' Hc') as (y' & Hy' & Hn & Hni).
    rewrite app_nil_r in *. exists y'. rewrite lookup_delete_ne by (intros ->; apply Hni; by left).
    split_and!; [done..|]. intros ?. apply Hni. by right.
  - rewrite app_nil_r. split; [done|]. intros c' Hc'. rewrite lookup_delete_ne by (by intros <-).
    apply H3'. by right.
  - intros q ch. destruct (decide (tc_channel y = q)) as [<-|Hne]; [by rewrite lookup_delete_eq|].
    rewrite lookup_delete_ne by done. intros Hq. destruct (H4 q ch Hq) as (Hl & Hor). split; [done|].
    destruct Hor as [?|[?|(c' & y' & Hy' & E)]]; [by left|by right; left|]. do 2 right. exists c', y'.
    rewrite lookup_delete_ne; [done|]. congruence.
  - split; [constructor|]. by intros q ?%elem_of_nil.
  - intros q Hq. destruct (H6 q Hq) as [E1 E2].
    by rewrite lookup_delete_None, lookup_delete_None; auto.
  - exists cha. rewrite lookup_delete_ne by (by eapply tables_chan_acceptor). done.
Qed.
End table.
