(* ===== verification/Events.v ===== *)
(** * Events: what the events of one connection do, whatever else there is

    The members that a loop runs for a connection of the example server, as changes
    of that connection and its channel ([touched]); closing it; and dispatching its
    events, for any account of the rest of the program that these changes keep. *)
From S2P Require Import Prelude Endian Buffer OS Descriptors Double Objects Poller LoopCore Channel TimerQueue Sockets Calls TcpConnection ByteStream Lifecycle EventLoop Threads Acceptor Connector TcpServer TcpClient Program PingPong Serving Echo Isolation Running Table.

Set Default Goal Selector "!".

(** ** A loop's view of its channels *)

Section loops.
Context {K : Type} `{!OS K} `{!EpollLaws K}.
Implicit Types w : World K.

Lemma loop_ok_live l p w q ch :
  loop_ok l p w → r_chans (w_r w) !! q = Some ch → ch_loop ch = l → live_channel w q ch.
Proof.
  intros Hok Hq Hl. split_and!; [exact Hq| |rewrite Hl; exact (lk_thread _ _ _ Hok)].
  rewrite Hl. eapply epoll_ok_intro; [exact (sy_poller _ _ _ _ (lk_synced _ _ _ Hok))|exact Hq|].
  eapply synced_registration; [exact (lk_synced _ _ _ Hok)|exact Hq|exact Hl|].
  by eapply loop_ok_free.
Qed.

Lemma loop_ok_kernel l p w io :
  loop_ok l p w → interest (io_k io) (ep_epollfd p) = interest (io_k (w_io w)) (ep_epollfd p) →
  loop_ok l p (with_io io w).
Proof. intros Hok Hk. by eapply loop_ok_frame; [exact Hok|..|exact (lk_thread _ _ _ Hok)]. Qed.

(** The poller's part of a channel of the loop. *)
Lemma loop_ok_polling l p w q ch :
  loop_ok l p w → r_chans (w_r w) !! q = Some ch → ch_loop ch = l → polling l (ep_epollfd p) q w.
Proof.
  intros Hok Hq Hl. split; [eexists; split; [exact (sy_poller _ _ _ _ (lk_synced _ _ _ Hok))|done]|].
  intros ch'. rewrite Hq. by intros [= <-].
Qed.
(** The channel epoll knows a descriptor by is the only one it is reported for. *)
Lemma loop_ok_watch l p w fd ev q :
  loop_ok l p w → kernel_list (w_r w) p !! fd = Some (ev, q) →
  ∃ ch, r_chans (w_r w) !! q = Some ch ∧ ch_fd ch = fd ∧ ch_loop ch = l.
Proof.
  intros [Hs _ _] Hk. destruct (ep_channels p !! fd) as [q'|] eqn:E.
  2:{ apply (sy_unknown _ _ _ _ Hs) in E. congruence. }
  destruct (sy_registered _ _ _ _ Hs _ _ E) as (ch & Hch & Hfd & Hl & Hwat).
  unfold watched in Hwat. rewrite Hfd in Hwat.
  destruct Hwat as [(_ & _ & Hwat)|(_ & Hwat & _)]; [|congruence].
  specialize (Hwat eq_refl). rewrite Hk in Hwat. injection Hwat as _ ->. by exists ch.
Qed.

End loops.

(** ** One event *)

Section touching.
Context {K : Type} `{!OS K} `{!OSLaws K} `{!EpollLaws K} `{!FdLaws K} `{!EpollRoom K} `{Inet}.
Context (l c : ptr) (idm : nat).
Implicit Types w : World K.

(** Connection [y], whose channel is [ch], and loop [l], whose poller is [p], are now
    [y'] and [ch']; nothing else of the library changed. *)
Record touched (y : TcpConnection) (ch : Channel) (p : EPollPoller) (y' : TcpConnection) (ch' : Channel)
    w w' : Prop := {
  to_conns : w_conns w' = <[c := y']> (w_conns w);
  to_chans : r_chans (w_r w') = <[tc_channel y := ch']> (r_chans (w_r w));
  to_similar : similar y y';
  to_same : same_but_registration ch ch';
  to_waiting : waiting ch → waiting ch';
  to_loop : ∃ m, loop_ok l (set_ep_channels m p) w';
  to_else : elsewhere l c y p w w'
}.

Lemma within_here y ch p w :
  loop_ok l p w → w_conns w !! c = Some y → r_chans (w_r w) !! tc_channel y = Some ch →
  can_watch p (ch_fd ch) (io_k (w_io w)) → within l c y ch p w.
Proof.
  intros Hok Hy Hch Ho. split; [| | |done].
  - exists (ep_channels p). by destruct p.
  - exists y. split; [done|apply similar_refl].
  - exists ch. split_and!; [done| |done]. unfold same_but_registration. by destruct ch.
Qed.

Lemma within_touched y ch p w w' :
  w_conns w !! c = Some y → within l c y ch p w' → elsewhere l c y p w w' →
  ∃ y' ch', touched y ch p y' ch' w w'.
Proof.
  intros Hy [Hok (y' & Hy' & Hs) (ch' & Hch' & Hsc & Hwait) _] He. exists y', ch'. split; try done.
  - apply map_eq. intros c'. destruct (decide (c = c')) as [<-|Hne];
      [by rewrite lookup_insert_eq|by rewrite lookup_insert_ne, (ew_conns _ _ _ _ _ _ He)].
  - apply map_eq. intros q. destruct (decide (tc_channel y = q)) as [<-|Hne];
      [by rewrite lookup_insert_eq|by rewrite lookup_insert_ne, (ew_chans _ _ _ _ _ _ He)].
Qed.

(** The connection as a rule of ByteStream.v or Echo.v leaves it. *)
Lemma touched_core y ch p y' ch' y2 ch2 w w' :
  touched y ch p y' ch' w w' → conn_core c y2 ch2 w' → y2 = y' ∧ ch2 = ch'.
Proof.
  intros Ht Hcore. assert (y2 = y') as ->.
  { pose proof (ck_conn _ _ _ _ Hcore) as E. rewrite (to_conns _ _ _ _ _ _ _ Ht), lookup_insert_eq in E. by injection E. }
  split; [done|]. destruct (ck_live _ _ _ _ Hcore) as (E & _).
  assert (tc_channel y' = tc_channel y) as Eq by (by rewrite (to_similar _ _ _ _ _ _ _ Ht)).
  rewrite Eq, (to_chans _ _ _ _ _ _ _ Ht), lookup_insert_eq in E. by injection E.
Qed.

Lemma placed_similar y ch y' ch' :
  placed l c y ch → similar y y' → same_but_registration ch ch' →
  wf (tc_outputBuffer y') ∧ kCheapPrepend ≤ bsize (tc_outputBuffer y') → placed l c y' ch'.
Proof. intros [H1 H2 H3 [] H5 H6] -> -> Ho. split; try done. Qed.

(** A connection that is ready for an event: [y] in [w], its channel being [ch]. *)
Record eventful (y : TcpConnection) (ch : Channel) (p : EPollPoller) w : Prop := {
  ev_loop : loop_ok l p w;
  ev_ok : conn_ok c y ch w;
  ev_chan : r_chans (w_r w) !! tc_channel y = Some ch;
  ev_placed : placed l c y ch;
  ev_echo : echoing idm y;
  ev_wc : tc_writeCompleteCallback y = None;
  ev_hw : tc_highWaterMarkCallback y = None;
  ev_open : can_watch p (ch_fd ch) (io_k (w_io w))
}.

(** Echoing goes on, the output being at most [size] long. *)
Definition goes_on (y : TcpConnection) (ch : Channel) (p : EPollPoller) (size : Z) w w' : Prop :=
  ∃ y' ch', touched y ch p y' ch' w w' ∧ conn_ok c y' ch' w' ∧ echoing idm y'
            ∧ placed l c y' ch' ∧ bsize (tc_outputBuffer y') ≤ size.

Lemma goes_on_intro (m : M (World K) unit) y ch p size w :
  eventful y ch p w →
  wlp m (λ _ w', within l c y ch p w' ∧ elsewhere l c y p w w') w →
  wp m (λ _ w', ∃ y' ch', conn_ok c y' ch' w' ∧ echoing idm y' ∧ bsize (tc_outputBuffer y') ≤ size) w →
  wp m (λ _ w', goes_on y ch p size w w') w.
Proof.
  intros Hev Hiso Hwp. apply wp_run in Hwp as ([] & w' & Hrun & y2 & ch2 & Hok & Hecho & Hsz).
  unfold wlp in Hiso. rewrite Hrun in Hiso. destruct Hiso as [Hin Hel].
  destruct (within_touched _ _ _ _ _ (ck_conn _ _ _ _ (proj1 (ev_ok _ _ _ _ Hev))) Hin Hel) as (y' & ch' & Ht).
  destruct (touched_core _ _ _ _ _ _ _ _ _ Ht (proj1 Hok)) as [-> ->].
  eapply wp_ok; [exact Hrun|]. exists y', ch'. split_and!; [exact Ht|exact Hok|exact Hecho| |exact Hsz].
  eapply placed_similar; [apply Hev|apply Ht|apply Ht|apply Hok].
Qed.

Lemma handleWrite_goes_on y ch p w :
  eventful y ch p w →
  wp (handleWrite c) (λ _ w', goes_on y ch p (bsize (tc_outputBuffer y)) w w') w.
Proof.
  intros Hev. pose proof Hev as [Hl Hok Hch [P1 P2 P3 P4 P5 P6] He Hwc Hhw Ho]. apply goes_on_intro; [done|..].
  - eapply wlp_mono.
    + eapply (isolated_handleWrite l c y ch p P1 P2 Hwc Hhw). apply within_here; [done|apply Hok|done|done].
    + by intros [] w' (_ & ? & ?).
  - eapply wp_mono; [exact (handleWrite_echo_wp close_callback c 0 idm y ch w Hok He)|].
    intros [] w' (y' & ch' & vs & Hok' & He' & _ & _ & _ & acc & _ & _ & _ & _ & _ & _ & Hsz).
    exists y', ch'. split_and!; [done..|]. change (total []) with 0 in Hsz. lia.
Qed.

(** Nothing is written on a channel that waits for nothing. *)
Lemma handleWrite_down_wp y ch (Q : unit → World K → Prop) w :
  conn_core c y ch w → ch_events ch = kNoneEvent → Q tt w → wp (handleWrite c) Q w.
Proof.
  intros Hcore Hev HQ. apply wp_bind. eapply conn_assertInLoopThread_wp; [done|].
  apply wp_bind. eapply conn_channel_wp; [done|]. unfold isWriting. by rewrite Hev.
Qed.

(** A read that is not the end of the stream. *)
Lemma handleRead_isolated y ch p t w :
  within l c y ch p w → conn_core c y ch w → placed l c y ch → input_idle (tc_inputBuffer y) →
  tc_writeCompleteCallback y = None → tc_highWaterMarkCallback y = None → ret (next_read y w) ≠ 0 →
  wlp (handleRead server_user close_callback c t) (λ _ w', within l c y ch p w' ∧ elsewhere l c y p w w') w.
Proof.
  intros Hin Hcore [P1 P2 P3 P4 P5 P6] Hidle Hwc Hhw Hr.
  unfold handleRead. apply wlp_bind. eapply wlp_mono.
  { apply wp_wlp, (conn_assertInLoopThread_wp c y ch (λ _ w', w' = w)); done. }
  intros [] w1 ->. apply wlp_bind. eapply wlp_mono.
  { apply wp_wlp, (conn_channel_wp c y ch (λ ch' w', ch' = ch ∧ w' = w)); done. }
  intros ch' w1 [-> ->]. apply wlp_bind. eapply wlp_mono.
  { apply wp_wlp, (get_conn_wp c y (λ y' w', y' = y ∧ w' = w)); [apply Hcore|done]. }
  intros y' w1 [-> ->]. rewrite P3. apply wlp_bind. set (r := next_read y w) in *.
  eapply (wlp_mono _ (λ res w1, res = (if ret r <? 0 then None else Some (take (Z.to_nat (ret r)) (payload r)))
    ∧ w_conns w1 !! c = Some y ∧ within l c y ch p w1 ∧ elsewhere l c y p w w1)).
  { apply wp_wlp, wp_bind, call_by_wp. intros io [_ Hk]. apply wp_ret.
    destruct (isolated_io l c y ch p io w Hin) as [Hin1 Hel1]; [| |split_and!; [done|apply Hcore|done|done]].
    - intros ep. rewrite Hk. by apply interest_frame.
    - unfold same_fds. rewrite Hk. by apply fds_frame. }
  intros res w1 (-> & Hc1 & Hin1 & Hel1). apply wlp_bind.
  destruct (readFd_iov_idle _ Hidle) as (Hpos & _ & _).
  pose proof (readv_bound (tc_socket y) _ (io_k (w_io w)) Hpos) as Hbound.
  eapply wlp_mono; [apply wlp_and|].
  - exact (isolated_input l c y ch p _ w1 Hin1).
  - apply wp_wlp. eapply (wp_zoom _ _ _ _ _ (λ n _, n = ret r)); [simpl; by rewrite Hc1|].
    by apply read_input_wp.
  - intros m w2 [(_ & Hin2 & Hel2) ->].
    assert (elsewhere l c y p w w2) as Hel by (by trans w1).
    assert (∀ k : M (World K) unit, steady (within l c y ch p) (elsewhere l c y p) k (λ _, True) →
      wlp k (λ _ w', within l c y ch p w' ∧ elsewhere l c y p w w') w2) as Hlast.
    { intros k Hk. eapply wlp_mono; [by apply Hk|]. intros [] w3 (_ & ? & ?). split; [done|by trans w2]. }
    destruct (0 <? ret r); [|rewrite (proj2 (Z.eqb_neq _ _)) by done].
    + by apply Hlast, isolated_messageCallback.
    + apply Hlast. exact (isolated_log l c y ch p _).
Qed.

Lemma handleRead_goes_on y ch p t w :
  eventful y ch p w → ret (next_read y w) ≠ 0 →
  bsize (tc_outputBuffer y) + 2 * sizeof_extrabuf ≤ max_size →
  wp (handleRead server_user close_callback c t)
    (λ _ w', goes_on y ch p (bsize (tc_outputBuffer y) + event_bytes) w w') w.
Proof.
  intros Hev Hr Hmax. apply goes_on_intro; [done| |].
  { apply handleRead_isolated; try apply Hev; [|done]. by apply within_here; apply Hev. }
  eapply wp_mono; [by eapply (handleRead_echo_wp close_callback c t idm y ch w); [apply Hev|apply Hev|..]|].
  intros [] w' (y' & ch' & vs & msgs & Hok' & He' & _ & _ & Ht & acc & _ & _ & _ & _ & _ & _ & Hsz).
  exists y', ch'. split_and!; [done..|]. unfold event_bytes. lia.
Qed.

(** The end of the stream. *)
Lemma handleRead_end_leads y ch p t w :
  within l c y ch p w → conn_core c y ch w → placed l c y ch → input_idle (tc_inputBuffer y) →
  ret (next_read y w) = 0 →
  leads_to (handleRead server_user close_callback c t)
    (λ w', ∃ y', touched y ch p y' ch w w' ∧ conn_core c y' ch w')
    (handleClose server_user close_callback c) w.
Proof.
  intros Hin Hcore [P1 P2 P3 P4 P5 P6] Hidle Hr.
  apply leads_to_bind. eapply conn_assertInLoopThread_wp; [done|].
  apply leads_to_bind. eapply conn_channel_wp; [done|].
  apply leads_to_bind. eapply get_conn_wp; [apply Hcore|]. rewrite P3. set (r := next_read y w) in *.
  apply leads_to_bind, wp_bind, call_by_wp. intros io [_ Hk]. apply wp_ret.
  change (result_of _ w) with r. set (w1 := with_io io w).
  destruct (isolated_io l c y ch p io w Hin) as [Hin1 Hel1].
  { intros ep. rewrite Hk. by apply interest_frame. }
  { unfold same_fds. rewrite Hk. by apply fds_frame. }
  assert (conn_core c y ch w1) as Hcore1 by (by apply conn_core_with_io).
  destruct (readFd_iov_idle _ Hidle) as (Hpos & _ & _).
  pose proof (readv_bound (tc_socket y) _ (io_k (w_io w)) Hpos) as Hbound.
  apply leads_to_bind.
  set (m := on_buffer _ _).
  assert (wp m (λ n w2, n = 0 ∧ ∃ b, conn_core c (set_tc_inputBuffer b y) ch w2) w1) as Hm.
  { eapply conn_input_wp; [exact Hcore1|]. apply read_input_wp; [done|done|].
    intros b _ _ _ _ w2 Hcore2 _. split; [done|by exists b]. }
  pose proof (isolated_input l c y ch p (readFd (λ _, if ret r <? 0 then None else
    Some (take (Z.to_nat (ret r)) (payload r)))) w1 Hin1) as Hiso. fold m in Hiso.
  unfold wp, wlp in *. destruct (m w1) as [[n' w2]|]; [|done].
  destruct Hm as (-> & b & Hcore2). destruct Hiso as (_ & Hin2 & Hel2).
  apply leads_to_end. destruct (within_touched y ch p w w2) as (y' & ch' & Ht);
    [apply Hcore|done|by trans w1|].
  destruct (touched_core _ _ _ _ _ _ _ _ _ Ht Hcore2) as [<- <-]. by eexists.
Qed.

(** *** Reading from a closed connection *)

(** A connection that has just been closed, with nothing read yet. *)
Record unread (y : TcpConnection) : Prop := {
  un_state : tc_state y = kDisconnected;
  un_message : tc_messageCallback y = Some (UserMessageCallback idm);
  un_input : input_idle (tc_inputBuffer y);
  un_wc : tc_writeCompleteCallback y = None;
  un_hw : tc_highWaterMarkCallback y = None
}.

(** What arrives is taken from the buffer and not sent. *)
Lemma server_onMessage_down_wp x ch w :
  conn_core c x ch w → tc_state x = kDisconnected → wf (tc_inputBuffer x) →
  Z.of_nat (length (content (tc_inputBuffer x))) < 2 ^ 31 →
  wp (server_onMessage c) (λ _ w', ∃ x', conn_core c x' ch w') w.
Proof.
  intros Hcore Hst Hwf Hlen. apply wp_bind. eapply conn_input_wp; [exact Hcore|].
  apply retrieveAllAsString_wp; [done|by rewrite <- length_content|].
  set (x1 := set_tc_inputBuffer _ x). intros w1 Hcore1 _.
  apply wp_bind. eapply new_string_wp; [exact Hcore1|]. intros p w2 Hcore2 Hmem _.
  apply wp_bind. apply (wp_mono _ (λ _, conn_core c x1 ch)).
  - apply wp_bind. eapply wp_gets_some; [exact Hmem|]. unfold send. destruct (_ <=? 0); [done|].
    apply wp_bind. eapply get_conn_wp; [apply Hcore2|]. rewrite bool_decide_false; [done|].
    simpl. by rewrite Hst.
  - intros [] w3 Hcore3. apply wp_modify. exists x1. by apply conn_core_mem.
Qed.

Lemma handleRead_down_ok_wp y ch t w :
  conn_core c y ch w → unread y → ret (next_read y w) ≠ 0 →
  wp (handleRead server_user close_callback c t) (λ _ w', ∃ y', conn_core c y' ch w') w.
Proof.
  intros Hcore [Hst Hcb Hidle _ _] Hr.
  destruct (readFd_iov_idle _ Hidle) as (Hpos & Hle & _). unfold sizeof_extrabuf in *.
  pose proof (readv_bound (tc_socket y) _ (io_k (w_io w)) Hpos) as Hbound. fold (next_read y w) in Hbound.
  apply wp_bind. eapply conn_assertInLoopThread_wp; [done|].
  apply wp_bind. eapply conn_channel_wp; [done|].
  apply wp_bind. eapply get_conn_wp; [apply Hcore|]. rewrite (ck_fd _ _ _ _ Hcore).
  apply wp_bind, wp_bind. eapply conn_syscall_wp; [exact Hcore|]. fold (next_read y w).
  simpl on_fd. rewrite Z.eqb_refl. intros w1 Hcore1 _ _. apply wp_ret. set (r := next_read y w) in *.
  apply wp_bind. eapply conn_input_wp; [exact Hcore1|].
  apply read_input_wp; [done|done|]. intros b Hwfb Hsb Hcb' _ w2 Hcore2 _.
  destruct (Z.ltb_spec 0 (ret r)) as [Hgt|Hngt].
  - destruct (Z.ltb_spec (ret r) 0); [lia|]. destruct Hbound as [Hbound|[Hbound Hle']]; [lia|].
    apply wp_bind. eapply get_conn_wp; [apply Hcore2|]. simpl. rewrite Hcb.
    apply wp_bind, wp_modify. apply (server_onMessage_down_wp (set_tc_inputBuffer b y) ch);
      [by apply conn_core_calls|done|done|]. simpl. rewrite Hcb'. lia.
  - rewrite (proj2 (Z.eqb_neq _ _)) by lia. eapply conn_log_wp; [exact Hcore2|].
    intros w3 Hcore3 _ _. by eexists.
Qed.

Lemma handleClose_down_fails y ch w :
  conn_core c y ch w → tc_state y = kDisconnected →
  handleClose server_user close_callback c w = Fault (AssertFailed "TcpConnection.cpp:198").
Proof.
  intros Hcore Hst.
  cut (leads_to (handleClose server_user close_callback c) (λ w', w' = w)
         (fail (AssertFailed "TcpConnection.cpp:198")) w); [by intros (w' & -> & ->)|].
  apply leads_to_bind. eapply conn_assertInLoopThread_wp; [done|].
  apply leads_to_bind. eapply get_conn_wp; [apply Hcore|]. rewrite Hst. by exists w.
Qed.

(** The end of the stream is closed once more, which fails. *)
Lemma handleRead_down_wp (E : fault → Prop) y ch p t w :
  E (AssertFailed "TcpConnection.cpp:198") →
  loop_ok l p w → conn_core c y ch w → r_chans (w_r w) !! tc_channel y = Some ch → placed l c y ch →
  can_watch p (ch_fd ch) (io_k (w_io w)) → unread y →
  wpx E (handleRead server_user close_callback c t)
    (λ _ w', ∃ y', touched y ch p y' ch w w' ∧ conn_core c y' ch w') w.
Proof.
  intros HE Hl Hcore Hch Hpl Ho Hun. pose proof Hun as [Hst Hcb Hidle Hwc Hhw].
  pose proof (within_here _ _ _ _ Hl (ck_conn _ _ _ _ Hcore) Hch Ho) as Hin.
  destruct (decide (ret (next_read y w) = 0)) as [Hr|Hr].
  - destruct (handleRead_end_leads _ _ _ t _ Hin Hcore Hpl Hidle Hr) as (w2 & (y2 & Hto & Hcore2) & Erun).
    eapply wpx_fault; [|exact HE]. rewrite Erun. eapply handleClose_down_fails; [exact Hcore2|].
    by rewrite (to_similar _ _ _ _ _ _ _ Hto).
  - pose proof (handleRead_isolated _ _ _ t _ Hin Hcore Hpl Hidle Hwc Hhw Hr) as Hiso.
    pose proof (handleRead_down_ok_wp _ _ t _ Hcore Hun Hr) as Hwp.
    apply wp_run in Hwp as ([] & w' & Hrun & y2 & Hcore2). unfold wlp in Hiso. rewrite Hrun in Hiso.
    destruct Hiso as [Hin' Hel].
    destruct (within_touched _ _ _ _ _ (ck_conn _ _ _ _ Hcore) Hin' Hel) as (y' & ch' & Ht).
    destruct (touched_core _ _ _ _ _ _ _ _ _ Ht Hcore2) as [-> ->].
    apply wpx_wp. eapply wp_ok; [exact Hrun|]. by exists y'.
Qed.

(** ** Closing *)

Lemma server_leaves_closed_alone : leaves_closed_alone (K:=K) server_user.
Proof.
  intros id c' y w Hy Hst. unfold server_user, server_onConnection, connected.
  rewrite !bind_run. unfold get_conn, gets_some. by rewrite Hy, Hst.
Qed.

(** The channel after [disableAll]. *)
Definition disabled_chan (ch : Channel) : Channel :=
  let ch1 := set_ch_addedToLoop true (set_ch_events kNoneEvent ch) in set_ch_index (next_index ch1) ch1.

(** The reactor after [disableAll] of channel [q]. *)
Definition disabled (p : EPollPoller) (q : ptr) (ch : Channel) w (r : Reactor K) : Prop :=
  (∃ m, loop_ok l (set_ep_channels m p) (set_w_r r w)) ∧ r_chans r = <[q := disabled_chan ch]> (r_chans (w_r w))
  ∧ same_fds (w_io w) (r_io r) ∧ apart l (ep_epollfd p) (w_r w) r.

Lemma disabled_attached ch : epoll_attached (disabled_chan ch).
Proof. apply next_index_attached. Qed.

(** A channel that epoll watches is taken off its list. *)
Lemma disabled_waiting ch : waiting ch → ch_index (disabled_chan ch) = EPollPoller.kDeleted.
Proof. intros [_ E]. unfold disabled_chan, next_index. simpl. by rewrite E. Qed.

Lemma disableAll_wp p q ch w :
  loop_ok l p w → r_chans (w_r w) !! q = Some ch → ch_loop ch = l →
  can_watch p (ch_fd ch) (io_k (w_io w)) → wp (disableAll q) (λ _ w', w' = set_w_r (w_r w') w ∧ disabled p q ch w (w_r w')) w.
Proof.
  intros Hok Hq Hl Ho. pose proof (run_interest_indexed_wp DisableAll q ch l p w Hok Hq Hl (or_intror Ho)) as Hwp.
  pose proof (fds_kept_run_interest DisableAll q w) as Hf.
  pose proof (parted_run_interest _ _ _ DisableAll w (loop_ok_polling _ _ _ _ _ Hok Hq Hl)) as Hpart.
  unfold wp, wlp in *. cbn [run_interest] in *.
  destruct (disableAll q w) as [[[] w']|]; [|done]. destruct Hwp as (Hok' & Hch & E).
  split; [exact E|]. split_and!; [|exact Hch|exact Hf|apply Hpart..].
  eexists. by rewrite E in Hok'.
Qed.

(** [connectDestroyed] of a closed connection: the poller forgets its channel. *)
Lemma destroy_down_wp y ch p w :
  loop_ok l p w → w_conns w !! c = Some y → r_chans (w_r w) !! tc_channel y = Some ch →
  placed l c y ch → down epoll_attached y ch →
  (∀ lx, w_loops w !! l = Some lx → el_eventHandling lx = false) →
  wp (connectDestroyed server_user c) (λ _ w', w' = set_w_r (w_r w') w
    ∧ (∃ m, loop_ok l (set_ep_channels m p) w')
    ∧ r_chans (w_r w') = <[tc_channel y := set_ch_index EPollPoller.kNew (set_ch_addedToLoop false ch)]>
                           (r_chans (w_r w))
    ∧ same_fds (w_io w) (w_io w') ∧ parted l (ep_epollfd p) w w') w.
Proof.
  intros Hok Hy Hch Hpl [Hstate Hevents Hatt] Hev. pose proof Hpl as [P1 P2 P3 P4 P5 P6].
  destruct (lk_thread _ _ _ Hok) as (lx & Hl & Ht).
  apply wp_bind, wp_bind, wp_bind. eapply get_conn_wp; [exact Hy|]. apply wp_ret. rewrite P1.
  eapply assertInLoopThread_here; [done..|]. apply wp_bind. eapply get_conn_wp; [exact Hy|].
  rewrite Hstate. apply wp_bind, wp_ret.
  assert (ep_channels p !! ch_fd ch = Some (tc_channel y)) as Hreg.
  { apply dec_stable. intros Hne. pose proof (sy_new _ _ _ _ (lk_synced _ _ _ Hok) _ _ Hch P2 Hne) as E.
    destruct Hatt as [E'|E']; rewrite E in E'; done. }
  assert (∀ x, w_loops w !! l = Some x → el_eventHandling x = true →
    el_currentActiveChannel x = Some (tc_channel y) ∨ tc_channel y ∉ el_activeChannels x) as Hact
    by (intros x Hx E; by rewrite (Hev x Hx) in E).
  pose proof (remove_synced _ _ _ _ _ Hok Hch P2 Hreg Hevents Hact) as Hwp.
  pose proof (fds_kept_remove (tc_channel y) w) as Hf.
  pose proof (parted_remove _ _ _ w (loop_ok_polling _ _ _ _ _ Hok Hch P2)) as Hpart. unfold wp, wlp in *.
  destruct (remove (tc_channel y) w) as [[[] w']|]; [|done].
  destruct Hwp as (Hok' & _ & Hch' & E). split_and!; [exact E|by eexists|exact Hch'|exact Hf|apply Hpart].
Qed.
End touching.

(** ** Dispatching *)

Lemma hup_not_read e : hangup_sane e →
  nonzero (Z.land e POLLHUP) && negb (nonzero (Z.land e POLLIN)) = true →
  nonzero (Z.land e (Z.lor (Z.lor POLLIN POLLPRI) POLLRDHUP)) = false.
Proof. intros He [H1 H2]%andb_true_iff. apply He; [done|]. by apply negb_true_iff. Qed.

Section dispatching.
Context {K : Type} `{!OS K} `{!EpollLaws K} `{Inet}.
Context (c q : ptr) (e t : Z).
Implicit Types w : World K.

(** The channel of connection [c], at which the events [e] were reported. *)
Definition reported_at (ch : Channel) : Prop := ch_revents ch = e ∧ bound_to c ch.

(** [U] is what holds before the connection is read from, [V] when its end was the first
    event, and [J] after it is read from.  Where the kernel reports a hang-up together
    with something else to read on, the connection is read from once more, and that may
    end with a fault of [E]. *)
Lemma conn_guard_wp (E : fault → Prop) (U V J : World K → Prop) w :
  between_events q reported_at U → between_events q reported_at V → between_events q reported_at J →
  (∀ w', U w' → J w') → (∀ w', V w' → J w') →
  (∀ w', U w' → wp (handleClose server_user close_callback c) (λ _, V) w') →
  (∀ w', U w' → wp (handleRead server_user close_callback c t) (λ _, J) w') →
  (∀ w', J w' → wp (handleWrite c) (λ _, J) w') →
  hangup_sane e ∨ (∀ w', V w' → wpx E (handleRead server_user close_callback c t) (λ _, J) w') →
  U w → wpx E (handleEventWithGuard (invoke server_user) q t) (λ _, J) w.
Proof.
  intros HU HV HJ Hweak Hweak' Hclose Hread Hwrite He Hw.
  assert (∀ w', J w' → wp (ch ← chan_at q;
      when (nonzero (Z.land (ch_revents ch) POLLOUT)) (call (invoke server_user) (ch_writeCallback ch) t);;
      upd_chan q (set_ch_eventHandling false)) (λ _, J) w') as Htail.
  { intros w' Hw'. destruct (be_chan _ _ _ HJ w' Hw') as (ch & Hch & Er & Hb).
    apply wp_bind. eapply chan_at_wp; [exact Hch|]. rewrite (bt_write _ _ Hb).
    apply wp_bind. apply (wp_mono _ (λ _, J)).
    - apply wp_when; intros _; [by apply Hwrite|done].
    - intros [] w2 H2. destruct (be_chan _ _ _ HJ w2 H2) as (ch2 & Hch2 & _).
      eapply upd_chan_wp; [exact Hch2|]. by apply (be_flag _ _ _ HJ). }
  destruct (be_chan _ _ _ HU w Hw) as (ch & Hch & Er & Hb).
  apply wpx_bind_wp. eapply upd_chan_wp; [exact Hch|].
  pose proof (be_flag _ _ _ HU true ch w Hw Hch) as Hw1. set (w1 := set_w_r _ w) in *.
  destruct (be_chan _ _ _ HU w1 Hw1) as (ch1 & Hch1 & Er1 & Hb1).
  apply wpx_bind_wp. eapply chan_at_wp; [exact Hch1|]. rewrite (bt_close _ _ Hb1), Er1.
  apply wpx_bind_wp, wp_when; intros Ehup.
  - eapply wp_mono; [by apply Hclose|]. intros [] w2 H2.
    destruct (be_chan _ _ _ HV w2 H2) as (ch2 & Hch2 & Er2 & Hb2).
    apply wpx_bind_wp. eapply chan_at_wp; [exact Hch2|]. rewrite (bt_error _ _ Hb2).
    apply wpx_bind_wp, wp_when; intros _; [apply wp_ret|];
      (apply wpx_bind_wp; eapply chan_at_wp; [exact Hch2|]; rewrite Er2, (bt_read _ _ Hb2);
       apply wpx_bind, wpx_when; intros Hr; [|by apply wpx_wp, Htail, Hweak'];
       destruct He as [He|He]; [by rewrite (hup_not_read e He Ehup) in Hr|];
       cbn [call invoke]; eapply wpx_mono; [by apply He|]; intros [] w3 H3; by apply wpx_wp, Htail).
  - apply wpx_bind_wp. eapply chan_at_wp; [exact Hch1|]. rewrite (bt_error _ _ Hb1).
    apply wpx_bind_wp, wp_when; intros _; [apply wp_ret|];
      (apply wpx_bind_wp; eapply chan_at_wp; [exact Hch1|]; rewrite (bt_read _ _ Hb1);
       apply wpx_bind_wp, wp_when; intros _;
         [cbn [call invoke]; eapply wp_mono; [by apply Hread|]; intros [] w2 H2; by apply wpx_wp, Htail|
          by apply wpx_wp, Htail, Hweak]).
Qed.
End dispatching.
