(* ===== verification/Service.v ===== *)
(** * Service: the echo server runs for ever

    The server of PingPong.v on one loop with epoll, between any two steps of its
    run: [serving].  Every step of the loop keeps it: here the events of the
    connections and of the loop's own descriptors, with any result of any system
    call; in Welcome.v those of the listening socket; in Rounds.v the functors that
    destroy closed connections, and the poll.  So no round of the loop fails, and
    what is open is what the connections in the server's map need. *)
From S2P Require Import Prelude Endian Buffer OS Descriptors Double Objects Poller LoopCore Channel TimerQueue Sockets Calls TcpConnection ByteStream Lifecycle EventLoop Threads Acceptor Connector TcpServer TcpClient Program PingPong Serving Lifetimes Echo Isolation Running Table Events.

Set Default Goal Selector "!".

Section service.
Context {K : Type} `{!OS K} `{!OSLaws K} `{!EpollLaws K} `{!FdLaws K} `{!EpollRoom K} `{Inet}.
Context (l s a achan : ptr) (idc idm : nat) (base : gset Z).
Implicit Types w : World K.

Abbreviation tables := (tables l s a achan idc idm base).

(** The descriptors that are open: those of [base], the acceptor's spare one and the
    connections' sockets, all different. *)
Record accounted (idle : Z) (conns : gmap ptr TcpConnection) (open : gset Z) : Prop := {
  ac_open : ∀ fd, fd ∈ open ↔ (fd ∈ base ∨ (0 ≤ fd ∧ fd = idle)
                              ∨ ∃ c y, conns !! c = Some y ∧ tc_socket y = fd);
  ac_base : (idle ∉ base) ∧ ∀ c y, conns !! c = Some y → (tc_socket y ∉ base) ∧ tc_socket y ≠ idle;
  ac_inj : ∀ c c' y y', conns !! c = Some y → conns !! c' = Some y' → tc_socket y = tc_socket y' → c = c'
}.

Record echo_server (x : TcpServer) : Prop := {
  es_loop : sv_loop x = l;
  es_connection : sv_connectionCallback x = UserConnectionCallback idc;
  es_message : sv_messageCallback x = UserMessageCallback idm;
  es_wc : sv_writeCompleteCallback x = None;
  es_ip : (String.length (sv_ipPort x) ≤ 51)%nat
}.

(** The loop is [lx], in its thread, not told to quit and without timers, and local
    variables hold [held]; [n], [rest], [gone] and [dead] are as in Table.v. *)
Record serving (n : Z) (rest held gone dead : list ptr) (x : TcpServer) (lx : EventLoop) w : Prop := {
  sg_poller : ∃ p, loop_ok l p w ∧ 0 < ep_nevents p ≤ 2 * NR_OPEN ∧ ep_epollfd p ∈ base;
  sg_loops : w_loops w = {[l := lx]};
  sg_loop : el_threadId lx = w_tid w ∧ el_quit lx = false
            ∧ tq_timers (el_timerQueue lx) = [] ∧ el_wakeupFd lx ∈ base;
  sg_servers : w_servers w = {[s := x]};
  sg_server : echo_server x;
  sg_pool : ∃ pl, w_pools w !! sv_threadPool x = Some pl ∧ pl_loops pl = [] ∧ pl_baseLoop pl = l;
  sg_acceptor : ∃ ac, w_acceptors w !! a = Some ac ∧ ac_loop ac = l
    ∧ ac_newConnectionCallback ac = Some s
    ∧ accounted (ac_idleFd ac) (w_conns w) (open_fds (io_k (w_io w)));
  sg_clients : w_clients w = ∅;
  sg_held : w_held w = held;
  sg_tables : tables n rest gone dead x (w_conns w) (r_chans (w_r w)) (w_next w)
}.

(** *** Reading the invariant *)

Lemma serving_lookup n rest held gone dead x lx w :
  serving n rest held gone dead x lx w →
  w_loops w !! l = Some lx ∧ w_servers w !! s = Some x ∧ el_threadId lx = w_tid w.
Proof.
  intros Hw. rewrite (sg_loops _ _ _ _ _ _ _ _ Hw), (sg_servers _ _ _ _ _ _ _ _ Hw).
  rewrite !lookup_singleton_eq. split_and!; [done..|by apply Hw].
Qed.

Lemma serving_core n rest held gone dead x lx c y ch w :
  serving n rest held gone dead x lx w → w_conns w !! c = Some y →
  r_chans (w_r w) !! tc_channel y = Some ch → placed l c y ch → conn_core c y ch w.
Proof.
  intros Hw Hy Hch Hp. destruct (sg_poller _ _ _ _ _ _ _ _ Hw) as (p & Hok & _).
  destruct (serving_lookup _ _ _ _ _ _ _ _ Hw) as (Hl & _).
  split; [done| | | | |apply Hp].
  - by eapply loop_ok_live, Hp.
  - by rewrite (pl_loop _ _ _ _ Hp), (pl_home _ _ _ _ Hp).
  - apply Hp.
  - rewrite (pl_home _ _ _ _ Hp), Hl. intros lx' [= <-] E.
    destruct (sg_acceptor _ _ _ _ _ _ _ _ Hw) as (ac & _ & _ & _ & [_ [_ Hb] _]).
    destruct (Hb c y Hy) as [Hnb _]. apply Hnb. rewrite <- E. apply Hw.
Qed.

(** The descriptors a connection's channel needs are open. *)
Lemma serving_can_watch n rest held gone dead x lx c y ch p w :
  serving n rest held gone dead x lx w → w_conns w !! c = Some y → placed l c y ch →
  ep_epollfd p ∈ base → can_watch p (ch_fd ch) (io_k (w_io w)).
Proof.
  intros Hw Hy Hpl Hb. destruct (sg_acceptor _ _ _ _ _ _ _ _ Hw) as (ac & _ & _ & _ & [Ho _ _]).
  split; apply Ho; [by left|]. right. right. exists c, y. by rewrite (pl_fd _ _ _ _ Hpl).
Qed.

(** *** What keeps it *)

Lemma accounted_same idle conns conns' open :
  accounted idle conns open →
  (∀ c y', conns' !! c = Some y' → ∃ y, conns !! c = Some y ∧ tc_socket y' = tc_socket y) →
  (∀ c y, conns !! c = Some y → is_Some (conns' !! c)) → accounted idle conns' open.
Proof.
  intros [Ho [Hi Hb] Hinj] Hs Hs'. split.
  - intros fd. rewrite Ho. split; (intros [?|[?|(c & y & Hy & E)]]; [by left|by right; left|right; right]).
    + destruct (Hs' c y Hy) as [y' Hy']. exists c, y'. split; [done|].
      destruct (Hs c y' Hy') as (y0 & Hy0 & ->). congruence.
    + destruct (Hs c y Hy) as (y0 & Hy0 & E0). exists c, y0. split; [done|congruence].
  - split; [done|]. intros c y Hy. destruct (Hs c y Hy) as (y0 & Hy0 & ->). by eapply Hb.
  - intros c c' y y' Hy Hy' E. destruct (Hs c y Hy) as (y0 & Hy0 & E0).
    destruct (Hs c' y' Hy') as (y1 & Hy1 & E1'). eapply (Hinj c c' y0 y1); [done..|congruence].
Qed.

(** One connection with other members and the same socket. *)
Lemma accounted_touch idle conns open c y y' :
  accounted idle conns open → conns !! c = Some y → tc_socket y' = tc_socket y →
  accounted idle (<[c := y']> conns) open.
Proof.
  intros Ha Hy Hs. eapply accounted_same; [exact Ha| |].
  - intros c' y0. destruct (decide (c = c')) as [<-|Hne];
      [rewrite lookup_insert_eq; intros [= <-]; eauto|rewrite lookup_insert_ne by done; eauto].
  - intros c' y0 Hy0. destruct (decide (c = c')) as [<-|Hne];
      [by rewrite lookup_insert_eq|by rewrite lookup_insert_ne].
Qed.

(** The poller's side after a change of the kernel or of the channels' flags. *)
Definition poller_side w : Prop :=
  ∃ p, loop_ok l p w ∧ 0 < ep_nevents p ≤ 2 * NR_OPEN ∧ ep_epollfd p ∈ base.

(** Everything but connections, channels, calls and the program's memory is as it
    was. *)
Lemma serving_keep n rest held gone dead n' rest' gone' dead' x lx w w' :
  serving n rest held gone dead x lx w → poller_side w' → objects w' = objects w →
  open_fds (io_k (w_io w')) = open_fds (io_k (w_io w)) →
  (∀ c y', w_conns w' !! c = Some y' → ∃ y, w_conns w !! c = Some y ∧ tc_socket y' = tc_socket y) →
  (∀ c y, w_conns w !! c = Some y → is_Some (w_conns w' !! c)) →
  tables n' rest' gone' dead' x (w_conns w') (r_chans (w_r w')) (w_next w') →
  serving n' rest' held gone' dead' x lx w'.
Proof.
  intros [H1 H2 H3 H4 H5 H6 (ac & Hac & Hal & Has & Hacc) H8 H9 H10] Hp Eo Ef Hs Hs' Ht.
  unfold objects in Eo. injection Eo as E1 E2 E3 E4 E5 E6 E7 E8 E9 E10 E11.
  split; try congruence; [exact Hp|by rewrite E8|].
  rewrite E4. exists ac. split_and!; [done..|]. rewrite Ef. by eapply accounted_same.
Qed.

Lemma serving_io n rest held gone dead x lx w io :
  serving n rest held gone dead x lx w →
  (∀ ep, interest (io_k io) ep = interest (io_k (w_io w)) ep) →
  open_fds (io_k io) = open_fds (io_k (w_io w)) → serving n rest held gone dead x lx (with_io io w).
Proof.
  intros Hw Hi Hf. eapply serving_keep; [exact Hw| |done|exact Hf|eauto|done|apply Hw].
  destruct (sg_poller _ _ _ _ _ _ _ _ Hw) as (p & Hok & Hn). exists p. split; [|done].
  by apply loop_ok_kernel.
Qed.

(** Only flags of the loop, which remains in its thread. *)
Lemma serving_loop n rest held gone dead x lx lx' w :
  serving n rest held gone dead x lx w →
  el_threadId lx' = el_threadId lx → el_quit lx' = el_quit lx →
  tq_timers (el_timerQueue lx') = tq_timers (el_timerQueue lx) → el_wakeupFd lx' = el_wakeupFd lx →
  serving n rest held gone dead x lx' (set_w_loops (<[l := lx']> (w_loops w)) w).
Proof.
  intros [H1 H2 H3 H4 H5 H6 H7 H8 H9 H10] E1 E2 E3 E4. split; try done.
  - destruct H1 as (p & Hok & Hn). exists p. split; [|done].
    eapply loop_ok_frame; [exact Hok|done..|]. exists lx'. simpl. rewrite lookup_insert_eq.
    split; [done|]. rewrite E1. apply H3.
  - simpl. by rewrite H2, insert_singleton_eq.
  - by rewrite E1, E2, E3, E4.
Qed.

Lemma serving_held n rest held held' gone dead x lx w :
  serving n rest held gone dead x lx w → serving n rest held' gone dead x lx (set_w_held held' w).
Proof.
  intros [H1 H2 H3 H4 H5 H6 H7 H8 H9 H10]. split; try done.
  destruct H1 as (p & Hok & Hn). exists p. split; [|done].
  by eapply loop_ok_frame; [exact Hok|..|exact (lk_thread _ _ _ Hok)].
Qed.

(** ** Events of a connection *)

(** Connection [c] with its channel [q], at which the events [e] were reported. *)
Definition at_conn (c q : ptr) (e : Z) w : Prop := ∃ y ch,
  w_conns w !! c = Some y ∧ tc_channel y = q ∧ r_chans (w_r w) !! q = Some ch ∧ ch_revents ch = e.

(** Nothing changes for the others. *)
Lemma standing_same (gone dead : list ptr) x c :
  c ∉ gone ++ dead → same_server x x
  ∧ ∀ name c', sv_connections x !! name = Some c' ↔
      sv_connections x !! name = Some c' ∧ (c' = c → c ∉ gone ++ dead).
Proof. intros Hc. split; [done|]. intros name c'. split; [by auto|by intros []]. Qed.

(** A connection that is up, with what the invariant knows of it. *)
Record upright n rest gone dead x c y ch w : Prop := {
  ur_conn : w_conns w !! c = Some y;
  ur_chan : r_chans (w_r w) !! tc_channel y = Some ch;
  ur_alive : c ∉ gone ++ dead;
  ur_placed : placed l c y ch;
  ur_up : up s idc idm (event_bytes * to_come n rest (tc_channel y)) x c y ch
}.

Lemma serving_upright n rest held gone dead x lx c y w :
  serving n rest held gone dead x lx w → w_conns w !! c = Some y → c ∉ gone ++ dead →
  ∃ ch, upright n rest gone dead x c y ch w.
Proof.
  intros Hw Hy Hc.
  destruct (tb_conn _ _ _ _ _ _ _ _ _ _ _ _ _ _ _ (sg_tables _ _ _ _ _ _ _ _ Hw) c y Hy)
    as (ch & Hch & Hpl & Hst). exists ch. split; [done..|].
  unfold standing in Hst.
  rewrite decide_False in Hst by (intros ?; apply Hc, elem_of_app; auto).
  by rewrite decide_False in Hst by (intros ?; apply Hc, elem_of_app; auto).
Qed.

Lemma upright_eventful n rest held gone dead x lx c y ch w :
  serving n rest held gone dead x lx w → upright n rest gone dead x c y ch w →
  ∃ p, eventful l c idm y ch p w ∧ 0 < ep_nevents p ≤ 2 * NR_OPEN ∧ ep_epollfd p ∈ base.
Proof.
  intros Hw [H1 H2 H3 H4 [U1 U2 U3 U4 U5 U6 U7 U8]].
  destruct (sg_poller _ _ _ _ _ _ _ _ Hw) as (p & Hok & Hn). exists p. split; [|done].
  split; try done; [split; [by eapply serving_core|done]|].
  by eapply serving_can_watch; [exact Hw|exact H1|exact H4|apply Hn].
Qed.

(** After an event the connection goes on. *)
Lemma serving_goes_on n rest held gone dead x lx c y ch p size w w' :
  serving n rest held gone dead x lx w → upright n rest gone dead x c y ch w →
  0 < ep_nevents p ≤ 2 * NR_OPEN → ep_epollfd p ∈ base → goes_on l c idm y ch p size w w' →
  size + event_bytes * to_come n rest (tc_channel y) ≤ max_size →
  serving n rest held gone dead x lx w' ∧ at_conn c (tc_channel y) (ch_revents ch) w'.
Proof.
  intros Hw [Hy Hch Hc Hpl [U1 U2 U3 U4 U5 U6 U7 U8]] Hn Hb
    (y' & ch' & [Ec Eq Hs Hsc _ (m & Hok') Hel] & [Hcore Hwi] & Hecho & Hpl' & Hsz) Hroom.
  assert (tc_channel y' = tc_channel y) as Eqy by (by rewrite Hs). split.
  2:{ exists y', ch'. rewrite Ec, Eq, !lookup_insert_eq. split_and!; [done..|]. by rewrite Hsc. }
  eapply serving_keep; [exact Hw|by eexists|apply Hel|apply Hel| | |].
  - rewrite Ec. intros c' y0 Hy0. destruct (decide (c = c')) as [<-|Hne].
    + rewrite lookup_insert_eq in Hy0. injection Hy0 as <-. exists y. split; [done|]. by rewrite Hs.
    + rewrite lookup_insert_ne in Hy0 by done. eauto.
  - intros c' y0 Hy0. rewrite Ec. destruct (decide (c = c')) as [<-|Hne];
      [by rewrite lookup_insert_eq|by rewrite lookup_insert_ne].
  - rewrite Ec, Eq. destruct (standing_same gone dead x c Hc) as [Hss Hmap].
    assert (tables n rest gone dead x (w_conns w) (r_chans (w_r w)) (w_next w')) as Htab.
    { eapply tables_less; [apply Hw|apply (sg_tables _ _ _ _ _ _ _ _ Hw)|done|apply Hel| |];
        apply (tb_rest _ _ _ _ _ _ _ _ _ _ _ _ _ _ _ (sg_tables _ _ _ _ _ _ _ _ Hw)). }
    eapply tables_touch; [exact Htab|exact Hy|exact Hch|done|by rewrite Hs|exact Hpl'| |done| |done|done|].
    + unfold standing. rewrite !decide_False by (intros ?; apply Hc, elem_of_app; auto).
      split; [done|by rewrite Hs|by rewrite Hs|by rewrite Hs|by rewrite Hs|by rewrite Hs|done|].
      rewrite Eqy. lia.
    + apply (tb_down _ _ _ _ _ _ _ _ _ _ _ _ _ _ _ Htab).
    + by intros ?.
Qed.

Lemma serving_handleWrite_wp n rest held gone dead x lx c y ch w :
  serving n rest held gone dead x lx w → upright n rest gone dead x c y ch w →
  wp (handleWrite c) (λ _ w', serving n rest held gone dead x lx w'
    ∧ at_conn c (tc_channel y) (ch_revents ch) w') w.
Proof.
  intros Hw Hu. destruct (upright_eventful _ _ _ _ _ _ _ _ _ _ _ Hw Hu) as (p & Hev & Hn & Hb).
  eapply wp_mono; [by apply (handleWrite_goes_on l c idm y ch p)|]. intros [] w' Hgo.
  eapply serving_goes_on; [done..|]. destruct Hu as [_ _ _ _ [_ _ _ _ _ _ _ U8]]. exact U8.
Qed.

(** A closed connection that changed otherwise remains one. *)
Lemma serving_down_touched n rest held dead x lx c y ch p y' w w' :
  serving n rest held [] (dead ++ [c]) x lx w → w_conns w !! c = Some y →
  r_chans (w_r w) !! tc_channel y = Some ch → placed l c y ch →
  0 < ep_nevents p ≤ 2 * NR_OPEN → ep_epollfd p ∈ base →
  touched l c y ch p y' ch w w' → conn_core c y' ch w' →
  serving n rest held [] (dead ++ [c]) x lx w' ∧ at_conn c (tc_channel y) (ch_revents ch) w'.
Proof.
  intros Hw Hy Hch Hpl Hn Hb [Ec Eq Hs Hsc _ (m & Hok') Hel] Hcore.
  pose proof (sg_tables _ _ _ _ _ _ _ _ Hw) as Htab. split.
  2:{ exists y', ch. rewrite Ec, Eq, !lookup_insert_eq. split_and!; [done| |done..]. by rewrite Hs. }
  eapply serving_keep; [exact Hw|by eexists|apply Hel|apply Hel| | |].
  - rewrite Ec. intros c' y0 [[<- <-]|[_ Hy0]]%lookup_insert_Some; [|by eauto].
    exists y. split; [done|]. by rewrite Hs.
  - intros c' y0 Hy0. rewrite Ec. apply lookup_insert_is_Some. destruct (decide (c = c')); [by left|right; eauto].
  - rewrite Ec, Eq. eapply tables_touch; [|exact Hy|exact Hch|by rewrite Hs|by rewrite Hs| | |done| |by split| |].
    + eapply tables_less; [exact Htab|apply Htab|done|apply Hel|apply Htab..].
    + eapply placed_similar; [exact Hpl|exact Hs|exact Hsc|apply Hcore].
    + destruct (tb_conn _ _ _ _ _ _ _ _ _ _ _ _ _ _ _ Htab c y Hy) as (ch' & Hch' & _ & Hst).
      assert (ch' = ch) as -> by congruence. unfold standing in *.
      rewrite decide_False, decide_True in Hst |- *
        by (by apply not_elem_of_nil || (apply elem_of_app; right; by left)).
      destruct Hst as [D1 D2 D3]. split; [by rewrite Hs|done|done].
    + apply Htab.
    + intros name c'. split; [|by intros []]. intros Hc'. split; [done|]. intros ->.
      by destruct (tb_map _ _ _ _ _ _ _ _ _ _ _ _ _ _ _ Htab _ _ Hc') as (_ & _ & _ & ?).
    + intros Hin Hrest. destruct (tb_rest _ _ _ _ _ _ _ _ _ _ _ _ _ _ _ Htab) as [_ Hr].
      by apply (proj2 (Hr _ Hrest) c y).
Qed.

(** *** Closing *)

(** The world when a connection [y] is gone from the server: [y2] and [ch2] are what
    the connection and its channel were when it was closed. *)
Lemma serving_after_close n rest held gone dead x lx c y ch p m y2 ch2 r w w2 :
  serving n rest held gone dead x lx w → upright n rest gone dead x c y ch w → tc_channel y ∉ rest →
  touched l c y ch p y2 ch2 w w2 → 0 < ep_nevents p ≤ 2 * NR_OPEN → ep_epollfd p ∈ base →
  conn_core c y2 ch2 w2 → disabled l (set_ep_channels m p) (tc_channel y) ch2 w2 r →
  let lx' := set_el_pendingFunctors (el_pendingFunctors lx ++ [FnTcpConnection_connectDestroyed c]) lx in
  let w' := with_io (r_io r) (after_close s x c y2 lx (UserConnectionCallback idc) r w2) in
  serving n rest held gone (dead ++ [c]) (forget y2 x) lx' w' ∧ at_conn c (tc_channel y) (ch_revents ch) w'.
Proof.
  intros Hw [Hy Hch Hc Hpl [_ _ _ _ _ U6 _ _]] Hrest [Ec Eq Hs Hsc _ _ Hel] Hn Hb Hcore
    ((m3 & Hok3) & Hch3 & Hf3 & _) lx' w'. pose proof (disabled_attached ch2) as Hatt3.
  assert (tc_channel y2 = tc_channel y) as Eqy by (by rewrite Hs).
  assert (tc_loop y2 = l) as Hh2 by (rewrite Hs; apply Hpl).
  pose proof (ew_objects _ _ _ _ _ _ Hel) as Eo. unfold objects in Eo.
  injection Eo as E1 E2 E3 E4 E5 E6 E7 E8 E9 E10 E11.
  set (ch3 := disabled_chan ch2) in *. set (y3 := set_tc_state kDisconnected y2).
  destruct Hw as [H1 H2 H3 H4 H5 H6 (ac & Hac & Hal & Has & Hacc) H8 H9 H10]. split.
  2:{ exists y3, ch3. simpl. rewrite Ec, Hch3, !lookup_insert_eq. split_and!; [done..|]. simpl. by rewrite Hsc. }
  split.
  - exists (set_ep_channels m3 p). split; [|done].
    eapply loop_ok_frame; [exact Hok3|done..|]. exists lx'. simpl. rewrite Hh2, lookup_insert_eq.
    split; [done|]. rewrite E1. apply H3.
  - simpl. by rewrite Hh2, E2, H2, insert_singleton_eq.
  - simpl. by rewrite E1.
  - simpl. by rewrite E6, H4, insert_singleton_eq.
  - by destruct H5.
  - simpl. by rewrite E8.
  - exists ac. simpl. rewrite E4. split_and!; [done..|].
    rewrite Ec, insert_insert_eq. eapply accounted_touch; [|exact Hy|by rewrite Hs].
    change (accounted (ac_idleFd ac) (w_conns w) (open_fds (io_k (r_io r)))).
    unfold same_fds in Hf3. rewrite Hf3. by rewrite (ew_fds _ _ _ _ _ _ Hel).
  - simpl. by rewrite E7.
  - simpl. by rewrite E11.
  - simpl. rewrite Ec, insert_insert_eq, Hch3, Eq, insert_insert_eq.
    assert (tables n rest gone dead x (w_conns w) (r_chans (w_r w)) (w_next w2)) as Htab.
    { pose proof (tb_rest _ _ _ _ _ _ _ _ _ _ _ _ _ _ _ H10) as [Hr1 Hr2].
      eapply tables_less; [exact H10|apply H10|done|apply Hel|exact Hr1|exact Hr2]. }
    assert (placed l c y2 ch2) as [A1 A2 A3 [] A5 A6] by (eapply placed_similar; [done..|apply Hcore]).
    apply (tables_close _ _ _ _ _ _ _ _ _ _ _ _ _ _ _ _ y ch y3 ch3 Htab Hy Hch Hc U6 Hrest Eqy);
      [change (tc_name y2 = tc_name y); by rewrite Hs|by split|split; [done|done|exact Hatt3]].
Qed.

(** [handleClose] of a connection that is up, perhaps after some steps that concern
    it only: it waits for its end, in the loop's queue. *)
Lemma serving_close_wp n rest held gone dead x lx c y ch p y2 ch2 w w2 :
  serving n rest held gone dead x lx w → upright n rest gone dead x c y ch w →
  tc_channel y ∉ rest → el_callingPendingFunctors lx = false →
  touched l c y ch p y2 ch2 w w2 → 0 < ep_nevents p ≤ 2 * NR_OPEN → ep_epollfd p ∈ base →
  conn_core c y2 ch2 w2 →
  wp (handleClose server_user close_callback c) (λ _ w', ∃ x' lx',
    serving n rest held gone (dead ++ [c]) x' lx' w'
    ∧ lx' = set_el_pendingFunctors (el_pendingFunctors lx ++ [FnTcpConnection_connectDestroyed c]) lx
    ∧ at_conn c (tc_channel y) (ch_revents ch) w'
    ∧ w_conns w' !! c = Some (set_tc_state kDisconnected y2)) w2.
Proof.
  intros Hw Hu Hrest Hcall Hto Hn Hb Hcore.
  pose proof Hu as [Hy Hch _ Hpl [[U1 _ _] U2 U3 _ _ U6 _ _]]. pose proof Hto as [Ec Eq Hs Hsc _ (m & Hok) Hel].
  assert (tc_channel y2 = tc_channel y) as Eqy by (by rewrite Hs).
  pose proof (ew_objects _ _ _ _ _ _ Hel) as Eo. unfold objects in Eo.
  injection Eo as E1 E2 E3 E4 E5 E6 E7 E8 E9 E10 E11.
  assert (ch_loop ch2 = l) as Hl2 by (rewrite Hsc; apply Hpl).
  assert (tc_loop y2 = l) as Hh2 by (rewrite Hs; apply Hpl).
  destruct (serving_lookup _ _ _ _ _ _ _ _ Hw) as (Hl & Hserv & Hth).
  eapply (handleClose_run_wp server_user server_leaves_closed_alone s x c y2 ch2 lx
    (UserConnectionCallback idc) (disabled l (set_ep_channels m p) (tc_channel y) ch2 w2)).
  - exact Hcore.
  - rewrite Hs. simpl. by rewrite U1.
  - split; [by rewrite E6|by rewrite Hs|by rewrite Hh2; apply Hw|by rewrite Hs].
  - by rewrite Hs.
  - by rewrite Hh2, E2.
  - cbv zeta. rewrite Eqy. set (w1 := set_w_conns _ w2).
    assert (loop_ok l (set_ep_channels m p) w1) as Hok1
      by (by eapply loop_ok_frame; [exact Hok|..|exact (lk_thread _ _ _ Hok)]).
    assert (r_chans (w_r w1) !! tc_channel y = Some ch2) as Hch1
      by (simpl; by rewrite Eq, lookup_insert_eq).
    assert (can_watch (set_ep_channels m p) (ch_fd ch2) (io_k (w_io w1))) as Ho.
    { pose proof (serving_can_watch _ _ _ _ _ _ _ _ _ _ _ _ Hw Hy Hpl Hb) as Ho.
      pose proof (ew_fds _ _ _ _ _ _ Hel) as Hf. unfold can_watch in *.
      change (io_k (w_io w1)) with (io_k (w_io w2)). rewrite Hf. by rewrite Hsc. }
    eapply wp_mono; [exact (disableAll_wp _ _ _ _ _ Hok1 Hch1 Hl2 Ho)|].
    intros [] w3 [E ((m3 & Hok3) & Hch3 & Hf3 & Hp3)]. split; [exact E|].
    split_and!; [|exact Hch3|exact Hf3|exact Hp3]. exists m3.
    by eapply loop_ok_frame; [exact Hok3|..|exact (lk_thread _ _ _ Hok3)].
  - intros r io Hd Hio. rewrite (Hio Hcall). eexists _, _.
    destruct (serving_after_close n rest held gone dead x lx c y ch p m y2 ch2 r w w2) as [Hw' Hat];
      [exact Hw|exact Hu|exact Hrest|exact Hto|exact Hn|exact Hb|exact Hcore|exact Hd|].
    split_and!; [exact Hw'|done|exact Hat|]. simpl. by rewrite lookup_insert_eq.
Qed.

Lemma serving_served n q rest held gone dead x lx w :
  serving n (q :: rest) held gone dead x lx w → serving n rest held gone dead x lx w.
Proof. intros [H1 H2 H3 H4 H5 H6 H7 H8 H9 H10]. split; try done. by eapply tables_served. Qed.

Lemma upright_served n q rest gone dead x c y ch w :
  upright n (q :: rest) gone dead x c y ch w → upright n rest gone dead x c y ch w.
Proof.
  intros []. split; try done. eapply up_room_mono; [|done].
  assert (to_come n rest (tc_channel y) ≤ to_come n (q :: rest) (tc_channel y))
    by (apply to_come_mono; [done|by right]). unfold event_bytes, sizeof_extrabuf. lia.
Qed.

(** *** All events of one connection *)

Section conn_event.
Context (n : Z) (rest held dead : list ptr) (lx : EventLoop) (c q : ptr) (e : Z).

(** Connection [c] is as it was, or now waits for its end. *)
Definition perhaps_closed (dead' : list ptr) (lx' : EventLoop) : Prop :=
  (dead' = dead ∧ lx' = lx)
  ∨ (dead' = dead ++ [c]
     ∧ lx' = set_el_pendingFunctors (el_pendingFunctors lx ++ [FnTcpConnection_connectDestroyed c]) lx).

Definition handled w : Prop := ∃ dead' x' lx',
  serving n rest held [] dead' x' lx' w ∧ at_conn c q e w ∧ perhaps_closed dead' lx'.

(** It was closed by a hang-up and has not been read from since. *)
Definition just_closed w : Prop := ∃ x' lx' y,
  serving n rest held [] (dead ++ [c]) x' lx' w ∧ at_conn c q e w
  ∧ lx' = set_el_pendingFunctors (el_pendingFunctors lx ++ [FnTcpConnection_connectDestroyed c]) lx
  ∧ w_conns w !! c = Some y ∧ unread idm y.

Lemma just_closed_handled w : just_closed w → handled w.
Proof.
  intros (x' & lx' & y & Hw & Hat & E & _). exists (dead ++ [c]), x', lx'. split_and!; [done..|by right].
Qed.

(** Before the connection is read from. *)
Definition to_handle w : Prop := ∃ x,
  serving n (q :: rest) held [] dead x lx w ∧ at_conn c q e w.

Lemma to_handle_handled w : to_handle w → handled w.
Proof.
  intros (x & Hw & Hat). exists dead, x, lx. split_and!; [by eapply serving_served|done|by left].
Qed.

Lemma serving_flags n' rest' gone' dead' x lx' q' ch ch' w :
  serving n' rest' held gone' dead' x lx' w → r_chans (w_r w) !! q' = Some ch → same_binding ch ch' →
  serving n' rest' held gone' dead' x lx'
    (set_w_r (set_r_chans (<[q' := ch']> (r_chans (w_r w))) (w_r w)) w).
Proof.
  intros Hw Hq Hs. eapply serving_keep; [exact Hw| |done|done|eauto|done|].
  - destruct (sg_poller _ _ _ _ _ _ _ _ Hw) as (p & [Hsy Hfds Hth] & Hn). exists p. split; [|done].
    split; [|eapply fds_insert; [exact Hfds|exact Hq|apply Hs..]|done].
    eapply synced_touch_events; [exact Hsy|exact Hq|apply Hs..].
  - by eapply tables_flags; [apply Hw|..].
Qed.

Lemma at_conn_reported n' rest' dead' x lx' w :
  serving n' rest' held [] dead' x lx' w → at_conn c q e w →
  ∃ ch, r_chans (w_r w) !! q = Some ch ∧ reported_at c e ch.
Proof.
  intros Hw (y & ch & Hy & <- & Hch & <-). exists ch. split; [done|]. split; [done|].
  destruct (tb_conn _ _ _ _ _ _ _ _ _ _ _ _ _ _ _ (sg_tables _ _ _ _ _ _ _ _ Hw) c y Hy)
    as (ch' & Hch' & Hpl & _). assert (ch' = ch) as -> by congruence. apply Hpl.
Qed.

Lemma at_conn_flag b ch w :
  at_conn c q e w → r_chans (w_r w) !! q = Some ch →
  at_conn c q e (set_w_r (set_r_chans (<[q := set_ch_eventHandling b ch]> (r_chans (w_r w))) (w_r w)) w).
Proof.
  intros (y & ch' & Hy & Hyq & Hch' & He) Hch. assert (ch' = ch) as -> by congruence.
  exists y, (set_ch_eventHandling b ch). simpl. rewrite lookup_insert_eq. by split_and!.
Qed.

Lemma to_handle_between : between_events q (reported_at c e) to_handle.
Proof.
  split.
  - intros w (x & Hw & Hat). by eapply at_conn_reported.
  - intros b ch w (x & Hw & Hat) Hch. exists x. split; [by eapply serving_flags|by apply at_conn_flag].
Qed.

Lemma handled_between : between_events q (reported_at c e) handled.
Proof.
  split.
  - intros w (dead' & x & lx' & Hw & Hat & _). by eapply at_conn_reported.
  - intros b ch w (dead' & x & lx' & Hw & Hat & Hpc) Hch. exists dead', x, lx'.
    split_and!; [by eapply serving_flags|by apply at_conn_flag|done].
Qed.

Lemma just_closed_between : between_events q (reported_at c e) just_closed.
Proof.
  split.
  - intros w (x & lx' & y & Hw & Hat & _). by eapply at_conn_reported.
  - intros b ch w (x & lx' & y & Hw & Hat & Hrest) Hch. exists x, lx', y.
    split; [by eapply serving_flags|split; [by apply at_conn_flag|done]].
Qed.

Lemma to_handle_upright w :
  to_handle w → c ∉ dead →
  ∃ x y ch, serving n (q :: rest) held [] dead x lx w ∧ upright n (q :: rest) [] dead x c y ch w
    ∧ tc_channel y = q ∧ ch_revents ch = e ∧ q ∉ rest.
Proof.
  intros (x & Hw & (y & ch & Hy & Hq & Hch & He)) Hc.
  destruct (serving_upright _ _ _ _ _ _ _ _ _ _ Hw Hy Hc) as [ch' Hu].
  assert (ch' = ch) as -> by (pose proof (ur_chan _ _ _ _ _ _ _ _ _ Hu); congruence).
  destruct (tb_rest _ _ _ _ _ _ _ _ _ _ _ _ _ _ _ (sg_tables _ _ _ _ _ _ _ _ Hw))
    as [[Hnq _]%NoDup_cons _]. exists x, y, ch. by split_and!.
Qed.

Context (Hc : c ∉ dead) (Hcall : el_callingPendingFunctors lx = false).

Lemma to_handle_close_wp w :
  to_handle w → wp (handleClose server_user close_callback c) (λ _, just_closed) w.
Proof.
  intros (x & y & ch & Hw & Hu & Hyq & He & Hq)%to_handle_upright; [|done]. rewrite <- Hyq in Hq.
  apply serving_served in Hw. apply upright_served in Hu.
  destruct (upright_eventful _ _ _ _ _ _ _ _ _ _ _ Hw Hu) as (p & Hev & Hn & Hb).
  destruct (within_touched l c y ch p w w) as (y2 & ch2 & Hto);
    [apply Hu|by apply within_here; apply Hev|reflexivity|].
  destruct (touched_core _ _ _ _ _ _ _ _ _ _ _ Hto (proj1 (ev_ok _ _ _ _ _ _ _ Hev))) as [<- <-].
  eapply wp_mono; [by eapply (serving_close_wp n rest held [] dead x lx c y ch p y ch w w); [..|apply Hev]|].
  intros [] w' (x' & lx' & Hw' & E & Hat & Hy'). rewrite Hyq, He in Hat.
  eexists x', lx', _. split_and!; [exact Hw'|exact Hat|exact E|exact Hy'|].
  destruct Hu as [_ _ _ _ [[? ? ?] _ _ ? ? _ _ _]]. by split.
Qed.

(** Reading from it then: it remains closed, or the end of the stream is met. *)
Lemma just_closed_read_wp (E : fault → Prop) t w :
  E (AssertFailed "TcpConnection.cpp:198") → just_closed w →
  wpx E (handleRead server_user close_callback c t) (λ _, handled) w.
Proof.
  intros HE (x' & lx' & y & Hw & Hat & Elx & Hy & Hun).
  pose proof Hat as (y0 & ch & Hy0 & Hyq & Hch & He). assert (y0 = y) as -> by congruence.
  destruct (tb_conn _ _ _ _ _ _ _ _ _ _ _ _ _ _ _ (sg_tables _ _ _ _ _ _ _ _ Hw) c y Hy)
    as (ch' & Hch' & Hpl & Hst). assert (ch' = ch) as -> by congruence.
  destruct (sg_poller _ _ _ _ _ _ _ _ Hw) as (p & Hok & Hn & Hb).
  eapply wpx_mono; [eapply (handleRead_down_wp l c idm E y ch p t w HE Hok); [|done|exact Hpl| |exact Hun]|].
  { by eapply serving_core. }
  { by eapply serving_can_watch. }
  intros [] w' (y' & Hto & Hcore'). exists (dead ++ [c]), x', lx'.
  destruct (serving_down_touched n rest held dead x' lx' c y ch p y' w w') as [Hw' Hat']; [done..|].
  rewrite Hyq, He in Hat'. split_and!; [done..|by right].
Qed.

Lemma to_handle_read_wp t w :
  to_handle w → wp (handleRead server_user close_callback c t) (λ _, handled) w.
Proof.
  intros (x & y & ch & Hw & Hu & Hyq & He & Hq)%to_handle_upright; [|done].
  pose proof (up_room _ _ _ _ _ _ _ _ (ur_up _ _ _ _ _ _ _ _ _ Hu)) as Hroom.
  unfold to_come in Hroom. rewrite Hyq, decide_True in Hroom by (by left).
  assert (0 ≤ n) as Hn0 by apply (tb_ids _ _ _ _ _ _ _ _ _ _ _ _ _ _ _ (sg_tables _ _ _ _ _ _ _ _ Hw)).
  apply serving_served in Hw. apply upright_served in Hu.
  destruct (upright_eventful _ _ _ _ _ _ _ _ _ _ _ Hw Hu) as (p & Hev & Hn & Hb).
  assert (tc_channel y ∉ rest) as Hq' by (by rewrite Hyq).
  unfold event_bytes in Hroom. assert (0 < sizeof_extrabuf) by (by unfold sizeof_extrabuf).
  destruct (decide (ret (next_read y w) = 0)) as [Hr|Hr].
  - pose proof Hev as [V1 [V2 _] V3 V4 [_ _ V5] _ _ V6].
    destruct (handleRead_end_leads l c y ch p t w (within_here _ _ _ _ _ _ V1 (ck_conn _ _ _ _ V2) V3 V6)
      V2 V4 V5 Hr) as (w2 & (y2 & Hto & Hcore2) & E).
    unfold wp. rewrite E. change (wp (handleClose server_user close_callback c) (λ _, handled) w2).
    eapply wp_mono; [by eapply (serving_close_wp n rest held [] dead x lx c y ch p y2 ch w w2)|].
    intros [] w' (x' & lx' & Hs & E' & Hat & _). rewrite Hyq, He in Hat.
    exists (dead ++ [c]), x', lx'. split_and!; [done..|by right].
  - eapply wp_mono; [apply (handleRead_goes_on l c idm y ch p t w); [done..|lia]|].
    intros [] w' Hgo. exists dead, x, lx.
    destruct (serving_goes_on _ _ _ _ _ _ _ _ _ _ _ _ _ _ Hw Hu Hn Hb Hgo) as [Hw' Hat].
    { unfold to_come. rewrite Hyq, decide_False by done. unfold event_bytes. lia. }
    rewrite Hyq, He in Hat. split_and!; [done..|by left].
Qed.

Lemma handled_write_wp w : handled w → wp (handleWrite c) (λ _, handled) w.
Proof.
  intros (dead' & x' & lx' & Hw & Hat & Hpc). pose proof Hat as (y & ch & Hy & Hyq & Hch & He).
  rewrite <- Hyq in Hch.
  destruct Hpc as [[-> ->]|[-> ->]].
  - destruct (serving_upright _ _ _ _ _ _ _ _ _ _ Hw Hy Hc) as [ch' Hu].
    assert (ch' = ch) as -> by (pose proof (ur_chan _ _ _ _ _ _ _ _ _ Hu); congruence).
    eapply wp_mono; [by eapply serving_handleWrite_wp|]. intros [] w' [Hw' Hat'].
    exists dead, x', lx. rewrite Hyq, He in Hat'. split_and!; [done..|by left].
  - destruct (tb_conn _ _ _ _ _ _ _ _ _ _ _ _ _ _ _ (sg_tables _ _ _ _ _ _ _ _ Hw) c y Hy)
      as (ch' & Hch' & Hpl & Hst). assert (ch' = ch) as -> by congruence.
    unfold standing in Hst. rewrite decide_False, decide_True in Hst
      by (by apply not_elem_of_nil || (apply elem_of_app; right; by left)).
    eapply handleWrite_down_wp; [by eapply serving_core|apply Hst|].
    eexists _, x', _. split_and!; [exact Hw|exact Hat|by right].
Qed.
End conn_event.

(** Between events: [n] rounds and the channels [rest] are left. *)
Definition tending n rest w : Prop := ∃ dead x lx,
  serving n rest [] [] dead x lx w
  ∧ el_pendingFunctors lx = FnTcpConnection_connectDestroyed <$> dead
  ∧ el_callingPendingFunctors lx = false.

Lemma handled_release_wp n rest dead lx c q e (Q : unit → World K → Prop) w :
  handled n rest [c] dead lx c q e w → c ∉ dead →
  el_pendingFunctors lx = FnTcpConnection_connectDestroyed <$> dead →
  el_callingPendingFunctors lx = false → (∀ w', tending n rest w' → Q tt w') →
  wp (release c) Q w.
Proof.
  intros (dead' & x' & lx' & Hw & (y & ch & Hy & Hyq & Hch & He) & Hpc) Hc Hpend Hcall HQ.
  destruct (serving_lookup _ _ _ _ _ _ _ _ Hw) as (Hl & Hs & _).
  apply release_wp; rewrite (sg_held _ _ _ _ _ _ _ _ Hw); cbn [drop_one]; rewrite decide_True by done.
  - intros _. apply HQ. exists dead', x', lx'. split_and!; [by eapply serving_held| |].
    + destruct Hpc as [[-> ->]|[-> ->]]; [done|]. simpl. by rewrite Hpend, fmap_app.
    + by destruct Hpc as [[-> ->]|[-> ->]].
  - intros Hno. exfalso. apply Hno, elem_of_owners. right.
    destruct Hpc as [[-> ->]|[-> ->]].
    + left. destruct (serving_upright _ _ _ _ _ _ _ _ _ _ Hw Hy Hc) as [ch' Hu].
      exists s, x', (tc_name y). split; [exact Hs|apply Hu].
    + do 2 right. eexists l, _, (FnTcpConnection_connectDestroyed c). split_and!; [exact Hl| |done].
      simpl. apply elem_of_app. right. by left.
Qed.

Lemma serving_conn_event_wp n rest dead x lx c y t w :
  serving n (tc_channel y :: rest) [] [] dead x lx w → w_conns w !! c = Some y → c ∉ dead →
  el_pendingFunctors lx = FnTcpConnection_connectDestroyed <$> dead →
  el_callingPendingFunctors lx = false →
  wpx closed_twice (handleEvent (invoke server_user) release (tc_channel y) t) (λ _ w', tending n rest w') w.
Proof.
  intros Hw Hy Hc Hpend Hcall. destruct (serving_upright _ _ _ _ _ _ _ _ _ _ Hw Hy Hc) as [ch Hu].
  pose proof Hu as [_ Hch _ [_ _ _ [Bt Bo _ _ _ _] Hsane _] _].
  apply wpx_bind_wp. eapply chan_at_wp; [exact Hch|]. rewrite Bt.
  apply wpx_bind_wp. unfold lock_tie. apply wp_gets. rewrite Bo. cbn [mbind option_bind].
  rewrite decide_True by (by rewrite Hy). apply wpx_bind_wp, wp_modify.
  rewrite (sg_held _ _ _ _ _ _ _ _ Hw). cbn [app]. set (w1 := set_w_held [c] w).
  apply wpx_bind. apply (wpx_mono _ _ (λ _, handled n rest [c] dead lx c (tc_channel y) (ch_revents ch))).
  - apply (conn_guard_wp c (tc_channel y) (ch_revents ch) t closed_twice
      (to_handle n rest [c] dead lx c (tc_channel y) (ch_revents ch))
      (just_closed n rest [c] dead lx c (tc_channel y) (ch_revents ch)));
      [apply to_handle_between|apply just_closed_between|apply handled_between|intros w'; apply to_handle_handled
      |intros w'; apply just_closed_handled| | | | |].
    + intros w' Hw'. by apply to_handle_close_wp.
    + intros w' Hw'. by apply to_handle_read_wp.
    + intros w' Hw'. by apply handled_write_wp.
    + destruct Hsane as [Hsane|Hmixed]; [by left|right]. intros w' Hw'. by apply just_closed_read_wp.
    + exists x. split; [by eapply serving_held|]. by exists y, ch.
  - intros [] w2 Hw2. apply wpx_wp. eapply handled_release_wp; [exact Hw2|done..].
Qed.
End service.
