(* ===== verification/Welcome.v ===== *)
(** * Welcome: the listening socket's events and the loop's own

    The steps of the echo server in service (Service.v) that are no connection's:
    a new connection is entered in the tables, or turned away when the process is
    out of descriptors, and the loop's own descriptors are drained. *)
From S2P Require Import Prelude Endian Buffer OS Descriptors Double Objects Poller LoopCore Channel TimerQueue Sockets Calls TcpConnection ByteStream Lifecycle EventLoop Threads Acceptor Connector TcpServer TcpClient Program PingPong Serving Lifetimes Echo Isolation Running Table Events Service.

Set Default Goal Selector "!".

(** ** New descriptors *)

Section new_descriptors.
Context {K : Type} `{!OS K} `{!EpollLaws K} `{!FdLaws K} `{!EpollRoom K}.

Lemma gset_remove_absent (x : Z) (s : gset Z) : x ∉ s → s ∖ {[x]} = s ∧ ({[x]} ∪ s) ∖ {[x]} = s.
Proof.
  intros Hx. assert (s ∖ {[x]} = s) as E
    by (apply difference_disjoint_L; intros y Hy ->%elem_of_singleton; done).
  by rewrite difference_union_distr_l_L, difference_diag_L, (left_id_L ∅ (∪)).
Qed.

Lemma opens_failed c (k : K) :
  opens c = true → ret (os_call c k).1 < 0 → open_fds (os_call c k).2 = open_fds k.
Proof. intros Hc Hr. pose proof (opens_new c k Hc) as Ho. cbv zeta in Ho. by rewrite (proj2 (Z.leb_gt _ _)) in Ho. Qed.

Lemma opens_done c (k : K) :
  opens c = true → 0 ≤ ret (os_call c k).1 →
  (ret (os_call c k).1 ∉ open_fds k) ∧ open_fds (os_call c k).2 = {[ret (os_call c k).1]} ∪ open_fds k.
Proof. intros Hc Hr. pose proof (opens_new c k Hc) as Ho. cbv zeta in Ho. by rewrite (proj2 (Z.leb_le _ _)) in Ho. Qed.

(** What the acceptor does when there are no descriptors left: it gives its spare one
    up for the new connection, closes that, and takes another spare one. *)
Definition shed_calls (sockfd idle : Z) (r r1 r2 r3 r4 : sysres) : list (syscall * sysres) :=
  [(SysAccept4 sockfd, r); (SysClose idle, r1); (SysAccept sockfd, r2); (SysClose (ret r2), r3);
   (SysOpenDevNull, r4)].

Lemma shed_open sockfd idle r r1 r2 r3 r4 (k : K) :
  let calls := shed_calls sockfd idle r r1 r2 r3 r4 in
  answered calls k → ret r < 0 → let open := open_fds k ∖ {[idle]} in
  (ret r2 ∉ open) ∧ (0 ≤ ret r4 → ret r4 ∉ open)
  ∧ open_fds (replay calls k) = if 0 <=? ret r4 then {[ret r4]} ∪ open else open.
Proof.
  intros calls (E & E1 & E2 & E3 & E4 & _) Hr open. simpl in *. unfold replay. simpl.
  set (k1 := (os_call (SysAccept4 sockfd) k).2) in *. set (k2 := (os_call (SysClose idle) k1).2) in *.
  set (k3 := (os_call (SysAccept sockfd) k2).2) in *. set (k4 := (os_call (SysClose (ret r2)) k3).2) in *.
  assert (open_fds k2 = open) as F2.
  { unfold k2. rewrite close_fds. unfold k1. rewrite opens_failed; [done..|by rewrite <- E]. }
  assert ((ret r2 ∉ open) ∧ open_fds k3 ∖ {[ret r2]} = open) as [N2 F3].
  { unfold k3. destruct (Z.leb_spec 0 (ret r2)) as [Hr2|Hr2]; rewrite E2 in Hr2 |- *.
    - destruct (opens_done (SysAccept sockfd) k2 eq_refl Hr2) as [Hn ->]. rewrite F2 in Hn |- *.
      split; [done|]. by apply gset_remove_absent.
    - rewrite (opens_failed (SysAccept sockfd) k2 eq_refl Hr2), F2.
      assert (ret (os_call (SysAccept sockfd) k2).1 ∉ open); [|split; [done|by apply gset_remove_absent]].
      rewrite <- F2. intros Hin%open_fds_range. lia. }
  assert (open_fds k4 = open) as F4 by (unfold k4; by rewrite close_fds).
  split; [done|]. destruct (Z.leb_spec 0 (ret r4)) as [Hr4|Hr4]; rewrite E4 in Hr4 |- *.
  - destruct (opens_done SysOpenDevNull k4 eq_refl Hr4) as [Hn ->]. by rewrite F4 in *.
  - rewrite (opens_failed SysOpenDevNull k4 eq_refl Hr4). split; [lia|done].
Qed.

Lemma shed_interest sockfd idle r r1 r2 r3 r4 (k : K) ep :
  let calls := shed_calls sockfd idle r r1 r2 r3 r4 in
  idle ≠ ep → ret r2 ≠ ep → interest k ep !! idle = None → interest k ep !! ret r2 = None →
  interest (replay calls k) ep = interest k ep.
Proof.
  intros calls H1 H2 I1 I2. unfold replay. simpl. rewrite interest_frame by done.
  rewrite close_interest, interest_frame, close_interest, interest_frame by done.
  by rewrite (delete_id _ idle), delete_id.
Qed.
End new_descriptors.

(** *** The account of open descriptors *)

Section account.
Context (base : gset Z).

Abbreviation accounted := (accounted base).

(** A descriptor that is not open. *)
Lemma accounted_closed idle conns open fd :
  accounted idle conns open → fd ∉ open →
  (fd ∉ base) ∧ (∀ c y, conns !! c = Some y → tc_socket y ≠ fd) ∧ (0 ≤ idle → fd ≠ idle).
Proof.
  intros [Ho _ _] Hfd. split_and!.
  - intros Hb. apply Hfd, Ho. by left.
  - intros c y Hy <-. apply Hfd, Ho. right; right. by exists c, y.
  - intros Hi ->. apply Hfd, Ho. right; left. done.
Qed.

Lemma accounted_shed idle idle' conns open :
  accounted idle conns open → (∀ fd, fd ∈ open → 0 ≤ fd) → (0 ≤ idle' → idle' ∉ open ∖ {[idle]}) →
  accounted idle' conns (if 0 <=? idle' then {[idle']} ∪ open ∖ {[idle]} else open ∖ {[idle]}).
Proof.
  intros [Ho [Hib Hcb] Hinj] Hpos Hnew.
  assert (∀ fd, fd ∈ open ∖ {[idle]} ↔ fd ∈ base ∨ ∃ c y, conns !! c = Some y ∧ tc_socket y = fd) as Ho'.
  { intros fd. rewrite elem_of_difference, elem_of_singleton, Ho. split.
    - intros [[?|[[_ ?]|?]] Hne]; [by left|done|by right].
    - intros [Hb|(c & y & Hy & <-)]; (split; [|intros E]).
      + by left.
      + subst. done.
      + right; right. by exists c, y.
      + destruct (Hcb c y Hy). congruence. }
  assert (idle' ∉ open ∖ {[idle]}) as Hnew'.
  { destruct (Z.leb_spec 0 idle'); [auto|]. intros [Hin%Hpos _]%elem_of_difference. lia. }
  split; [|split|done].
  - intros fd. destruct (Z.leb_spec 0 idle').
    + rewrite elem_of_union, elem_of_singleton, Ho'. split.
      * intros [->|[?|?]]; [right; left; done|by left|by right; right].
      * intros [?|[[_ ->]|?]]; [by right; left|by left|by right; right].
    + rewrite Ho'. split; [intros [?|?]; [by left|by right; right]|].
      intros [?|[[? ->]|?]]; [by left|lia|by right].
  - intros Hb. apply Hnew', Ho'. by left.
  - intros c y Hy. split; [by eapply Hcb|]. intros <-. apply Hnew', Ho'. right. by exists c, y.
Qed.

Lemma accounted_enter idle conns open fd c y :
  accounted idle conns open → fd ∉ open → 0 ≤ fd → conns !! c = None → tc_socket y = fd →
  accounted idle (<[c := y]> conns) ({[fd]} ∪ open).
Proof.
  intros Ha Hfd Hpos Hc Hy. destruct (accounted_closed _ _ _ _ Ha Hfd) as (Hb & Hcs & Hi).
  destruct Ha as [Ho [Hib Hcb] Hinj].
  assert (∀ c' y', <[c := y]> conns !! c' = Some y' →
    c' = c ∧ y' = y ∨ c' ≠ c ∧ conns !! c' = Some y') as Hins.
  { intros c' y' Hc'. apply lookup_insert_Some in Hc' as [[-> ->]|[Hne Hc']]; [by left|].
    right. by split. }
  split; [|split; [done|]|].
  - intros fd'. rewrite elem_of_union, elem_of_singleton, Ho. split.
    + intros [->|[?|[?|(c' & y' & Hy' & <-)]]]; [|by left|by right; left|]; right; right.
      * exists c, y. by rewrite lookup_insert_eq.
      * exists c', y'. rewrite lookup_insert_ne; [done|]. congruence.
    + intros [?|[?|(c' & y' & Hy' & <-)]]; [by right; left|by right; right; left|].
      apply Hins in Hy' as [[-> ->]|[_ Hy']]; [by left|]. right; right; right. by exists c', y'.
  - intros c' y' Hy'. apply Hins in Hy' as [[-> ->]|[_ Hy']]; [|by eapply Hcb].
    rewrite Hy. split; [done|]. intros ->. by destruct (Hi Hpos).
  - intros c1 c2 y1 y2 H1 H2 E. apply Hins in H1 as [[-> ->]|[_ H1]], H2 as [[-> ->]|[_ H2]].
    + done.
    + destruct (Hcs _ _ H2). congruence.
    + destruct (Hcs _ _ H1). congruence.
    + by eapply Hinj.
Qed.

Lemma accounted_leave idle conns open c y :
  accounted idle conns open → conns !! c = Some y →
  accounted idle (delete c conns) (open ∖ {[tc_socket y]}).
Proof.
  intros [Ho [Hib Hcb] Hinj] Hy. destruct (Hcb c y Hy) as [Hyb Hyi]. split; [|split; [done|]|].
  - intros fd. rewrite elem_of_difference, elem_of_singleton, Ho. split.
    + intros [[?|[?|(c' & y' & Hy' & <-)]] Hne]; [by left|by right; left|right; right].
      exists c', y'. rewrite lookup_delete_ne; [done|]. congruence.
    + intros [Hb|[[? ->]|(c' & y' & [Hne Hy']%lookup_delete_Some & <-)]].
      * split; [by left|]. congruence.
      * split; [by right; left|]. congruence.
      * split; [right; right; by exists c', y'|]. intros E. apply Hne. by eapply Hinj.
  - intros c' y' [_ Hy']%lookup_delete_Some. by eapply Hcb.
  - intros c1 c2 y1 y2 [_ H1]%lookup_delete_Some [_ H2]%lookup_delete_Some. by eapply Hinj.
Qed.

End account.

Section failing.
Context {K : Type} `{!OS K} `{!EpollLaws K} `{!FdLaws K} `{!EpollRoom K}.
Implicit Types w : World K.

(** [accept4] fails: at most the spare descriptor changes, and epoll instances that
    watch only what is accounted for are not concerned. *)
Lemma accept_failed_wp (J : World K → Prop) nc a ac lx base w :
  w_acceptors w !! a = Some ac → w_loops w !! ac_loop ac = Some lx → el_threadId lx = w_tid w →
  accounted base (ac_idleFd ac) (w_conns w) (open_fds (io_k (w_io w))) →
  ret (result_of (SysAccept4 (ac_socket ac)) w) < 0 →
  (∀ idle' io, accounted base idle' (w_conns w) (open_fds (io_k io)) →
     (∀ ep, ep ∈ base →
        (∀ fd, is_Some (interest (io_k (w_io w)) ep !! fd) →
           fd ∈ base ∨ ∃ c y, w_conns w !! c = Some y ∧ tc_socket y = fd) →
        interest (io_k io) ep = interest (io_k (w_io w)) ep) →
     J (with_io io (set_w_acceptors (<[a := set_ac_idleFd idle' ac]> (w_acceptors w)) w))) →
  wp (Acceptor_handleRead nc a) (λ _, J) w.
Proof.
  intros Hac Hl Ht Hacc Hr HJ. eapply (Acceptor_handleRead_failed_wp nc a ac lx); [done..|].
  intros log. set (r := result_of _ w) in *. destruct (err r =? EMFILE).
  - eapply shed_connection_wp; [apply only_calls_one|exact Hac|].
    intros w' r1 r2 r3 r4 [E [[_ Hans] Hk]]. cbn [app] in Hans, Hk. fold r in Hans, Hk.
    change (w_io (set_w_acceptors _ w)) with (w_io w) in *.
    fold (shed_calls (ac_socket ac) (ac_idleFd ac) r r1 r2 r3 r4) in Hans, Hk.
    destruct (shed_open _ _ _ _ _ _ _ _ Hans Hr) as (N2 & N4 & Hopen).
    rewrite E. apply HJ.
    + rewrite Hk, Hopen. apply accounted_shed; [exact Hacc| |exact N4].
      intros fd Hfd. by destruct (open_fds_range _ _ Hfd).
    + intros ep Hep Hwatch. rewrite Hk. pose proof Hacc as [Ho [Hib Hcb] _].
      assert (∀ fd, fd ∉ open_fds (io_k (w_io w)) ∖ {[ac_idleFd ac]} →
        fd ≠ ep ∧ interest (io_k (w_io w)) ep !! fd = None) as Hout.
      { intros fd Hfd. rewrite elem_of_difference, elem_of_singleton, Ho in Hfd. split.
        - intros ->. apply Hfd. split; [by left|congruence].
        - apply eq_None_not_Some. intros [Hin|(c & y & Hy & <-)]%Hwatch; apply Hfd.
          + split; [by left|congruence].
          + split; [right; right; by exists c, y|by eapply Hcb]. }
      destruct (Hout (ac_idleFd ac)) as [Hi1 Hi2];
        [rewrite elem_of_difference, elem_of_singleton; tauto|].
      apply shed_interest; [done|by apply Hout|done|by apply Hout].
  - rewrite after_call_same. pose proof (io_by_call (SysAccept4 (ac_socket ac)) log w) as [_ Hk].
    fold r in Hk. unfold replay in Hk. simpl in Hk. set (io := w_io (after_call _ log w)) in *.
    assert (open_fds (io_k io) = open_fds (io_k (w_io w))) as Hf
      by (rewrite Hk; exact (opens_failed (SysAccept4 _) _ eq_refl Hr)).
    replace (with_io io w) with (with_io io (set_w_acceptors (<[a := set_ac_idleFd (ac_idleFd ac) ac]> (w_acceptors w)) w)).
    + apply HJ; [by rewrite Hf|]. intros ep _ _. rewrite Hk. by apply interest_frame.
    + rewrite insert_id; [by destruct w|]. rewrite Hac. by destruct ac.
Qed.
End failing.

Section welcome.
Context {K : Type} `{!OS K} `{!OSLaws K} `{!EpollLaws K} `{!FdLaws K} `{!EpollRoom K} `{Inet}.
Context (l s a achan : ptr) (idc idm : nat) (base : gset Z).
Implicit Types w : World K.

Abbreviation tables := (tables l s a achan idc idm base).
Abbreviation accounted := (accounted base).
Abbreviation serving := (serving l s a achan idc idm base).
Abbreviation tending := (tending l s a achan idc idm base).

(** A descriptor that is neither the server's nor a connection's. *)
Lemma serving_unused n rest held gone dead x lx w fd :
  serving n rest held gone dead x lx w → fd ∉ base →
  (∀ c y, w_conns w !! c = Some y → tc_socket y ≠ fd) → fd_unused l fd w.
Proof.
  intros Hw Hb Hc q ch Hq _. destruct (sg_tables _ _ _ _ _ _ _ _ _ _ _ _ _ _ _ Hw) as [H1 _ _ H4 _ _ _ _].
  destruct (H4 q ch Hq) as (_ & [[_ Hin]|[(_ & _ & Hin)|(c & y & Hy & <-)]]); [by intros <-..|].
  destruct (H1 c y Hy) as (ch' & Hch' & [_ _ Hfd _ _ _] & _).
  assert (ch' = ch) as -> by congruence.
  rewrite Hfd. by eapply Hc.
Qed.

(** *** The loop's own descriptors *)

Definition at_own n rest q w : Prop :=
  tending n rest w ∧ ∃ ch, r_chans (w_r w) !! q = Some ch ∧ own_channel l ch.

Lemma tending_flag n rest q ch b w :
  tending n rest w → r_chans (w_r w) !! q = Some ch →
  tending n rest (set_w_r (set_r_chans (<[q := set_ch_eventHandling b ch]> (r_chans (w_r w))) (w_r w)) w).
Proof.
  intros (dead & x & lx & Hw & Hp & Hc) Hq. exists dead, x, lx. split_and!; [|done..].
  by eapply serving_flags.
Qed.

Lemma at_own_between n rest q : between_events q (own_channel l) (at_own n rest q).
Proof.
  split; [by intros w [_ ?]|]. intros b ch w [Hw (ch' & Hq & Ho)] Hch.
  assert (ch' = ch) as -> by congruence.
  split; [by eapply tending_flag|]. exists (set_ch_eventHandling b ch). simpl. rewrite lookup_insert_eq.
  split; [done|]. by destruct Ho.
Qed.

Lemma at_own_callback_wp n rest q cb t w :
  own_callback l cb → at_own n rest q w → wp (call (invoke server_user) cb t) (λ _, at_own n rest q) w.
Proof.
  intros Hcb [(dead & x & lx & Hw & Hp & Hc) Hq].
  destruct (serving_lookup _ _ _ _ _ _ _ _ _ _ _ _ _ _ _ Hw) as (Hl & _ & Ht).
  pose proof (sg_loop _ _ _ _ _ _ _ _ _ _ _ _ _ _ _ Hw) as (_ & _ & Htm & _).
  eapply own_event_wp; [exact Hcb|exact Hl|exact Ht|exact Htm|].
  intros w' (calls & io & b & [_ Hk] & Hall & ->). split; [|exact Hq]. exists dead, x,
    (set_el_timerQueue (set_tq_callingExpiredTimers b (el_timerQueue lx)) lx).
  split_and!; [|exact Hp|exact Hc]. apply serving_io; [by eapply serving_loop| |].
  - intros ep. simpl. rewrite Hk. by apply replay_interest.
  - simpl. rewrite Hk. by apply replay_fds.
Qed.

Lemma tending_own_event_wp n rest q ch t w :
  tending n rest w → r_chans (w_r w) !! q = Some ch → own_channel l ch →
  wp (handleEvent (invoke server_user) release q t) (λ _, tending n rest) w.
Proof.
  intros Hw Hq Ho. apply wp_bind. eapply chan_at_wp; [exact Hq|]. rewrite (oc_tied _ _ Ho).
  apply (wp_mono _ (λ _, at_own n rest q)); [|by intros [] w' [? _]].
  pose proof (at_own_between n rest q) as Hb.
  apply (handleEventWithGuard_wp _ q t _ _ _ w Hb Hb); [by auto| | | | |by split; [|exists ch]].
  all: intros ch' w' []; by apply at_own_callback_wp.
Qed.

(** *** Out of descriptors *)

Lemma serving_shed n rest held gone dead x lx w ac idle' io :
  serving n rest held gone dead x lx w → w_acceptors w !! a = Some ac →
  (∀ p, loop_ok l p w → ep_epollfd p ∈ base →
     interest (io_k io) (ep_epollfd p) = kernel_list (w_r w) p) →
  accounted idle' (w_conns w) (open_fds (io_k io)) →
  serving n rest held gone dead x lx
    (with_io io (set_w_acceptors (<[a := set_ac_idleFd idle' ac]> (w_acceptors w)) w)).
Proof.
  intros [(p & Hok & Hn & Hb) H2 H3 H4 H5 H6 (ac' & Hac & Hal & Has & _) H8 H9 H10] Hac' Hk Hacc.
  assert (ac' = ac) as -> by congruence. split; try done.
  - exists p. split; [|done]. eapply loop_ok_frame; [exact Hok|done|done| |exact (lk_thread _ _ _ Hok)].
    by apply Hk.
  - exists (set_ac_idleFd idle' ac). simpl. rewrite lookup_insert_eq. by split_and!.
Qed.

(** What the loop's epoll instance watches. *)
Lemma serving_watched n rest held gone dead x lx w p fd :
  serving n rest held gone dead x lx w → loop_ok l p w → is_Some (kernel_list (w_r w) p !! fd) →
  fd ∈ base ∨ ∃ c y, w_conns w !! c = Some y ∧ tc_socket y = fd.
Proof.
  intros Hw Hok [[ev q] Hk]. destruct (loop_ok_watch _ _ _ _ _ _ Hok Hk) as (ch & Hq & <- & _).
  pose proof (sg_tables _ _ _ _ _ _ _ _ _ _ _ _ _ _ _ Hw) as Htab.
  destruct (tb_chans _ _ _ _ _ _ _ _ _ _ _ _ _ _ _ Htab q ch Hq)
    as (_ & [[_ ?]|[(_ & _ & ?)|(c & y & Hy & <-)]]); [by left..|right].
  destruct (tb_conn _ _ _ _ _ _ _ _ _ _ _ _ _ _ _ Htab c y Hy) as (ch' & Hch' & Hpl & _).
  exists c, y. split; [done|]. assert (ch' = ch) as -> by congruence. by rewrite (pl_fd _ _ _ _ Hpl).
Qed.

(** [accept4] fails. *)
Lemma serving_accept_failed_wp n rest held gone dead x lx w nc ac :
  serving n rest held gone dead x lx w → w_acceptors w !! a = Some ac →
  ret (result_of (SysAccept4 (ac_socket ac)) w) < 0 →
  wp (Acceptor_handleRead nc a) (λ _, serving n rest held gone dead x lx) w.
Proof.
  intros Hw Hac Hr. pose proof Hw as [(p & Hok & Hn & Hb) _ _ _ _ _ (ac' & Hac' & Hal & _ & Hacc) _ _ _].
  assert (ac' = ac) as -> by congruence.
  destruct (serving_lookup _ _ _ _ _ _ _ _ _ _ _ _ _ _ _ Hw) as (Hl & _ & Ht).
  eapply (accept_failed_wp _ nc a ac lx base); [done|by rewrite Hal|done..|].
  intros idle' io Hacc' Hint. apply serving_shed; [exact Hw|exact Hac| |exact Hacc'].
  intros p' Hok' Hb'. apply Hint; [done|]. intros fd Hfd. by eapply serving_watched.
Qed.

(** *** A new connection *)

Lemma serving_ready n rest held gone dead x lx w fd :
  serving n (achan :: rest) held gone dead x lx w → fd ∉ open_fds (io_k (w_io w)) → ready_for s x fd w.
Proof.
  intros Hw Hfd. destruct (serving_lookup _ _ _ _ _ _ _ _ _ _ _ _ _ _ _ Hw) as (Hl & Hs & Ht).
  pose proof Hw as [(p & Hok & _) _ (_ & _ & _ & Hwake) _ [E1 _ _ _ Hlen] (pl & Hpl & Hn & Hb)
    (ac & _ & _ & _ & Hacc) _ _ Htab].
  destruct (accounted_closed _ _ _ _ _ Hacc Hfd) as (Hfb & Hfc & _).
  destruct (tb_ids _ _ _ _ _ _ _ _ _ _ _ _ _ _ _ Htab) as (Hn0 & Hid & Hlt).
  unfold to_come in Hlt. rewrite decide_True in Hlt by (by left). split.
  - exact Hs.
  - exists pl. by rewrite E1.
  - exists lx. rewrite E1. split_and!; [done..|]. by intros <-.
  - lia.
  - by eapply name_unused.
  - rewrite E1. exists p. split; [exact (sy_poller _ _ _ _ (lk_synced _ _ _ Hok))|].
    by eapply unused_unregistered; [exact Hok|eapply serving_unused].
Qed.

(** Its channel is enabled, and it is one of the server's. *)
Lemma serving_enter_wp n rest held gone dead x lx w fd la pa io :
  serving n (achan :: rest) held gone dead x lx w → fd ∉ open_fds (io_k (w_io w)) → 0 ≤ fd →
  (∀ ep, interest (io_k io) ep = interest (io_k (w_io w)) ep) →
  open_fds (io_k io) = {[fd]} ∪ open_fds (io_k (w_io w)) →
  wp (enableReading (S (w_next w)))
    (λ _, serving n rest held gone dead (after_accept (w_next w) x) lx)
    (with_io io (entered s x fd la pa w)).
Proof.
  intros Hw Hfd Hpos Hint Hopen. destruct (serving_lookup _ _ _ _ _ _ _ _ _ _ _ _ _ _ _ Hw) as (Hl & Hs & Ht).
  pose proof Hw as [(p & Hok & Hpn & Hpb) H2 H3 H4 [E1 E2 E3 E4 E5] H6 (ac & Hac & Hal & Has & Hacc) H8 H9 Htab].
  destruct (accounted_closed _ _ _ _ _ Hacc Hfd) as (Hfb & Hfc & _).
  pose proof Htab as [_ _ _ _ [[_ Hnd]%NoDup_cons Hrest] Hfresh _ (Hn0 & Hid & Hlt)].
  set (next := w_next w) in *. destruct (Hfresh next) as [Hnc _]; [lia|]. destruct (Hfresh (S next)) as [_ Hnq]; [lia|].
  set (ch0 := tie_channel next (new_chan (sv_loop x) next fd)). set (w1 := entered s x fd la pa w).
  assert (loop_ok l p (with_io io w1)) as Hok1.
  { assert (loop_ok l p (set_w_r (set_r_chans (<[S next := ch0]> (r_chans (w_r w))) (w_r w)) w)) as Hok0
      by (apply loop_ok_new; [exact Hok|exact Hnq|done|by eapply serving_unused]).
    eapply loop_ok_frame; [exact Hok0|done|done|by apply Hint|exact (lk_thread _ _ _ Hok0)]. }
  assert (r_chans (w_r (with_io io w1)) !! S next = Some ch0) as Hch0 by (simpl; by rewrite lookup_insert_eq).
  assert (can_watch p (ch_fd ch0) (io_k (w_io (with_io io w1)))) as Hcan.
  { split; change (io_k (w_io (with_io io w1))) with (io_k io); rewrite Hopen; [|by apply elem_of_union_l, elem_of_singleton].
    apply elem_of_union_r. apply Hacc. by left. }
  pose proof (run_interest_wp EnableReading (S next) ch0 l p _ Hok1 Hch0 E1 (or_intror Hcan)) as Hwp.
  pose proof (fds_kept_run_interest EnableReading (S next) (with_io io w1)) as Hf.
  unfold wp, wlp in *. cbn [run_interest] in *.
  destruct (enableReading (S next) (with_io io w1)) as [[[] w2]|]; [|done].
  destruct Hwp as (i & Hok2 & Hch2 & E). set (ch := set_ch_index i _) in Hch2.
  set (y := served_conn s x fd (S next) la pa).
  assert (placed l next y ch) as Hpl
    by (by split; [..|apply reportable_none|vm_compute; by repeat split]).
  assert (w_conns w2 = <[next := y]> (w_conns w)) as Ec by (by rewrite E).
  assert (r_chans (w_r w2) = <[S next := ch]> (r_chans (w_r w))) as Eq
    by (rewrite Hch2; simpl; by rewrite insert_insert_eq).
  split; rewrite ?Ec, ?Eq; try (rewrite E; done).
  - eexists. split; [exact Hok2|done].
  - rewrite E. simpl. by rewrite H4, insert_singleton_eq.
  - split; try done.
  - assert (w_acceptors w2 = w_acceptors w) as -> by (by rewrite E). exists ac. split_and!; [done..|].
    unfold same_fds in Hf. rewrite Hf. change (w_io (with_io io w1)) with io. rewrite Hopen.
    by apply accounted_enter.
  - assert (w_next w2 = S (S next)) as -> by (by rewrite E).
    apply tables_enter; [exact Htab|done..|]. split; try done.
    + split; [done|simpl; by rewrite E3|]. split; by vm_compute.
    + simpl. by rewrite E2.
    + simpl. fold next. by rewrite lookup_insert_eq.
    + unfold to_come in *. rewrite decide_True in Hlt by (by left). rewrite decide_False.
      * assert (bsize (tc_outputBuffer y) = 1032) as -> by (by vm_compute).
        unfold event_bytes, sizeof_extrabuf, max_size. lia.
      * intros Hin. destruct (Hrest (S next)) as [[ch' Hch'] _]; [by right|]. congruence.
Qed.

(** The program's answer to it: [TCP_NODELAY]. *)
Lemma serving_connectionCallback_wp n rest held gone dead x lx c y w :
  serving n rest held gone dead x lx w → w_conns w !! c = Some y → c ∉ gone ++ dead →
  wp (run_connectionCallback server_user c) (λ _, serving n rest held gone dead x lx) w.
Proof.
  intros Hw Hy Hc. destruct (serving_upright _ _ _ _ _ _ _ _ _ _ _ _ _ _ _ _ _ Hw Hy Hc) as [ch Hu].
  pose proof Hu as [_ _ _ _ [[Hst _ _] Hcb _ _ _ _ _ _]].
  apply wp_bind. eapply get_conn_wp; [exact Hy|]. rewrite Hcb.
  apply wp_bind, wp_modify. set (w1 := set_w_calls _ w).
  assert (serving n rest held gone dead x lx w1) as Hw1.
  { eapply serving_keep; [exact Hw| |done|done|eauto|done|apply Hw].
    destruct (sg_poller _ _ _ _ _ _ _ _ _ _ _ _ _ _ _ Hw) as (p & Hok & Hn). exists p. split; [|done].
    by eapply loop_ok_frame; [exact Hok|..|exact (lk_thread _ _ _ Hok)]. }
  apply wp_bind, wp_bind. eapply get_conn_wp; [exact Hy|]. apply wp_ret. rewrite Hst. cbn [when bool_decide].
  rewrite bool_decide_true by done. apply wp_bind. eapply get_conn_wp; [exact Hy|].
  apply wp_bind, wp_bind, call_by_wp. intros io [_ Hk]. apply wp_ret, wp_ret.
  apply serving_io; [exact Hw1|..]; [intros ep|]; rewrite Hk; unfold replay; simpl.
  - by apply interest_frame.
  - by apply fds_frame.
Qed.

(** ** The acceptor's events *)

Lemma tending_acceptor_between n rest : between_events achan (accepts a) (tending n rest).
Proof.
  split; [|by intros b ch w Hw Hch; eapply tending_flag].
  intros w (dead & x & lx & Hw & _). apply (sg_tables _ _ _ _ _ _ _ _ _ _ _ _ _ _ _ Hw).
Qed.

Lemma tending_served n q rest w : tending n (q :: rest) w → tending n rest w.
Proof. intros (dead & x & lx & Hw & ?). exists dead, x, lx. split; [by eapply serving_served|done]. Qed.

(** [accept4] gives a new descriptor. *)
Lemma serving_accepted_wp n rest dead x lx w fd peer io :
  serving n (achan :: rest) [] [] dead x lx w → fd ∉ open_fds (io_k (w_io w)) → 0 ≤ fd →
  (∀ ep, interest (io_k io) ep = interest (io_k (w_io w)) ep) →
  open_fds (io_k io) = {[fd]} ∪ open_fds (io_k (w_io w)) →
  wp (TcpServer_newConnection server_user s fd peer)
    (λ _ w', ∃ x', serving n rest [] [] dead x' lx w') (with_io io w).
Proof.
  intros Hw Hnew Hr Hi Hopen.
  destruct (newConnection_leads server_user s x fd peer
    (serving n rest [] [] dead (after_accept (w_next w) x) lx) (with_io io w)) as (w2 & Hw2 & E2).
  - pose proof (serving_ready _ _ _ _ _ _ _ _ _ Hw Hnew) as [Q1 Q2 Q3 Q4 Q5 Q6]. by split.
  - intros la r1 r2 io2 [_ Hk]. apply (serving_enter_wp _ _ _ _ _ _ _ _ fd la peer io2 Hw Hnew Hr).
    + intros ep. rewrite Hk, replay_interest by (by repeat constructor). apply Hi.
    + rewrite Hk, replay_fds by (by repeat constructor). exact Hopen.
  - unfold wp. rewrite E2.
    match goal with |- context [?m w2] =>
      change (wp m (λ _ w', ∃ x', serving n rest [] [] dead x' lx w') w2) end.
    pose proof (sg_tables _ _ _ _ _ _ _ _ _ _ _ _ _ _ _ Hw2) as Htab.
    destruct (tb_map _ _ _ _ _ _ _ _ _ _ _ _ _ _ _ Htab
      (server_conn_name (sv_name x) (sv_ipPort x) (sv_nextConnId x)) (w_next w)) as (y & Hy & _ & Hc);
      [simpl; by rewrite lookup_insert_eq|].
    eapply wp_mono; [by eapply serving_connectionCallback_wp|]. intros [] w' Hw'. by eexists.
Qed.

Lemma tending_accept_wp n rest t w :
  tending n (achan :: rest) w →
  wp (invoke server_user (CbAcceptor_handleRead a) t) (λ _, tending n rest) w.
Proof.
  intros (dead & x & lx & Hw & Hp & Hc).
  destruct (serving_lookup _ _ _ _ _ _ _ _ _ _ _ _ _ _ _ Hw) as (Hl & _ & Ht).
  destruct (sg_acceptor _ _ _ _ _ _ _ _ _ _ _ _ _ _ _ Hw) as (ac & Hac & Hal & Has & Hacc).
  cbn [invoke]. set (c := SysAccept4 (ac_socket ac)). set (r := result_of c w).
  destruct (Z.ltb_spec (ret r) 0) as [Hr|Hr].
  - eapply wp_mono; [by eapply serving_accept_failed_wp|]. intros [] w' Hw'.
    eapply tending_served. by exists dead, x, lx.
  - destruct (Acceptor_handleRead_run (TcpServer_newConnection server_user) a ac lx w)
      as (log & Hlog & Hrun); [done|by rewrite Hal|done|]. rewrite (Hlog Hr) in Hrun. fold c r in Hrun.
    rewrite (proj2 (Z.leb_le _ _)), Has, after_call_same in Hrun by done.
    destruct (opens_done c (io_k (w_io w)) eq_refl Hr) as [Hnew Hopen].
    pose proof (io_by_call c [] w) as [_ Hk]. unfold replay in Hk. simpl in Hk.
    unfold wp. rewrite Hrun. eapply wp_mono.
    + apply (serving_accepted_wp _ _ _ _ _ _ _ _ (w_io (after_call c [] w)) Hw Hnew Hr).
      * intros ep. rewrite Hk. by apply interest_frame.
      * by rewrite Hk.
    + intros [] w' [x' Hw']. by exists dead, x', lx.
Qed.

Lemma tending_acceptor_event_wp n rest t w :
  tending n (achan :: rest) w →
  wp (handleEvent (invoke server_user) release achan t) (λ _, tending n rest) w.
Proof.
  intros Hw. destruct (be_chan _ _ _ (tending_acceptor_between n (achan :: rest)) w Hw) as (ch & Hq & Ha).
  apply wp_bind. eapply chan_at_wp; [exact Hq|]. rewrite (at_tied _ _ Ha).
  apply (handleEventWithGuard_wp _ achan t (accepts a) (tending n (achan :: rest)) (tending n rest));
    [apply tending_acceptor_between..|by intros w'; apply tending_served| | | | |exact Hw].
  all: intros ch' w' [_ B1 B2 B3 B4] Hw'; rewrite ?B1, ?B2, ?B3, ?B4;
    first [by apply wp_ret|by apply tending_accept_wp].
Qed.
End welcome.
