(* ===== verification/Rounds.v ===== *)
(** * Rounds: the echo server's loop, round after round

    The rest of a round of the echo server in service (Service.v, Welcome.v): what
    [epoll_wait] reports, the functors that destroy the connections that were
    closed, and [loop()] around it: nothing stops it but a connection that is closed
    twice ([closed_twice], Descriptors.v). *)
From S2P Require Import Prelude Endian Buffer OS Descriptors Double Objects Poller LoopCore Channel TimerQueue Sockets Calls TcpConnection ByteStream Lifecycle EventLoop Threads Acceptor Connector TcpServer TcpClient Program PingPong Serving Lifetimes Echo Isolation Running Table Events Service Welcome.

Set Default Goal Selector "!".

(** A map whose keys are below [N] has at most [N] entries. *)
Lemma size_below {A} (m : gmap Z A) (N : Z) :
  (∀ k, is_Some (m !! k) → 0 ≤ k < N) → Z.of_nat (size m) ≤ Z.max 0 N.
Proof.
  intros Hk. rewrite <- size_dom.
  assert (dom m ⊆ (list_to_set (seqZ 0 N) : gset Z)) as Hsub.
  { intros k Hin. apply elem_of_list_to_set, elem_of_seqZ. apply elem_of_dom, Hk in Hin. lia. }
  apply subseteq_size in Hsub. rewrite size_list_to_set, length_seqZ in Hsub by apply NoDup_seqZ. lia.
Qed.

(** ** What a poll reports *)

Section polling.
Context {K : Type} `{!OS K} `{!OSLaws K} `{!EpollLaws K} `{!FdLaws K} `{!EpollRoom K}.
Implicit Types w : World K.

(** The world after a poll that reported [events]; the event array may have grown. *)
Definition polled (l : ptr) (p : EPollPoller) (events : list (ptr * Z)) (N : Z) (io : IO K) w : World K :=
  set_w_r (mkReactor io (reported events (r_chans (w_r w)))
    (<[l := set_ep_nevents N p]> (r_pollers (w_r w)))) w.

(** [epoll_wait] reports channels of the loop, each once, that it was asked to watch. *)
Lemma poll_reports_wp l p t (Q : Z * list ptr → World K → Prop) w :
  loop_ok l p w → 0 < ep_nevents p ≤ 2 * NR_OPEN →
  (∀ fd, is_Some (kernel_list (w_r w) p !! fd) → fd ∈ open_fds (io_k (w_io w))) →
  (∀ now events N io,
     0 < N ≤ 2 * NR_OPEN → NoDup events.*1 →
     Forall (λ ce, reportable ce.2 ∧ ∃ fd ev, kernel_list (w_r w) p !! fd = Some (ev, ce.1)) events →
     (∀ ep, interest (io_k io) ep = interest (io_k (w_io w)) ep) →
     open_fds (io_k io) = open_fds (io_k (w_io w)) →
     Q (now, events.*1) (polled l p events N io w)) →
  wp (in_reactor (poller_poll l t)) Q w.
Proof.
  intros Hok [Hnp Hnp'] Hopen HQ.
  set (k := io_k (w_io w)). set (c := SysEpollWait (ep_epollfd p) (ep_nevents p) t).
  set (events := ready (os_call c k).1).
  pose proof (sy_poller _ _ _ _ (lk_synced _ _ _ Hok)) as Hp.
  assert (Forall (λ ce, reportable ce.2 ∧ ∃ fd ev, kernel_list (w_r w) p !! fd = Some (ev, ce.1)) events) as Hall.
  { apply Forall_forall. intros [q e] Hin. split; [by apply (report_reportable k _ _ _ _ _ Hin)|].
    by apply (epoll_wait_registered k _ _ _ _ _ Hin). }
  assert (Forall (λ ce, is_Some (r_chans (w_r w) !! ce.1)) events) as Hsome.
  { eapply Forall_impl; [exact Hall|]. intros ce (_ & fd & ev & Hk).
    destruct (loop_ok_watch _ _ _ _ _ _ Hok Hk) as (ch & Hq & _). by eexists. }
  assert (NoDup events.*1) as Hnd.
  { apply epoll_wait_once. intros fd fd' ev ev' q H1 H2.
    destruct (loop_ok_watch _ _ _ _ _ _ Hok H1) as (ch & Hq & <- & _).
    destruct (loop_ok_watch _ _ _ _ _ _ Hok H2) as (ch' & Hq' & <- & _). congruence. }
  apply in_reactor_wp. eapply poll_wp; [exact Hp|unfold NR_OPEN in *; lia|].
  cbv zeta. change (r_io (w_r w)) with (w_io w). fold k. fold c. fold events. split; [exact Hsome|].
  intros err log. set (io := mkIO _ _ _ _).
  assert (∀ ep, interest (io_k io) ep = interest k ep) as Hi by (intros ep; simpl; by rewrite !interest_frame).
  assert (open_fds (io_k io) = open_fds k) as Hf by (simpl; by rewrite !fds_frame).
  assert (set_ep_nevents (ep_nevents p) p = p) as Ep by (by destruct p).
  destruct (0 <? ret _).
  2:{ eapply (HQ _ [] (ep_nevents p) io) in Hf; [|lia|constructor|constructor|exact Hi].
      unfold polled in Hf. rewrite Ep, insert_id in Hf by done. exact Hf. }
  destruct (Z.eqb_spec (ret (os_call c k).1) (ep_nevents p)) as [Hfull|_].
  - apply (HQ _ events (ep_nevents p * 2) io); [|exact Hnd|exact Hall|exact Hi|exact Hf]. split; [lia|].
    pose proof (epoll_wait_few k (ep_epollfd p) (ep_nevents p) t) as Hfew.
    pose proof (epoll_wait_bound (ep_epollfd p) (ep_nevents p) t k) as Hbound. cbv zeta in Hbound.
    fold c in Hfew, Hbound. assert (Z.of_nat (size (interest k (ep_epollfd p))) ≤ Z.max 0 NR_OPEN).
    { apply size_below. intros fd Hfd. by apply (open_fds_range k), Hopen. }
    unfold NR_OPEN in *. lia.
  - eapply (HQ _ events (ep_nevents p) io) in Hf; [|lia|exact Hnd|exact Hall|exact Hi].
    unfold polled in Hf. rewrite Ep, insert_id in Hf by done. exact Hf.
Qed.
End polling.

Section rounds.
Context {K : Type} `{!OS K} `{!OSLaws K} `{!EpollLaws K} `{!FdLaws K} `{!EpollRoom K} `{Inet}.
Context (l s a achan : ptr) (idc idm : nat) (base : gset Z).
Implicit Types w : World K.

Abbreviation tables := (tables l s a achan idc idm base).
Abbreviation accounted := (accounted base).
Abbreviation serving := (serving l s a achan idc idm base).
Abbreviation tending := (tending l s a achan idc idm base).

(** ** Events *)

(** Any channel's event. *)
Lemma tending_event_wp n q rest t w :
  tending n (q :: rest) w →
  wpx closed_twice (handleEvent (invoke server_user) release q t) (λ _, tending n rest) w.
Proof.
  intros Hw. pose proof Hw as (dead & x & lx & Hserv & Hp & Hc).
  pose proof (sg_tables _ _ _ _ _ _ _ _ _ _ _ _ _ _ _ Hserv) as Htab.
  destruct (tb_rest _ _ _ _ _ _ _ _ _ _ _ _ _ _ _ Htab) as [_ Hrest].
  destruct (Hrest q) as [[ch Hq] Hall]; [by left|].
  destruct (tb_chans _ _ _ _ _ _ _ _ _ _ _ _ _ _ _ Htab q ch Hq) as (_ & [[Ho _]|[(-> & _)|(c & y & Hy & <-)]]).
  - apply wpx_wp. eapply tending_own_event_wp; [by eapply tending_served|exact Hq|exact Ho].
  - by apply wpx_wp, tending_acceptor_event_wp.
  - eapply serving_conn_event_wp; [exact Hserv|exact Hy| |exact Hp|exact Hc]. by eapply Hall.
Qed.

(** ** The poll *)

Lemma serving_reported n rest held gone dead x lx events : ∀ w,
  serving n rest held gone dead x lx w →
  Forall (λ ce, is_Some (r_chans (w_r w) !! ce.1) ∧ reportable ce.2) events →
  serving n rest held gone dead x lx
    (set_w_r (set_r_chans (reported events (r_chans (w_r w))) (w_r w)) w).
Proof.
  induction events as [|[q e] events IH]; intros w Hw Hall.
  { simpl. by destruct w as [[]]. }
  apply Forall_cons in Hall as [[[ch Hq] He] Hall]. simpl in Hq, He.
  assert (same_binding ch (set_ch_revents e ch)) as Hs by (by split).
  specialize (IH _ (serving_flags _ _ _ _ _ _ _ _ _ _ _ _ _ _ _ _ _ _ Hw Hq Hs)).
  simpl. rewrite (alter_insert_some _ ch) by done. apply IH.
  eapply Forall_impl; [exact Hall|]. intros [q' e'] [Hq' He']. split; [|done]. simpl in *.
  destruct (decide (q = q')) as [<-|Hne]; [by rewrite lookup_insert_eq|by rewrite lookup_insert_ne].
Qed.

Lemma serving_nevents n rest held gone dead x lx w p N :
  serving n rest held gone dead x lx w → loop_ok l p w → ep_epollfd p ∈ base →
  0 < N ≤ 2 * NR_OPEN →
  serving n rest held gone dead x lx
    (set_w_r (set_r_pollers (<[l := set_ep_nevents N p]> (r_pollers (w_r w))) (w_r w)) w).
Proof.
  intros Hw [[H1 H2 H3 H4] Hfds Hth] Hb HN. eapply serving_keep; [exact Hw| |done|done|eauto|done|apply Hw].
  exists (set_ep_nevents N p). split; [|done]. split; [split|done|done].
  - simpl. by rewrite lookup_insert_eq.
  - exact H2.
  - exact H3.
  - exact H4.
Qed.

(** What epoll watches is open. *)
Lemma serving_watched_open n rest held gone dead x lx w p fd :
  serving n rest held gone dead x lx w → loop_ok l p w → is_Some (kernel_list (w_r w) p !! fd) →
  fd ∈ open_fds (io_k (w_io w)).
Proof.
  intros Hw Hok Hk. destruct (sg_acceptor _ _ _ _ _ _ _ _ _ _ _ _ _ _ _ Hw) as (ac & _ & _ & _ & [Ho _ _]).
  apply Ho. edestruct serving_watched as [?|?]; [exact Hw|exact Hok|exact Hk|auto..].
Qed.

Lemma serving_poll_wp n x lx t w :
  0 ≤ n → serving (n + 1) [] [] [] [] x lx w →
  wp (in_reactor (poller_poll l t)) (λ na w', serving n na.2 [] [] [] x lx w') w.
Proof.
  intros Hn Hw. destruct (sg_poller _ _ _ _ _ _ _ _ _ _ _ _ _ _ _ Hw) as (p & Hok & Hnp & Hb).
  eapply poll_reports_wp; [exact Hok|exact Hnp|intros fd; by eapply serving_watched_open|].
  intros now events N io HN Hnd Hall Hi Hf. cbn [snd].
  assert (Forall (λ ce, is_Some (r_chans (w_r w) !! ce.1) ∧ reportable ce.2) events) as Hall'.
  { eapply Forall_impl; [exact Hall|]. intros ce (He & fd & ev & Hk).
    destruct (loop_ok_watch _ _ _ _ _ _ Hok Hk) as (ch & Hq & _). split; [by eexists|done]. }
  apply (serving_io _ _ _ _ _ _ _ _ _ _ _ _ _ _ _ io) in Hw; [|done..]. set (w1 := with_io io w) in *.
  assert (serving n events.*1 [] [] [] x lx w1) as Hless.
  { eapply serving_keep; [exact Hw|apply Hw|done|done|eauto|done|].
    pose proof (sg_tables _ _ _ _ _ _ _ _ _ _ _ _ _ _ _ Hw) as Htab.
    eapply tables_less; [exact Htab|done| |done|exact Hnd|].
    - intros q. unfold to_come. rewrite (decide_False (P := q ∈ [])) by apply not_elem_of_nil.
      case_decide; lia.
    - intros q Hq. split; [|by intros c' y' _ _ ?%elem_of_nil].
      apply list_elem_of_fmap in Hq as (ce & -> & Hin). by apply (proj1 (Forall_forall _ _) Hall' _ Hin). }
  apply (serving_reported _ _ _ _ _ _ _ events) in Hless; [|exact Hall'].
  assert (loop_ok l p (set_w_r (set_r_chans (reported events (r_chans (w_r w1))) (w_r w1)) w1)) as Hok'.
  { destruct (sg_poller _ _ _ _ _ _ _ _ _ _ _ _ _ _ _ Hless) as (p' & Hok' & _).
    pose proof (sy_poller _ _ _ _ (lk_synced _ _ _ Hok')) as E. simpl in E.
    rewrite (sy_poller _ _ _ _ (lk_synced _ _ _ Hok)) in E. injection E as <-. exact Hok'. }
  exact (serving_nevents _ _ _ _ _ _ _ _ p N Hless Hok' Hb HN).
Qed.

(** ** The functors: closed connections are destroyed *)

(** A closed connection's channel leaves the poller. *)
Lemma serving_destroy_wp n held gone c dead x lx w :
  serving n [] held gone (c :: dead) x lx w → el_eventHandling lx = false →
  wp (connectDestroyed server_user c) (λ _, serving n [] held (gone ++ [c]) dead x lx) w.
Proof.
  intros Hw Hev. destruct (serving_lookup _ _ _ _ _ _ _ _ _ _ _ _ _ _ _ Hw) as (Hl & _ & Ht).
  pose proof (sg_tables _ _ _ _ _ _ _ _ _ _ _ _ _ _ _ Hw) as Htab.
  destruct (tb_down _ _ _ _ _ _ _ _ _ _ _ _ _ _ _ Htab) as [Hnd Hdown].
  destruct (Hdown c) as [y Hy]; [apply elem_of_app; right; by left|].
  destruct (tb_conn _ _ _ _ _ _ _ _ _ _ _ _ _ _ _ Htab c y Hy) as (ch & Hch & Hpl & Hst).
  assert ((c ∉ gone) ∧ c ∉ dead) as [Hcg Hcd].
  { apply NoDup_app in Hnd as (_ & Hdis & [? _]%NoDup_cons). split; [|done].
    intros Hin. apply (Hdis c Hin). by left. }
  unfold standing in Hst. rewrite decide_False, decide_True in Hst by (done || by left).
  pose proof Hst as [Hstate Hevents _]. pose proof Hpl as [P1 P2 P3 P4 P5 P6].
  destruct (sg_poller _ _ _ _ _ _ _ _ _ _ _ _ _ _ _ Hw) as (p & Hok & Hn & Hb).
  eapply wp_mono; [apply (destroy_down_wp l c y ch p w Hok Hy Hch Hpl Hst); rewrite Hl; by intros lx' [= <-]|].
  intros [] w' (E & (m & Hok') & Hch' & Hf & _).
  assert (w_conns w' = <[c := y]> (w_conns w)) as Ec by (rewrite E; simpl; by rewrite insert_id).
  eapply serving_keep; [exact Hw|eexists; split; [exact Hok'|done]|by rewrite E|exact Hf| | |].
  - rewrite Ec, insert_id by done. eauto.
  - intros c' y' Hy'. by rewrite Ec, insert_id.
  - assert (w_next w' = w_next w) as -> by (by rewrite E). rewrite Ec, Hch'.
    eapply tables_touch; [exact Htab|exact Hy|exact Hch|done|done| | | | |done| |].
    + split; try done. by destruct P4.
    + unfold standing. rewrite decide_True by (apply elem_of_app; right; by left). by split.
    + intros c' Hne. rewrite elem_of_app, list_elem_of_singleton, elem_of_cons. tauto.
    + by rewrite <- app_assoc.
    + intros name c'. split; [|by intros []]. intros Hc'. split; [done|]. intros ->.
      destruct (tb_map _ _ _ _ _ _ _ _ _ _ _ _ _ _ _ Htab _ _ Hc') as (_ & _ & _ & Hni).
      destruct Hni. apply elem_of_app. right. by left.
    + intros _. apply not_elem_of_nil.
Qed.

(** ... and it is destroyed with the functor that kept it. *)
Lemma serving_release_wp n c cs x lx w :
  serving n [] (c :: cs) (c :: cs) [] x lx w → el_pendingFunctors lx = [] →
  wp (release c) (λ _, serving n [] cs cs [] x lx) w.
Proof.
  intros Hw Hpend. destruct (serving_lookup _ _ _ _ _ _ _ _ _ _ _ _ _ _ _ Hw) as (Hl & Hs & Ht).
  pose proof (sg_tables _ _ _ _ _ _ _ _ _ _ _ _ _ _ _ Hw) as Htab.
  destruct (tb_down _ _ _ _ _ _ _ _ _ _ _ _ _ _ _ Htab) as [Hnd Hdown]. rewrite app_nil_r in *.
  destruct (Hdown c) as [y Hy]; [by left|]. apply NoDup_cons in Hnd as [Hc _].
  destruct (tb_conn _ _ _ _ _ _ _ _ _ _ _ _ _ _ _ Htab c y Hy) as (ch & Hch & Hpl & Hst).
  unfold standing in Hst. rewrite decide_True in Hst by (by left).
  destruct Hst as [Hstate Hevents Hatt]. pose proof Hpl as [P1 P2 P3 P4 P5 P6].
  assert (drop_one c (w_held w) = cs) as Edrop
    by (rewrite (sg_held _ _ _ _ _ _ _ _ _ _ _ _ _ _ _ Hw); simpl; by rewrite decide_True).
  apply release_wp; rewrite Edrop; set (w1 := set_w_held cs w).
  - intros [Hin|[(s' & x' & name & Hs' & Hx)|[(cl & x' & Hcl & _)|(l' & lx' & f & Hl' & Hf & _)]]]%elem_of_owners;
      exfalso; cbn [w_held w_servers w_clients w_loops w1 set_w_held] in *.
    + done.
    + rewrite (sg_servers _ _ _ _ _ _ _ _ _ _ _ _ _ _ _ Hw) in Hs'. apply lookup_singleton_Some in Hs' as [_ <-].
      destruct (tb_map _ _ _ _ _ _ _ _ _ _ _ _ _ _ _ Htab _ _ Hx) as (_ & _ & _ & Hni). apply Hni. by left.
    + by rewrite (sg_clients _ _ _ _ _ _ _ _ _ _ _ _ _ _ _ Hw) in Hcl.
    + rewrite (sg_loops _ _ _ _ _ _ _ _ _ _ _ _ _ _ _ Hw) in Hl'. apply lookup_singleton_Some in Hl' as [_ <-].
      rewrite Hpend in Hf. by apply elem_of_nil in Hf.
  - intros _. assert (serving n [] cs (c :: cs) [] x lx w1) as Hw1 by (by eapply serving_held).
    destruct (sg_poller _ _ _ _ _ _ _ _ _ _ _ _ _ _ _ Hw1) as (p & Hok & Hn & Hb).
    eapply (TcpConnection_dtor_wp l (c, y) ch).
    { split; try done. by eapply loop_ok_live. }
    cbn [fst snd]. intros io r [_ Hk]. unfold replay in Hk. simpl in Hk.
    destruct Hw1 as [_ H2 H3 H4 H5 H6 (ac & Hac & Hal & Has & Hacc) H8 H9 H10].
    destruct Hacc as [Ho [Hib Hcb] Hinj]. destruct (Hcb c y Hy) as [Hyb Hyi].
    split; try done.
    + exists p. split; [|done].
      pose proof (loop_ok_drop _ _ _ _ _ Hok Hch Hatt) as Hok'.
      eapply loop_ok_frame; [exact Hok'|done|done| |exact (lk_thread _ _ _ Hok')].
      unfold kernel_list. simpl. rewrite Hk, close_interest by congruence. apply delete_id.
      apply (sy_unknown _ _ _ _ (lk_synced _ _ _ Hok')). simpl.
      destruct (ep_channels p !! tc_socket y) as [q|] eqn:Eq; [exfalso|done].
      destruct (sy_registered _ _ _ _ (lk_synced _ _ _ Hok') _ _ Eq) as (ch' & Hq & Hfd & Hl' & _).
      simpl in Hq. apply lookup_delete_Some in Hq as [Hne Hq]. apply Hne.
      eapply (lk_fds _ _ _ Hok); [exact Hch|exact Hq|done|done|congruence].
    + exists ac. split_and!; [done..|].
      change (accounted (ac_idleFd ac) (delete c (w_conns w)) (open_fds (io_k io))).
      rewrite Hk, close_fds. by apply accounted_leave.
    + by eapply tables_delete.
Qed.

(** Between rounds, with [n] to come. *)
Definition resting n w : Prop := ∃ x lx,
  serving n [] [] [] [] x lx w
  ∧ el_pendingFunctors lx = [] ∧ el_callingPendingFunctors lx = false.

(** A flag of the loop. *)
Lemma serving_upd_wp f n rest held gone dead x lx (Q : unit → World K → Prop) w :
  serving n rest held gone dead x lx w →
  el_threadId (f lx) = el_threadId lx → el_quit (f lx) = el_quit lx →
  el_timerQueue (f lx) = el_timerQueue lx → el_wakeupFd (f lx) = el_wakeupFd lx →
  (∀ w', serving n rest held gone dead x (f lx) w' → Q tt w') → wp (upd_loop l f) Q w.
Proof.
  intros Hw E1 E2 E3 E4 HQ. destruct (serving_lookup _ _ _ _ _ _ _ _ _ _ _ _ _ _ _ Hw) as (Hl & _).
  eapply upd_loop_wp; [exact Hl|]. apply HQ. eapply serving_loop; [exact Hw|done|done|by rewrite E3|done].
Qed.

Lemma destroying_hold_their_connections (dead : list ptr) :
  omap functor_holds (FnTcpConnection_connectDestroyed <$> dead) = dead.
Proof. induction dead as [|c dead IH]; [done|]. exact (f_equal (cons c) IH). Qed.

Lemma tending_functors_wp n dead x lx w :
  serving n [] [] [] dead x lx w → el_pendingFunctors lx = FnTcpConnection_connectDestroyed <$> dead →
  el_eventHandling lx = false →
  wp (doPendingFunctors (run_functor server_user) release l) (λ _, resting n) w.
Proof.
  intros Hw Hp Hev. unfold doPendingFunctors.
  apply wp_bind. eapply serving_upd_wp; [exact Hw|done..|]. intros w1 Hw1.
  apply wp_bind. eapply get_loop_wp; [apply (serving_lookup _ _ _ _ _ _ _ _ _ _ _ _ _ _ _ Hw1)|].
  cbn [el_pendingFunctors set_el_callingPendingFunctors]. rewrite Hp, destroying_hold_their_connections.
  apply wp_bind, wp_modify. rewrite (sg_held _ _ _ _ _ _ _ _ _ _ _ _ _ _ _ Hw1), app_nil_r.
  eapply (serving_held _ _ _ _ _ _ _ _ _ _ dead) in Hw1. set (w1' := set_w_held dead w1) in *.
  apply wp_bind. eapply serving_upd_wp; [exact Hw1|done..|]. intros w2 Hw2.
  set (lx2 := set_el_pendingFunctors [] _) in *. apply wp_bind.
  apply (wp_for_each _ _ (λ fs w', ∃ gone todo, fs = FnTcpConnection_connectDestroyed <$> todo
    ∧ gone ++ todo = dead ∧ serving n [] dead gone todo x lx2 w')).
  { by exists [], dead. }
  { intros f fs w3 (gone & [|c todo] & E & Hall & Hw3); [done|]. injection E as -> ->.
    rewrite bool_decide_false by done. cbn [negb when run_functor].
    eapply wp_mono; [by eapply serving_destroy_wp|]. intros [] w4 Hw4. exists (gone ++ [c]), todo.
    split_and!; [done|by rewrite <- app_assoc|done]. }
  intros w3 (gone & [|c todo] & E & Hall & Hw3); [|done]. rewrite app_nil_r in Hall. subst gone.
  apply wp_bind. eapply serving_upd_wp; [exact Hw3|done..|]. intros w4 Hw4.
  set (lx4 := set_el_callingPendingFunctors false lx2) in *.
  apply (wp_for_each _ _ (λ cs w', serving n [] cs cs [] x lx4 w')); [exact Hw4| |].
  - intros c cs w5 Hw5. by apply serving_release_wp.
  - intros w5 Hw5. by exists x, lx4.
Qed.

(** ** The loop *)

Lemma resting_round_wp n w :
  0 ≤ n → resting (n + 1) w →
  wpx closed_twice (loop_round (invoke server_user) (run_functor server_user) l) (λ _, resting n) w.
Proof.
  intros Hn (x & lx & Hw & Hp & Hc). unfold loop_round.
  apply wpx_bind_wp. eapply serving_upd_wp; [exact Hw|done..|]. intros w1 Hw1.
  apply wpx_bind_wp. eapply wp_mono; [by apply serving_poll_wp|]. intros [now active] w2 Hw2. cbn [snd] in Hw2.
  apply wpx_bind_wp. eapply serving_upd_wp; [exact Hw2|done..|]. intros w3 Hw3.
  apply wpx_bind_wp. eapply serving_upd_wp; [exact Hw3|done..|]. intros w4 Hw4.
  apply wpx_bind_wp. eapply serving_upd_wp; [exact Hw4|done..|]. intros w5 Hw5.
  apply wpx_bind. apply (wpx_for_each _ _ _ (tending n)).
  { by eexists [], x, _. }
  { intros q rest w6 (dead & x6 & lx6 & Hw6 & Hp6 & Hc6).
    apply wpx_bind_wp. eapply serving_upd_wp; [exact Hw6|done..|]. intros w7 Hw7.
    apply wpx_bind_wp. eapply get_loop_wp; [apply (serving_lookup _ _ _ _ _ _ _ _ _ _ _ _ _ _ _ Hw7)|].
    apply tending_event_wp. by eexists dead, x6, _. }
  intros w6 (dead & x6 & lx6 & Hw6 & Hp6 & Hc6).
  apply wpx_bind_wp. eapply serving_upd_wp; [exact Hw6|done..|]. intros w7 Hw7.
  apply wpx_bind_wp. eapply serving_upd_wp; [exact Hw7|done..|]. intros w8 Hw8.
  apply wpx_wp. by eapply tending_functors_wp.
Qed.

Lemma resting_while_wp rounds : ∀ n w,
  0 ≤ n → resting (n + Z.of_nat rounds) w →
  wpx closed_twice (loop_while (invoke server_user) (run_functor server_user) rounds l)
    (λ b w', b = false ∧ resting n w') w.
Proof.
  induction rounds as [|rounds IH]; intros n w Hn Hr; pose proof Hr as (x & lx & Hw & _); cbn [loop_while];
    apply wpx_bind_wp; (eapply get_loop_wp; [apply (serving_lookup _ _ _ _ _ _ _ _ _ _ _ _ _ _ _ Hw)|]);
    destruct (sg_loop _ _ _ _ _ _ _ _ _ _ _ _ _ _ _ Hw) as (_ & -> & _).
  - apply wpx_ret. by rewrite Z.add_0_r in Hr.
  - apply wpx_bind. eapply wpx_mono; [apply (resting_round_wp (n + Z.of_nat rounds)); [lia|]|].
    + by replace (n + Z.of_nat rounds + 1) with (n + Z.of_nat (S rounds)) by lia.
    + intros [] w' Hw'. by apply IH.
Qed.

Lemma resting_loop_wp (rounds : nat) n w :
  0 ≤ n → resting (n + Z.of_nat rounds) w →
  wpx closed_twice (loop server_user rounds l) (λ b w', b = false ∧ resting n w') w.
Proof.
  intros Hn (x & lx & Hw & Hp & Hc). unfold loop, EventLoop_loop.
  apply wpx_bind_wp. eapply serving_upd_wp; [exact Hw|done..|]. intros w1 Hw1.
  apply wpx_bind_wp. eapply serving_upd_wp; [exact Hw1|done| |done..|].
  { destruct (sg_loop _ _ _ _ _ _ _ _ _ _ _ _ _ _ _ Hw1) as (_ & -> & _). done. }
  intros w2 Hw2. destruct (serving_lookup _ _ _ _ _ _ _ _ _ _ _ _ _ _ _ Hw2) as (Hl2 & _ & Ht2).
  apply wpx_bind_wp. eapply assertInLoopThread_here; [exact Hl2|exact Ht2|].
  apply wpx_bind. eapply wpx_mono; [apply (resting_while_wp rounds n); [done|]|].
  - by eexists x, _.
  - intros b w3 [-> Hw3]. by apply wpx_wp, wp_bind, wp_ret, wp_ret.
Qed.

(** The connections there are and what is open, between rounds. *)
Lemma resting_inventory n w :
  resting n w → ∃ x ac, w_servers w = {[s := x]} ∧ w_acceptors w !! a = Some ac
    ∧ (∀ c, is_Some (w_conns w !! c) ↔ ∃ name, sv_connections x !! name = Some c)
    ∧ (∀ c y, w_conns w !! c = Some y → tc_state y = kConnected)
    ∧ ∀ fd, fd ∈ open_fds (io_k (w_io w)) ↔ fd ∈ base ∨ (0 ≤ fd ∧ fd = ac_idleFd ac)
                                            ∨ ∃ c y, w_conns w !! c = Some y ∧ tc_socket y = fd.
Proof.
  intros (x & lx & Hw & _).
  destruct (sg_acceptor _ _ _ _ _ _ _ _ _ _ _ _ _ _ _ Hw) as (ac & Hac & _ & _ & [Ho _ _]).
  pose proof (sg_tables _ _ _ _ _ _ _ _ _ _ _ _ _ _ _ Hw) as Htab.
  assert (∀ c y, w_conns w !! c = Some y → sv_connections x !! tc_name y = Some c ∧ tc_state y = kConnected) as Hup.
  { intros c y Hy. destruct (tb_conn _ _ _ _ _ _ _ _ _ _ _ _ _ _ _ Htab c y Hy) as (ch & _ & _ & Hst).
    unfold standing in Hst. rewrite !decide_False in Hst by apply not_elem_of_nil. split; apply Hst. }
  exists x, ac. split_and!; [apply Hw|done| |by apply Hup|exact Ho].
  intros c. split.
  - intros [y Hy]. exists (tc_name y). by apply Hup.
  - intros [name Hc]. destruct (tb_map _ _ _ _ _ _ _ _ _ _ _ _ _ _ _ Htab _ _ Hc) as (y & Hy & _). by eexists.
Qed.
End rounds.
