(* ===== verification/Opening.v ===== *)
(** * Opening: the echo server from its start

    [main] of example/pingpong/server.cc with one thread: the loop, the server and
    its acceptor are made and started, which puts the server in service
    (Service.v); with the theorem on what can stop the program, and a run for each
    of the two things that can. *)
From S2P Require Import Prelude Endian Buffer OS Descriptors Double Objects Poller LoopCore Channel TimerQueue Sockets Calls TcpConnection ByteStream Lifecycle EventLoop Threads Acceptor Connector TcpServer TcpClient Program PingPong Serving Lifetimes Echo Isolation Running Startup Table Events Service Welcome Rounds.

Set Default Goal Selector "!".

Section members.
Context {K : Type} `{!OS K} `{!EpollLaws K} `{InetLaws}.
Implicit Types w : World K.

Lemma maybe_log_wp b msg (Q : unit → World K → Prop) w :
  (∀ io, io_by [] (w_io w) io → Q tt (with_io io w)) → wp (when b (LOG_ERROR msg)) Q w.
Proof.
  intros HQ. apply wp_when; intros _.
  - apply LOG_ERROR_wp, HQ. split; [split; [by rewrite app_nil_r|done]|done].
  - rewrite <- (with_io_id w). apply HQ, io_by_nil.
Qed.

(** A call whose failure is logged at most. *)
Lemma logged_call_wp c (b : sysres → bool) msg (Q : unit → World K → Prop) w :
  (∀ io r, io_by [(c, r)] (w_io w) io → Q tt (with_io io w)) →
  wp (r ← syscall_ c; when (b r) (LOG_ERROR msg)) Q w.
Proof.
  intros HQ. apply wp_bind, call_by_wp. intros io Hio. apply maybe_log_wp. intros io' Hio'.
  apply (HQ io' (result_of c w)). exact (io_by_app _ _ _ _ _ Hio Hio').
Qed.

(** The address of the command line. *)
Lemma InetAddress_ipv4_wp before ip p (Q : sockaddr → World K → Prop) w :
  length before = sizeof_sockaddr → has_colon ip = false →
  (∀ addr io, family addr = AF_INET → io_by [] (w_io w) io → Q addr (with_io io w)) →
  wp (InetAddress_ip before ip p false) Q w.
Proof.
  intros Hlen Hcol HQ. unfold InetAddress_ip. rewrite Hcol. cbn [orb]. unfold fromIpPort.
  pose proof (cleared_length before Hlen) as Hcl.
  pose proof (family_set AF_INET (hostToNetwork16 LittleEndian p) _ Hcl ltac:(by unfold AF_INET)) as Hf.
  destruct (inet_pton AF_INET ip) as [b|] eqn:E.
  - apply wp_ret. rewrite <- (with_io_id w). apply HQ; [|apply io_by_nil].
    rewrite <- Hf at 2. apply family_after; [lia|].
    rewrite (inet_pton_4 _ _ E), length_set_port by (by apply length_set_family). unfold sizeof_sockaddr. lia.
  - apply wp_bind, LOG_ERROR_wp, wp_ret. apply HQ; [exact Hf|].
    split; [split; [by rewrite app_nil_r|done]|done].
Qed.

Lemma toIpPort_ipv4_short addr :
  family addr = AF_INET → ∃ text, toIpPort addr = Ok text ∧ (String.length text ≤ 51)%nat.
Proof.
  intros Hf. eexists. split; [by apply toIpPort_ipv4|]. rewrite !string_length_app.
  pose proof (inet_ntop_4 (sin_addr addr)) as Hlen. unfold INET_ADDRSTRLEN in Hlen.
  pose proof (port_digits (port addr) (port_range addr)). simpl. lia.
Qed.

(** The acceptor's channel before it listens. *)
Definition listening_chan (loop a : ptr) (fd : Z) : Channel :=
  set_ch_readCallback (Some (CbAcceptor_handleRead a)) (Channel_ctor loop fd).

Lemma Acceptor_ctor_wp loop addr reuse (Q : ptr → World K → Prop) w :
  let a := w_next w in
  (∀ r1 r2 calls io, io_by ((SysSocket (family addr), r1) :: (SysOpenDevNull, r2) :: calls) (w_io w) io →
     Forall (λ cr, harmless cr.1 = true) calls → (length calls ≤ 3)%nat → 0 ≤ ret r2 →
     Q a (with_io io (set_w_acceptors
            (<[a := mkAcceptor loop (ret r1) (S a) None false (ret r2)]> (w_acceptors w))
          (set_w_r (set_r_chans (<[S a := listening_chan loop a (ret r1)]> (r_chans (w_r w))) (w_r w))
          (set_w_next (S (S a)) w))))) →
  (let k := (os_call (SysSocket (family addr)) (io_k (w_io w))).2 in 0 ≤ ret (os_call SysOpenDevNull k).1) →
  wp (Acceptor_ctor loop addr reuse) Q w.
Proof.
  intros a HQ Hdev. unfold Acceptor_ctor. apply wp_bind. unfold fresh at 1, wp at 1. fold a.
  apply wp_bind, wp_bind, call_by_wp. set (r1 := result_of _ _). intros io1 Hio1.
  apply wp_bind, maybe_log_wp. intros io2 Hio2. apply wp_ret.
  apply wp_bind. unfold fresh, wp at 1. cbn [w_next with_io set_w_next set_w_r].
  apply wp_bind, in_reactor_wp, wp_modify.
  apply wp_bind, call_by_wp. set (r2 := result_of _ _). intros io3 Hio3.
  assert (io_by [(SysSocket (family addr), r1); (SysOpenDevNull, r2)] (w_io w) io3) as Hio.
  { exact (io_by_app _ _ _ _ _ (io_by_app _ _ _ _ _ Hio1 Hio2) Hio3). }
  assert (0 ≤ ret r2) as Hr2 by (destruct Hio as [[_ (_ & E & _)] _]; simpl in E; by rewrite E).
  apply wp_bind, wp_modify. apply wp_bind, wp_assert; [by apply Z.leb_le|].
  apply wp_bind, wp_bind, wp_bind, call_by_wp. intros io4 Hio4. apply wp_ret, wp_ret.
  apply wp_bind, wp_bind, wp_bind, call_by_wp. intros io5 Hio5. apply wp_ret.
  apply maybe_log_wp. intros io6 Hio6.
  apply wp_bind, logged_call_wp. intros io7 r7 Hio7.
  apply wp_bind. eapply upd_chan_wp; [simpl; by rewrite lookup_insert_eq|]. apply wp_ret.
  pose proof (io_by_app _ _ _ _ _ Hio (io_by_app _ _ _ _ _ Hio4 (io_by_app _ _ _ _ _ Hio5
    (io_by_app _ _ _ _ _ Hio6 Hio7)))) as Hall.
  specialize (HQ _ _ _ _ Hall ltac:(by repeat constructor) ltac:(simpl; lia) Hr2).
  unfold_world. unfold_world in HQ. rewrite insert_insert_eq. exact HQ.
Qed.

Lemma upd_acceptor_wp a f x (Q : unit → World K → Prop) w :
  w_acceptors w !! a = Some x → Q tt (set_w_acceptors (<[a := f x]> (w_acceptors w)) w) →
  wp (upd_acceptor a f) Q w.
Proof. intros H' HQ. apply wp_bind. eapply wp_gets_some; [exact H'|]. by apply wp_modify. Qed.

(** A server as it is made at [s]: its acceptor at [S s], with its channel after it,
    and then its pool. *)
Definition made_server (l : ptr) (name text : string) (lfd dfd started : Z) w : World K :=
  let s := w_next w in
  set_w_acceptors (<[S s := mkAcceptor l lfd (S (S s)) (Some s) false dfd]> (w_acceptors w))
  (set_w_servers (<[s := mkTcpServer l text name (S s) (S (S (S s))) defaultConnectionCallback
     defaultMessageCallback None None started 1 ∅]> (w_servers w))
  (set_w_pools (<[S (S (S s)) := mkEventLoopThreadPool l name false 0 0 [] []]> (w_pools w))
  (set_w_r (set_r_chans (<[S (S s) := listening_chan l (S s) lfd]> (r_chans (w_r w))) (w_r w))
  (set_w_next (S (S (S (S s)))) w)))).

Lemma TcpServer_ctor_wp l addr name option started text (Q : ptr → World K → Prop) w :
  toIpPort addr = Ok text →
  (let k := (os_call (SysSocket (family addr)) (io_k (w_io w))).2 in 0 ≤ ret (os_call SysOpenDevNull k).1) →
  (∀ r1 r2 calls io, io_by ((SysSocket (family addr), r1) :: (SysOpenDevNull, r2) :: calls) (w_io w) io →
     Forall (λ cr, harmless cr.1 = true) calls → (length calls ≤ 3)%nat → 0 ≤ ret r2 →
     Q (w_next w) (with_io io (made_server l name text (ret r1) (ret r2) started w))) →
  wp (TcpServer_ctor l addr name option started) Q w.
Proof.
  intros Htext Hdev HQ. unfold TcpServer_ctor. apply wp_bind. unfold fresh at 1, wp at 1.
  apply wp_bind. rewrite Htext. apply wp_ret.
  apply wp_bind, Acceptor_ctor_wp; [|exact Hdev]. intros r1 r2 calls io Hio Hall Hfew Hr2.
  apply wp_bind, wp_bind. unfold fresh, wp at 1. apply wp_bind, wp_modify, wp_ret.
  apply wp_bind, wp_modify. apply wp_bind. eapply upd_acceptor_wp; [simpl; by rewrite lookup_insert_eq|].
  apply wp_ret. specialize (HQ r1 r2 calls io Hio Hall Hfew Hr2).
  unfold made_server in HQ. unfold_world. unfold_world in HQ. rewrite insert_insert_eq. exact HQ.
Qed.

(** The acceptor listens. *)
Lemma acceptor_listens_wp loop a ac lx (Q : unit → World K → Prop) w :
  w_acceptors w !! a = Some ac → ac_listening ac = false → ac_loop ac = loop →
  w_loops w !! loop = Some lx → el_threadId lx = w_tid w →
  (∀ r io, io_by [(SysListen (ac_socket ac), r)] (w_io w) io →
     wp (enableReading (ac_channel ac)) Q
       (with_io io (set_w_acceptors (<[a := set_ac_listening true ac]> (w_acceptors w)) w))) →
  wp (x ← get_acceptor a; assert_ "TcpServer.cpp:47" (negb (ac_listening x));;
      runInLoop loop (FnAcceptor_listen a) (Acceptor_listen a)) Q w.
Proof.
  intros Ha Hal Hloop Hl Ht HQ.
  apply wp_bind. eapply wp_gets_some; [exact Ha|]. apply wp_bind, wp_assert; [by rewrite Hal|].
  apply wp_bind. eapply isInLoopThread_wp; [exact Hl|]. rewrite bool_decide_true by exact Ht.
  apply wp_bind. eapply wp_gets_some; [exact Ha|]. rewrite Hloop.
  apply wp_bind. eapply assertInLoopThread_here; [exact Hl|exact Ht|].
  apply wp_bind. eapply upd_acceptor_wp; [exact Ha|].
  apply wp_bind, logged_call_wp. intros io r Hio. exact (HQ r io Hio).
Qed.

(** Starting a server for the first time: its pool, and then the acceptor. *)
Lemma TcpServer_start_pool_wp user s x ind (Q : unit → World K → Prop) w :
  w_servers w !! s = Some x → sv_started x = 0 → sv_threadInitCallback x = None →
  wp (EventLoopThreadPool_start user (sv_threadPool x) None ind)
    (λ _ w', ∃ ac lx, w_acceptors w' !! sv_acceptor x = Some ac ∧ ac_listening ac = false
       ∧ ac_loop ac = sv_loop x ∧ w_loops w' !! sv_loop x = Some lx ∧ el_threadId lx = w_tid w'
       ∧ ∀ r io, io_by [(SysListen (ac_socket ac), r)] (w_io w') io →
           wp (enableReading (ac_channel ac)) Q
             (with_io io (set_w_acceptors (<[sv_acceptor x := set_ac_listening true ac]> (w_acceptors w')) w')))
    (set_w_servers (<[s := set_sv_started 1 x]> (w_servers w)) w) →
  wp (TcpServer_start user s ind) Q w.
Proof.
  intros Hs Hst Hinit Hpool. unfold TcpServer_start.
  apply wp_bind, wp_bind. eapply get_server_wp; [exact Hs|].
  apply wp_bind. eapply upd_server_wp; [exact Hs|]. apply wp_ret. rewrite Hst. cbn [Z.eqb when].
  apply wp_bind. eapply get_server_wp; [simpl; by rewrite lookup_insert_eq|].
  cbn [sv_threadPool sv_threadInitCallback sv_acceptor sv_loop set_sv_started]. rewrite Hinit.
  apply wp_bind. eapply wp_mono; [exact Hpool|].
  intros [] w' (ac & lx & Ha & Hal & Hloop & Hl & Ht & HQ). by eapply acceptor_listens_wp.
Qed.

(** Starting a server without threads of its own. *)
Definition started_server (s : ptr) (x : TcpServer) (pl : EventLoopThreadPool) (ac : Acceptor) w : World K :=
  set_w_acceptors (<[sv_acceptor x := set_ac_listening true ac]> (w_acceptors w))
  (set_w_pools (<[sv_threadPool x := set_pl_started true pl]> (w_pools w))
  (set_w_servers (<[s := set_sv_started 1 x]> (w_servers w)) w)).

Lemma TcpServer_start_wp user s x pl ac lx ind (Q : unit → World K → Prop) w :
  w_servers w !! s = Some x → sv_started x = 0 → sv_threadInitCallback x = None →
  w_pools w !! sv_threadPool x = Some pl → pl_started pl = false → pl_numThreads pl = 0 →
  pl_baseLoop pl = sv_loop x → w_acceptors w !! sv_acceptor x = Some ac → ac_listening ac = false →
  ac_loop ac = sv_loop x → w_loops w !! sv_loop x = Some lx → el_threadId lx = w_tid w →
  (∀ r io, io_by [(SysListen (ac_socket ac), r)] (w_io w) io →
     wp (enableReading (ac_channel ac)) Q (with_io io (started_server s x pl ac w))) →
  wp (TcpServer_start user s ind) Q w.
Proof.
  intros Hs Hst Hinit Hpl Hps Hpn Hpb Ha Hal Haloop Hl Ht HQ.
  eapply TcpServer_start_pool_wp; [exact Hs|exact Hst|exact Hinit|].
  apply wp_bind. eapply get_pool_wp; [exact Hpl|].
  apply wp_bind, wp_assert; [by rewrite Hps|]. rewrite Hpb.
  apply wp_bind. eapply assertInLoopThread_here; [exact Hl|exact Ht|].
  apply wp_bind. eapply upd_pool_wp; [exact Hpl|]. rewrite Hpn. apply wp_bind, wp_ret, wp_ret.
  exists ac, lx. split_and!; [exact Ha|exact Hal|exact Haloop|exact Hl|exact Ht|].
  intros r io Hio. specialize (HQ r io Hio). unfold started_server in HQ. unfold_world. unfold_world in HQ. exact HQ.
Qed.
End members.

(** ** The program *)

Section main.
Context {K : Type} `{!OS K} `{!OSLaws K} `{!EpollLaws K} `{!FdLaws K} `{!EpollRoom K} `{InetLaws}.
Implicit Types w : World K.

(** The results of epoll_create1, timerfd_create, eventfd, socket and the open of
    /dev/null at the start of the program, its loop being at [l]. *)
Definition opening_descriptors (k : K) (l : ptr) : list Z :=
  let '(ep, tfd, efd) := new_descriptors k (S l) in
  let k := kernel_with_loop k (S l) in
  let '(r, k) := os_call (SysSocket AF_INET) k in
  [ep; tfd; efd; ret r; ret (os_call SysOpenDevNull k).1].

(** A process that has made nothing yet. *)
Record blank w : Prop := {
  bl_loops : w_loops w = ∅;
  bl_chans : r_chans (w_r w) = ∅;
  bl_conns : w_conns w = ∅;
  bl_servers : w_servers w = ∅;
  bl_clients : w_clients w = ∅;
  bl_held : w_held w = []
}.

(** All different from each other and from what was open before. *)
Lemma loop_descriptors k c ep tfd efd :
  new_descriptors k c = (ep, tfd, efd) → 0 ≤ ep → 0 ≤ tfd → 0 ≤ efd →
  (ep ∉ open_fds k) ∧ (tfd ∉ {[ep]} ∪ open_fds k) ∧ (efd ∉ {[tfd]} ∪ ({[ep]} ∪ open_fds k))
  ∧ open_fds (kernel_with_loop k c) = {[efd]} ∪ ({[tfd]} ∪ ({[ep]} ∪ open_fds k)).
Proof.
  intros Hfds Hep Htfd Hefd. unfold kernel_with_loop. rewrite Hfds. unfold kernel_with_timerfd.
  unfold new_descriptors in Hfds. pose proof (opens_done SysEpollCreate k eq_refl) as H1.
  destruct (os_call SysEpollCreate k) as [r1 k1].
  pose proof (opens_done SysTimerfdCreate k1 eq_refl) as H2. destruct (os_call SysTimerfdCreate k1) as [r2 k2].
  pose proof (fds_frame (SysEpollCtl (ret r1) EPOLL_CTL_ADD (ret r2) kReadEvent c) k2 eq_refl) as H3.
  destruct (os_call (SysEpollCtl _ _ _ _ _) k2) as [r3 k3].
  pose proof (opens_done SysEventfd k3 eq_refl) as H4.
  destruct (os_call SysEventfd k3) as [r4 k4] eqn:Ek4.
  injection Hfds as <- <- <-. simpl in *. destruct (H1 Hep) as [N1 E1], (H2 Htfd) as [N2 E2], (H4 Hefd) as [N4 E4].
  rewrite E1 in N2, E2. rewrite E2 in H3. rewrite H3 in N4, E4. rewrite fds_frame by done.
  by split_and!; [..|rewrite Ek4].
Qed.

(** What the kernel's five descriptors come to: [rk] is the listening one's result. *)
Record opening (k : K) (l : ptr) (ep tfd efd lfd dfd : Z) (k1 : K) (rk : sysres * K) : Prop := {
  on_loop : new_descriptors k (S l) = (ep, tfd, efd);
  on_positive : 0 ≤ ep ∧ 0 ≤ tfd ∧ 0 ≤ efd ∧ 0 ≤ lfd ∧ 0 ≤ dfd;
  on_open : open_fds k1 = {[efd]} ∪ ({[tfd]} ∪ ({[ep]} ∪ open_fds k));
  on_socket : ret rk.1 = lfd ∧ lfd ∉ open_fds k1;
  on_devnull : ret (os_call SysOpenDevNull rk.2).1 = dfd ∧ (dfd ∉ {[lfd]} ∪ open_fds k1)
    ∧ open_fds (os_call SysOpenDevNull rk.2).2 = {[dfd]} ∪ ({[lfd]} ∪ open_fds k1);
  on_interest : ∀ e, interest (os_call SysOpenDevNull rk.2).2 e = interest k1 e
}.

Lemma opening_facts k l ep tfd efd lfd dfd :
  opening_descriptors k l = [ep; tfd; efd; lfd; dfd] → Forall (Z.le 0) [ep; tfd; efd; lfd; dfd] →
  let k1 := kernel_with_loop k (S l) in opening k l ep tfd efd lfd dfd k1 (os_call (SysSocket AF_INET) k1).
Proof.
  intros Hfds Hpos k1. rewrite !Forall_cons in Hpos. destruct Hpos as (Hep & Htfd & Hefd & Hlfd & Hdfd & _).
  unfold opening_descriptors in Hfds. destruct (new_descriptors k (S l)) as [[ep' tfd'] efd'] eqn:Hnew. fold k1 in Hfds.
  pose proof (opens_done (SysSocket AF_INET) k1 eq_refl) as O1. pose proof (interest_frame k1 (SysSocket AF_INET)) as I1.
  destruct (os_call (SysSocket AF_INET) k1) as [r1 k2]. cbn [fst snd] in *. injection Hfds as -> -> -> Er1 Er2.
  pose proof (opens_done SysOpenDevNull k2 eq_refl) as O2.
  rewrite Er1 in O1. rewrite Er2 in O2. destruct (O1 Hlfd) as [M1 F1], (O2 Hdfd) as [M2 F2]. rewrite F1 in M2, F2.
  destruct (loop_descriptors _ _ _ _ _ Hnew Hep Htfd Hefd) as (_ & _ & _ & Hopen). fold k1 in Hopen.
  split; [exact Hnew|done|exact Hopen|done|done|].
  intros e. rewrite interest_frame by done. by apply I1.
Qed.

(** The server listens. *)
Section listening.
Context (l : ptr) (text : string) (lfd dfd : Z).
#[local] Abbreviation s := (S (S (S l))).
#[local] Abbreviation a := (S s).
#[local] Abbreviation achan := (S a).
#[local] Abbreviation pool := (S achan).

(** [w1] is the world with the loop only. *)
Definition opened (io : IO K) w1 : World K :=
  with_io io
  (set_w_acceptors (<[a := mkAcceptor l lfd achan (Some s) true dfd]> (w_acceptors w1))
  (set_w_servers (<[s := mkTcpServer l text "PingPong" a pool (UserConnectionCallback s)
     (UserMessageCallback s) None None 1 1 ∅]> (w_servers w1))
  (set_w_pools (<[pool := mkEventLoopThreadPool l "PingPong" true 0 0 [] []]> (w_pools w1))
  (set_w_r (set_r_chans (<[achan := listening_chan l a lfd]> (r_chans (w_r w1))) (w_r w1))
  (set_w_next (S pool) w1))))).

(** A world with a new loop and nothing else. *)
Record loop_only (ep tfd efd : Z) (ind : bool) w1 : Prop := {
  lo_ok : ∃ channels, loop_ok l (new_poller ep channels) w1;
  lo_loops : w_loops w1 = {[l := new_loop (w_tid w1) ind tfd efd l]};
  lo_chans : ∃ i j, r_chans (w_r w1) =
    {[S (S l) := reading_chan l efd (CbEventLoop_handleRead l) j;
      S l := reading_chan l tfd (CbTimerQueue_handleRead l) i]};
  lo_next : w_next w1 = s;
  lo_conns : w_conns w1 = ∅;
  lo_servers : w_servers w1 = ∅;
  lo_clients : w_clients w1 = ∅;
  lo_held : w_held w1 = [];
  lo_open : ep ∈ open_fds (io_k (w_io w1)) ∧ tfd ∈ open_fds (io_k (w_io w1)) ∧ efd ∈ open_fds (io_k (w_io w1))
}.

(** The loop of a process that had made nothing. *)
Lemma EventLoop_ctor_only_wp ind ep tfd efd w0 (Q : ptr → World K → Prop) :
  blank w0 → l = w_next w0 → new_descriptors (io_k (w_io w0)) (S l) = (ep, tfd, efd) →
  0 ≤ ep → 0 ≤ tfd → 0 ≤ efd →
  open_fds (kernel_with_loop (io_k (w_io w0)) (S l)) = {[efd]} ∪ ({[tfd]} ∪ ({[ep]} ∪ open_fds (io_k (w_io w0)))) →
  (∀ w1, loop_only ep tfd efd ind w1 → io_k (w_io w1) = kernel_with_loop (io_k (w_io w0)) (S l) → Q l w1) →
  wp (EventLoop_ctor ind) Q w0.
Proof.
  intros [B1 B2 B3 B4 B5 B6] El Hnew Hep Htfd Hefd Hopen HQ.
  eapply wp_mono; [apply (EventLoop_ctor_wp ind ep tfd efd w0); rewrite <- ?El; try done|].
  { intros c ch Hc. by rewrite B2, lookup_empty in Hc. }
  intros l' w1 (-> & i & j & [Hok Hls Hnext Hk Hrest _] & Hch). rewrite <- El in *. apply HQ; [|exact Hk]. split.
  - by eexists.
  - rewrite Hls, B1. by rewrite Hrest.
  - exists i, j. by rewrite Hch, B2.
  - exact Hnext.
  - by rewrite Hrest.
  - by rewrite Hrest.
  - by rewrite Hrest.
  - by rewrite Hrest.
  - rewrite Hk, Hopen, !elem_of_union, !elem_of_singleton. tauto.
Qed.

Lemma reading_chan_own fd cb i :
  cb = CbEventLoop_handleRead l ∨ cb = CbTimerQueue_handleRead l → own_channel l (reading_chan l fd cb i).
Proof. intros [-> | ->]; split; unfold own_callback; simpl; tauto. Qed.

Lemma opened_tables ep tfd efd ind n (base : gset Z) w1 x ch :
  loop_only ep tfd efd ind w1 → (∀ fd, fd = lfd ∨ fd ∈ open_fds (io_k (w_io w1)) → fd ∈ base) →
  accepts a ch → ch_loop ch = l → ch_fd ch = lfd → sv_connections x = ∅ → sv_nextConnId x = 1 →
  0 ≤ n → 1 + n < 2 ^ 31 →
  tables l s a achan s s base n [] [] [] x ∅ (<[achan := ch]> (r_chans (w_r w1))) (S pool).
Proof.
  intros [_ _ (i & j & Hch) _ _ _ _ _ (_ & Otfd & Oefd)] Hbase Hacc Hl Hfd Hmap Hid Hn Hmax.
  split; rewrite ?Hmap; try (intros ? ? Hy; by rewrite lookup_empty in Hy).
  - split; [constructor|]. by intros c ?%elem_of_nil.
  - intros q ch' Hq. apply lookup_insert_Some in Hq as [[<- <-]|[_ Hq]].
    { split; [done|]. right; left. split_and!; [done..|]. apply Hbase. by left. }
    rewrite Hch in Hq. apply lookup_insert_Some in Hq as [[<- <-]|[_ [<- <-]%lookup_singleton_Some]];
      (split; [done|left; split; [apply reading_chan_own; auto|apply Hbase; by right]]).
  - split; [constructor|]. by intros q ?%elem_of_nil.
  - intros q Hq. split; [done|]. rewrite Hch, !lookup_insert_ne, lookup_singleton_ne by lia. done.
  - unfold to_come. rewrite decide_False by apply not_elem_of_nil. rewrite Hid. lia.
  - exists ch. rewrite lookup_insert_eq. by split.
Qed.

Lemma enter_service_wp ep tfd efd ind n io w1 :
  loop_only ep tfd efd ind w1 → (String.length text ≤ 51)%nat → 0 ≤ n → 1 + n < 2 ^ 31 →
  lfd ∉ open_fds (io_k (w_io w1)) → 0 ≤ dfd → dfd ∉ {[lfd]} ∪ open_fds (io_k (w_io w1)) →
  (∀ ep, interest (io_k io) ep = interest (io_k (w_io w1)) ep) →
  open_fds (io_k io) = {[dfd]} ∪ ({[lfd]} ∪ open_fds (io_k (w_io w1))) →
  wp (enableReading achan)
    (λ _, resting l s a achan s s ({[lfd]} ∪ open_fds (io_k (w_io w1))) n) (opened io w1).
Proof.
  intros Honly. pose proof Honly as [(channels & Hok) Hls (i & j & Hch) _ Hconns Hservers Hclients Hheld (Oep & Otfd & Oefd)].
  intros Hlen Hn Hmax
    Hlfd Hdfd Hnew Hint Hopen.
  set (open := open_fds (io_k (w_io w1))) in *. set (base := {[lfd]} ∪ open).
  set (x := new_loop (w_tid w1) ind tfd efd l) in *. set (ch0 := listening_chan l a lfd).
  assert (∀ fd, fd ∈ base ↔ fd = lfd ∨ fd ∈ open) as Hbase
    by (intros fd; unfold base; by rewrite elem_of_union, elem_of_singleton).
  assert (fd_unused l lfd w1) as Hun.
  { intros q ch Hq _ E. apply Hlfd. rewrite Hch in Hq.
    apply lookup_insert_Some in Hq as [[_ <-]|[_ [_ <-]%lookup_singleton_Some]]; simpl in E; by subst. }
  assert (loop_ok l (new_poller ep channels) (opened io w1)) as Hok1.
  { assert (r_chans (w_r w1) !! achan = None) as Hfree.
    { rewrite Hch. apply lookup_insert_None. split; [|lia]. apply lookup_singleton_ne. lia. }
    pose proof (loop_ok_new _ _ _ ch0 _ Hok Hfree eq_refl Hun) as Hok0.
    eapply loop_ok_frame; [exact Hok0|done|done|by apply Hint|exact (lk_thread _ _ _ Hok0)]. }
  assert (r_chans (w_r (opened io w1)) !! achan = Some ch0) as Hch0 by (simpl; by rewrite lookup_insert_eq).
  assert (can_watch (new_poller ep channels) (ch_fd ch0) (io_k (w_io (opened io w1)))) as Hcan.
  { split; change (io_k (w_io (opened io w1))) with (io_k io); rewrite Hopen;
      apply elem_of_union_r, elem_of_union; [by right|left; by apply elem_of_singleton]. }
  pose proof (run_interest_wp EnableReading achan ch0 l _ _ Hok1 Hch0 eq_refl (or_intror Hcan)) as Hwp.
  pose proof (fds_kept_run_interest EnableReading achan (opened io w1)) as Hf.
  unfold wp, wlp in *. cbn [run_interest] in *.
  destruct (enableReading achan (opened io w1)) as [[[] w2]|]; [|done].
  destruct Hwp as (k & Hok2 & Hch2 & E). set (ch := set_ch_index k _) in Hch2.
  assert (r_chans (w_r w2) = <[achan := ch]> (r_chans (w_r w1))) as Eq
    by (rewrite Hch2; simpl; by rewrite insert_insert_eq).
  exists (mkTcpServer l text "PingPong" a pool (UserConnectionCallback s) (UserMessageCallback s) None None 1 1 ∅), x.
  split; [|done]. split.
  - eexists. split; [exact Hok2|]. split; [done|]. apply Hbase. by right.
  - rewrite E. exact Hls.
  - rewrite E. split_and!; [done..|]. apply Hbase. by right.
  - rewrite E. simpl. by rewrite Hservers.
  - by split.
  - eexists. rewrite E. simpl. by rewrite lookup_insert_eq.
  - eexists. assert (w_acceptors w2 = <[a := mkAcceptor l lfd achan (Some s) true dfd]> (w_acceptors w1)) as ->
      by (by rewrite E).
    rewrite lookup_insert_eq. split_and!; [done..|].
    assert (w_conns w2 = ∅) as -> by (rewrite E; exact Hconns).
    unfold same_fds in Hf. rewrite Hf. change (w_io (opened io w1)) with io. rewrite Hopen. fold base. split.
    + intros fd. rewrite elem_of_union, elem_of_singleton. split.
      * intros [->|?]; [right; left; done|by left].
      * intros [?|[[_ ->]|(c & y & Hy & _)]]; [by right|by left|by rewrite lookup_empty in Hy].
    + split; [exact Hnew|]. intros c y Hy. by rewrite lookup_empty in Hy.
    + intros c c' y y' Hy. by rewrite lookup_empty in Hy.
  - rewrite E. exact Hclients.
  - rewrite E. exact Hheld.
  - assert (w_conns w2 = ∅) as -> by (rewrite E; exact Hconns). rewrite Eq.
    assert (w_next w2 = S pool) as -> by (by rewrite E).
    by apply (opened_tables ep tfd efd ind n base w1); [|apply Hbase|..].
Qed.
(** The server is made on that loop and started; [m] is what comes then. *)
Lemma server_opens_wp {B} (E : fault → Prop) (m : ptr → M (World K) B) Q k ep tfd efd ind addr threads n w1 :
  loop_only ep tfd efd ind w1 →
  opening k l ep tfd efd lfd dfd (io_k (w_io w1)) (os_call (SysSocket AF_INET) (io_k (w_io w1))) →
  family addr = AF_INET → toIpPort addr = Ok text → (String.length text ≤ 51)%nat → threads ≤ 1 →
  0 ≤ n → 1 + n < 2 ^ 31 →
  (∀ w', resting l s a achan s s ({[lfd]} ∪ open_fds (io_k (w_io w1))) n w' → wpx E (m s) Q w') →
  wpx E (server ← TcpServer_ctor l addr "PingPong" kNoReusePort 0;
      upd_server server (set_sv_connectionCallback (UserConnectionCallback server));;
      upd_server server (set_sv_messageCallback (UserMessageCallback server));;
      when (1 <? threads) (TcpServer_setThreadNum server threads);;
      TcpServer_start server_user server ind;;
      m server) Q w1.
Proof.
  intros Honly [_ (_ & _ & _ & Hlfd & Hdfd) _ [Er1 M1] (Er2 & M2 & F2) Hint] Hfam Htext Hshort Hone Hn Hmax HQ.
  pose proof (lo_next _ _ _ _ _ Honly) as Hnext.
  destruct (os_call (SysSocket AF_INET) (io_k (w_io w1))) as [r1 k2] eqn:Esock. cbn [fst snd] in *.
  apply wpx_bind_wp. eapply TcpServer_ctor_wp;
    [exact Htext|rewrite Hfam; cbv zeta; rewrite Esock; cbn [snd]; by rewrite Er2|].
  rewrite Hfam. intros r1' r2' calls io1 [[_ (Ea & Eb & _)] Hk1] Hall _ _. simpl in Ea, Eb. rewrite Esock in Ea, Eb.
  simpl in Ea, Eb. subst r1' r2'. rewrite Er1, Er2, Hnext. set (w2 := with_io io1 _).
  apply wpx_bind_wp. eapply upd_server_wp; [simpl; rewrite Hnext; by rewrite lookup_insert_eq|].
  apply wpx_bind_wp. eapply upd_server_wp; [simpl; by rewrite lookup_insert_eq|].
  apply wpx_bind_wp. rewrite (proj2 (Z.ltb_ge _ _)) by done. apply wp_ret.
  apply wpx_bind_wp. eapply (TcpServer_start_wp server_user s); [simpl; by rewrite lookup_insert_eq|done|done|..];
    lazymatch goal with
    | |- context [w_loops] => simpl; rewrite (lo_loops _ _ _ _ _ Honly); by rewrite lookup_singleton_eq
    | |- _ !! _ = Some _ => simpl; rewrite ?Hnext; by rewrite lookup_insert_eq
    | |- ∀ _, _ => idtac
    | |- _ => done
    end.
  intros r io2 [_ Hk2]. cbn [ac_channel].
  match goal with |- wp _ _ ?W => assert (W = opened io2 w1) as -> end.
  { unfold w2, started_server, made_server, opened. rewrite Hnext. unfold_world.
    cbn [sv_acceptor sv_threadPool set_sv_connectionCallback set_sv_messageCallback set_sv_started
         set_ac_listening set_pl_started]. by rewrite !insert_insert_eq. }
  destruct (os_call SysOpenDevNull k2) as [r2 k3] eqn:Edev. cbn [fst snd] in *.
  assert (io_k io2 = replay (calls ++ [(SysListen lfd, r)]) k3) as Hk3.
  { unfold replay in *. rewrite foldl_app. etrans; [exact Hk2|]. simpl. f_equal. f_equal.
    etrans; [exact Hk1|]. simpl. rewrite Esock. simpl. by rewrite Edev. }
  assert (Forall (λ cr, harmless cr.1 = true) (calls ++ [(SysListen lfd, r)])) as Hall'
    by (apply Forall_app; by repeat constructor).
  eapply wp_mono; [apply (enter_service_wp ep tfd efd ind n io2 w1 Honly Hshort)|]; try done.
  - intros e. rewrite Hk3, replay_interest by done. apply Hint.
  - rewrite Hk3, replay_fds by done. exact F2.
Qed.
End listening.

(** [main] as far as it goes, on an IPv4 address and with one thread. *)
Lemma server_main_wp (rounds : nat) before ind run_thread prog ip portText threadsText args port threads
    ep tfd efd lfd dfd n w :
  blank w → length before = sizeof_sockaddr → has_colon ip = false →
  atoi portText = Ok port → atoi threadsText = Ok threads → threads ≤ 1 →
  opening_descriptors (io_k (w_io w)) (w_next w) = [ep; tfd; efd; lfd; dfd] →
  Forall (Z.le 0) [ep; tfd; efd; lfd; dfd] → 0 ≤ n → 1 + (n + Z.of_nat rounds) < 2 ^ 31 →
  let l := w_next w in let s := S (S (S l)) in
  wpx closed_twice (server_main rounds before ind 0 run_thread (prog :: ip :: portText :: threadsText :: args))
    (λ b w', b = false ∧ resting l s (S s) (S (S s)) s s
       ({[lfd]} ∪ ({[efd]} ∪ ({[tfd]} ∪ ({[ep]} ∪ open_fds (io_k (w_io w)))))) n w') w.
Proof.
  intros Hblank Hlen Hcol Hport Hthreads Hone Hfds Hpos Hn Hmax l s.
  pose proof (opening_facts _ _ _ _ _ _ _ Hfds Hpos) as Ho. cbv zeta in Ho. fold l in Ho.
  pose proof Ho as [Hnew (Hep & Htfd & Hefd & _ & _) Hopen _ _ _].
  cbn [server_main]. apply wpx_bind. unfold server_setup. apply wpx_bind_wp. rewrite Hport. apply wp_ret.
  apply wpx_bind_wp, InetAddress_ipv4_wp; [done|done|]. intros addr io0 Hfam [_ Hk0].
  change (replay [] _) with (io_k (w_io w)) in Hk0.
  destruct (toIpPort_ipv4_short addr Hfam) as (text & Htext & Hshort).
  apply wpx_bind_wp. rewrite Hthreads. apply wp_ret.
  assert (io_k (w_io (with_io io0 w)) = io_k (w_io w)) as E0 by exact Hk0.
  apply wpx_bind_wp. eapply (EventLoop_ctor_only_wp l ind ep tfd efd (with_io io0 w));
    rewrite ?E0; [by destruct Hblank|done|exact Hnew|done|done|done|exact Hopen|].
  intros w1 Honly Hk. rewrite <- Hopen, <- Hk. rewrite <- Hk in Ho.
  eapply (server_opens_wp l text lfd dfd _ (λ server, mret (l, server))); [exact Honly|exact Ho|done|done|done|done|..].
  3:{ intros w4 Hw4. apply wpx_ret, wpx_bind. eapply wpx_mono; [eapply resting_loop_wp; [exact Hn|exact Hw4]|].
      intros b w5 [-> Hw5]. by apply wpx_wp, wp_bind, wp_ret, wp_ret. }
  - lia.
  - lia.
Qed.

(** C2: what can stop the echo server, and that nothing of it is lost.  Start the
    program of example/pingpong/server.cc with an IPv4 address and one thread, the kernel
    having five descriptors for it and granting what is asked of [epoll_ctl]
    ([EpollRoom]).  However many rounds the loop makes, fewer than there are connection
    numbers, and whatever the kernel answers otherwise (connections in any number that
    come, send, hang up or break in any order, any result of any other system call, the
    process running out of descriptors), there are three outcomes.  The server goes on:
    no object is used after it is gone, no index is out of range, and after the last round
    its connections are those in the server's map, each of them up, and the open
    descriptors are those there were at first, the loop's three, the listening one, the
    acceptor's spare one, and one for each connection.  Or SIGPIPE, which the code leaves
    at its default, ends it at a write to a peer that is gone; never, if the process was
    started with the signal ignored.  Or a connection is closed twice, which an assertion
    finds; never, if the kernel reports no hang-up with PRI or RDHUP but without IN. *)
Theorem server_main_keeps_serving (d : disposition) (rounds : nat) before ind run_thread prog ip portText
    threadsText args port threads ep tfd efd lfd dfd w
    (Hblank : blank w) (Hbefore : length before = sizeof_sockaddr) (Hip : has_colon ip = false)
    (Hport : atoi portText = Ok port) (Hthreads : atoi threadsText = Ok threads) (Hone : threads ≤ 1)
    (Hfds : opening_descriptors (io_k (w_io w)) (w_next w) = [ep; tfd; efd; lfd; dfd])
    (Hopened : Forall (Z.le 0) [ep; tfd; efd; lfd; dfd]) (Hrounds : 1 + Z.of_nat rounds < 2 ^ 31) :
  let run := as_process d
    (server_main rounds before ind 0 run_thread (prog :: ip :: portText :: threadsText :: args)) w in
  (∃ w' s x ac, run = Ok (false, w')
    ∧ w_servers w' = {[s := x]} ∧ w_acceptors w' !! S s = Some ac
    ∧ (∀ c, is_Some (w_conns w' !! c) ↔ ∃ name, sv_connections x !! name = Some c)
    ∧ (∀ c y, w_conns w' !! c = Some y → tc_state y = kConnected)
    ∧ ∀ fd, fd ∈ open_fds (io_k (w_io w')) ↔
        fd ∈ open_fds (io_k (w_io w)) ∨ fd ∈ [ep; tfd; efd; lfd] ∨ (0 ≤ fd ∧ fd = ac_idleFd ac)
        ∨ ∃ c y, w_conns w' !! c = Some y ∧ tc_socket y = fd)
  ∨ (run = Fault (Terminated "SIGPIPE") ∧ d = SIG_DFL)
  ∨ (run = Fault (AssertFailed "TcpConnection.cpp:198") ∧ mixed_hangups).
Proof.
  cbv zeta. pose proof (server_main_wp rounds before ind run_thread prog ip portText threadsText args port threads
    ep tfd efd lfd dfd 0 w Hblank Hbefore Hip Hport Hthreads Hone Hfds Hopened ltac:(done) ltac:(lia)) as Hwp.
  apply (as_process_wpx d) in Hwp.
  destruct Hwp as [(b & w' & Hrun & -> & Hr)|[(Hrun & Hd)|(e & Hrun & -> & Hm)]];
    [left|right; by left|right; by right].
  destruct (resting_inventory _ _ _ _ _ _ _ _ _ Hr) as (x & ac & Hs & Ha & Hmap & Hup & Ho).
  exists w', (S (S (S (w_next w)))), x, ac. split_and!; [exact Hrun|exact Hs|exact Ha|exact Hmap|exact Hup|].
  intros fd. rewrite Ho, !elem_of_union, !elem_of_singleton, !elem_of_cons, elem_of_nil. tauto.
Qed.
End main.

(** *** Echo.v's client, on a kernel that keeps the open descriptors

    0, 1 and 2 are open when the program starts.  In round 1 the client is accepted
    as descriptor 8, in round 2 it sends "ab" and the kernel
    takes one byte of the answer, in round 3 the other. *)

#[local] Existing Instance sample_inet.
#[local] Existing Instance sample_inet_laws.

Definition opening_world : World fsim :=
  mkWorld (mkReactor (mkIO (mkFsim (mkSim server_script ∅) {[0; 1; 2]}) [] 0 []) ∅ ∅)
    7%nat ∅ ∅ ∅ ∅ ∅ ∅ ∅ ∅ ∅ no_app ∅ [] 10%nat 0 50%nat [].

Definition server_args : list string := ["server"; "127.0.0.1"; "8080"; "1"].

Example opening_scenario :
  match server_main 3 zero_addr false 0 (λ _, mret tt) server_args opening_world with
  | Ok (b, w') => Some (b, elements (open_fds (io_k (w_io w'))), size (w_conns w'), w_calls w')
  | Fault _ => None
  end = Some (false, [7; 5; 3; 6; 8; 4; 2; 1; 0], 1%nat, [UcConnection 13 17 true; UcMessage 13 17 0]).
Proof. by vm_compute. Qed.

(** The two other outcomes, after the client is accepted: the peer has reset the
    connection when "ab" is to go back, and a hang-up is reported with urgent data and no input. *)
Definition opening_scripted (script : list sysres) : World fsim :=
  set_w_r (mkReactor (mkIO (mkFsim (mkSim (take 15 server_script ++ script) ∅) {[0; 1; 2]}) [] 0 []) ∅ ∅)
    opening_world.

(** [SocketsOps.cpp:145] writes without [MSG_NOSIGNAL], and nothing ignores the signal. *)
Example write_to_a_reset_peer_ends_the_server :
  let script := [event 18 POLLIN; plain 0; mkRes 2 0 [x61; x62] []; mkRes (-1) EPIPE [] []] in
  let run d := as_process d (server_main 2 zero_addr false 0 (λ _, mret tt) server_args)
                 (opening_scripted script) in
  run SIG_DFL = Fault (Terminated "SIGPIPE")
  ∧ (match run SIG_IGN with Ok (b, w') => Some (b, size (w_conns w')) | Fault _ => None end) = Some (false, 1%nat).
Proof. by vm_compute. Qed.

(** [Channel.cpp:140-155] calls [handleClose], and then [handleRead], which meets the end
    of the stream and calls it again. *)
Example hangup_without_input_closes_twice :
  let script := [event 18 (Z.lor POLLHUP POLLPRI); plain 0; plain 0] in
  server_main 2 zero_addr false 0 (λ _, mret tt) server_args (opening_scripted script)
  = Fault (AssertFailed "TcpConnection.cpp:198").
Proof. by vm_compute. Qed.

Lemma server_main_keeps_serving_witness :
  ∃ w' s x ac,
    as_process SIG_DFL (server_main 3 zero_addr false 0 (λ _, mret tt) server_args) opening_world = Ok (false, w')
    ∧ w_servers w' = {[s := x]} ∧ w_acceptors w' !! S s = Some ac
    ∧ (∀ c y, w_conns w' !! c = Some y → tc_state y = kConnected).
Proof.
  destruct (server_main_keeps_serving SIG_DFL 3 zero_addr false (λ _, mret tt) "server" "127.0.0.1" "8080" "1" []
    8080 1 3 4 5 6 7 opening_world)
    as [(w' & s & x & ac & Hrun & Hs & Ha & _ & Hup & _)|[[Hrun _]|[Hrun _]]].
  - by split.
  - reflexivity.
  - reflexivity.
  - reflexivity.
  - reflexivity.
  - done.
  - by vm_compute.
  - by repeat constructor.
  - done.
  - exists w', s, x, ac. split_and!; [exact Hrun|exact Hs|exact Ha|exact Hup].
  - by vm_compute in Hrun.
  - by vm_compute in Hrun.
Defined.
