(* ===== verification/Handover.v ===== *)
(** * Handover: what one thread asks of another

    The steps of a server of several threads that end in another loop's queue: a new
    connection is handed to its loop, a closed one is handed back to the server's
    loop, and from there to its own again.  Each is the change of the heap it comes
    to, with a functor queued on the other loop, which is woken. *)
From S2P Require Import Prelude Endian Buffer OS Descriptors Double Objects Poller LoopCore Channel TimerQueue Sockets Calls TcpConnection ByteStream Lifecycle EventLoop Threads Acceptor Connector TcpServer TcpClient Program PingPong Serving.

Set Default Goal Selector "!".

Abbreviation all_harmless calls := (Forall (λ cr : syscall * sysres, harmless cr.1 = true) calls).

Section queueing.
Context {K : Type} `{!OS K} {P : Poller K}.
Implicit Types w : World K.

(** [wakeup] and [queueInLoop], as calls that touch no interest list and open nothing. *)
Lemma wakeup_by_wp l x (Q : unit → World K → Prop) w :
  w_loops w !! l = Some x →
  (∀ io calls, io_by calls (w_io w) io → all_harmless calls → Q tt (with_io io w)) → wp (wakeup l) Q w.
Proof.
  intros Hl HQ. apply wp_bind. eapply get_loop_wp; [exact Hl|].
  apply wp_bind, call_wp. set (c := SysWrite _ _). apply wp_when; intros _; [apply log_after_call|];
    rewrite after_call_same; (eapply HQ; [apply io_by_call|by repeat constructor]).
Qed.

Lemma queueInLoop_by_wp l x f (Q : unit → World K → Prop) w :
  w_loops w !! l = Some x → f ≠ FnEmpty →
  (∀ io calls, io_by calls (w_io w) io → all_harmless calls → Q tt (with_io io (enqueue l x f w))) →
  wp (queueInLoop l f) Q w.
Proof.
  intros Hl Hf HQ. unfold queueInLoop. rewrite bool_decide_false by done. apply wp_bind, wp_ret.
  apply wp_bind. eapply upd_loop_wp; [exact Hl|]. fold (enqueue l x f w).
  assert (w_loops (enqueue l x f w) !! l = Some (set_el_pendingFunctors (el_pendingFunctors x ++ [f]) x))
    as Hl' by (simpl; by rewrite lookup_insert_eq).
  apply wp_bind. eapply isInLoopThread_wp; [exact Hl'|]. apply wp_bind. eapply get_loop_wp; [exact Hl'|].
  apply wp_when; intros _.
  - eapply wakeup_by_wp; [exact Hl'|exact HQ].
  - rewrite <- (with_io_id (enqueue l x f w)). by eapply HQ; [apply io_by_nil|constructor].
Qed.

(** [runInLoop] from another thread. *)
Lemma runInLoop_elsewhere_wp l x f body (Q : unit → World K → Prop) w :
  w_loops w !! l = Some x → el_threadId x ≠ w_tid w → f ≠ FnEmpty →
  (∀ io calls, io_by calls (w_io w) io → all_harmless calls → Q tt (with_io io (enqueue l x f w))) →
  wp (runInLoop l f body) Q w.
Proof.
  intros Hl Ht Hf HQ. apply wp_bind. eapply isInLoopThread_wp; [exact Hl|]. rewrite bool_decide_false by done.
  by eapply queueInLoop_by_wp.
Qed.
End queueing.

(** ** A new connection *)

Section handing.
Context {K : Type} `{!OS K} {P : Poller K} `{Inet}.
Context (user : UserCall → M (World K) unit).
Implicit Types w : World K.

(** The connection, not established yet. *)
Definition handed_conn (s : ptr) (x : TcpServer) (home : ptr) (sockfd : Z) (channel : ptr)
    (localAddr peerAddr : sockaddr) : TcpConnection :=
  set_tc_closeCallback (Some (CcTcpServer_removeConnection s))
    (set_tc_writeCompleteCallback (sv_writeCompleteCallback x)
    (set_tc_messageCallback (Some (sv_messageCallback x))
    (set_tc_connectionCallback (Some (sv_connectionCallback x))
    (new_conn home (server_conn_name (sv_name x) (sv_ipPort x) (sv_nextConnId x)) sockfd channel
       localAddr peerAddr)))).

(** The world with connection [w_next w] of loop [home] in the server's map; the
    pool, which hands out loops in turn, has become [pl]. *)
Definition handed (s : ptr) (x : TcpServer) (pl : EventLoopThreadPool) (home : ptr) (sockfd : Z)
    (localAddr peerAddr : sockaddr) w : World K :=
  let conn := w_next w in
  set_w_conns (<[conn := handed_conn s x home sockfd (S conn) localAddr peerAddr]> (w_conns w))
    (set_w_r (set_r_chans (<[S conn := new_chan home conn sockfd]> (r_chans (w_r w))) (w_r w))
    (set_w_servers (<[s := after_accept conn x]> (w_servers w))
    (set_w_pools (<[sv_threadPool x := pl]> (w_pools w)) (set_w_next (S (S conn)) w)))).

(** [newConnection] when the next loop is another thread's. *)
Lemma newConnection_handed_wp s x pl i home hx lx sockfd peer (Q : unit → World K → Prop) w :
  w_servers w !! s = Some x → w_loops w !! sv_loop x = Some lx → el_threadId lx = w_tid w →
  w_pools w !! sv_threadPool x = Some pl → pl_baseLoop pl = sv_loop x →
  Z.of_nat (length (pl_loops pl)) < 2 ^ 31 → pl_next pl = Z.of_nat i → pl_loops pl !! i = Some home →
  w_loops w !! home = Some hx → el_threadId hx ≠ w_tid w →
  sv_nextConnId x < 2 ^ 31 - 1 →
  sv_connections x !! server_conn_name (sv_name x) (sv_ipPort x) (sv_nextConnId x) = None →
  (∀ la io calls, io_by calls (w_io w) io → all_harmless calls →
     Q tt (with_io io (enqueue home hx (FnTcpConnection_connectEstablished (w_next w))
       (handed s x (pool_at (succ_mod (length (pl_loops pl)) i) pl) home sockfd la peer w)))) →
  wp (TcpServer_newConnection user s sockfd peer) Q w.
Proof.
  intros Hs Hl Ht Hpl Hbase Hlen Hi Hhome Hhx Hth Hid Hname HQ. set (conn := w_next w).
  set (name := server_conn_name _ _ _) in Hname.
  apply wp_bind. eapply get_server_wp; [exact Hs|].
  apply wp_bind. eapply assertInLoopThread_here; [exact Hl|exact Ht|].
  apply wp_bind. eapply (getNextLoop_wp _ pl i home); [|exact Hi|exact Hhome|].
  { split; [exact Hpl|rewrite Hbase; by eexists|exact Hlen]. }
  cbv zeta. intros _. set (pl' := pool_at _ pl).
  apply wp_bind. unfold next_conn_id. rewrite (proj2 (Z.ltb_lt _ _)) by exact Hid. apply wp_ret.
  apply wp_bind. eapply upd_server_wp; [exact Hs|]. fold name.
  apply wp_bind, getLocalAddr_wp. intros la r io _ Hio.
  apply wp_bind, TcpConnection_ctor_wp. intros r' io' Hio'. cbn [w_next with_io set_w_r set_w_servers set_w_pools].
  fold conn. apply wp_bind. eapply enter_connection_wp; [simpl; by rewrite lookup_insert_eq|exact Hname|].
  simpl. rewrite insert_insert_eq.
  apply wp_bind. eapply get_server_wp; [simpl; by rewrite lookup_insert_eq|].
  do 4 (apply wp_bind; eapply upd_conn_wp; [simpl; by rewrite lookup_insert_eq|]; simpl;
        rewrite insert_insert_eq).
  eapply runInLoop_elsewhere_wp; [exact Hhx|exact Hth|done|]. intros io2 calls Hio2 Hall.
  eapply (HQ la io2); [exact (io_by_app _ _ _ _ _ (io_by_app _ _ _ _ _ Hio Hio') Hio2)|].
  apply Forall_app. by repeat constructor.
Qed.

(** ** A closed connection *)

Context (Huser : leaves_closed_alone user).

(** The world when [handleClose] comes to the close callback, [r] being the reactor
    after its [disableAll]. *)
Definition disconnected (c : ptr) (y : TcpConnection) (cb : ConnectionCallback) (r : Reactor K) w : World K :=
  set_w_calls (w_calls w ++ heard cb c false)
    (set_w_r r (set_w_conns (<[c := set_tc_state kDisconnected y]> (w_conns w)) w)).

(** [handleClose] of a connection of another loop than the server's. *)
Lemma handleClose_handed_wp s x c y ch bx cb (D : Reactor K → Prop) (Q : unit → World K → Prop) w :
  conn_core c y ch w → closable (tc_state y) = true →
  w_servers w !! s = Some x → tc_closeCallback y = Some (CcTcpServer_removeConnection s) →
  tc_connectionCallback y = Some cb →
  w_loops w !! sv_loop x = Some bx → el_threadId bx ≠ w_tid w →
  (let w1 := set_w_conns (<[c := set_tc_state kDisconnected y]> (w_conns w)) w in
   wp (disableAll (tc_channel y)) (λ _ w2, w2 = set_w_r (w_r w2) w1 ∧ D (w_r w2)) w1) →
  (∀ r io calls, D r → io_by calls (r_io r) io → all_harmless calls →
     Q tt (with_io io (enqueue (sv_loop x) bx (FnTcpServer_removeConnectionInLoop s c)
             (disconnected c y cb r w)))) →
  wp (handleClose user close_callback c) Q w.
Proof.
  intros Hcore Hst Hs Hclose Hcb Hb Ht Hdis HQ.
  apply wp_bind. eapply conn_assertInLoopThread_wp; [exact Hcore|].
  apply wp_bind. eapply get_conn_wp; [apply Hcore|]. apply wp_bind, wp_assert; [exact Hst|].
  apply wp_bind. eapply upd_conn_wp; [apply Hcore|].
  apply wp_bind. eapply wp_mono; [exact Hdis|]. intros [] w2 [E HD].
  set (y' := set_tc_state kDisconnected y) in *. set (w1 := set_w_conns _ w) in *.
  assert (w_conns w2 !! c = Some y') as Hy' by (rewrite E; simpl; by rewrite lookup_insert_eq).
  apply wp_bind. eapply (closed_connectionCallback_wp user Huser c y' cb); [exact Hy'|done|exact Hcb|].
  apply wp_bind. eapply wp_gets_some; [exact Hy'|].
  cbn [tc_closeCallback y' set_tc_state]. rewrite Hclose. cbn [close_callback].
  apply wp_bind. eapply get_server_wp; [rewrite E; exact Hs|].
  eapply runInLoop_elsewhere_wp; [rewrite E; exact Hb|rewrite E; exact Ht|done|].
  intros io calls Hio Hall. eapply HQ in Hio; [|exact HD|exact Hall].
  enough (set_w_calls (w_calls w2 ++ heard cb c false) w2 = disconnected c y cb (w_r w2) w) as -> by exact Hio.
  by rewrite E.
Qed.

(** [removeConnectionInLoop]: the server forgets a connection of loop [tc_loop y]. *)
Lemma removeConnectionInLoop_wp s x c y lx hx (Q : unit → World K → Prop) w :
  w_conns w !! c = Some y → w_servers w !! s = Some x → sv_connections x !! tc_name y = Some c →
  w_loops w !! sv_loop x = Some lx → el_threadId lx = w_tid w → w_loops w !! tc_loop y = Some hx →
  (∀ io calls, io_by calls (w_io w) io → all_harmless calls →
     Q tt (with_io io (enqueue (tc_loop y) hx (FnTcpConnection_connectDestroyed c)
             (set_w_servers (<[s := forget y x]> (w_servers w)) w)))) →
  wp (removeConnectionInLoop s c) Q w.
Proof.
  intros Hc Hs Hin Hl Ht Hhx HQ.
  apply wp_bind. eapply get_server_wp; [exact Hs|].
  apply wp_bind. eapply assertInLoopThread_here; [exact Hl|exact Ht|].
  apply wp_bind. eapply wp_gets_some; [exact Hc|].
  apply wp_bind. eapply upd_server_wp; [exact Hs|]. fold (forget y x).
  apply wp_bind, wp_assert; [rewrite Hin; by apply bool_decide_eq_true|].
  by eapply queueInLoop_by_wp.
Qed.
End handing.
