(* ===== verification/Roster.v ===== *)
(** * Roster: the connections of a server of several threads

    The echo server of PingPong.v with a loop for the listening socket and others for
    the connections, at any moment of its run: where each connection is on its way
    from one loop to the other, and what waits for it in a loop's queue.  Like
    Table.v it is about the maps of the heap; Crew.v ties them to the world and to the
    threads' steps. *)
From S2P Require Import Prelude Endian Buffer OS Descriptors Double Objects Poller LoopCore Channel TimerQueue Sockets Calls TcpConnection ByteStream Lifecycle EventLoop Threads Acceptor Connector TcpServer TcpClient Program PingPong Serving Echo Isolation Running Table.

Set Default Goal Selector "!".

(** Where a connection is: handed to its loop but not established there; up; closed by
    its loop and handed back to the server's; out of the server's map and handed to its
    loop again; out of the poller, its last pointers about to go. *)
Inductive status : Type :=
  | Arriving (home : ptr)
  | Served
  | Parting
  | Dying (home : ptr)
  | Gone.

#[export] Instance status_eq_dec : EqDecision status.
Proof. solve_decision. Defined.

(** The server's map has it. *)
Definition listed (k : status) : bool :=
  match k with Arriving _ | Served | Parting => true | Dying _ | Gone => false end.

Section roster.
Context {hangups : Hangups}.
Context (lb s a achan : ptr) (ios : list ptr) (idc idm : nat) (base : gset Z).

(** ** What waits in the queues *)

(** The functor that is due for connection [c], and on which loop. *)
Definition due (c : ptr) (k : status) : option (ptr * Functor) :=
  match k with
  | Arriving home => Some (home, FnTcpConnection_connectEstablished c)
  | Parting => Some (lb, FnTcpServer_removeConnectionInLoop s c)
  | Dying home => Some (home, FnTcpConnection_connectDestroyed c)
  | Served | Gone => None
  end.

Lemma due_holds c k l f : due c k = Some (l, f) → functor_holds f = Some c.
Proof. destruct k; simpl; by intros [= <- <-]. Qed.

Lemma due_not_empty c k l f : due c k = Some (l, f) → f ≠ FnEmpty.
Proof. destruct k; simpl; by intros [= <- <-]. Qed.

(** [Q l] are the functors that loop [l] has yet to run: exactly those that are due,
    each once. *)
Definition queues (Q : ptr → list Functor) (st : gmap ptr status) : Prop :=
  ∀ l, NoDup (Q l) ∧ ∀ f, f ∈ Q l ↔ ∃ c k, st !! c = Some k ∧ due c k = Some (l, f).

Lemma queues_ext Q Q' st : (∀ l, Q' l = Q l) → queues Q st → queues Q' st.
Proof. intros E HQ l. rewrite E. apply HQ. Qed.

(** Which connection a functor is for. *)
Lemma queues_head Q st l f fs :
  queues Q st → Q l = f :: fs → ∃ c k, st !! c = Some k ∧ due c k = Some (l, f).
Proof. intros HQ E. apply (HQ l). rewrite E. by left. Qed.

(** A functor runs, and nothing is due for its connection any more. *)
Lemma queues_pop Q Q' st l f fs c k k' :
  queues Q st → st !! c = Some k → due c k = Some (l, f) → due c k' = None →
  Q l = f :: fs → Q' l = fs → (∀ l', l' ≠ l → Q' l' = Q l') → queues Q' (<[c := k']> st).
Proof.
  intros HQ Hc Hd Hd' El El' Eo l'. destruct (HQ l') as [Hnd Hin].
  assert (∀ l0 g c0 k0, <[c := k']> st !! c0 = Some k0 ∧ due c0 k0 = Some (l0, g) ↔
    c0 ≠ c ∧ st !! c0 = Some k0 ∧ due c0 k0 = Some (l0, g)) as Hst.
  { intros l0 g c0 k0. destruct (decide (c = c0)) as [<-|Hne].
    - rewrite lookup_insert_eq. split; [intros [[= <-] ?]; congruence|by intros []].
    - rewrite lookup_insert_ne by done. split; [by intros []|by intros (_ & ? & ?)]. }
  destruct (decide (l' = l)) as [->|Hne].
  - rewrite El' in *. rewrite El in Hnd, Hin. apply NoDup_cons in Hnd as [Hf Hnd]. split; [done|].
    intros g. split.
    + intros Hg. destruct (proj1 (Hin g)) as (c0 & k0 & Hc0 & Hd0); [by right|]. exists c0, k0.
      apply Hst. split_and!; [|done|done]. intros ->. assert (k0 = k) as -> by congruence. congruence.
    + intros (c0 & k0 & (Hne & Hc0 & Hd0)%Hst).
      assert (g ∈ f :: fs) as [->|?]%elem_of_cons by (apply Hin; eauto); [exfalso|done].
      apply Hne. apply due_holds in Hd, Hd0. congruence.
  - rewrite Eo by done. split; [done|]. intros g. rewrite Hin. split; intros (c0 & k0 & H); exists c0, k0.
    + apply Hst. destruct H as [Hc0 Hd0]. split_and!; [|done|done]. intros ->. assert (k0 = k) as -> by congruence. congruence.
    + by apply Hst in H as (_ & ? & ?).
Qed.

(** A functor is queued for a connection for which nothing was due. *)
Lemma queues_push Q Q' st l f c k' :
  queues Q st → (∀ k, st !! c = Some k → due c k = None) → due c k' = Some (l, f) →
  Q' l = Q l ++ [f] → (∀ l', l' ≠ l → Q' l' = Q l') → queues Q' (<[c := k']> st).
Proof.
  intros HQ Hc Hd' El Eo l'. destruct (HQ l') as [Hnd Hin].
  assert (∀ g l0, f = g → ¬ ∃ c0 k0, st !! c0 = Some k0 ∧ due c0 k0 = Some (l0, g)) as Hnew.
  { intros g l0 <- (c0 & k0 & Hc0 & Hd0). assert (c0 = c) as ->
      by (apply due_holds in Hd', Hd0; congruence). rewrite (Hc _ Hc0) in Hd0. done. }
  assert (∀ l0 g, (∃ c0 k0, <[c := k']> st !! c0 = Some k0 ∧ due c0 k0 = Some (l0, g)) ↔
    (l0 = l ∧ g = f) ∨ ∃ c0 k0, st !! c0 = Some k0 ∧ due c0 k0 = Some (l0, g)) as Hst.
  { intros l0 g. split.
    - intros (c0 & k0 & Hc0 & Hd0). destruct (decide (c = c0)) as [<-|Hne].
      + rewrite lookup_insert_eq in Hc0. injection Hc0 as <-. left. by simplify_eq.
      + rewrite lookup_insert_ne in Hc0 by done. right. by exists c0, k0.
    - intros [[-> ->]|(c0 & k0 & Hc0 & Hd0)]; [exists c, k'; by rewrite lookup_insert_eq|].
      exists c0, k0. rewrite lookup_insert_ne; [done|]. intros <-. rewrite (Hc _ Hc0) in Hd0. done. }
  destruct (decide (l' = l)) as [->|Hne].
  - rewrite El. split.
    + apply NoDup_app. split_and!; [done| |by repeat constructor; apply not_elem_of_nil].
      intros g Hg ->%list_elem_of_singleton. by apply Hin, (Hnew f l) in Hg.
    + intros g. rewrite elem_of_app, list_elem_of_singleton, Hst, Hin. tauto.
  - rewrite Eo by done. split; [done|]. intros g. rewrite Hst, Hin. tauto.
Qed.

(** Nothing is due for the connection before and after. *)
Lemma queues_same Q st st' :
  queues Q st → (∀ c l f, (∃ k, st' !! c = Some k ∧ due c k = Some (l, f))
                        ↔ ∃ k, st !! c = Some k ∧ due c k = Some (l, f)) → queues Q st'.
Proof.
  intros HQ E l. destruct (HQ l) as [Hnd Hin]. split; [done|]. intros f. rewrite Hin.
  split; intros (c & H); exists c; by apply E.
Qed.

Lemma queues_idle Q st c k k' :
  queues Q st → st !! c = Some k → due c k = None → due c k' = None → queues Q (<[c := k']> st).
Proof.
  intros HQ Hc Hd Hd'. eapply queues_same; [done|]. intros c0 l f.
  destruct (decide (c = c0)) as [<-|Hne]; [|by rewrite lookup_insert_ne].
  rewrite lookup_insert_eq, Hc. split; intros (k0 & [= <-] & E); congruence.
Qed.

Lemma queues_delete Q st c k :
  queues Q st → st !! c = Some k → due c k = None → queues Q (delete c st).
Proof.
  intros HQ Hc Hd. eapply queues_same; [done|]. intros c0 l f.
  destruct (decide (c = c0)) as [<-|Hne]; [|by rewrite lookup_delete_ne].
  rewrite lookup_delete_eq, Hc. split; intros (k0 & E & E'); [done|]. injection E as <-. congruence.
Qed.

(** ** The connections *)

(** The channel of connection [y] at [c]. *)
Record filed (c : ptr) (y : TcpConnection) (ch : Channel) : Prop := {
  fl_loop : ch_loop ch = tc_loop y;
  fl_fd : ch_fd ch = tc_socket y;
  fl_read : ch_readCallback ch = Some (CbTcpConnection_handleRead c)
}.

Lemma placed_filed c y ch : placed (tc_loop y) c y ch → filed c y ch.
Proof. intros [H1 H2 H3 [] _ _]. by split. Qed.

Definition unwatched (ch : Channel) : Prop := ch_index ch = EPollPoller.kDeleted.

(** Connection [y] at [c] with its channel [ch], [n] steps of the threads being left. *)
Definition stands (n : Z) (x : TcpServer) (c : ptr) (y : TcpConnection) (ch : Channel) (k : status) : Prop :=
  match k with
  | Arriving home => home = tc_loop y ∧ tc_state y = kConnecting
      ∧ placed (tc_loop y) c y (tie_channel c ch) ∧ ch_events ch = kNoneEvent ∧ ch_index ch = EPollPoller.kNew
      ∧ up s idc idm (event_bytes * n) x c (set_tc_state kConnected y) (set_ch_events kReadEvent ch)
  | Served => placed (tc_loop y) c y ch ∧ up s idc idm (event_bytes * n) x c y ch ∧ waiting ch
  | Parting => placed (tc_loop y) c y ch ∧ down unwatched y ch ∧ sv_connections x !! tc_name y = Some c
  | Dying home => home = tc_loop y ∧ placed (tc_loop y) c y ch ∧ down unwatched y ch
  | Gone => placed (tc_loop y) c y ch ∧ down unregistered y ch
  end.

Lemma stands_filed n x c y ch k : stands n x c y ch k → filed c y ch.
Proof.
  destruct k; simpl.
  - intros (_ & _ & [H1 H2 H3]%placed_filed & _). by split.
  - by intros (?%placed_filed & _).
  - by intros (?%placed_filed & _).
  - by intros (_ & ?%placed_filed & _).
  - by intros (?%placed_filed & _).
Qed.

(** It is under its name in the map. *)
Lemma stands_listed n x c y ch k :
  stands n x c y ch k → listed k = true → sv_connections x !! tc_name y = Some c.
Proof.
  destruct k; simpl; try done.
  - intros (_ & _ & _ & _ & _ & Hup) _. exact (up_entry _ _ _ _ _ _ _ _ Hup).
  - intros (_ & Hup & _) _. exact (up_entry _ _ _ _ _ _ _ _ Hup).
  - by intros (_ & _ & ?) _.
Qed.

Lemma up_server room room' x x' c y ch :
  up s idc idm room x c y ch → room' ≤ room → sv_connections x' !! tc_name y = Some c →
  up s idc idm room' x' c y ch.
Proof. intros [] Hr He. split; try done. lia. Qed.

(** Fewer steps are left, and the map may have changed. *)
Lemma stands_less n n' x x' c y ch k :
  stands n x c y ch k → n' ≤ n →
  (listed k = true → sv_connections x' !! tc_name y = Some c) → stands n' x' c y ch k.
Proof.
  intros Hs Hn He. assert (event_bytes * n' ≤ event_bytes * n) by (unfold event_bytes, sizeof_extrabuf; lia).
  destruct k; simpl in *; [| | |done..].
  - destruct Hs as (H1 & H2 & H3 & H4 & H5 & H6). split_and!; try done. eapply up_server; [done|done|by apply He].
  - destruct Hs as (H1 & H2 & H3). split_and!; try done. eapply up_server; [done|done|by apply He].
  - destruct Hs as (H1 & H2 & H3). split_and!; [done..|by apply He].
Qed.

Lemma up_binding room x c y ch ch' :
  ch_events ch' = ch_events ch → up s idc idm room x c y ch → up s idc idm room x c y ch'.
Proof. intros E []. split; try done. unfold writing_iff_pending, isWriting in *. by rewrite E. Qed.

Lemma tie_binding c ch ch' : same_binding ch ch' → same_binding (tie_channel c ch) (tie_channel c ch').
Proof. intros []. by split. Qed.

Lemma stands_binding n x c y ch ch' k : same_binding ch ch' → stands n x c y ch k → stands n x c y ch' k.
Proof.
  intros Hb. pose proof (sb_events _ _ Hb) as Ee. pose proof (sb_index _ _ Hb) as Ei.
  destruct k; simpl.
  - intros (H1 & H2 & H3 & H4 & H5 & H6). split_and!; [done|done| |congruence|congruence|].
    + eapply placed_binding; [|done]. by apply tie_binding.
    + by eapply up_binding; [|done].
  - intros (H1 & H2 & H3 & H4). split_and!; [by eapply placed_binding|by eapply up_binding|].
    unfold waiting, isReading in *. by rewrite Ee, Ei.
  - intros (H1 & [D1 D2 D3] & H3). split_and!; [by eapply placed_binding| |done].
    split; [done|congruence|unfold unwatched in *; congruence].
  - intros (H1 & H2 & [D1 D2 D3]). split_and!; [done|by eapply placed_binding|].
    split; [done|congruence|unfold unwatched in *; congruence].
  - intros (H1 & [D1 D2 D3]). split; [by eapply placed_binding|].
    split; [done|congruence|unfold unregistered in *; congruence].
Qed.

(** All of them; [next] is the next fresh pointer. *)
Record roster (n : Z) (st : gmap ptr status) (x : TcpServer) (conns : gmap ptr TcpConnection)
    (chans : gmap ptr Channel) (next : ptr) : Prop := {
  rs_conn : ∀ c y, conns !! c = Some y → ∃ ch k, chans !! tc_channel y = Some ch
    ∧ st !! c = Some k ∧ tc_loop y ∈ ios ∧ stands n x c y ch k;
  rs_status : ∀ c k, st !! c = Some k → is_Some (conns !! c);
  rs_map : ∀ name c, sv_connections x !! name = Some c →
    ∃ y k, conns !! c = Some y ∧ tc_name y = name ∧ st !! c = Some k ∧ listed k = true;
  rs_chans : ∀ q ch, chans !! q = Some ch →
    ch_loop ch ∈ lb :: ios ∧ own_channel (ch_loop ch) ch ∧ ch_fd ch ∈ base
    ∨ q = achan ∧ ch_loop ch = lb ∧ accepts a ch ∧ ch_fd ch ∈ base
    ∨ ∃ c y, conns !! c = Some y ∧ tc_channel y = q;
  rs_fresh : ∀ q, (next ≤ q)%nat → conns !! q = None ∧ chans !! q = None;
  rs_names : ∀ name c, sv_connections x !! name = Some c →
    ∃ i, 0 ≤ i < sv_nextConnId x ∧ name = server_conn_name (sv_name x) (sv_ipPort x) i;
  rs_ids : 0 ≤ n ∧ 0 ≤ sv_nextConnId x ∧ sv_nextConnId x + n < 2 ^ 31;
  rs_listening : ∃ ch, chans !! achan = Some ch ∧ accepts a ch
}.

(** *** Reading it *)

Lemma roster_chan n st x conns chans next c y ch :
  roster n st x conns chans next → conns !! c = Some y → chans !! tc_channel y = Some ch →
  ∃ k, st !! c = Some k ∧ tc_loop y ∈ ios ∧ stands n x c y ch k.
Proof.
  intros Hr Hy Hch. destruct (rs_conn _ _ _ _ _ _ Hr c y Hy) as (ch' & k & Hch' & Hk & Hin & Hs).
  assert (ch' = ch) as -> by congruence. by exists k.
Qed.

Lemma roster_at n st x conns chans next c k :
  roster n st x conns chans next → st !! c = Some k →
  ∃ y ch, conns !! c = Some y ∧ chans !! tc_channel y = Some ch ∧ tc_loop y ∈ ios ∧ stands n x c y ch k.
Proof.
  intros Hr Hk. destruct (rs_status _ _ _ _ _ _ Hr c k Hk) as [y Hy].
  destruct (rs_conn _ _ _ _ _ _ Hr c y Hy) as (ch & k' & Hch & Hk' & Hin & Hs).
  assert (k' = k) as -> by congruence. by exists y, ch.
Qed.

Lemma roster_filed n st x conns chans next c y ch :
  roster n st x conns chans next → conns !! c = Some y → chans !! tc_channel y = Some ch → filed c y ch.
Proof. intros Hr Hy Hch. destruct (roster_chan _ _ _ _ _ _ _ _ _ Hr Hy Hch) as (k & _ & _ & Hs). by eapply stands_filed. Qed.

Lemma roster_chan_inj n st x conns chans next c c' y y' :
  roster n st x conns chans next → conns !! c = Some y → conns !! c' = Some y' →
  tc_channel y = tc_channel y' → c = c'.
Proof.
  intros Hr Hy Hy' E. destruct (rs_conn _ _ _ _ _ _ Hr c y Hy) as (ch & k & Hch & _ & _ & F%stands_filed).
  rewrite E in Hch. pose proof (roster_filed _ _ _ _ _ _ _ _ _ Hr Hy' Hch) as F'.
  pose proof (fl_read _ _ _ F) as E1. rewrite (fl_read _ _ _ F') in E1. by injection E1.
Qed.

Lemma roster_chan_acceptor n st x conns chans next c y :
  roster n st x conns chans next → conns !! c = Some y → tc_channel y ≠ achan.
Proof.
  intros Hr Hy E. destruct (rs_conn _ _ _ _ _ _ Hr c y Hy) as (ch & k & Hch & _ & _ & F%stands_filed).
  destruct (rs_listening _ _ _ _ _ _ Hr) as (ch' & Hch' & Ha). assert (ch' = ch) as -> by congruence.
  pose proof (at_read _ _ Ha). by rewrite (fl_read _ _ _ F) in *.
Qed.

Lemma roster_name_unused n st x conns chans next :
  roster n st x conns chans next → (String.length (sv_ipPort x) ≤ 51)%nat →
  sv_connections x !! server_conn_name (sv_name x) (sv_ipPort x) (sv_nextConnId x) = None.
Proof.
  intros Hr Hlen. destruct (sv_connections x !! _) as [c|] eqn:E; [exfalso|done].
  destruct (rs_names _ _ _ _ _ _ Hr _ _ E) as (i & Hi & En).
  destruct (rs_ids _ _ _ _ _ _ Hr) as (Hn & Hid & Hlt).
  apply server_conn_name_inj in En; [lia|done|lia|lia].
Qed.

(** Whose descriptor a channel has. *)
Lemma roster_chan_fd n st x conns chans next q ch :
  roster n st x conns chans next → chans !! q = Some ch →
  ch_fd ch ∈ base ∨ ∃ c y, conns !! c = Some y ∧ tc_channel y = q ∧ tc_socket y = ch_fd ch.
Proof.
  intros Hr Hq. destruct (rs_chans _ _ _ _ _ _ Hr q ch Hq) as [(_ & _ & ?)|[(_ & _ & _ & ?)|(c & y & Hy & <-)]];
    [by left..|right]. exists c, y. split_and!; [done..|].
  by rewrite (fl_fd _ _ _ (roster_filed _ _ _ _ _ _ _ _ _ Hr Hy Hq)).
Qed.

(** *** Changing it *)

Lemma roster_less n n' st x conns chans next next' :
  roster n st x conns chans next → 0 ≤ n' ≤ n → (next ≤ next')%nat → roster n' st x conns chans next'.
Proof.
  intros [H1 H2 H3 H4 H5 H6 (H7 & H8 & H9) H10] Hn Hnext. split; try done.
  - intros c y Hy. destruct (H1 c y Hy) as (ch & k & Hch & Hk & Hin & Hs). exists ch, k. split_and!; try done.
    eapply stands_less; [done|lia|]. by eapply stands_listed.
  - intros q Hq. apply H5. lia.
  - lia.
Qed.

Lemma roster_flags n st x conns chans next q ch ch' :
  roster n st x conns chans next → chans !! q = Some ch → same_binding ch ch' →
  roster n st x conns (<[q := ch']> chans) next.
Proof.
  intros [H1 H2 H3 H4 H5 H6 H7 (cha & Hcha & Ha)] Hq Hs. split; try done.
  - intros c y Hy. destruct (H1 c y Hy) as (ch0 & k & Hch0 & Hk & Hin & Hst).
    destruct (decide (tc_channel y = q)) as [<-|Hne].
    + exists ch', k. rewrite lookup_insert_eq. assert (ch0 = ch) as -> by congruence.
      split_and!; [done..|by eapply stands_binding].
    + exists ch0, k. by rewrite lookup_insert_ne.
  - intros q' ch0 Hq'. destruct (decide (q = q')) as [<-|Hne]; [|rewrite lookup_insert_ne in Hq' by done; by apply H4].
    rewrite lookup_insert_eq in Hq'. injection Hq' as <-. rewrite (sb_loop _ _ Hs), (sb_fd _ _ Hs).
    destruct (H4 q ch Hq) as [(? & ? & ?)|[(? & ? & ? & ?)|?]]; [left|right; left|by do 2 right].
    + split_and!; [done|by eapply same_binding_own|done].
    + split_and!; [done..|by eapply same_binding_accepts|done].
  - intros q' Hle. destruct (H5 q' Hle) as [? Hn]. split; [done|]. rewrite lookup_insert_ne; [done|]. congruence.
  - destruct (decide (q = achan)) as [->|Hne].
    + exists ch'. rewrite lookup_insert_eq. split; [done|]. assert (cha = ch) as -> by congruence.
      by eapply same_binding_accepts.
    + exists cha. by rewrite lookup_insert_ne.
Qed.

(** One connection and its channel change, and with them perhaps its status and the
    server's map. *)
Lemma roster_touch n n' st x x' conns chans next next' c y ch y' ch' k' :
  roster n st x conns chans next → conns !! c = Some y → chans !! tc_channel y = Some ch →
  tc_channel y' = tc_channel y → tc_name y' = tc_name y → tc_loop y' = tc_loop y →
  0 ≤ n' ≤ n → (next ≤ next')%nat → stands n' x' c y' ch' k' → same_server x x' →
  (∀ name c', sv_connections x' !! name = Some c' ↔
     sv_connections x !! name = Some c' ∧ (c' = c → listed k' = true)) →
  roster n' (<[c := k']> st) x' (<[c := y']> conns) (<[tc_channel y := ch']> chans) next'.
Proof.
  intros Hr Hy Hch Hyc Hyn Hyl Hn Hnext Hst (En & Ei & Eid) Hmap.
  apply (roster_less n n' st x conns chans next next') in Hr as Hr'; [|done..].
  pose proof Hr' as [H1 H2 H3 H4 H5 H6 H7 (cha & Hcha & Ha)].
  split; rewrite ?En, ?Ei, ?Eid; try done.
  - intros c' y0. destruct (decide (c = c')) as [<-|Hne].
    { rewrite lookup_insert_eq. intros [= <-]. exists ch', k'. rewrite Hyc, !lookup_insert_eq.
      split_and!; [done..| |done]. rewrite Hyl.
      by destruct (H1 c y Hy) as (_ & _ & _ & _ & Hin & _). }
    rewrite !lookup_insert_ne by done. intros Hy0.
    destruct (H1 c' y0 Hy0) as (ch0 & k0 & Hch0 & Hk0 & Hin & Hst0). exists ch0, k0.
    rewrite lookup_insert_ne by (intros E; apply Hne; by eapply roster_chan_inj).
    rewrite lookup_insert_ne by done. split_and!; [done..|].
    eapply stands_less; [exact Hst0|done|]. intros Hl. apply Hmap.
    split; [by eapply stands_listed|]. by intros ->.
  - intros c' k0. destruct (decide (c = c')) as [<-|Hne]; [by rewrite !lookup_insert_eq|].
    rewrite !lookup_insert_ne by done. apply H2.
  - intros name c' Hc'. apply Hmap in Hc' as [Hc' Hup]. destruct (H3 name c' Hc') as (y0 & k0 & Hy0 & Hn0 & Hk0 & Hl0).
    destruct (decide (c = c')) as [<-|Hne].
    + exists y', k'. rewrite !lookup_insert_eq. split_and!; [done|congruence|done|by apply Hup].
    + exists y0, k0. by rewrite !lookup_insert_ne.
  - intros q ch0 Hq. destruct (decide (tc_channel y = q)) as [<-|Hne].
    { do 2 right. exists c, y'. by rewrite lookup_insert_eq. }
    rewrite lookup_insert_ne in Hq by done.
    destruct (H4 q ch0 Hq) as [?|[?|(c' & y0 & Hy0 & E)]]; [by left|by right; left|]. do 2 right.
    exists c', y0. split; [|done]. rewrite lookup_insert_ne; [done|]. congruence.
  - intros q Hq. destruct (H5 q Hq) as [Hc' Hch']. rewrite !lookup_insert_ne; [done|congruence..].
  - intros name c' Hc'. apply Hmap in Hc' as [Hc' _]. by eapply H6.
  - exists cha. rewrite lookup_insert_ne by (by eapply roster_chan_acceptor). done.
Qed.

(** A new connection. *)
Lemma roster_enter n n' st x conns chans next y ch home :
  roster n st x conns chans next → n = n' + 1 → 0 ≤ n' → (String.length (sv_ipPort x) ≤ 51)%nat →
  tc_channel y = S next → tc_loop y ∈ ios →
  tc_name y = server_conn_name (sv_name x) (sv_ipPort x) (sv_nextConnId x) →
  stands n' (after_accept next x) next y ch (Arriving home) →
  roster n' (<[next := Arriving home]> st) (after_accept next x) (<[next := y]> conns)
    (<[S next := ch]> chans) (S (S next)).
Proof.
  intros Hr -> Hn Hlen Hyc Hyl Hyn Hst. pose proof (roster_name_unused _ _ _ _ _ _ Hr Hlen) as Hfree.
  set (name := server_conn_name _ _ _) in *.
  pose proof Hr as [H1 H2 H3 H4 H5 H6 (_ & H8 & H9) (cha & Hcha & Ha)].
  assert (∀ c y0, conns !! c = Some y0 → next ≠ c) as Hne.
  { intros c y0 Hy <-. destruct (H5 next) as [E _]; [lia|]. by rewrite E in Hy. }
  assert (∀ q ch0, chans !! q = Some ch0 → S next ≠ q) as Hneq.
  { intros q ch0 Hq <-. destruct (H5 (S next)) as [_ E]; [lia|]. by rewrite E in Hq. }
  split.
  - intros c y0. destruct (decide (next = c)) as [<-|Hc].
    + rewrite lookup_insert_eq. intros [= <-]. exists ch, (Arriving home). by rewrite Hyc, !lookup_insert_eq.
    + rewrite !lookup_insert_ne by done. intros Hy0. destruct (H1 c y0 Hy0) as (ch0 & k0 & Hch0 & Hk0 & Hin & Hst0).
      exists ch0, k0. rewrite (lookup_insert_ne chans) by (by eapply Hneq).
      rewrite lookup_insert_ne by done. split_and!; [done..|].
      eapply stands_less; [exact Hst0|lia|]. intros Hl. simpl. fold name.
      pose proof (stands_listed _ _ _ _ _ _ Hst0 Hl) as E. rewrite lookup_insert_ne; [done|]. congruence.
  - intros c k. destruct (decide (next = c)) as [<-|Hc]; [by rewrite !lookup_insert_eq|].
    rewrite !lookup_insert_ne by done. apply H2.
  - intros name' c. simpl. fold name. destruct (decide (name = name')) as [<-|Hn'].
    + rewrite lookup_insert_eq. intros [= <-]. exists y, (Arriving home). by rewrite !lookup_insert_eq.
    + rewrite lookup_insert_ne by done. intros Hc. destruct (H3 name' c Hc) as (y0 & k0 & Hy0 & Hn0 & Hk0).
      exists y0, k0. apply Hne in Hy0 as Hc'. by rewrite !lookup_insert_ne.
  - intros q ch0. destruct (decide (S next = q)) as [<-|Hq].
    { intros _. do 2 right. exists next, y. by rewrite lookup_insert_eq. }
    rewrite lookup_insert_ne by done. intros Hch0.
    destruct (H4 q ch0 Hch0) as [?|[?|(c & y0 & Hy0 & E)]]; [by left|by right; left|]. do 2 right. exists c, y0.
    rewrite lookup_insert_ne; [done|]. by eapply Hne.
  - intros q Hq. rewrite !lookup_insert_ne by lia. apply H5. lia.
  - intros name' c. simpl. fold name. destruct (decide (name = name')) as [<-|Hn'].
    + intros _. exists (sv_nextConnId x). split; [lia|done].
    + rewrite lookup_insert_ne by done. intros Hc. destruct (H6 name' c Hc) as (i & Hi & E). exists i.
      split; [lia|done].
  - simpl. lia.
  - exists cha. rewrite lookup_insert_ne by (by eapply Hneq). done.
Qed.

(** A connection at its end. *)
Lemma roster_delete n st x conns chans next c y :
  roster n st x conns chans next → conns !! c = Some y → st !! c = Some Gone →
  roster n (delete c st) x (delete c conns) (delete (tc_channel y) chans) next.
Proof.
  intros Hr Hy Hg. pose proof Hr as [H1 H2 H3 H4 H5 H6 H7 (cha & Hcha & Ha)]. split; try done.
  - intros c' y'. destruct (decide (c = c')) as [<-|Hne]; [by rewrite lookup_delete_eq|].
    rewrite !lookup_delete_ne by done. intros Hy'. destruct (H1 c' y' Hy') as (ch' & k' & Hch' & Hk' & Hin & Hst).
    exists ch', k'. rewrite lookup_delete_ne by (intros E; apply Hne; by eapply roster_chan_inj).
    by rewrite lookup_delete_ne.
  - intros c' k'. destruct (decide (c = c')) as [<-|Hne]; [by rewrite lookup_delete_eq|].
    rewrite !lookup_delete_ne by done. apply H2.
  - intros name c' Hc'. destruct (H3 name c' Hc') as (y' & k' & Hy' & Hn & Hk' & Hl).
    assert (c ≠ c') by (intros <-; assert (k' = Gone) as -> by congruence; done).
    exists y', k'. by rewrite !lookup_delete_ne.
  - intros q ch. destruct (decide (tc_channel y = q)) as [<-|Hne]; [by rewrite lookup_delete_eq|].
    rewrite lookup_delete_ne by done. intros Hq.
    destruct (H4 q ch Hq) as [?|[?|(c' & y' & Hy' & E)]]; [by left|by right; left|]. do 2 right. exists c', y'.
    rewrite lookup_delete_ne; [done|]. congruence.
  - intros q Hq. destruct (H5 q Hq) as [E1 E2]. by rewrite !lookup_delete_None; auto.
  - exists cha. rewrite lookup_delete_ne by (by eapply roster_chan_acceptor). done.
Qed.

(** ** The channels that are to be handled *)

(** [R l] are the channels that loop [l] has yet to handle in its round. *)
Definition attended (R : ptr → list ptr) (st : gmap ptr status) (conns : gmap ptr TcpConnection)
    (chans : gmap ptr Channel) : Prop :=
  ∀ l, NoDup (R l) ∧ ∀ q, q ∈ R l → ∃ ch, chans !! q = Some ch ∧ ch_loop ch = l
    ∧ ∀ c y, conns !! c = Some y → tc_channel y = q → st !! c = Some Served.

(** Fewer of them, other channels, and connections that were not there before or are
    not among them. *)
Lemma attended_mono R R' st st' conns conns' chans chans' :
  attended R st conns chans → (∀ l, R' l `sublist_of` R l) →
  (∀ l q ch, q ∈ R' l → chans !! q = Some ch → ch_loop ch = l → ∃ ch', chans' !! q = Some ch' ∧ ch_loop ch' = l) →
  (∀ l c y', conns' !! c = Some y' → tc_channel y' ∈ R' l →
     st' !! c = Some Served
     ∨ ∃ y, conns !! c = Some y ∧ tc_channel y = tc_channel y' ∧ st' !! c = st !! c) →
  attended R' st' conns' chans'.
Proof.
  intros Ha Hsub Hch Hconn l. destruct (Ha l) as [Hnd Hin]. split.
  - by eapply sublist_NoDup.
  - intros q Hq. assert (q ∈ R l) as Hq0 by (by eapply elem_of_sublist).
    destruct (Hin q Hq0) as (ch & Hc & Hl & Hall). destruct (Hch l q ch Hq Hc Hl) as (ch' & Hc' & Hl').
    exists ch'. split_and!; [done..|]. intros c y' Hy' <-.
    destruct (Hconn l c y' Hy' Hq) as [?|(y & Hy & E & ->)]; [done|by eapply Hall].
Qed.
End roster.
