(* ===== verification/Crew.v ===== *)
(** * Crew: a server of several threads, between any two of their steps

    The echo server of PingPong.v whose connections live on the loops of a pool: one
    loop, [lb], for the listening socket, and the loops [ios] for the connections, each
    in a thread of its own that is anywhere in its round (Interleaving.v).  [crewed] is
    what holds between two steps; this file has what reads it and what keeps it,
    CrewEvents.v and CrewRounds.v the steps. *)
From S2P Require Import Prelude Endian Buffer OS Descriptors Double Objects Poller LoopCore Channel TimerQueue Sockets Calls TcpConnection ByteStream Lifecycle EventLoop Threads Interleaving Acceptor Connector TcpServer TcpClient Program PingPong Serving Lifetimes Echo Isolation Running Table Events Service Welcome Rounds Handover Roster.

Set Default Goal Selector "!".

Lemma drop_one_Permutation `{EqDecision A} (x : A) l : x ∈ l → l ≡ₚ x :: drop_one x l.
Proof.
  induction l as [|y l IH]; [by intros ?%elem_of_nil|]. simpl. case_decide as E; [by rewrite E|].
  intros [->|Hin]%elem_of_cons; [done|]. rewrite (IH Hin) at 1. apply Permutation_swap.
Qed.

(** ** The channels of one loop *)

Section others.
Context {K : Type} `{!OS K} `{!EpollLaws K}.
Implicit Types w : World K.

(** Loop [l] has the same channels. *)
Definition same_chans (l : ptr) (chans chans' : gmap ptr Channel) : Prop :=
  ∀ q ch, ch_loop ch = l → chans' !! q = Some ch ↔ chans !! q = Some ch.

Lemma same_chans_insert l (chans : gmap ptr Channel) q ch' :
  ch_loop ch' ≠ l → (∀ ch, chans !! q = Some ch → ch_loop ch ≠ l) → same_chans l chans (<[q := ch']> chans).
Proof.
  intros H' H q' ch Hl. destruct (decide (q = q')) as [<-|Hne]; [|by rewrite lookup_insert_ne].
  rewrite lookup_insert_eq. split; [intros [= <-]|intros Hq; by destruct (H _ Hq)]. done.
Qed.

Lemma same_chans_delete l (chans : gmap ptr Channel) q :
  (∀ ch, chans !! q = Some ch → ch_loop ch ≠ l) → same_chans l chans (delete q chans).
Proof.
  intros H q' ch Hl. destruct (decide (q = q')) as [<-|Hne]; [|by rewrite lookup_delete_ne].
  rewrite lookup_delete_eq. split; [done|intros Hq; by destruct (H _ Hq)].
Qed.

(** A loop whose channels, poller and epoll instance are as they were. *)
Lemma loop_ok_others l p w w' :
  loop_ok l p w → same_chans l (r_chans (w_r w)) (r_chans (w_r w')) →
  r_pollers (w_r w') !! l = r_pollers (w_r w) !! l →
  kernel_list (w_r w') p = kernel_list (w_r w) p →
  (∃ x, w_loops w' !! l = Some x ∧ el_threadId x = w_tid w') → loop_ok l p w'.
Proof.
  intros [[H1 H2 H3 H4] Hfds _] Hc Hp Hk Ht. split; [split|..]; [| | | | |exact Ht].
  - by rewrite Hp.
  - intros fd q Hq. destruct (H2 fd q Hq) as (ch & Hch & Hfd & Hl & Hwat). exists ch.
    rewrite Hk. split_and!; [by apply Hc|done..].
  - by rewrite Hk.
  - intros q ch Hq Hl. apply Hc in Hq; [|done]. by apply H4.
  - intros q q' ch ch' Hq Hq' Hl Hl'. apply Hc in Hq, Hq'; [|done..]. by eapply Hfds.
Qed.

(** What epoll watches is registered. *)
Lemma loop_ok_watch_added l p w fd ev q :
  loop_ok l p w → kernel_list (w_r w) p !! fd = Some (ev, q) →
  ∃ ch, r_chans (w_r w) !! q = Some ch ∧ ch_fd ch = fd ∧ ch_loop ch = l ∧ ch_index ch = EPollPoller.kAdded.
Proof.
  intros Hok Hk. destruct (loop_ok_watch _ _ _ _ _ _ Hok Hk) as (ch & Hq & Hfd & Hl). exists ch.
  split_and!; [done..|]. pose proof (lk_synced _ _ _ Hok) as Hs.
  destruct (loop_ok_free _ _ _ _ _ Hok Hq Hl) as [E|E].
  { apply (sy_unknown _ _ _ _ Hs) in E. congruence. }
  destruct (sy_registered _ _ _ _ Hs _ _ E) as (ch' & Hq' & _ & _ & Hwat).
  assert (ch' = ch) as -> by congruence. destruct Hwat as [[? _]|(_ & Hnone & _)]; [done|congruence].
Qed.
End others.

(** ** Which thread is where *)

(** The place of loop [l]'s thread. *)
Definition pc_at (pcs : gmap ptr pc) (l : ptr) : pc := default Waiting (pcs !! l).

Definition is_handling (t : pc) : bool := match t with Handling _ => true | _ => false end.

Lemma pc_at_here pcs l t : pc_at (<[l := t]> pcs) l = t.
Proof. unfold pc_at. by rewrite lookup_insert_eq. Qed.

Lemma pc_at_there pcs l l' t : l' ≠ l → pc_at (<[l := t]> pcs) l' = pc_at pcs l'.
Proof. intros Hne. unfold pc_at. by rewrite lookup_insert_ne. Qed.

(** The pointers that the threads' local variables hold. *)
Definition holding (ls : list ptr) (pcs : gmap ptr pc) : list ptr := ls ≫= λ l, pc_held (pc_at pcs l).

Lemma holding_app ls ls' pcs : holding (ls ++ ls') pcs = holding ls pcs ++ holding ls' pcs.
Proof. apply bind_app. Qed.

Lemma holding_cons l ls pcs : holding (l :: ls) pcs = pc_held (pc_at pcs l) ++ holding ls pcs.
Proof. done. Qed.

Lemma holding_ext ls pcs pcs' :
  (∀ l, pc_held (pc_at pcs' l) = pc_held (pc_at pcs l)) → holding ls pcs' = holding ls pcs.
Proof. intros E. induction ls as [|l ls IH]; [done|]. by rewrite !holding_cons, E, IH. Qed.

Lemma holding_nil ls pcs : (∀ l, pc_held (pc_at pcs l) = []) → holding ls pcs = [].
Proof. intros E. induction ls as [|l ls IH]; [done|]. by rewrite holding_cons, E, IH. Qed.

Lemma elem_of_holding ls pcs c : c ∈ holding ls pcs ↔ ∃ l, l ∈ ls ∧ c ∈ pc_held (pc_at pcs l).
Proof. unfold holding. rewrite list_elem_of_bind. by split; intros (l & ? & ?); exists l. Qed.

(** Those of one thread and those of the others. *)
Lemma holding_split ls l : NoDup ls → l ∈ ls →
  ∀ pcs, ∃ rest, ∀ t, holding ls (<[l := t]> pcs) ≡ₚ pc_held t ++ rest.
Proof.
  intros Hnd Hin pcs. apply list_elem_of_split in Hin as (ls1 & ls2 & ->).
  apply NoDup_app in Hnd as (_ & H1 & [H2 _]%NoDup_cons). exists (holding (ls1 ++ ls2) pcs). intros t.
  assert (∀ ls', l ∉ ls' → holding ls' (<[l := t]> pcs) = holding ls' pcs) as Hsame.
  { intros ls' Hni. induction ls' as [|l' ls' IH]; [done|]. rewrite !holding_cons.
    apply not_elem_of_cons in Hni as [Hne Hni]. by rewrite pc_at_there, IH. }
  rewrite !holding_app, holding_cons, pc_at_here, !Hsame.
  - by rewrite !app_assoc, (Permutation_app_comm (holding ls1 _)).
  - done.
  - intros Hl. apply (H1 l Hl). by left.
Qed.

Lemma pcs_id (pcs : gmap ptr pc) l t : pcs !! l = Some t → <[l := t]> pcs = pcs.
Proof. apply insert_id. Qed.

(** ** The threads, their queues and their pointers *)

Section crew.
Context (lb s : ptr) (ios : list ptr) (base : gset Z) (tid_of : ptr → tid) (ep_of : ptr → Z).

Abbreviation queues := (queues lb s).
Abbreviation due := (due lb s).

(** Every loop has a thread and an epoll instance of its own. *)
Record crew_ok : Prop := {
  ko_nodup : NoDup (lb :: ios);
  ko_few : Z.of_nat (length ios) < 2 ^ 31;
  ko_tid : ∀ l l', l ∈ lb :: ios → l' ∈ lb :: ios → tid_of l = tid_of l' → l = l';
  ko_ep : ∀ l l', l ∈ lb :: ios → l' ∈ lb :: ios → ep_of l = ep_of l' → l = l';
  ko_base : ∀ l, l ∈ lb :: ios → ep_of l ∈ base
}.

(** Loop [l], whose thread is at [t]. *)
Record on_duty (l : ptr) (t : pc) (lx : EventLoop) : Prop := {
  od_thread : el_threadId lx = tid_of l;
  od_quit : el_quit lx = false;
  od_timers : tq_timers (el_timerQueue lx) = [];
  od_wakeup : el_wakeupFd lx ∈ base;
  od_handling : is_handling t = false → el_eventHandling lx = false
}.

(** The functors that loop [l] has yet to run. *)
Definition waiting_on (pcs : gmap ptr pc) (loops : gmap ptr EventLoop) (l : ptr) : list Functor :=
  pc_todo (pc_at pcs l) ++ from_option el_pendingFunctors [] (loops !! l).

(** [extra] are pointers that the step under way holds besides. *)
Record staffed (pcs : gmap ptr pc) (extra : list ptr) (st : gmap ptr status) (loops : gmap ptr EventLoop)
    (held : list ptr) : Prop := {
  sf_pcs : ∀ l, is_Some (pcs !! l) → l ∈ lb :: ios;
  sf_loops : ∀ l, is_Some (loops !! l) → l ∈ lb :: ios;
  sf_duty : ∀ l, l ∈ lb :: ios → ∃ lx, loops !! l = Some lx ∧ on_duty l (pc_at pcs l) lx;
  sf_queues : queues (waiting_on pcs loops) st;
  sf_held : held ≡ₚ extra ++ holding (lb :: ios) pcs;
  sf_keeps : ∀ l c, c ∈ omap functor_holds (pc_todo (pc_at pcs l)) → c ∈ pc_held (pc_at pcs l);
  sf_known : ∀ c, c ∈ held → is_Some (st !! c);
  sf_gone : ∀ c, st !! c = Some Gone → c ∈ held
}.

Lemma staffed_loop pcs extra st loops held l lx :
  staffed pcs extra st loops held → loops !! l = Some lx → on_duty l (pc_at pcs l) lx.
Proof.
  intros Hs Hl. destruct (sf_duty _ _ _ _ _ Hs l) as (lx' & Hl' & Hd);
    [by eapply sf_loops; [|eexists]|]. by assert (lx' = lx) as -> by congruence.
Qed.

(** *** The loops *)

(** Loop [l] is now [lx'], with the same queue. *)
Lemma staffed_flags pcs extra st loops held l lx lx' :
  staffed pcs extra st loops held → loops !! l = Some lx → on_duty l (pc_at pcs l) lx' →
  el_pendingFunctors lx' = el_pendingFunctors lx → staffed pcs extra st (<[l := lx']> loops) held.
Proof.
  intros [H1 H2 H3 H4 H5 H6 H7 H8] Hl Hd Hp. split; try done.
  - intros l' [lx0 Hl']. apply lookup_insert_Some in Hl' as [[<- _]|[_ Hl']]; apply H2; by eexists.
  - intros l' Hin. destruct (decide (l = l')) as [<-|Hne];
      [exists lx'; by rewrite lookup_insert_eq|rewrite lookup_insert_ne by done; by apply H3].
  - eapply queues_ext; [|exact H4]. intros l'. unfold waiting_on.
    destruct (decide (l = l')) as [<-|Hne]; [|by rewrite lookup_insert_ne].
    rewrite lookup_insert_eq, Hl. simpl. by rewrite Hp.
Qed.

(** A functor is queued. *)
Lemma staffed_push pcs extra st loops held l lx f c k' :
  staffed pcs extra st loops held → loops !! l = Some lx →
  (∀ k, st !! c = Some k → due c k = None) → due c k' = Some (l, f) →
  staffed pcs extra (<[c := k']> st)
    (<[l := set_el_pendingFunctors (el_pendingFunctors lx ++ [f]) lx]> loops) held.
Proof.
  intros Hs Hl Hnone Hdue. pose proof (staffed_loop _ _ _ _ _ _ _ Hs Hl) as Hd.
  destruct Hs as [H1 H2 H3 H4 H5 H6 H7 H8]. split; try done.
  - intros l' [lx0 Hl']. apply lookup_insert_Some in Hl' as [[<- _]|[_ Hl']]; apply H2; by eexists.
  - intros l' Hin. destruct (decide (l = l')) as [<-|Hne];
      [eexists; split; [apply lookup_insert_eq|by destruct Hd]|rewrite lookup_insert_ne by done; by apply H3].
  - eapply queues_push; [exact H4|exact Hnone|exact Hdue| |]; unfold waiting_on.
    + rewrite lookup_insert_eq, Hl. simpl. by rewrite app_assoc.
    + intros l' Hne. by rewrite lookup_insert_ne.
  - intros c' Hc'. destruct (decide (c = c')) as [<-|Hne];
      [by rewrite lookup_insert_eq|rewrite lookup_insert_ne by done; by apply H7].
  - intros c' Hc'. apply lookup_insert_Some in Hc' as [[<- ->]|[_ Hc']]; [done|by apply H8].
Qed.

(** *** Statuses *)

Lemma staffed_idle pcs extra st loops held c k k' :
  staffed pcs extra st loops held → st !! c = Some k → due c k = None → due c k' = None →
  (k' = Gone → c ∈ held) → staffed pcs extra (<[c := k']> st) loops held.
Proof.
  intros [H1 H2 H3 H4 H5 H6 H7 H8] Hc Hd Hd' Hg. split; try done.
  - by eapply queues_idle.
  - intros c' Hc'. destruct (decide (c = c')) as [<-|Hne];
      [by rewrite lookup_insert_eq|rewrite lookup_insert_ne by done; by apply H7].
  - intros c' Hc'. apply lookup_insert_Some in Hc' as [[<- ->]|[_ Hc']]; [by apply Hg|by apply H8].
Qed.

(** *** Pointers *)

Lemma staffed_hold pcs extra st loops held c :
  staffed pcs extra st loops held → is_Some (st !! c) → staffed pcs (c :: extra) st loops (c :: held).
Proof.
  intros [H1 H2 H3 H4 H5 H6 H7 H8] Hc. split; try done.
  - simpl. by f_equiv.
  - intros c' [->|Hin]%elem_of_cons; auto.
  - intros c' Hc'. right. by apply H8.
Qed.

(** A pointer goes, and perhaps it was the last. *)
Lemma staffed_drop pcs extra st loops held c :
  staffed pcs (c :: extra) st loops held →
  let held' := drop_one c held in
  (c ∈ held' ∨ st !! c ≠ Some Gone → staffed pcs extra st loops held')
  ∧ (st !! c = Some Gone → c ∉ held' → staffed pcs extra (delete c st) loops held').
Proof.
  intros [H1 H2 H3 H4 H5 H6 H7 H8] held'.
  assert (held ≡ₚ c :: held') as Hheld by (apply drop_one_Permutation; rewrite H5; by left).
  assert (held' ≡ₚ extra ++ holding (lb :: ios) pcs) as H5'.
  { rewrite Hheld in H5. simpl in H5. by apply Permutation_cons_inv in H5. }
  split.
  - intros Hc. split; try done.
    + intros c' Hc'. apply H7. rewrite Hheld. by right.
    + intros c' Hc'. apply H8 in Hc' as Hin. rewrite Hheld in Hin. apply elem_of_cons in Hin as [->|?]; [|done].
      by destruct Hc.
  - intros Hg Hni. split; try done.
    + eapply queues_delete; [exact H4|exact Hg|done].
    + intros c' Hc'. rewrite lookup_delete_ne by (by intros ->). apply H7. rewrite Hheld. by right.
    + intros c' [Hne Hc']%lookup_delete_Some. apply H8 in Hc' as Hin. rewrite Hheld in Hin.
      by apply elem_of_cons in Hin as [->|?].
Qed.

(** *** Steps of a thread *)

(** The thread of loop [l] goes on to [t'], with [new] pointers. *)
Lemma staffed_turn pcs extra extra' st loops held held' l t' lx lx' new :
  staffed pcs extra st loops held → loops !! l = Some lx → on_duty l t' lx' →
  pc_todo t' ++ el_pendingFunctors lx' = pc_todo (pc_at pcs l) ++ el_pendingFunctors lx →
  (∀ c, c ∈ omap functor_holds (pc_todo t') → c ∈ pc_held t') → NoDup (lb :: ios) →
  held' ≡ₚ new ++ held → extra' ++ pc_held t' ≡ₚ new ++ extra ++ pc_held (pc_at pcs l) →
  (∀ c, c ∈ new → is_Some (st !! c)) →
  staffed (<[l := t']> pcs) extra' st (<[l := lx']> loops) held'.
Proof.
  intros [H1 H2 H3 H4 H5 H6 H7 H8] Hl Hd Hq Hk Hnd Hh Hhe Hnew.
  assert (l ∈ lb :: ios) as Hin by (apply H2; by eexists). split.
  - intros l' [t0 Hl']. apply lookup_insert_Some in Hl' as [[<- _]|[_ Hl']]; [done|apply H1; by eexists].
  - intros l' [lx0 Hl']. apply lookup_insert_Some in Hl' as [[<- _]|[_ Hl']]; [done|apply H2; by eexists].
  - intros l' Hin'. destruct (decide (l = l')) as [<-|Hne].
    + exists lx'. by rewrite lookup_insert_eq, pc_at_here.
    + rewrite lookup_insert_ne, pc_at_there by done. by apply H3.
  - eapply queues_ext; [|exact H4]. intros l'. unfold waiting_on. destruct (decide (l' = l)) as [->|Hne].
    + rewrite lookup_insert_eq, pc_at_here, Hl. exact Hq.
    + by rewrite lookup_insert_ne, pc_at_there.
  - destruct (holding_split _ l Hnd Hin pcs) as [rest Hrest]. rewrite Hh, H5, Hrest.
    assert (holding (lb :: ios) pcs ≡ₚ pc_held (pc_at pcs l) ++ rest) as ->.
    { rewrite <- (Hrest (pc_at pcs l)). apply reflexive_eq. symmetry. apply holding_ext. intros l'. destruct (decide (l' = l)) as [->|Hne];
        [by rewrite pc_at_here|by rewrite pc_at_there]. }
    by rewrite !app_assoc, Hhe, !app_assoc.
  - intros l' c. destruct (decide (l' = l)) as [->|Hne]; [rewrite pc_at_here; apply Hk|].
    rewrite pc_at_there by done. apply H6.
  - intros c. rewrite Hh, elem_of_app. intros [?|?]; auto.
  - intros c Hc. rewrite Hh, elem_of_app. right. by apply H8.
Qed.

(** The functor that a thread runs next. *)
Lemma staffed_due pcs extra st loops held l f todo h :
  staffed pcs extra st loops held → pcs !! l = Some (Running (f :: todo) h) →
  ∃ c k, st !! c = Some k ∧ due c k = Some (l, f) ∧ c ∈ h.
Proof.
  intros Hs Hl. assert (pc_at pcs l = Running (f :: todo) h) as E by (unfold pc_at; by rewrite Hl).
  destruct (queues_head _ _ _ _ l f (todo ++ from_option el_pendingFunctors [] (loops !! l)) (sf_queues _ _ _ _ _ Hs))
    as (c & k & Hc & Hd); [unfold waiting_on; by rewrite E|].
  exists c, k. split_and!; [done..|]. pose proof (sf_keeps _ _ _ _ _ Hs l c) as Hk. rewrite E in Hk.
  apply Hk. simpl. apply due_holds in Hd. rewrite Hd. by left.
Qed.

Lemma staffed_pop pcs extra st loops held l f todo h c k k' :
  staffed pcs extra st loops held → pcs !! l = Some (Running (f :: todo) h) →
  st !! c = Some k → due c k = Some (l, f) → due c k' = None → NoDup (lb :: ios) →
  staffed (<[l := Running todo h]> pcs) extra (<[c := k']> st) loops held.
Proof.
  intros Hs Hl Hc Hd Hd' Hnd. assert (pc_at pcs l = Running (f :: todo) h) as E by (unfold pc_at; by rewrite Hl).
  destruct Hs as [H1 H2 H3 H4 H5 H6 H7 H8]. assert (l ∈ lb :: ios) as Hin by (apply H1; by eexists).
  assert (holding (lb :: ios) (<[l := Running todo h]> pcs) = holding (lb :: ios) pcs) as Eh.
  { apply holding_ext. intros l'. destruct (decide (l' = l)) as [->|Hne];
      [by rewrite pc_at_here, E|by rewrite pc_at_there]. }
  assert (c ∈ held) as Hch.
  { rewrite H5. apply elem_of_app. right. apply elem_of_holding. exists l. split; [done|].
    apply H6. rewrite E. simpl. apply due_holds in Hd. rewrite Hd. by left. }
  split; rewrite ?Eh; try done.
  - intros l' [t0 Hl']. apply lookup_insert_Some in Hl' as [[<- _]|[_ Hl']]; [done|apply H1; by eexists].
  - intros l' Hin'. destruct (H3 l' Hin') as (lx & Hlx & Hdu). exists lx. split; [done|].
    destruct (decide (l' = l)) as [->|Hne]; [|by rewrite pc_at_there].
    rewrite pc_at_here. rewrite E in Hdu. by destruct Hdu.
  - eapply queues_pop; [exact H4|exact Hc|exact Hd|exact Hd'| | |].
    + unfold waiting_on. by rewrite E.
    + unfold waiting_on. by rewrite pc_at_here.
    + intros l' Hne. unfold waiting_on. by rewrite pc_at_there.
  - intros l' c' Hc'. destruct (decide (l' = l)) as [->|Hne].
    + rewrite pc_at_here in *. specialize (H6 l c'). rewrite E in H6. apply H6. simpl.
      destruct (functor_holds f); [by right|done].
    + rewrite pc_at_there in * by done. by apply H6.
  - intros c' Hc'. destruct (decide (c = c')) as [<-|Hne];
      [by rewrite lookup_insert_eq|rewrite lookup_insert_ne by done; by apply H7].
  - intros c' Hc'. apply lookup_insert_Some in Hc' as [[<- ->]|[_ Hc']]; [done|by apply H8].
Qed.
End crew.

(** ** The pollers, the server and its connections *)

Section service.
Context {K : Type} `{!OS K} `{!OSLaws K} `{!EpollLaws K} `{!FdLaws K} `{!EpollRoom K} `{Inet}.
Context (lb s a achan : ptr) (ios : list ptr) (idc idm : nat) (base : gset Z).
Context (tid_of : ptr → tid) (ep_of : ptr → Z).
Implicit Types w : World K.

Abbreviation crew_ok := (crew_ok lb ios base tid_of ep_of).
Abbreviation on_duty := (on_duty base tid_of).
Abbreviation staffed := (staffed lb s ios base tid_of).
Abbreviation stands := (stands s idc idm).
Abbreviation roster := (roster lb s a achan ios idc idm base).

(** Each loop's poller, as its own thread sees it. *)
Definition berths w : Prop := ∀ l, l ∈ lb :: ios → ∃ p, loop_ok l p (set_w_tid (tid_of l) w)
  ∧ 0 < ep_nevents p ≤ 2 * NR_OPEN ∧ ep_epollfd p = ep_of l.

(** The server's objects, and what is open. *)
Record hosted (x : TcpServer) w : Prop := {
  ho_servers : w_servers w = {[s := x]};
  ho_server : echo_server lb idc idm x;
  ho_pool : ∃ pl i, w_pools w !! sv_threadPool x = Some pl ∧ pl_loops pl = ios ∧ pl_baseLoop pl = lb
    ∧ pl_next pl = Z.of_nat i ∧ (i < length ios)%nat;
  ho_acceptor : ∃ ac, w_acceptors w !! a = Some ac ∧ ac_loop ac = lb
    ∧ ac_newConnectionCallback ac = Some s
    ∧ accounted base (ac_idleFd ac) (w_conns w) (open_fds (io_k (w_io w)));
  ho_clients : w_clients w = ∅
}.

Definition to_handle (pcs : gmap ptr pc) (l : ptr) : list ptr := pc_rest (pc_at pcs l).

Record equipped (n : Z) (pcs : gmap ptr pc) (st : gmap ptr status) (x : TcpServer) w : Prop := {
  eq_berths : berths w;
  eq_hosted : hosted x w;
  eq_attended : attended (to_handle pcs) st (w_conns w) (r_chans (w_r w));
  eq_roster : roster n st x (w_conns w) (r_chans (w_r w)) (w_next w)
}.

(** The server between two steps of its threads, whose places are [pcs]; [n] steps
    are left, [extra] are pointers held besides, and [st] tells where each connection
    is. *)
Record crewed (n : Z) (pcs : gmap ptr pc) (extra : list ptr) (st : gmap ptr status) (x : TcpServer) w : Prop := {
  cw_crew : crew_ok;
  cw_staffed : staffed pcs extra st (w_loops w) (w_held w);
  cw_equipped : equipped n pcs st x w
}.

(** *** Pollers *)

Definition threads_of (loops : gmap ptr EventLoop) : Prop :=
  ∀ l, l ∈ lb :: ios → ∃ lx, loops !! l = Some lx ∧ el_threadId lx = tid_of l.

Lemma staffed_threads pcs extra st loops held : staffed pcs extra st loops held → threads_of loops.
Proof. intros Hs l Hin. destruct (sf_duty _ _ _ _ _ _ _ _ _ _ Hs l Hin) as (lx & Hl & Hd). exists lx. split; [done|apply Hd]. Qed.

Lemma berths_same w w' :
  berths w → threads_of (w_loops w') → r_chans (w_r w') = r_chans (w_r w) →
  r_pollers (w_r w') = r_pollers (w_r w) →
  (∀ l, l ∈ lb :: ios → interest (io_k (w_io w')) (ep_of l) = interest (io_k (w_io w)) (ep_of l)) → berths w'.
Proof.
  intros Hb Ht Ec Ep Ek l Hin. destruct (Hb l Hin) as (p & Hok & Hn & He). exists p. split; [|done].
  eapply loop_ok_frame; [exact Hok|exact Ec|exact Ep| |exact (Ht l Hin)].
  unfold kernel_list. rewrite He. exact (Ek l Hin).
Qed.

(** Loop [l]'s poller changes, and channels of that loop. *)
Lemma berths_one l p w w' :
  crew_ok → berths w → threads_of (w_loops w') → l ∈ lb :: ios →
  loop_ok l p (set_w_tid (tid_of l) w') → 0 < ep_nevents p ≤ 2 * NR_OPEN → ep_epollfd p = ep_of l →
  apart l (ep_of l) (w_r w) (w_r w') →
  (∀ l', l' ≠ l → same_chans l' (r_chans (w_r w)) (r_chans (w_r w'))) → berths w'.
Proof.
  intros Hc Hb Ht Hin Hok Hn He [Hp Hk] Hch l' Hin'. destruct (decide (l' = l)) as [->|Hne]; [by exists p|].
  destruct (Hb l' Hin') as (p' & Hok' & Hn' & He'). exists p'. split; [|done].
  eapply loop_ok_others; [exact Hok'|by apply Hch|by apply Hp| |exact (Ht l' Hin')].
  unfold kernel_list. rewrite He'. apply Hk. intros E. apply Hne. by eapply ko_ep.
Qed.

Lemma crewed_here n pcs extra st x w l :
  crewed n pcs extra st x w → l ∈ lb :: ios → w_tid w = tid_of l →
  ∃ p, loop_ok l p w ∧ 0 < ep_nevents p ≤ 2 * NR_OPEN ∧ ep_epollfd p = ep_of l.
Proof.
  intros [_ _ [Hb _ _ _]] Hin Ht. destruct (Hb l Hin) as (p & Hok & Hn). exists p. split; [|done].
  eapply loop_ok_frame; [exact Hok|done|done|done|]. rewrite Ht. exact (lk_thread _ _ _ Hok).
Qed.

Lemma loop_ok_there l p w : loop_ok l p w → w_tid w = tid_of l → loop_ok l p (set_w_tid (tid_of l) w).
Proof.
  intros Hok Ht. eapply loop_ok_frame; [exact Hok|done|done|done|].
  destruct (lk_thread _ _ _ Hok) as (lx & Hl & E). exists lx. by rewrite E, Ht.
Qed.

(** What a connection's channel needs is open. *)
Lemma crewed_can_watch n pcs extra st x w l c y ch p :
  crewed n pcs extra st x w → l ∈ lb :: ios → w_conns w !! c = Some y → ch_fd ch = tc_socket y →
  ep_epollfd p = ep_of l → can_watch p (ch_fd ch) (io_k (w_io w)).
Proof.
  intros [H1 _ [_ [_ _ _ (ac & _ & _ & _ & [Ho _ _]) _] _ _]] Hin Hy Hfd He. split; apply Ho.
  - left. rewrite He. by apply (ko_base _ _ _ _ _ H1).
  - right. right. exists c, y. by rewrite Hfd.
Qed.

(** *** What keeps it *)

Lemma crewed_tid n pcs extra st x w t : crewed n pcs extra st x w → crewed n pcs extra st x (set_w_tid t w).
Proof. intros [H1 H2 [H3 [] H5 H6]]. split; [done|done|]. split; [exact H3|by split|done|done]. Qed.

Lemma hosted_frame x w w' :
  hosted x w → w_servers w' = w_servers w → w_pools w' = w_pools w → w_acceptors w' = w_acceptors w →
  w_clients w' = w_clients w → same_fds (w_io w) (w_io w') →
  (∀ c y', w_conns w' !! c = Some y' → ∃ y, w_conns w !! c = Some y ∧ tc_socket y' = tc_socket y) →
  (∀ c y, w_conns w !! c = Some y → is_Some (w_conns w' !! c)) → hosted x w'.
Proof.
  intros [H1 H2 H3 (ac & Hac & Hal & Has & Hacc) H5] Es Ep Ea Ec Ef Hs Hs'.
  split; try congruence; [by rewrite Ep|]. rewrite Ea. exists ac. split_and!; [done..|].
  unfold same_fds in Ef. rewrite Ef. by eapply accounted_same.
Qed.

(** Calls that concern nobody's descriptors. *)
Lemma crewed_io n pcs extra st x w io :
  crewed n pcs extra st x w → (∀ ep, interest (io_k io) ep = interest (io_k (w_io w)) ep) →
  open_fds (io_k io) = open_fds (io_k (w_io w)) → crewed n pcs extra st x (with_io io w).
Proof.
  intros [H1 H2 [H3 H4 H5 H6]] Hi Hf. split; [done|done|]. split; [|by eapply hosted_frame; eauto|done|done].
  eapply berths_same; [exact H3|by eapply staffed_threads|done|done|]. intros l _. apply Hi.
Qed.

Lemma crewed_by n pcs extra st x w io calls :
  crewed n pcs extra st x w → io_by calls (w_io w) io → all_harmless calls →
  crewed n pcs extra st x (with_io io w).
Proof.
  intros Hw [_ Hk] Hall. apply crewed_io; [exact Hw|intros ep|]; rewrite Hk;
    [by apply replay_interest|by apply replay_fds].
Qed.

(** The program's memory and the record of its calls. *)
Lemma crewed_calls n pcs extra st x w calls :
  crewed n pcs extra st x w → crewed n pcs extra st x (set_w_calls calls w).
Proof.
  intros [H1 H2 [H3 H4 H5 H6]]. split; [done|done|]. split; [|by eapply hosted_frame; eauto|done|done].
  by eapply berths_same; [exact H3|by eapply staffed_threads|..].
Qed.

(** Only flags and queues of the loops, places and pointers of the threads. *)
Lemma crewed_staff n pcs pcs' extra extra' st x w loops held :
  crewed n pcs extra st x w → staffed pcs' extra' st loops held →
  (∀ l, to_handle pcs' l `sublist_of` to_handle pcs l) →
  crewed n pcs' extra' st x (set_w_held held (set_w_loops loops w)).
Proof.
  intros [H1 H2 [H3 H4 H5 H6]] Hs Hr. split; [done|done|].
  split; [|by eapply hosted_frame; eauto|by eapply attended_mono; eauto|done].
  by eapply berths_same; [exact H3|by eapply staffed_threads|..].
Qed.

Lemma crewed_less n n' pcs extra st x w :
  crewed n pcs extra st x w → 0 ≤ n' ≤ n → crewed n' pcs extra st x w.
Proof. intros [H1 H2 [H3 H4 H5 H6]] Hn. split; [done|done|]. split; [done..|]. by eapply roster_less. Qed.

(** A channel with other flags. *)
Lemma crewed_flags n pcs extra st x w q ch ch' :
  crewed n pcs extra st x w → r_chans (w_r w) !! q = Some ch → same_binding ch ch' →
  crewed n pcs extra st x (set_w_r (set_r_chans (<[q := ch']> (r_chans (w_r w))) (w_r w)) w).
Proof.
  intros [H1 H2 [H3 H4 H5 H6]] Hq Hs. split; [done|done|]. split.
  - intros l Hin. destruct (H3 l Hin) as (p & [Hsy Hfds Hth] & Hn). exists p. split; [|done].
    split; [|eapply fds_insert; [exact Hfds|exact Hq|apply Hs..]|exact Hth].
    eapply synced_touch_events; [exact Hsy|exact Hq|apply Hs..].
  - by eapply hosted_frame; eauto.
  - eapply attended_mono; [exact H5|done| |by eauto 6]. intros l q' ch0 _ Hq' Hl. simpl.
    destruct (decide (q = q')) as [<-|Hne]; [|rewrite lookup_insert_ne by done; by exists ch0].
    exists ch'. rewrite lookup_insert_eq. split; [done|]. rewrite (sb_loop _ _ Hs). congruence.
  - by eapply roster_flags.
Qed.

(** What a step leaves of the objects around connections and loops. *)
Definition server_objects w := (w_servers w, w_pools w, w_acceptors w, w_clients w).

(** The members of a connection that never change. *)
Definition conn_place (y : TcpConnection) := (tc_channel y, tc_name y, tc_loop y, tc_socket y).

(** A step of loop [l] turns one of its connections, [y] at [c] with channel [ch], into
    [y'] and [ch'], perhaps with another status. *)
Lemma crewed_turn n n' pcs pcs' extra st x w w' l p c y ch y' ch' k k' :
  crewed n pcs extra st x w → w_tid w' = tid_of l → st !! c = Some k →
  w_conns w !! c = Some y → r_chans (w_r w) !! tc_channel y = Some ch →
  ch_loop ch = l → ch_loop ch' = l → conn_place y' = conn_place y → 0 ≤ n' ≤ n →
  staffed pcs' extra (<[c := k']> st) (w_loops w') (w_held w') →
  (∀ l, to_handle pcs' l `sublist_of` to_handle pcs l) →
  k' = Served ∨ (∀ l, tc_channel y ∉ to_handle pcs' l) →
  loop_ok l p w' → 0 < ep_nevents p ≤ 2 * NR_OPEN → ep_epollfd p = ep_of l →
  apart l (ep_of l) (w_r w) (w_r w') → same_fds (w_io w) (w_io w') →
  w_conns w' = <[c := y']> (w_conns w) → r_chans (w_r w') = <[tc_channel y := ch']> (r_chans (w_r w)) →
  (w_next w ≤ w_next w')%nat → server_objects w' = server_objects w →
  stands n' x c y' ch' k' → listed k' = listed k → crewed n' pcs' extra (<[c := k']> st) x w'.
Proof.
  intros [H1 H2 [H3 H4 H5 H6]] Ht Hk Hy Hch Hl Hl' Eplace Hn Hs Hsub Hk' Hok Hne He Hap Hf Ec Eq Hnext Eo Hst Hlist.
  injection Eplace as P1 P2 P3 P4. injection Eo as E1 E2 E3 E4.
  assert (tc_loop y = l) as Hhome.
  { destruct (roster_chan _ _ _ _ _ _ _ _ _ _ _ _ _ _ _ _ _ H6 Hy Hch) as (k0 & _ & _ & F%stands_filed).
    by rewrite <- (fl_loop _ _ _ F). }
  assert (l ∈ lb :: ios) as Hin.
  { destruct (roster_chan _ _ _ _ _ _ _ _ _ _ _ _ _ _ _ _ _ H6 Hy Hch) as (k0 & _ & Hin & _).
    rewrite <- Hhome. by right. }
  split; [exact H1|exact Hs|]. split.
  - eapply (berths_one l p); [exact H1|exact H3|by eapply staffed_threads|exact Hin|by apply loop_ok_there|exact Hne|exact He|exact Hap|].
    intros l' Hne'. rewrite Eq. apply same_chans_insert; [congruence|]. intros ch0 Hch0. congruence.
  - eapply hosted_frame; [exact H4|done..| |]; rewrite Ec.
    + intros c0 y0. destruct (decide (c = c0)) as [<-|Hnec];
        [rewrite lookup_insert_eq; intros [= <-]; by exists y|rewrite lookup_insert_ne by done; eauto].
    + intros c0 y0 Hy0. destruct (decide (c = c0)) as [<-|Hnec];
        [by rewrite lookup_insert_eq|rewrite lookup_insert_ne by done; by eexists].
  - rewrite Ec, Eq. eapply attended_mono; [exact H5|exact Hsub| |].
    + intros l0 q ch0 _ Hq Hl0. destruct (decide (tc_channel y = q)) as [<-|Hnec].
      * exists ch'. rewrite lookup_insert_eq. split; [done|congruence].
      * exists ch0. by rewrite lookup_insert_ne.
    + intros l0 c0 y0 Hy0 Hin0. destruct (decide (c = c0)) as [<-|Hnec].
      * rewrite lookup_insert_eq in Hy0. injection Hy0 as <-. left. rewrite lookup_insert_eq.
        destruct Hk' as [->|Hno]; [done|]. rewrite P1 in Hin0. by destruct (Hno l0).
      * rewrite lookup_insert_ne in Hy0 by done. right. exists y0. by rewrite lookup_insert_ne.
  - rewrite Ec, Eq. eapply roster_touch; [exact H6|exact Hy|exact Hch|done..|].
    intros name c'. split; [|by intros []]. intros Hc'. split; [done|]. intros ->. rewrite Hlist.
    destruct (rs_map _ _ _ _ _ _ _ _ _ _ _ _ _ _ H6 _ _ Hc') as (y0 & k0 & _ & _ & Hk0 & Hl0). congruence.
Qed.

(** The channels that are to be handled are of connections in service. *)
Lemma attended_served R st conns chans c y k l :
  attended R st conns chans → conns !! c = Some y → st !! c = Some k → k ≠ Served → tc_channel y ∉ R l.
Proof. intros Ha Hy Hk Hne Hin. destruct (proj2 (Ha l) _ Hin) as (ch & _ & _ & Hall). by rewrite (Hall c y Hy eq_refl) in Hk; injection Hk as <-. Qed.

(** The server forgets a closed connection. *)
Lemma crewed_forget n pcs pcs' extra st x w loops c y :
  crewed n pcs extra st x w → st !! c = Some Parting → w_conns w !! c = Some y →
  staffed pcs' extra (<[c := Dying (tc_loop y)]> st) loops (w_held w) →
  (∀ l, to_handle pcs' l `sublist_of` to_handle pcs l) →
  crewed n pcs' extra (<[c := Dying (tc_loop y)]> st) (forget y x)
    (set_w_loops loops (set_w_servers (<[s := forget y x]> (w_servers w)) w)).
Proof.
  intros [H1 H2 [H3 [G1 [] G3 G4 G5] H5 H6]] Hk Hy Hs Hsub. split; [exact H1|exact Hs|]. split.
  - by eapply berths_same; [exact H3|by eapply staffed_threads|..].
  - split; [simpl; by rewrite G1, insert_singleton_eq|by split|done..].
  - eapply attended_mono; [exact H5|exact Hsub|by eauto|]. intros l c0 y0 Hy0 Hin. right. exists y0.
    split_and!; [done..|]. apply lookup_insert_ne. intros <-. simpl in Hy0.
    assert (y0 = y) as -> by congruence.
    eapply attended_served; [exact H5|exact Hy|exact Hk|done|]. eapply elem_of_sublist; [exact Hin|apply Hsub].
  - destruct (roster_at _ _ _ _ _ _ _ _ _ _ _ _ _ _ _ _ H6 Hk) as (y0 & ch & Hy0 & Hch & Hin & Hst).
    assert (y0 = y) as -> by congruence. destruct Hst as (Hpl & Hdown & Hname).
    pose proof (roster_touch lb s a achan ios idc idm base n n st x (forget y x) _ _ (w_next w) (w_next w) c y ch y ch (Dying (tc_loop y))
      H6 Hy Hch) as Ht. rewrite (insert_id (w_conns w)), (insert_id (r_chans (w_r w))) in Ht by done. apply Ht; try done.
    + split; [|done]. apply H6.
    + intros name c'. simpl. rewrite lookup_delete_Some. split.
      * intros [Hne Hc']. split; [done|]. intros ->.
        destruct (rs_map _ _ _ _ _ _ _ _ _ _ _ _ _ _ H6 _ _ Hc') as (y0 & k0 & Hy0' & Hn0 & _). congruence.
      * intros [Hc' Hno]. split; [|done]. intros <-. rewrite Hname in Hc'. injection Hc' as <-. by specialize (Hno eq_refl).
Qed.

(** A connection at its end: its socket is closed. *)
Lemma crewed_leave n pcs extra extra' st x w c y r io held :
  crewed n pcs extra st x w → w_conns w !! c = Some y → st !! c = Some Gone →
  staffed pcs extra' (delete c st) (w_loops w) held →
  io_by [(SysClose (tc_socket y), r)] (w_io w) io →
  crewed n pcs extra' (delete c st) x (with_io io (set_w_conns (delete c (w_conns w))
    (set_w_r (set_r_chans (delete (tc_channel y) (r_chans (w_r w))) (w_r w)) (set_w_held held w)))).
Proof.
  intros [H1 H2 [H3 [G1 G2 G3 (ac & Hac & Hal & Has & Hacc) G5] H5 H6]] Hy Hk Hs [_ Hio].
  unfold replay in Hio. simpl in Hio. pose proof Hacc as [_ [_ Hcb] Hinj]. destruct (Hcb c y Hy) as [Hyb _].
  destruct (roster_at _ _ _ _ _ _ _ _ _ _ _ _ _ _ _ _ H6 Hk) as (y0 & ch & Hy0 & Hch & Hin & Hst).
  assert (y0 = y) as -> by congruence. destruct Hst as (Hpl & [_ _ Hnew]).
  split; [exact H1|exact Hs|]. split.
  - intros l Hl. destruct (H3 l Hl) as (p & Hok & Hn & He). exists p. split; [|done].
    eapply (loop_ok_drop l p (tc_channel y) ch) in Hok as Hok'; [|exact Hch|exact Hnew].
    eapply loop_ok_frame; [exact Hok'|done|done| |exact (lk_thread _ _ _ Hok')].
    unfold kernel_list. simpl. rewrite Hio, close_interest by (rewrite He; intros E; apply Hyb; rewrite E; by apply H1).
    apply delete_id, eq_None_not_Some. intros [[ev q] Hq].
    destruct (loop_ok_watch _ _ _ _ _ _ Hok' Hq) as (ch' & Hq' & Hfd & _).
    simpl in Hq'. apply lookup_delete_Some in Hq' as [Hne Hq'].
    destruct (roster_chan_fd _ _ _ _ _ _ _ _ _ _ _ _ _ _ _ _ H6 Hq') as [Hb|(c' & y' & Hy' & <- & Hs')]; [congruence|].
    apply Hne. f_equal. assert (c = c') as <- by (eapply Hinj; [exact Hy|exact Hy'|congruence]). congruence.
  - split; try done. exists ac. split_and!; [done..|].
    change (accounted base (ac_idleFd ac) (delete c (w_conns w)) (open_fds (io_k io))).
    rewrite Hio, close_fds. by apply accounted_leave.
  - eapply attended_mono; [exact H5|done| |].
    + intros l q ch0 Hq Hch0 Hl. exists ch0. split; [|done]. simpl. rewrite lookup_delete_ne; [done|].
      intros <-. by eapply attended_served in Hq.
    + intros l c' y' Hy' _. simpl in Hy'. apply lookup_delete_Some in Hy' as [Hne Hy']. right. exists y'. by rewrite lookup_delete_ne.
  - by apply roster_delete.
Qed.

(** A new connection is as the roster wants it. *)
Lemma handed_stands n x home next fd la pa :
  0 ≤ n → sv_nextConnId x + n < 2 ^ 31 - 1 → 0 ≤ sv_nextConnId x → echo_server lb idc idm x →
  stands n (after_accept next x) next (handed_conn s x home fd (S next) la pa) (new_chan home next fd) (Arriving home).
Proof.
  intros Hn Hid Hid0 [E1 E2 E3 E4 E5]. split_and!; [done|done| |done|done|].
  - split; [done..|by split|apply reportable_none|split; by vm_compute].
  - split; try done.
    + split; [done|simpl; by rewrite E3|]. split; by vm_compute.
    + simpl. by rewrite E2.
    + simpl. by rewrite lookup_insert_eq.
    + assert (bsize (tc_outputBuffer (set_tc_state kConnected (handed_conn s x home fd (S next) la pa))) = 1032)
        as -> by (by vm_compute). unfold event_bytes, sizeof_extrabuf, max_size. lia.
Qed.

(** A new connection, of loop [home]. *)
Lemma crewed_enter n pcs extra st x w pl i home hx fd la pa io :
  crewed (n + 1) pcs extra st x w → 0 ≤ n →
  fd ∉ open_fds (io_k (w_io w)) → 0 ≤ fd →
  (∀ ep, interest (io_k io) ep = interest (io_k (w_io w)) ep) →
  open_fds (io_k io) = {[fd]} ∪ open_fds (io_k (w_io w)) →
  w_pools w !! sv_threadPool x = Some pl → pl_loops pl = ios → pl_baseLoop pl = lb →
  ios !! i = Some home → w_loops w !! home = Some hx →
  crewed n pcs extra (<[w_next w := Arriving home]> st) (after_accept (w_next w) x)
    (with_io io (enqueue home hx (FnTcpConnection_connectEstablished (w_next w))
       (handed s x (pool_at (succ_mod (length ios) i) pl) home fd la pa w))).
Proof.
  intros [H1 H2 [H3 [G1 G2 G3 (ac & Hac & Hal & Has & Hacc) G5] H5 H6]] Hn Hnew Hpos Hi Ho Hpl Hpll Hplb Hhome Hhx.
  destruct (accounted_closed _ _ _ _ _ Hacc Hnew) as (Hfb & Hfc & _).
  destruct (rs_fresh _ _ _ _ _ _ _ _ _ _ _ _ _ _ H6 (w_next w)) as [Hnc _]; [lia|].
  destruct (rs_fresh _ _ _ _ _ _ _ _ _ _ _ _ _ _ H6 (S (w_next w))) as [_ Hnq]; [lia|].
  assert (st !! w_next w = None) as Hnst.
  { apply eq_None_not_Some. intros [k Hk]. destruct (rs_status _ _ _ _ _ _ _ _ _ _ _ _ _ _ H6 _ _ Hk). congruence. }
  destruct (rs_ids _ _ _ _ _ _ _ _ _ _ _ _ _ _ H6) as (Hn1 & Hid & Hlt).
  pose proof (list_elem_of_lookup_2 _ _ _ Hhome) as Hin.
  set (w' := with_io _ _).
  assert (staffed pcs extra (<[w_next w := Arriving home]> st) (w_loops w') (w_held w')) as Hs.
  { eapply staffed_push; [exact H2|exact Hhx|by rewrite Hnst|done]. }
  split; [exact H1|exact Hs|]. split.
  - intros l Hl. destruct (H3 l Hl) as (p & Hok & Hnp & He). exists p. split; [|done].
    eapply (loop_ok_new l p (S (w_next w)) (new_chan home (w_next w) fd)) in Hok as Hok'; [|exact Hnq|done|].
    + eapply loop_ok_frame; [exact Hok'|done|done| |by eapply staffed_threads]. by apply Hi.
    + intros q ch Hq _. simpl in Hq.
      destruct (roster_chan_fd _ _ _ _ _ _ _ _ _ _ _ _ _ _ _ _ H6 Hq) as [Hb|(c & y & Hy & _ & <-)]; simpl.
      * by intros <-.
      * by eapply Hfc.
  - split; [simpl; by rewrite G1, insert_singleton_eq|by destruct G2| | |exact G5].
    + exists (pool_at (succ_mod (length ios) i) pl), (succ_mod (length ios) i).
      split_and!; [apply lookup_insert_eq|done..|]. apply succ_mod_lt. by eapply lookup_lt_Some.
    + exists ac. split_and!; [done..|]. simpl. fold w'. change (w_io w') with io. rewrite Ho.
      by eapply accounted_enter.
  - eapply attended_mono; [exact H5|done| |].
    + intros l q ch Hq Hch Hl. exists ch. split; [|done]. simpl. rewrite lookup_insert_ne; [done|]. congruence.
    + intros l c y Hy Hq. simpl in Hy. destruct (decide (w_next w = c)) as [<-|Hne].
      * rewrite lookup_insert_eq in Hy. injection Hy as <-. simpl in Hq.
        destruct (proj2 (H5 l) _ Hq) as (ch & Hch & _). congruence.
      * rewrite lookup_insert_ne in Hy by done. right. exists y. by rewrite lookup_insert_ne.
  - eapply roster_enter; [exact H6|done|exact Hn|apply G2|done|exact Hin|done|].
    apply handed_stands; [done|lia|done|exact G2].
Qed.
End service.
