(* ===== verification/CrewEvents.v ===== *)
(** * CrewEvents: the events of a server of several threads

    What the thread of a loop does with one channel that its poll reported, while the
    other threads are anywhere: a connection's events, a new connection that is handed
    to its loop, the loops' own descriptors; and giving up a pointer, which may be the
    last one to a connection of another loop. *)
From S2P Require Import Prelude Endian Buffer OS Descriptors Double Objects Poller LoopCore Channel TimerQueue Sockets Calls TcpConnection ByteStream Lifecycle EventLoop Threads Interleaving Acceptor Connector TcpServer TcpClient Program PingPong Serving Lifetimes Echo Isolation Running Table Events Service Welcome Rounds Handover Roster Crew.

Set Default Goal Selector "!".

Section events.
Context {K : Type} `{!OS K} `{!OSLaws K} `{!EpollLaws K} `{!FdLaws K} `{!EpollRoom K} `{Inet}.
Context (lb s a achan : ptr) (ios : list ptr) (idc idm : nat) (base : gset Z).
Context (tid_of : ptr → tid) (ep_of : ptr → Z).
Implicit Types w : World K.

Abbreviation staffed := (staffed lb s ios base tid_of).
Abbreviation stands := (stands s idc idm).
Abbreviation roster := (roster lb s a achan ios idc idm base).
Abbreviation crewed := (crewed lb s a achan ios idc idm base tid_of ep_of).

(** *** Giving up a pointer *)

(** What holds a connection besides local variables. *)
Lemma crewed_kept n pcs extra st x w c :
  crewed n pcs extra st x w → kept_by_object c w →
  ∃ k, st !! c = Some k ∧ (listed k = true ∨ is_Some (due lb s c k)).
Proof.
  intros [_ Hs [_ [G1 _ _ _ G5] _ H6]] [(s' & x' & name & Hs' & Hx)|[(cl & x' & Hcl & _)|(l & lx & f & Hl & Hf & Hh)]].
  - rewrite G1 in Hs'. apply lookup_singleton_Some in Hs' as [_ <-].
    destruct (rs_map _ _ _ _ _ _ _ _ _ _ _ _ _ _ H6 _ _ Hx) as (y & k & _ & _ & Hk & Hlist). exists k. by split; [|left].
  - by rewrite G5 in Hcl.
  - destruct (proj1 (proj2 (sf_queues _ _ _ _ _ _ _ _ _ _ Hs l) f)) as (c' & k & Hc' & Hd).
    { apply elem_of_app. right. rewrite Hl. exact Hf. }
    assert (c' = c) as -> by (apply due_holds in Hd; congruence). exists k. split; [done|]. right. by eexists.
Qed.

(** A connection that is not at its end is kept by an object or by a functor that a
    thread is about to run. *)
Lemma crewed_not_gone n pcs extra st x w c k :
  crewed n pcs extra st x w → st !! c = Some k → k ≠ Gone →
  c ∈ holding (lb :: ios) pcs ∨ kept_by_object c w.
Proof.
  intros [_ Hs [_ [G1 _ _ _ _] _ H6]] Hk Hne.
  destruct (decide (listed k = true)) as [Hl|Hl].
  { right. left. destruct (roster_at _ _ _ _ _ _ _ _ _ _ _ _ _ _ _ _ H6 Hk) as (y & ch & _ & _ & _ & Hst).
    exists s, x, (tc_name y). rewrite G1. split; [apply lookup_singleton_eq|by eapply stands_listed]. }
  destruct k as [home| | |home|]; [done..| |done].
  assert (FnTcpConnection_connectDestroyed c ∈ waiting_on pcs (w_loops w) home) as Hin
    by (apply (sf_queues _ _ _ _ _ _ _ _ _ _ Hs); by exists c, (Dying home)).
  apply elem_of_app in Hin as [Hin|Hin].
  - left. assert (c ∈ pc_held (pc_at pcs home)) as Hc.
    { eapply (sf_keeps _ _ _ _ _ _ _ _ _ _ Hs). apply list_elem_of_omap. by eexists. }
    apply elem_of_holding. exists home. split; [|done].
    apply (sf_pcs _ _ _ _ _ _ _ _ _ _ Hs). unfold pc_at in Hc.
    destruct (pcs !! home); [by eexists|by apply elem_of_nil in Hc].
  - right. do 2 right. destruct (w_loops w !! home) as [lx|] eqn:El; [|by apply elem_of_nil in Hin].
    exists home, lx, (FnTcpConnection_connectDestroyed c). by split_and!.
Qed.

(** A connection that nothing holds is at its end. *)
Lemma crewed_unkept n pcs extra st x w c k :
  crewed n pcs (c :: extra) st x w → st !! c = Some k →
  c ∉ owners (set_w_held (drop_one c (w_held w)) w) → k = Gone.
Proof.
  intros Hw Hk Hno. apply dec_stable. intros Hne. rewrite elem_of_owners in Hno. apply Hno.
  destruct (crewed_not_gone _ _ _ _ _ _ _ _ Hw Hk Hne) as [Hin|Hin]; [left|by right].
  pose proof Hw as [_ Hs _]. cbn [w_held set_w_held].
  assert (w_held w ≡ₚ c :: drop_one c (w_held w)) as E
    by (apply drop_one_Permutation; rewrite (sf_held _ _ _ _ _ _ _ _ _ _ Hs); by left).
  rewrite (sf_held _ _ _ _ _ _ _ _ _ _ Hs) in E at 1. cbn [app] in E. apply Permutation_cons_inv in E.
  rewrite <- E. apply elem_of_app. by right.
Qed.

Lemma crewed_release_wp n pcs extra st x w c l :
  crewed n pcs (c :: extra) st x w → l ∈ lb :: ios → w_tid w = tid_of l →
  wp (release c) (λ _ w', (∃ st', crewed n pcs extra st' x w') ∧ w_tid w' = tid_of l) w.
Proof.
  intros Hw Hl Ht. pose proof Hw as [H1 H2 Heq].
  destruct (staffed_drop _ _ _ _ _ _ _ _ _ _ _ H2) as [Hkeep Hlast].
  destruct (sf_known _ _ _ _ _ _ _ _ _ _ H2 c) as [k Hk].
  { rewrite (sf_held _ _ _ _ _ _ _ _ _ _ H2). by left. }
  assert (∀ held', staffed pcs extra st (w_loops w) held' → crewed n pcs extra st x (set_w_held held' w)) as Hset.
  { intros held' Hs. exact (crewed_staff lb s a achan ios idc idm base tid_of ep_of n pcs pcs (c :: extra) extra st x w _ held' Hw Hs ltac:(done)). }
  apply release_wp.
  - intros Hc. split; [|done]. exists st. apply Hset, Hkeep. apply elem_of_owners in Hc as [?|Hc]; [by left|right].
    destruct (crewed_kept _ _ _ _ _ _ _ Hw Hc) as (k0 & -> & [Hlist|[f Hd]]); intros [= ->]; done.
  - intros Hno. pose proof (crewed_unkept _ _ _ _ _ _ _ _ Hw Hk Hno) as ->.
    assert (c ∉ drop_one c (w_held w)) as Hni by (intros Hin; apply Hno, elem_of_owners; by left).
    specialize (Hlast Hk Hni). set (held' := drop_one c (w_held w)) in *.
    destruct Heq as [E1 E2 E3 E4].
    destruct (roster_at _ _ _ _ _ _ _ _ _ _ _ _ _ _ _ _ E4 Hk) as (y & ch & Hy & Hch & Hin & Hst).
    destruct Hst as (Hpl & [D1 D2 D3]).
    assert (∀ io r, io_by [(SysClose (tc_socket y), r)] (w_io w) io → (∃ st', crewed n pcs extra st' x
      (with_io io (set_w_conns (delete c (w_conns w)) (set_w_r (set_r_chans (delete (tc_channel y) (r_chans (w_r w)))
         (w_r w)) (set_w_held held' w))))) ∧ w_tid w = tid_of l) as Hend.
    { intros io r Hio. split; [|done]. eexists. by eapply crewed_leave. }
    destruct (decide (tc_loop y = l)) as [Hhome|Hhome].
    + destruct (crewed_here _ _ _ _ _ _ _ _ _ _ _ _ _ _ _ _ _ Hw Hl Ht) as (p & Hok & _).
      assert (ch_loop ch = l) as Hloop by (rewrite (pl_loop _ _ _ _ Hpl); exact Hhome).
      eapply (TcpConnection_dtor_wp l (c, y) ch); [|exact Hend].
      split; [exact Hy|exact D1|exact Hhome| |exact Hloop|apply Hpl|exact D2|exact D3].
      exact (loop_ok_live _ _ _ _ _ Hok Hch Hloop).
    + destruct (staffed_threads _ _ _ _ _ _ _ _ _ _ H2 (tc_loop y)) as (hx & Hhx & Hth); [by right|].
      eapply (TcpConnection_dtor_elsewhere_wp c y ch hx); [exact Hy|exact Hch|by rewrite (pl_loop _ _ _ _ Hpl)| |exact Hend].
      simpl. rewrite Hth, Ht. intros E. apply Hhome. eapply (ko_tid _ _ _ _ _ H1); [by right|exact Hl|exact E].
Qed.

(** *** One connection *)

Section conn_event.
Context (pcs : gmap ptr pc) (l c q : ptr) (e n : Z).
Context (Hq : ∀ l', q ∉ to_handle pcs l').

(** The thread of loop [l] works for connection [c], whose channel [q] had the events
    [e] reported; the connection is in service, or perhaps closed. *)
Record at_work (m : Z) (closed : bool) (k : status) st x y ch w : Prop := {
  aw_crewed : crewed m pcs [c] st x w;
  aw_thread : w_tid w = tid_of l;
  aw_status : st !! c = Some k;
  aw_open : k = Served ∨ closed = true ∧ k = Parting;
  aw_conn : w_conns w !! c = Some y;
  aw_chan : r_chans (w_r w) !! q = Some ch;
  aw_channel : tc_channel y = q;
  aw_home : tc_loop y = l;
  aw_revents : ch_revents ch = e
}.

Definition working (m : Z) (closed : bool) w : Prop := ∃ k st x y ch, at_work m closed k st x y ch w.

Lemma at_work_stands m closed k st x y ch w :
  at_work m closed k st x y ch w → stands m x c y ch k ∧ l ∈ ios ∧ ch_loop ch = l.
Proof.
  intros [[_ _ [_ _ _ H6]] _ Hk _ Hy Hch <- Hh _].
  destruct (roster_chan _ _ _ _ _ _ _ _ _ _ _ _ _ _ _ _ _ H6 Hy Hch) as (k' & Hk' & Hin & Hst).
  assert (k' = k) as -> by congruence. rewrite Hh in Hin. split_and!; [done..|].
  by rewrite (fl_loop _ _ _ (stands_filed _ _ _ _ _ _ _ _ _ Hst)).
Qed.

Lemma at_work_placed m closed k st x y ch w : at_work m closed k st x y ch w → placed l c y ch.
Proof.
  intros Hw. destruct (at_work_stands _ _ _ _ _ _ _ _ Hw) as (Hst & _). rewrite <- (aw_home _ _ _ _ _ _ _ _ Hw).
  destruct (aw_open _ _ _ _ _ _ _ _ Hw) as [->|[_ ->]]; apply Hst.
Qed.

Lemma working_between m closed : between_events q (reported_at c e) (working m closed).
Proof.
  split.
  - intros w (k & st & x & y & ch & Hw). exists ch. split; [apply Hw|]. split; [apply Hw|].
    by eapply pl_bound, at_work_placed.
  - intros b ch w (k & st & x & y & ch' & [A1 A2 A3 A4 A5 A6 A7 A8 A9]) Hch.
    assert (ch' = ch) as -> by congruence. exists k, st, x, y, (set_ch_eventHandling b ch).
    split; try done; [by eapply crewed_flags|]. simpl. by rewrite lookup_insert_eq.
Qed.

Lemma at_work_here m closed k st x y ch w :
  at_work m closed k st x y ch w →
  ∃ p, loop_ok l p w ∧ 0 < ep_nevents p ≤ 2 * NR_OPEN ∧ ep_epollfd p = ep_of l ∧ conn_core c y ch w.
Proof.
  intros Hw. destruct (at_work_stands _ _ _ _ _ _ _ _ Hw) as (Hst & Hin & Hloop).
  pose proof (at_work_placed _ _ _ _ _ _ _ _ Hw) as [P1 P2 P3 P4 P5 P6].
  destruct Hw as [A1 A2 A3 A4 A5 A6 A7 A8 A9].
  destruct (crewed_here _ _ _ _ _ _ _ _ _ _ _ _ _ _ _ _ l A1) as (p & Hok & Hn & He); [by right|done|].
  exists p. do 3 (split; [done|]). rewrite <- A7 in A6. split; [done| | | | |exact P6].
  - by eapply loop_ok_live.
  - congruence.
  - exact P3.
  - intros lx Hlx E. destruct A1 as [_ Hs [_ [_ _ _ (ac & _ & _ & _ & [_ [_ Hb] _]) _] _ _]].
    destruct (Hb c y A5) as [Hnb _]. apply Hnb. rewrite <- E.
    eapply (od_wakeup _ _ _ _ _), (staffed_loop _ _ _ _ _ _ _ _ _ _ _ _ Hs Hlx).
Qed.

Lemma at_work_eventful m closed st x y ch w :
  at_work m closed Served st x y ch w →
  ∃ p, eventful l c idm y ch p w ∧ 0 < ep_nevents p ≤ 2 * NR_OPEN ∧ ep_epollfd p = ep_of l.
Proof.
  intros Hw. destruct (at_work_here _ _ _ _ _ _ _ _ Hw) as (p & Hok & Hn & He & Hcore). exists p. split; [|done].
  destruct (at_work_stands _ _ _ _ _ _ _ _ Hw) as ((_ & [U1 U2 U3 U4 U5 U6 U7 U8] & _) & Hin & _).
  pose proof (at_work_placed _ _ _ _ _ _ _ _ Hw) as Hpl. pose proof (aw_channel _ _ _ _ _ _ _ _ Hw) as Eq.
  split; [done|by split|rewrite Eq; apply Hw|done..|].
  eapply crewed_can_watch; [apply Hw|by right|apply Hw|apply Hpl|exact He].
Qed.

(** After an event the connection goes on. *)
Lemma at_work_goes_on m m' closed closed' st x y ch p size w w' :
  at_work m closed Served st x y ch w → 0 < ep_nevents p ≤ 2 * NR_OPEN → ep_epollfd p = ep_of l →
  goes_on l c idm y ch p size w w' → size + event_bytes * m' ≤ max_size → 0 ≤ m' ≤ m →
  working m' closed' w'.
Proof.
  intros Hw Hn He (y' & ch' & [Ec Eq Hs Hsc Hwait (mm & Hok') Hel] & [Hcore Hwi] & Hecho & Hpl' & Hsz) Hroom Hm.
  destruct (at_work_stands _ _ _ _ _ _ _ _ Hw) as ((Hpl & [U1 U2 U3 U4 U5 U6 U7 U8] & Hwt) & Hin & Hloop).
  destruct Hw as [A1 A2 A3 A4 A5 A6 A7 A8 A9].
  pose proof (ew_objects _ _ _ _ _ _ Hel) as Eo. unfold objects in Eo.
  injection Eo as E1 E2 E3 E4 E5 E6 E7 E8 E9 E10 E11.
  assert (conn_place y' = conn_place y) as Eplace by (by rewrite Hs).
  exists Served, (<[c := Served]> st), x, y', ch'. split; try done.
  - rewrite <- A7 in A6. eapply (crewed_turn _ _ _ _ _ _ _ _ _ _ m m' pcs pcs [c] st x w w' l
      (set_ep_channels mm p) c y ch y' ch' Served Served); [exact A1|congruence|exact A3|exact A5|exact A6|exact Hloop|by rewrite Hsc|exact Eplace
      |exact Hm| |done|by left|exact Hok'|exact Hn|exact He| |apply Hel|exact Ec|exact Eq|apply Hel| | |done].
    + rewrite E2, E11. apply (staffed_idle _ _ _ _ _ _ _ _ _ _ _ Served); [apply A1|done..].
    + pose proof (ew_parted _ _ _ _ _ _ Hel) as Hp. by rewrite He in Hp.
    + unfold server_objects. congruence.
    + split_and!; [by rewrite (pl_home _ _ _ _ Hpl')| |by apply Hwait].
      split; [done|by rewrite Hs..|done|lia].
  - congruence.
  - apply lookup_insert_eq.
  - by left.
  - rewrite Ec. apply lookup_insert_eq.
  - rewrite Eq, A7. apply lookup_insert_eq.
  - by rewrite Hs.
  - by rewrite Hs.
  - by rewrite Hsc.
Qed.

Lemma working_write_wp closed w : working n closed w → wp (handleWrite c) (λ _, working n closed) w.
Proof.
  intros (k & st & x & y & ch & Hw).
  assert (0 ≤ n) as Hn0 by (destruct Hw as [[_ _ [_ _ _ H6]] _ _ _ _ _ _ _ _]; apply (rs_ids _ _ _ _ _ _ _ _ _ _ _ _ _ _ H6)).
  destruct (aw_open _ _ _ _ _ _ _ _ Hw) as [->|[Hc ->]].
  - destruct (at_work_eventful _ _ _ _ _ _ _ Hw) as (p & Hev & Hn & He).
    destruct (at_work_stands _ _ _ _ _ _ _ _ Hw) as ((_ & [_ _ _ _ _ _ _ U8] & _) & _).
    eapply wp_mono; [by apply (handleWrite_goes_on l c idm y ch p)|]. intros [] w' Hgo.
    eapply at_work_goes_on; [exact Hw|exact Hn|exact He|exact Hgo|exact U8|lia].
  - destruct (at_work_here _ _ _ _ _ _ _ _ Hw) as (p & _ & _ & _ & Hcore).
    destruct (at_work_stands _ _ _ _ _ _ _ _ Hw) as ((_ & [_ D2 _] & _) & _).
    eapply handleWrite_down_wp; [exact Hcore|exact D2|]. by exists Parting, st, x, y, ch.
Qed.

(** The server's loop is another one. *)
Lemma crewed_base m extra st x w :
  crewed m pcs extra st x w → l ∈ ios → w_tid w = tid_of l →
  w_servers w !! s = Some x ∧ sv_loop x = lb
  ∧ ∃ bx, w_loops w !! lb = Some bx ∧ el_threadId bx ≠ w_tid w.
Proof.
  intros [H1 H2 [_ [G1 G2 _ _ _] _ _]] Hin Ht. split_and!; [rewrite G1; apply lookup_singleton_eq|apply G2|].
  destruct (staffed_threads _ _ _ _ _ _ _ _ _ _ H2 lb) as (bx & Hbx & Hth); [by left|].
  exists bx. split; [done|]. rewrite Hth, Ht. intros E.
  assert (lb = l) as -> by (eapply (ko_tid _ _ _ _ _ H1); [by left|by right|exact E]).
  by apply ko_nodup, NoDup_cons in H1 as [? _].
Qed.

(** The world when the server's loop was told that the connection is closed: [y2] and
    [ch2] are what it and its channel were when it was closed. *)
Lemma at_work_closed m closed st x y ch p y2 ch2 bx r io calls w w2 :
  at_work m closed Served st x y ch w → 0 ≤ n ≤ m → touched l c y ch p y2 ch2 w w2 →
  0 < ep_nevents p ≤ 2 * NR_OPEN → ep_epollfd p = ep_of l → conn_core c y2 ch2 w2 →
  w_loops w !! lb = Some bx → disabled l p q ch2 w2 r → io_by calls (r_io r) io → all_harmless calls →
  working n true (with_io io (enqueue lb bx (FnTcpServer_removeConnectionInLoop s c)
    (disconnected c y2 (UserConnectionCallback idc) r w2))).
Proof.
  intros Hw Hnm [Ec Eq Hs Hsc Hwait _ Hel] Hn He Hcore Hbx ((m3 & Hok3) & Hch3 & Hf3 & Hp3) [_ Hk] Hall.
  destruct (at_work_stands _ _ _ _ _ _ _ _ Hw) as ((_ & Hup & Hwt) & Hin & Hloop).
  pose proof (at_work_placed _ _ _ _ _ _ _ _ Hw) as Hpl.
  pose proof Hw as [A1 A2 A3 A4 A5 A6 A7 A8 A9].
  pose proof (ew_objects _ _ _ _ _ _ Hel) as Eo. unfold objects in Eo.
  injection Eo as E1 E2 E3 E4 E5 E6 E7 E8 E9 E10 E11.
  set (ch3 := disabled_chan ch2) in *. set (y3 := set_tc_state kDisconnected y2). set (w4 := with_io io _).
  assert (w_conns w4 = <[c := y3]> (w_conns w)) as Ec4 by (simpl; by rewrite Ec, insert_insert_eq).
  assert (r_chans (w_r w4) = <[q := ch3]> (r_chans (w_r w))) as Eq4
    by (simpl; by rewrite Hch3, Eq, A7, insert_insert_eq).
  assert (staffed pcs [c] (<[c := Parting]> st) (w_loops w4) (w_held w4)) as Hst4.
  { simpl. rewrite E2, E11. eapply staffed_push; [apply A1|exact Hbx| |done]. rewrite A3. by intros k0 [= <-]. }
  assert (∀ ep, interest (io_k io) ep = interest (io_k (r_io r)) ep) as Hint
    by (intros ep; rewrite Hk; by apply replay_interest).
  exists Parting, (<[c := Parting]> st), x, y3, ch3. split.
  - rewrite <- A7 in A6, Eq4. eapply (crewed_turn _ _ _ _ _ _ _ _ _ _ m n pcs pcs [c] st x w w4 l
      (set_ep_channels m3 p) c y ch y3 ch3 Served Parting); [exact A1|simpl; congruence|exact A3|exact A5|exact A6
      |exact Hloop|change (ch_loop ch2 = l); by rewrite Hsc| |exact Hnm|exact Hst4|done|by right; rewrite A7| |exact Hn|exact He| | |exact Ec4
      |exact Eq4|apply Hel| | |done].
    + unfold conn_place. simpl. by rewrite Hs.
    + eapply loop_ok_frame; [exact Hok3|done|done|by apply Hint|].
      destruct (staffed_threads _ _ _ _ _ _ _ _ _ _ Hst4 l) as (hx & Hhx & Hth); [by right|].
      exists hx. split; [exact Hhx|]. simpl. congruence.
    + pose proof (ew_parted _ _ _ _ _ _ Hel) as Hp. rewrite He in Hp, Hp3. trans (w_r w2); [exact Hp|].
      destruct Hp3 as [Q1 Q2]. split; [exact Q1|]. intros ep' Hne. simpl. rewrite Hint. by apply Q2.
    + pose proof (ew_fds _ _ _ _ _ _ Hel) as F1. unfold same_fds in *.
      change (open_fds (io_k io) = open_fds (io_k (w_io w))). rewrite Hk, replay_fds by done. congruence.
    + unfold server_objects. simpl. congruence.
    + assert (placed l c y2 ch2) as [B1 B2 B3 [] B5 B6]
        by (eapply placed_similar; [exact Hpl|done..|apply Hcore]).
      split_and!; [|split; [done|done|]|change (tc_name y3) with (tc_name y2); rewrite Hs; apply Hup].
      * change (tc_loop y3) with (tc_loop y2). rewrite B1. by split.
      * apply disabled_waiting. by apply Hwait.
  - simpl. congruence.
  - apply lookup_insert_eq.
  - by right.
  - rewrite Ec4. apply lookup_insert_eq.
  - rewrite Eq4. apply lookup_insert_eq.
  - change (tc_channel y2 = q). by rewrite Hs.
  - change (tc_loop y2 = l). by rewrite Hs.
  - change (ch_revents ch2 = e). by rewrite Hsc.
Qed.

(** The connection is closed, perhaps after some steps that concern it only: the
    server's loop is told. *)
Lemma at_work_close_wp m closed st x y ch p y2 ch2 w w2 :
  at_work m closed Served st x y ch w → 0 ≤ n ≤ m → touched l c y ch p y2 ch2 w w2 →
  0 < ep_nevents p ≤ 2 * NR_OPEN → ep_epollfd p = ep_of l → conn_core c y2 ch2 w2 →
  wp (handleClose server_user close_callback c) (λ _ w', working n true w' ∧ w_conns w' !! c = Some (set_tc_state kDisconnected y2)) w2.
Proof.
  intros Hw Hnm Hto Hn He Hcore. pose proof Hto as [Ec Eq Hs Hsc _ (mm & Hok) Hel].
  destruct (at_work_stands _ _ _ _ _ _ _ _ Hw) as ((_ & [[U1 _ _] U2 U3 _ _ U6 _ _] & _) & Hin & Hloop).
  pose proof Hw as [A1 A2 _ _ _ _ A7 _ _].
  destruct (crewed_base _ _ _ _ _ A1 Hin A2) as (Hserv & Hbase & bx & Hbx & Hbt).
  pose proof (ew_objects _ _ _ _ _ _ Hel) as Eo. unfold objects in Eo.
  injection Eo as E1 E2 E3 E4 E5 E6 E7 E8 E9 E10 E11.
  assert (tc_channel y2 = q) as Eqy by (by rewrite Hs).
  eapply (handleClose_handed_wp server_user server_leaves_closed_alone s x c y2 ch2 bx
    (UserConnectionCallback idc) (disabled l p q ch2 w2)); [exact Hcore|..].
  - rewrite Hs. simpl. by rewrite U1.
  - by rewrite E6.
  - by rewrite Hs.
  - by rewrite Hs.
  - by rewrite Hbase, E2.
  - by rewrite E1.
  - cbv zeta. rewrite Eqy. set (w1 := set_w_conns _ w2).
    assert (loop_ok l (set_ep_channels mm p) w1) as Hok1
      by (by eapply loop_ok_frame; [exact Hok|..|exact (lk_thread _ _ _ Hok)]).
    assert (r_chans (w_r w1) !! q = Some ch2) as Hch1 by (simpl; by rewrite Eq, A7, lookup_insert_eq).
    assert (can_watch (set_ep_channels mm p) (ch_fd ch2) (io_k (w_io w1))) as Ho.
    { pose proof (crewed_can_watch _ _ _ _ _ _ _ _ _ _ _ _ _ _ _ _ l c y ch p A1 ltac:(by right)
        (aw_conn _ _ _ _ _ _ _ _ Hw) (pl_fd _ _ _ _ (at_work_placed _ _ _ _ _ _ _ _ Hw)) He) as Ho.
      pose proof (ew_fds _ _ _ _ _ _ Hel) as Hf. unfold can_watch in *.
      change (io_k (w_io w1)) with (io_k (w_io w2)). rewrite Hf. by rewrite Hsc. }
    eapply wp_mono; [exact (disableAll_wp _ _ _ _ _ Hok1 Hch1 ltac:(by rewrite Hsc) Ho)|].
    intros [] w3 [E ((m3 & Hok3) & Hch3 & Hf3 & Hp3)]. split; [exact E|].
    split_and!; [|exact Hch3|exact Hf3|exact Hp3]. exists m3.
    by eapply loop_ok_frame; [exact Hok3|..|exact (lk_thread _ _ _ Hok3)].
  - intros r io calls Hd Hio Hall. rewrite Hbase. split; [by eapply at_work_closed|].
    simpl. by rewrite lookup_insert_eq.
Qed.

(** A closed connection that changed otherwise remains one. *)
Lemma at_work_down_touched st x y ch p y' w w' :
  at_work n true Parting st x y ch w → 0 ≤ n → 0 < ep_nevents p ≤ 2 * NR_OPEN → ep_epollfd p = ep_of l →
  touched l c y ch p y' ch w w' → conn_core c y' ch w' → working n true w'.
Proof.
  intros Hw Hn0 Hn He [Ec Eq Hs Hsc _ (mm & Hok') Hel] Hcore.
  destruct (at_work_stands _ _ _ _ _ _ _ _ Hw) as (Hst & Hin & Hloop).
  pose proof (at_work_placed _ _ _ _ _ _ _ _ Hw) as Hpl.
  assert (placed l c y' ch) as Hpl' by (eapply placed_similar; [exact Hpl|exact Hs|exact Hsc|apply Hcore]).
  destruct Hw as [A1 A2 A3 A4 A5 A6 A7 A8 A9].
  pose proof (ew_objects _ _ _ _ _ _ Hel) as Eo. unfold objects in Eo.
  injection Eo as E1 E2 E3 E4 E5 E6 E7 E8 E9 E10 E11.
  exists Parting, (<[c := Parting]> st), x, y', ch. split; try done.
  - rewrite <- A7 in A6. eapply (crewed_turn _ _ _ _ _ _ _ _ _ _ n n pcs pcs [c] st x w w' l
      (set_ep_channels mm p) c y ch y' ch Parting Parting); [exact A1|congruence|exact A3|exact A5|exact A6|exact Hloop
      |exact Hloop|unfold conn_place; by rewrite Hs|lia| |done|right; by rewrite A7|exact Hok'|exact Hn|exact He| |apply Hel|exact Ec
      |exact Eq|apply Hel|unfold server_objects; congruence| |done].
    + rewrite E2, E11. rewrite insert_id by exact A3. apply A1.
    + pose proof (ew_parted _ _ _ _ _ _ Hel) as Hp. by rewrite He in Hp.
    + destruct Hst as (_ & [D1 D2 D3] & D4). split_and!; [by rewrite (pl_home _ _ _ _ Hpl')| |by rewrite Hs].
      split; [by rewrite Hs|done|done].
  - congruence.
  - apply lookup_insert_eq.
  - rewrite Ec. apply lookup_insert_eq.
  - rewrite Eq, A7. apply lookup_insert_eq.
  - by rewrite Hs.
  - by rewrite Hs.
Qed.

(** *** The callbacks *)

Context (Hn0 : 0 ≤ n).

(** It was closed by a hang-up and has not been read from since. *)
Definition parted_closed w : Prop := working n true w ∧ ∃ y, w_conns w !! c = Some y ∧ unread idm y.

Lemma parted_closed_between : between_events q (reported_at c e) parted_closed.
Proof.
  split.
  - intros w [Hw _]. by apply (be_chan _ _ _ (working_between n true)).
  - intros b ch w [Hw Hrest] Hch. split; [|exact Hrest]. by apply (be_flag _ _ _ (working_between n true)).
Qed.

Lemma working_close_wp w :
  working (n + 1) false w → wp (handleClose server_user close_callback c) (λ _, parted_closed) w.
Proof.
  intros (k & st & x & y & ch & Hw). assert (k = Served) as -> by (by destruct (aw_open _ _ _ _ _ _ _ _ Hw) as [?|[? _]]).
  destruct (at_work_eventful _ _ _ _ _ _ _ Hw) as (p & Hev & Hn & He).
  destruct (within_touched l c y ch p w w) as (y2 & ch2 & Hto); [apply Hw|by apply within_here; apply Hev|reflexivity|].
  destruct (touched_core _ _ _ _ _ _ _ _ _ _ _ Hto (proj1 (ev_ok _ _ _ _ _ _ _ Hev))) as [<- <-].
  eapply wp_mono; [eapply at_work_close_wp; [exact Hw|lia|exact Hto|exact Hn|exact He|apply Hev]|].
  intros [] w' [Hw' Hy']. split; [exact Hw'|]. eexists. split; [exact Hy'|].
  destruct Hev as [_ _ _ _ [? ? ?] ? ? _]. by split.
Qed.

(** Reading from it then: it remains closed, or the end of the stream is met. *)
Lemma parted_closed_read_wp (E : fault → Prop) t w :
  E (AssertFailed "TcpConnection.cpp:198") → parted_closed w →
  wpx E (handleRead server_user close_callback c t) (λ _, working n true) w.
Proof.
  intros HE [(k & st & x & y & ch & Hw) (y0 & Hy0 & Hun)].
  assert (y0 = y) as -> by (rewrite (aw_conn _ _ _ _ _ _ _ _ Hw) in Hy0; congruence).
  destruct (at_work_here _ _ _ _ _ _ _ _ Hw) as (p & Hok & Hn & He & Hcore).
  destruct (at_work_stands _ _ _ _ _ _ _ _ Hw) as (Hst & Hin & Hloop).
  pose proof (at_work_placed _ _ _ _ _ _ _ _ Hw) as Hpl. pose proof Hw as [A1 A2 A3 A4 A5 A6 A7 A8 A9].
  assert (k = Parting) as ->.
  { destruct A4 as [-> |[_ ?]]; [|done]. destruct Hst as (_ & [[U1 _ _] _ _ _ _ _ _ _] & _).
    pose proof (un_state _ _ Hun). congruence. }
  rewrite <- A7 in A6.
  eapply wpx_mono; [eapply (handleRead_down_wp l c idm E y ch p t w HE Hok Hcore A6 Hpl); [|exact Hun]|].
  { eapply crewed_can_watch; [exact A1|by right|exact A5|apply Hpl|exact He]. }
  intros [] w' (y' & Hto & Hcore'). by eapply at_work_down_touched.
Qed.

Lemma working_read_wp t w :
  working (n + 1) false w → wp (handleRead server_user close_callback c t) (λ _, working n true) w.
Proof.
  intros (k & st & x & y & ch & Hw). assert (k = Served) as -> by (by destruct (aw_open _ _ _ _ _ _ _ _ Hw) as [?|[? _]]).
  destruct (at_work_eventful _ _ _ _ _ _ _ Hw) as (p & Hev & Hn & He).
  destruct (at_work_stands _ _ _ _ _ _ _ _ Hw) as ((_ & [_ _ _ _ _ _ _ U8] & _) & _).
  unfold event_bytes in U8. assert (0 < sizeof_extrabuf) by (by unfold sizeof_extrabuf).
  destruct (decide (ret (next_read y w) = 0)) as [Hr|Hr].
  - pose proof Hev as [V1 [V2 _] V3 V4 [_ _ V5] _ _ V6].
    destruct (handleRead_end_leads l c y ch p t w (within_here _ _ _ _ _ _ V1 (ck_conn _ _ _ _ V2) V3 V6)
      V2 V4 V5 Hr) as (w2 & (y2 & Hto & Hcore2) & E).
    unfold wp. rewrite E. change (wp (handleClose server_user close_callback c) (λ _, working n true) w2).
    eapply wp_mono; [eapply at_work_close_wp; [exact Hw|lia|exact Hto|exact Hn|exact He|exact Hcore2]|].
    by intros [] w' [Hw' _].
  - eapply wp_mono; [apply (handleRead_goes_on l c idm y ch p t w); [done..|lia]|].
    intros [] w' Hgo. eapply at_work_goes_on; [exact Hw|exact Hn|exact He|exact Hgo| |lia].
    unfold event_bytes. lia.
Qed.

Lemma working_less closed w : working (n + 1) closed w → working n true w.
Proof.
  intros (k & st & x & y & ch & [A1 A2 A3 A4 A5 A6 A7 A8 A9]). exists k, st, x, y, ch. split; try done.
  - eapply crewed_less; [exact A1|lia].
  - destruct A4 as [?|[_ ?]]; [by left|by right].
Qed.

Lemma working_guard_wp t w :
  working (n + 1) false w → reportable e →
  wpx closed_twice (handleEventWithGuard (invoke server_user) q t) (λ _, working n true) w.
Proof.
  intros Hw He. apply (conn_guard_wp c q e t closed_twice (working (n + 1) false) parted_closed);
    [apply working_between|apply parted_closed_between|apply working_between|by intros w'; apply working_less
    |by intros w' []| | | | |exact Hw].
  - intros w'. apply working_close_wp.
  - intros w'. apply working_read_wp.
  - intros w'. apply working_write_wp.
  - destruct He as [He|Hm]; [by left|right]. intros w' Hw'. by apply parted_closed_read_wp.
Qed.
End conn_event.

(** ** Any event *)

(** The thread of loop [l] is in the middle of a step, [n] steps being left. *)
Definition afoot (n : Z) (pcs : gmap ptr pc) (l : ptr) w : Prop :=
  ∃ st x, crewed n pcs [] st x w ∧ w_tid w = tid_of l.

Lemma afoot_less n n' pcs l w : afoot n pcs l w → 0 ≤ n' ≤ n → afoot n' pcs l w.
Proof. intros (st & x & Hw & Ht) Hn. exists st, x. split; [by eapply crewed_less|done]. Qed.

Lemma afoot_flag n pcs l w q ch b :
  afoot n pcs l w → r_chans (w_r w) !! q = Some ch →
  afoot n pcs l (set_w_r (set_r_chans (<[q := set_ch_eventHandling b ch]> (r_chans (w_r w))) (w_r w)) w).
Proof. intros (st & x & Hw & Ht) Hq. exists st, x. split; [by eapply crewed_flags|done]. Qed.

(** *** A connection's *)

Lemma conn_event_wp n pcs l st x c y t w :
  crewed (n + 1) pcs [] st x w → w_tid w = tid_of l → 0 ≤ n → st !! c = Some Served →
  w_conns w !! c = Some y → tc_loop y = l → (∀ l', tc_channel y ∉ to_handle pcs l') →
  wpx closed_twice (handleEvent (invoke server_user) release (tc_channel y) t) (λ _, afoot n pcs l) w.
Proof.
  intros Hw Ht Hn Hst Hy Hl Hq. pose proof Hw as [H1 H2 [H3 H4 H5 H6]].
  destruct (rs_conn _ _ _ _ _ _ _ _ _ _ _ _ _ _ H6 c y Hy) as (ch & k & Hch & Hk & Hin & Hstand).
  assert (k = Served) as -> by congruence. destruct Hstand as ([_ _ _ [Bt Bo _ _ _ _] Hsane _] & _ & _).
  apply wpx_bind_wp. eapply chan_at_wp; [exact Hch|]. rewrite Bt.
  apply wpx_bind_wp. unfold lock_tie. apply wp_gets. rewrite Bo. cbn [mbind option_bind].
  rewrite decide_True by (by rewrite Hy). apply wpx_bind_wp, wp_modify. cbn [app].
  assert (working pcs l c (tc_channel y) (ch_revents ch) (n + 1) false (set_w_held (c :: w_held w) w)) as Hwork.
  { exists Served, st, x, y, ch. split; try done; [|by left].
    eapply staffed_hold in H2; [|by eexists]. exact (crewed_staff _ _ _ _ _ _ _ _ _ _ _ _ _ _ _ _ _ _ _ _ Hw H2 ltac:(done)). }
  apply wpx_bind. eapply wpx_mono; [by apply working_guard_wp|].
  intros [] w' (k & st' & x' & y' & ch' & [A1 A2 A3 A4 A5 A6 A7 A8 A9]).
  apply wpx_wp. eapply wp_mono; [eapply crewed_release_wp; [exact A1| |exact A2]|].
  - right. by rewrite <- Hl.
  - intros [] w2 ([st2 Hw2] & Ht2). by exists st2, x'.
Qed.

(** *** A loop's own *)

Definition at_own n pcs l q w : Prop :=
  afoot n pcs l w ∧ ∃ ch, r_chans (w_r w) !! q = Some ch ∧ own_channel l ch.

Lemma crew_own_between n pcs l q : between_events q (own_channel l) (at_own n pcs l q).
Proof.
  split; [by intros w [_ ?]|]. intros b ch w [Hw (ch' & Hq & Ho)] Hch.
  assert (ch' = ch) as -> by congruence.
  split; [by apply afoot_flag|]. exists (set_ch_eventHandling b ch). simpl. rewrite lookup_insert_eq.
  split; [done|]. by destruct Ho.
Qed.

Lemma crew_own_callback_wp n pcs l q cb t w :
  l ∈ lb :: ios → own_callback l cb → at_own n pcs l q w →
  wp (call (invoke server_user) cb t) (λ _, at_own n pcs l q) w.
Proof.
  intros Hin Hcb [(st & x & Hw & Ht) Hq]. pose proof Hw as [H1 H2 _].
  destruct (sf_duty _ _ _ _ _ _ _ _ _ _ H2 l Hin) as (lx & Hl & Hd).
  eapply own_event_wp; [exact Hcb|exact Hl|by rewrite (od_thread _ _ _ _ _ Hd)|apply Hd|].
  intros w' (calls & io & b & Hio & Hall & ->). split; [|exact Hq]. exists st, x. split; [|exact Ht].
  assert (staffed pcs [] st (<[l := set_el_timerQueue (set_tq_callingExpiredTimers b (el_timerQueue lx)) lx]>
    (w_loops w)) (w_held w)) as Hs'.
  { eapply staffed_flags; [exact H2|exact Hl| |done]. by destruct Hd. }
  pose proof (crewed_staff _ _ _ _ _ _ _ _ _ _ _ _ _ _ _ _ _ _ _ _ Hw Hs' ltac:(done)) as Hw'.
  exact (crewed_by _ _ _ _ _ _ _ _ _ _ _ _ _ _ _ _ io calls Hw' Hio Hall).
Qed.

Lemma own_channel_event_wp n pcs l q ch t w :
  afoot n pcs l w → l ∈ lb :: ios → r_chans (w_r w) !! q = Some ch → own_channel l ch →
  wp (handleEvent (invoke server_user) release q t) (λ _, afoot n pcs l) w.
Proof.
  intros Hw Hin Hq Ho. apply wp_bind. eapply chan_at_wp; [exact Hq|]. rewrite (oc_tied _ _ Ho).
  apply (wp_mono _ (λ _, at_own n pcs l q)); [|by intros [] w' [? _]].
  pose proof (crew_own_between n pcs l q) as Hb.
  apply (handleEventWithGuard_wp _ q t _ _ _ w Hb Hb); [by auto| | | | |by split; [|exists ch]].
  all: intros ch' w' []; by apply crew_own_callback_wp.
Qed.

(** *** The listening socket's *)

Lemma acceptor_between n pcs : between_events achan (accepts a) (afoot n pcs lb).
Proof.
  split; [|by intros b ch w Hw Hch; apply afoot_flag].
  intros w (st & x & [_ _ [_ _ _ H6]] & _). apply H6.
Qed.

(** What the loops' epoll instances watch. *)
Lemma crewed_watched n pcs extra st x w l p fd :
  crewed n pcs extra st x w → loop_ok l p (set_w_tid (tid_of l) w) → is_Some (kernel_list (w_r w) p !! fd) →
  fd ∈ base ∨ ∃ c y, w_conns w !! c = Some y ∧ tc_socket y = fd.
Proof.
  intros [_ _ [_ _ _ H6]] Hok [[ev q] Hk]. destruct (loop_ok_watch _ _ _ _ _ _ Hok Hk) as (ch & Hq & <- & _).
  destruct (roster_chan_fd _ _ _ _ _ _ _ _ _ _ _ _ _ _ _ _ H6 Hq) as [?|(c & y & Hy & _ & E)]; [by left|].
  right. by exists c, y.
Qed.

(** [accept4] fails. *)
Lemma crew_accept_failed_wp n pcs st x w nc ac :
  crewed n pcs [] st x w → w_tid w = tid_of lb → w_acceptors w !! a = Some ac →
  ret (result_of (SysAccept4 (ac_socket ac)) w) < 0 →
  wp (Acceptor_handleRead nc a) (λ _, afoot n pcs lb) w.
Proof.
  intros Hw Ht Hac Hr. pose proof Hw as [H1 H2 [H3 [G1 G2 G3 (ac' & Hac' & Hal & Has & Hacc) G5] H5 H6]].
  assert (ac' = ac) as -> by congruence.
  destruct (staffed_threads _ _ _ _ _ _ _ _ _ _ H2 lb) as (bx & Hbx & Hth); [by left|].
  eapply (accept_failed_wp _ nc a ac bx base); [done|by rewrite Hal|by rewrite Hth|done..|].
  intros idle' io Hacc' Hint. exists st, x. split; [|exact Ht]. split; [exact H1|exact H2|]. split.
  - eapply berths_same; [exact H3|by eapply staffed_threads|done|done|]. intros l Hl.
    destruct (H3 l Hl) as (p & Hok & Hn & He). apply Hint; [by apply H1|]. intros fd Hfd.
    eapply crewed_watched; [exact Hw|exact Hok|]. unfold kernel_list. by rewrite He.
  - split; try done. exists (set_ac_idleFd idle' ac). simpl. rewrite lookup_insert_eq. by split_and!.
  - exact H5.
  - exact H6.
Qed.

(** [accept4] gives a new descriptor: the connection is handed to the next loop. *)
Lemma crew_accepted_wp n pcs st x w fd peer io :
  crewed (n + 1) pcs [] st x w → w_tid w = tid_of lb → 0 ≤ n → fd ∉ open_fds (io_k (w_io w)) → 0 ≤ fd →
  (∀ ep, interest (io_k io) ep = interest (io_k (w_io w)) ep) →
  open_fds (io_k io) = {[fd]} ∪ open_fds (io_k (w_io w)) →
  wp (TcpServer_newConnection server_user s fd peer) (λ _, afoot n pcs lb) (with_io io w).
Proof.
  intros Hw Ht Hn Hnew Hpos Hi Ho.
  pose proof Hw as [H1 H2 [_ [G1 G2 (pl & i & Hpl & Hpll & Hplb & Hpln & Hlt) G4 G5] _ H6]].
  destruct (staffed_threads _ _ _ _ _ _ _ _ _ _ H2 lb) as (bx & Hbx & Hbt); [by left|].
  apply lookup_lt_is_Some in Hlt as [home Hhome]. pose proof (list_elem_of_lookup_2 _ _ _ Hhome) as Hin.
  destruct (staffed_threads _ _ _ _ _ _ _ _ _ _ H2 home) as (hx & Hhx & Hht); [by right|].
  destruct (rs_ids _ _ _ _ _ _ _ _ _ _ _ _ _ _ H6) as (_ & _ & Hid).
  pose proof G2 as [E1 E2 E3 E4 E5].
  eapply (newConnection_handed_wp server_user s x pl i home hx bx);
    [simpl; rewrite G1; apply lookup_singleton_eq|by rewrite E1|simpl; congruence|exact Hpl|congruence
    |rewrite Hpll; apply H1|exact Hpln|by rewrite Hpll|exact Hhx| |lia| |].
  - simpl. rewrite Hht, Ht. intros E.
    assert (home = lb) as -> by (eapply (ko_tid _ _ _ _ _ H1); [by right|by left|exact E]).
    by apply ko_nodup, NoDup_cons in H1 as [? _].
  - by eapply roster_name_unused.
  - intros la io2 calls [_ Hk] Hall. change (w_io (with_io io w)) with io in Hk. rewrite Hpll. exists (<[w_next w := Arriving home]> st), (after_accept (w_next w) x).
    split; [|exact Ht].
    eapply (crewed_enter lb s a achan ios idc idm base tid_of ep_of n pcs [] st x w pl i home hx fd la peer io2);
      [exact Hw|exact Hn|exact Hnew|exact Hpos| | |exact Hpl|exact Hpll|exact Hplb|exact Hhome|exact Hhx].
    + intros ep. rewrite Hk, replay_interest by done. apply Hi.
    + by rewrite Hk, replay_fds by done.
Qed.

Lemma crew_accept_wp n pcs t w :
  afoot (n + 1) pcs lb w → 0 ≤ n →
  wp (invoke server_user (CbAcceptor_handleRead a) t) (λ _, afoot n pcs lb) w.
Proof.
  intros (st & x & Hw & Ht) Hn. pose proof Hw as [H1 H2 [_ [G1 G2 G3 (ac & Hac & Hal & Has & Hacc) G5] _ _]].
  destruct (staffed_threads _ _ _ _ _ _ _ _ _ _ H2 lb) as (bx & Hbx & Hth); [by left|].
  cbn [invoke]. set (c := SysAccept4 (ac_socket ac)). set (r := result_of c w).
  destruct (Z.ltb_spec (ret r) 0) as [Hr|Hr].
  - eapply wp_mono; [by eapply crew_accept_failed_wp|]. intros [] w' Hw'. eapply afoot_less; [exact Hw'|lia].
  - destruct (Acceptor_handleRead_run (TcpServer_newConnection server_user) a ac bx w)
      as (log & Hlog & Hrun); [done|by rewrite Hal|by rewrite Hth|]. rewrite (Hlog Hr) in Hrun. fold c r in Hrun.
    rewrite (proj2 (Z.leb_le _ _)), Has, after_call_same in Hrun by done.
    destruct (opens_done c (io_k (w_io w)) eq_refl Hr) as [Hnew Hopen].
    pose proof (io_by_call c [] w) as [_ Hk]. unfold replay in Hk. simpl in Hk.
    unfold wp. rewrite Hrun.
    apply (crew_accepted_wp n pcs st x w _ _ (w_io (after_call c [] w)) Hw Ht Hn Hnew Hr).
    + intros ep. rewrite Hk. by apply interest_frame.
    + by rewrite Hk.
Qed.

Lemma acceptor_event_wp n pcs t w :
  afoot (n + 1) pcs lb w → 0 ≤ n →
  wp (handleEvent (invoke server_user) release achan t) (λ _, afoot n pcs lb) w.
Proof.
  intros Hw Hn. destruct (be_chan _ _ _ (acceptor_between (n + 1) pcs) w Hw) as (ch & Hq & Ha).
  apply wp_bind. eapply chan_at_wp; [exact Hq|]. rewrite (at_tied _ _ Ha).
  apply (handleEventWithGuard_wp _ achan t (accepts a) (afoot (n + 1) pcs lb) (afoot n pcs lb));
    [apply acceptor_between..|intros w' Hw'; eapply afoot_less; [exact Hw'|lia]| | | | |exact Hw].
  all: intros ch' w' [_ B1 B2 B3 B4] Hw'; rewrite ?B1, ?B2, ?B3, ?B4;
    first [by apply wp_ret|by apply crew_accept_wp].
Qed.
End events.
