(* ===== verification/CrewRounds.v ===== *)
(** * CrewRounds: a server of several threads keeps serving

    The rest of what a thread does between events: its poll, taking the functors that
    other threads queued, running them, giving up what they held; and the theorem that
    whichever threads take the next steps, one after the other or at the same time, nothing
    stops them but what [stopped_by] names. *)
From S2P Require Import Prelude Endian Buffer OS Descriptors Double Objects Poller LoopCore Channel TimerQueue Sockets Calls TcpConnection ByteStream Lifecycle EventLoop Threads Interleaving Acceptor Connector TcpServer TcpClient Program PingPong Serving Lifetimes Echo Isolation Running Table Events Service Welcome Rounds Handover Roster Crew CrewEvents.

Set Default Goal Selector "!".

Section rounds.
Context {K : Type} `{!OS K} `{!OSLaws K} `{!EpollLaws K} `{!FdLaws K} `{!EpollRoom K} `{Inet}.
Context (lb s a achan : ptr) (ios : list ptr) (idc idm : nat) (base : gset Z).
Context (tid_of : ptr → tid) (ep_of : ptr → Z).
Implicit Types w : World K.

Abbreviation staffed := (staffed lb s ios base tid_of).
Abbreviation stands := (stands s idc idm).
Abbreviation crewed := (crewed lb s a achan ios idc idm base tid_of ep_of).
Abbreviation afoot := (afoot lb s a achan ios idc idm base tid_of ep_of).

(** *** The members of a loop *)

Lemma afoot_loop n pcs l w : afoot n pcs l w → l ∈ lb :: ios →
  ∃ lx, w_loops w !! l = Some lx ∧ el_threadId lx = w_tid w.
Proof.
  intros (st & x & [_ H2 _] & Ht) Hin. destruct (staffed_threads _ _ _ _ _ _ _ _ _ _ H2 l Hin) as (lx & Hl & E).
  exists lx. by rewrite Ht.
Qed.

(** What loop [l] may have yet to handle. *)
Definition reports (l : ptr) (active : list ptr) (st : gmap ptr status) w : Prop :=
  NoDup active ∧ ∀ q, q ∈ active → ∃ ch, r_chans (w_r w) !! q = Some ch ∧ ch_loop ch = l
    ∧ ∀ c y, w_conns w !! c = Some y → tc_channel y = q → st !! c = Some Served.

Lemma reports_rest l pcs st w :
  attended (to_handle pcs) st (w_conns w) (r_chans (w_r w)) → reports l (pc_rest (pc_at pcs l)) st w.
Proof. intros Ha. exact (Ha l). Qed.

Lemma reports_nil l st w : reports l [] st w.
Proof. split; [constructor|by intros q ?%elem_of_nil]. Qed.

(** The thread of loop [l] sets a flag of its loop and is at [t'] now. *)
Lemma crewed_upd_wp f n pcs extra st x l t' w (Q : unit → World K → Prop) :
  crewed n pcs extra st x w → l ∈ lb :: ios → w_tid w = tid_of l →
  pc_todo t' = pc_todo (pc_at pcs l) → pc_held t' = pc_held (pc_at pcs l) →
  reports l (pc_rest t') st w →
  (∀ lx, w_loops w !! l = Some lx → on_duty base tid_of l (pc_at pcs l) lx →
     on_duty base tid_of l t' (f lx) ∧ el_pendingFunctors (f lx) = el_pendingFunctors lx) →
  (∀ w', crewed n (<[l := t']> pcs) extra st x w' → w_tid w' = tid_of l →
     w_r w' = w_r w → w_conns w' = w_conns w → Q tt w') →
  wp (upd_loop l f) Q w.
Proof.
  intros [H1 H2 [H3 H4 H5 H6]] Hin Ht E1 E2 E3 Hf HQ.
  destruct (sf_duty _ _ _ _ _ _ _ _ _ _ H2 l Hin) as (lx & Hl & Hd). destruct (Hf lx Hl Hd) as [Hd' Hp].
  eapply upd_loop_wp; [exact Hl|]. apply HQ; [|done..].
  assert (staffed (<[l := t']> pcs) extra st (<[l := f lx]> (w_loops w)) (w_held w)) as Hs'.
  { eapply (staffed_turn _ _ _ _ _ _ _ _ _ _ (w_held w) _ l t' lx (f lx) []); [exact H2|exact Hl|exact Hd'| | |apply H1|done| |].
    - by rewrite E1, Hp.
    - rewrite E1, E2. apply (sf_keeps _ _ _ _ _ _ _ _ _ _ H2).
    - by rewrite E2.
    - by intros c ?%elem_of_nil. }
  split; [exact H1|exact Hs'|]. split; [|by eapply hosted_frame; eauto| |exact H6].
  - by eapply berths_same; [exact H3|by eapply staffed_threads|..].
  - intros l'. unfold to_handle. destruct (decide (l' = l)) as [->|Hne]; [by rewrite pc_at_here|].
    rewrite pc_at_there by done. apply H5.
Qed.

(** ... and stays where it is. *)
Lemma crewed_flag_wp f n pcs st x l t w (Q : unit → World K → Prop) :
  crewed n pcs [] st x w → pcs !! l = Some t → w_tid w = tid_of l →
  (∀ lx, el_threadId (f lx) = el_threadId lx ∧ el_quit (f lx) = el_quit lx ∧ el_timerQueue (f lx) = el_timerQueue lx
     ∧ el_wakeupFd (f lx) = el_wakeupFd lx ∧ el_pendingFunctors (f lx) = el_pendingFunctors lx
     ∧ (el_eventHandling (f lx) = el_eventHandling lx ∨ el_eventHandling (f lx) = false)) →
  (∀ w', crewed n pcs [] st x w' → w_tid w' = tid_of l → w_r w' = w_r w → w_conns w' = w_conns w → Q tt w') →
  wp (upd_loop l f) Q w.
Proof.
  intros Hw Hpc Ht Hf HQ. assert (pc_at pcs l = t) as E by (unfold pc_at; by rewrite Hpc).
  assert (l ∈ lb :: ios) as Hin by (destruct Hw as [_ Hs _]; apply (sf_pcs _ _ _ _ _ _ _ _ _ _ Hs); by eexists).
  eapply (crewed_upd_wp f n pcs [] st x l t); [exact Hw|exact Hin|exact Ht|by rewrite E|by rewrite E| | |].
  - rewrite <- E. apply reports_rest. apply Hw.
  - intros lx Hl [D1 D2 D3 D4 D5]. destruct (Hf lx) as (F1 & F2 & F3 & F4 & F5 & F6). split; [|done].
    rewrite E in D5. split; rewrite ?F1, ?F2, ?F3, ?F4; try done. intros Hh. destruct F6 as [-> | ->]; auto.
  - rewrite insert_id by done. exact HQ.
Qed.

(** ** The poll *)

Lemma crewed_reported n pcs extra st x events : ∀ w,
  crewed n pcs extra st x w →
  Forall (λ ce, is_Some (r_chans (w_r w) !! ce.1) ∧ reportable ce.2) events →
  crewed n pcs extra st x (set_w_r (set_r_chans (reported events (r_chans (w_r w))) (w_r w)) w).
Proof.
  induction events as [|[q e] events IH]; intros w Hw Hall.
  { simpl. by destruct w as [[]]. }
  apply Forall_cons in Hall as [[[ch Hq] He] Hall]. simpl in Hq, He.
  assert (same_binding ch (set_ch_revents e ch)) as Hs by (by split).
  specialize (IH _ (crewed_flags _ _ _ _ _ _ _ _ _ _ _ _ _ _ _ _ _ _ _ Hw Hq Hs)).
  simpl. rewrite (alter_insert_some _ ch) by done. apply IH.
  eapply Forall_impl; [exact Hall|]. intros [q' e'] [Hq' He']. split; [|done]. simpl in *.
  destruct (decide (q = q')) as [<-|Hne]; [by rewrite lookup_insert_eq|by rewrite lookup_insert_ne].
Qed.

(** Loop [l]'s event array may have grown. *)
Lemma crewed_nevents n pcs extra st x w l p N :
  crewed n pcs extra st x w → r_pollers (w_r w) !! l = Some p → 0 < N ≤ 2 * NR_OPEN →
  crewed n pcs extra st x (set_w_r (set_r_pollers (<[l := set_ep_nevents N p]> (r_pollers (w_r w))) (w_r w)) w).
Proof.
  intros [H1 H2 [H3 H4 H5 H6]] Hp HN. split; [done|done|]. split; [|by eapply hosted_frame; eauto|done|done].
  intros l' Hin. destruct (H3 l' Hin) as (p' & [[S1 S2 S3 S4] Hfds Hth] & Hn & He). simpl in S1.
  destruct (decide (l = l')) as [<-|Hne].
  - rewrite Hp in S1. injection S1 as <-. exists (set_ep_nevents N p). split; [|done]. split; [split|done|done].
    + simpl. by rewrite lookup_insert_eq.
    + exact S2.
    + exact S3.
    + exact S4.
  - exists p'. split; [|done]. split; [split|done|done].
    + simpl. by rewrite lookup_insert_ne.
    + exact S2.
    + exact S3.
    + exact S4.
Qed.

(** A connection whose channel epoll watches is in service. *)
Lemma watched_served n pcs extra st x w c y ch :
  crewed n pcs extra st x w → w_conns w !! c = Some y → r_chans (w_r w) !! tc_channel y = Some ch →
  ch_index ch = EPollPoller.kAdded → st !! c = Some Served.
Proof.
  intros [_ _ [_ _ _ H6]] Hy Hch Hi.
  destruct (roster_chan _ _ _ _ _ _ _ _ _ _ _ _ _ _ _ _ _ H6 Hy Hch) as (k & Hk & _ & Hst). rewrite Hk.
  destruct k as [home| | |home|]; [| done | | |].
  - destruct Hst as (_ & _ & _ & _ & E & _). by rewrite Hi in E.
  - destruct Hst as (_ & [_ _ E] & _). unfold unwatched in E. by rewrite Hi in E.
  - destruct Hst as (_ & _ & [_ _ E]). unfold unwatched in E. by rewrite Hi in E.
  - destruct Hst as (_ & [_ _ E]). unfold unregistered in E. by rewrite Hi in E.
Qed.

Lemma crewed_poll_wp n pcs st x l t w :
  crewed (n + 1) pcs [] st x w → l ∈ lb :: ios → w_tid w = tid_of l → 0 ≤ n →
  wp (in_reactor (poller_poll l t))
    (λ na w', crewed n pcs [] st x w' ∧ w_tid w' = tid_of l ∧ reports l na.2 st w') w.
Proof.
  intros Hw Hin Ht Hn. destruct (crewed_here _ _ _ _ _ _ _ _ _ _ _ _ _ _ _ _ _ Hw Hin Ht) as (p & Hok & Hnp & He).
  eapply poll_reports_wp; [exact Hok|exact Hnp| |].
  { intros fd Hfd. pose proof Hw as [_ _ [_ [_ _ _ (ac & _ & _ & _ & [Ho _ _]) _] _ _]]. apply Ho.
    destruct (crewed_watched _ _ _ _ _ _ _ _ _ _ _ _ _ _ _ _ l p fd Hw) as [?|?];
      [by apply loop_ok_there|exact Hfd|by left|by do 2 right]. }
  intros now events N io HN Hnd Hall Hi Hf. cbn [snd].
  assert (Forall (λ ce, is_Some (r_chans (w_r w) !! ce.1) ∧ reportable ce.2) events) as Hall'.
  { eapply Forall_impl; [exact Hall|]. intros ce (Hs & fd & ev & Hk).
    destruct (loop_ok_watch _ _ _ _ _ _ Hok Hk) as (ch & Hq & _). split; [by eexists|done]. }
  assert (crewed n pcs [] st x (polled l p events N io w)) as Hw'.
  { pose proof (crewed_io _ _ _ _ _ _ _ _ _ _ _ _ _ _ _ _ io Hw Hi Hf) as Hw1.
    apply (crewed_reported _ _ _ _ _ events) in Hw1; [|exact Hall'].
    eapply (crewed_nevents _ _ _ _ _ _ l p N) in Hw1; [|exact (sy_poller _ _ _ _ (lk_synced _ _ _ Hok))|exact HN].
    eapply crewed_less; [exact Hw1|lia]. }
  split_and!; [exact Hw'|exact Ht|]. split; [exact Hnd|]. intros q Hq.
  apply list_elem_of_fmap in Hq as (ce & -> & Hce).
  destruct (proj1 (Forall_forall _ _) Hall ce Hce) as (_ & fd & ev & Hk).
  destruct (loop_ok_watch_added _ _ _ _ _ _ Hok Hk) as (ch & Hq & _ & Hl & Hidx).
  pose proof (reported_lookup events _ _ _ Hq) as Hq'.
  eexists. split_and!; [exact Hq'|exact Hl|]. intros c y Hy Hyq.
  eapply watched_served; [exact Hw'|exact Hy|by rewrite Hyq|exact Hidx].
Qed.

Lemma advance_waiting_wp n pcs l w :
  afoot (n + 1) pcs l w → pcs !! l = Some Waiting → 0 ≤ n →
  wp (Interleaving.advance (invoke server_user) (run_functor server_user) l Waiting)
    (λ t w', afoot n (<[l := t]> pcs) l w') w.
Proof.
  intros (st & x & Hw & Ht) Hpc Hn. pose proof Hw as [_ H2 _].
  assert (l ∈ lb :: ios) as Hin by (apply (sf_pcs _ _ _ _ _ _ _ _ _ _ H2); by eexists).
  destruct (sf_duty _ _ _ _ _ _ _ _ _ _ H2 l Hin) as (lx & Hl & Hd).
  unfold Interleaving.advance. apply wp_bind. eapply get_loop_wp; [exact Hl|]. rewrite (od_quit _ _ _ _ _ Hd).
  apply wp_bind. eapply crewed_flag_wp; [exact Hw|exact Hpc|exact Ht|by intros ?; split_and!; try done; left|].
  clear lx Hl Hd. intros w1 Hw1 Ht1 _ _.
  apply wp_bind. eapply wp_mono; [by apply (crewed_poll_wp n pcs st x l)|]. intros [now active] w2 (Hw2 & Ht2 & Hr).
  cbn [snd] in Hr.
  apply wp_bind. eapply crewed_flag_wp; [exact Hw2|exact Hpc|exact Ht2|by intros ?; split_and!; try done; left|].
  intros w3 Hw3 Ht3 R3 C3.
  apply wp_bind. eapply crewed_flag_wp; [exact Hw3|exact Hpc|exact Ht3|by intros ?; split_and!; try done; left|].
  intros w4 Hw4 Ht4 R4 C4.
  assert (pc_at pcs l = Waiting) as E by (unfold pc_at; by rewrite Hpc).
  apply wp_bind. eapply (crewed_upd_wp _ n pcs [] st x l (Handling active)); [exact Hw4|exact Hin|exact Ht4|by rewrite E|by rewrite E| | |].
  - unfold reports in *. by rewrite R4, R3, C4, C3.
  - intros lx Hl [D1 D2 D3 D4 D5]. split; [|done]. by split.
  - intros w5 Hw5 Ht5 _ _. apply wp_ret. by exists st, x.
Qed.

(** The channel at the front of what loop [l] has to handle is on nobody's list any more. *)
Lemma reports_front n pcs st x w l q rest :
  crewed n pcs [] st x w → pcs !! l = Some (Handling (q :: rest)) →
  reports l rest st w
  ∧ (∃ ch, r_chans (w_r w) !! q = Some ch ∧ ch_loop ch = l
       ∧ ∀ c y, w_conns w !! c = Some y → tc_channel y = q → st !! c = Some Served)
  ∧ ∀ l', q ∉ to_handle (<[l := Handling rest]> pcs) l'.
Proof.
  intros [_ _ [_ _ H5 _]] Hpc. pose proof (H5 l) as [Hnd Hall].
  assert (to_handle pcs l = q :: rest) as E by (unfold to_handle, pc_at; by rewrite Hpc).
  rewrite E in Hnd, Hall. apply NoDup_cons in Hnd as [Hq Hnd]. split_and!.
  - split; [done|]. intros q' Hin. apply Hall. by right.
  - apply Hall. by left.
  - intros l'. unfold to_handle. destruct (decide (l' = l)) as [->|Hne]; [by rewrite pc_at_here|].
    rewrite pc_at_there by done. intros Hin. destruct (proj2 (H5 l') _ Hin) as (ch & Hch & Hl & _).
    destruct (Hall q ltac:(by left)) as (ch' & Hch' & Hl' & _). congruence.
Qed.

Lemma advance_handling_wp n pcs l q rest w :
  afoot (n + 1) pcs l w → pcs !! l = Some (Handling (q :: rest)) → 0 ≤ n →
  wpx closed_twice (Interleaving.advance (invoke server_user) (run_functor server_user) l (Handling (q :: rest)))
    (λ t w', afoot n (<[l := t]> pcs) l w') w.
Proof.
  intros (st & x & Hw & Ht) Hpc Hn. pose proof Hw as [_ H2 _].
  assert (l ∈ lb :: ios) as Hin by (apply (sf_pcs _ _ _ _ _ _ _ _ _ _ H2); by eexists).
  destruct (reports_front _ _ _ _ _ _ _ _ Hw Hpc) as (Hrest & (ch & Hq & Hloop & Hserved) & Hfree).
  assert (pc_at pcs l = Handling (q :: rest)) as E by (unfold pc_at; by rewrite Hpc).
  unfold Interleaving.advance. apply wpx_bind_wp.
  eapply (crewed_upd_wp _ (n + 1) pcs [] st x l (Handling rest)); [exact Hw|exact Hin|exact Ht|by rewrite E|by rewrite E|exact Hrest| |].
  { intros lx Hl [D1 D2 D3 D4 D5]. split; [|done]. by split. }
  intros w1 Hw1 Ht1 R1 C1. set (pcs' := <[l := Handling rest]> pcs) in *.
  assert (afoot (n + 1) pcs' l w1) as Hafoot by (by exists st, x).
  destruct (afoot_loop _ _ _ _ Hafoot Hin) as (lx & Hl & _).
  apply wpx_bind_wp. eapply get_loop_wp; [exact Hl|]. apply wpx_bind.
  apply (wpx_mono _ _ (λ _, afoot n pcs' l)); [|intros [] w' Hw'; by apply wpx_ret].
  rewrite <- R1 in Hq. pose proof Hw1 as [_ _ [_ _ _ H6]].
  destruct (rs_chans _ _ _ _ _ _ _ _ _ _ _ _ _ _ H6 q ch Hq) as [(_ & Ho & _)|[(-> & Hlb & _)|(c & y & Hy & <-)]].
  - rewrite Hloop in Ho. apply wpx_wp. eapply own_channel_event_wp; [|exact Hin|exact Hq|exact Ho].
    eapply afoot_less; [exact Hafoot|lia].
  - rewrite Hloop in Hlb. rewrite Hlb in *. by apply wpx_wp, acceptor_event_wp.
  - eapply conn_event_wp; [exact Hw1|exact Ht1|exact Hn| |exact Hy| |exact Hfree].
    + eapply Hserved; [by rewrite <- C1|done].
    + destruct (roster_chan _ _ _ _ _ _ _ _ _ _ _ _ _ _ _ _ _ H6 Hy Hq) as (k & _ & _ & F%stands_filed).
      by rewrite <- (fl_loop _ _ _ F).
Qed.

(** The functors that were queued are taken. *)
Lemma advance_taking_wp n pcs l w :
  afoot n pcs l w → pcs !! l = Some (Handling []) →
  wp (Interleaving.advance (invoke server_user) (run_functor server_user) l (Handling []))
    (λ t w', afoot n (<[l := t]> pcs) l w') w.
Proof.
  intros (st & x & Hw & Ht) Hpc. unfold Interleaving.advance.
  assert (pc_at pcs l = Handling []) as E by (unfold pc_at; by rewrite Hpc).
  apply wp_bind. eapply crewed_flag_wp; [exact Hw|exact Hpc|exact Ht|by intros ?; split_and!; try done; left|].
  intros w1 Hw1 Ht1 _ _.
  assert (l ∈ lb :: ios) as Hin by (destruct Hw1 as [_ Hs _]; apply (sf_pcs _ _ _ _ _ _ _ _ _ _ Hs); by eexists).
  set (pcs2 := <[l := Releasing []]> pcs).
  apply wp_bind. eapply (crewed_upd_wp _ n pcs [] st x l (Releasing [])); [exact Hw1|exact Hin|exact Ht1|by rewrite E|by rewrite E
    |apply reports_nil| |].
  { intros lx Hl [D1 D2 D3 D4 D5]. split; [|done]. by split. }
  intros w2 Hw2 Ht2 _ _. fold pcs2 in Hw2.
  assert (pcs2 !! l = Some (Releasing [])) as Hpc2 by apply lookup_insert_eq.
  assert (pc_at pcs2 l = Releasing []) as E2 by apply pc_at_here.
  apply wp_bind. eapply crewed_flag_wp; [exact Hw2|exact Hpc2|exact Ht2|by intros ?; split_and!; try done; left|].
  intros w3 Hw3 Ht3 _ _. pose proof Hw3 as [H1 H2 _].
  destruct (sf_duty _ _ _ _ _ _ _ _ _ _ H2 l Hin) as (lx & Hl & Hd).
  apply wp_bind. eapply get_loop_wp; [exact Hl|]. cbv zeta. set (fs := el_pendingFunctors lx).
  apply wp_bind, wp_modify. apply wp_bind. eapply upd_loop_wp; [exact Hl|]. apply wp_ret.
  exists st, x. split; [|exact Ht3].
  assert (staffed (<[l := Running fs (omap functor_holds fs)]> pcs2) [] st
    (<[l := set_el_pendingFunctors [] lx]> (w_loops w3)) (omap functor_holds fs ++ w_held w3)) as Hs'.
  { eapply (staffed_turn _ _ _ _ _ _ _ _ _ _ (w_held w3) _ l _ lx); [exact H2|exact Hl| | |done|apply H1|done| |].
    - rewrite E2 in Hd. by destruct Hd.
    - rewrite E2. simpl. apply app_nil_r.
    - rewrite E2. simpl. by rewrite app_nil_r.
    - intros c Hc. apply list_elem_of_omap in Hc as (f & Hf & Hh).
      destruct (proj1 (proj2 (sf_queues _ _ _ _ _ _ _ _ _ _ H2 l) f)) as (c' & k & Hc' & Hdue).
      { apply elem_of_app. right. by rewrite Hl. }
      assert (c' = c) as -> by (apply due_holds in Hdue; congruence). by eexists. }
  unfold pcs2 in Hs'. rewrite insert_insert_eq in Hs'. unfold pcs2 in Hw3.
  eapply crewed_staff in Hs'; [exact Hs'|exact Hw3|]. intros l'. unfold to_handle.
  destruct (decide (l' = l)) as [->|Hne]; [by rewrite !pc_at_here|by rewrite !pc_at_there].
Qed.

(** ** The functors *)

Section functors.
Context (n : Z) (pcs : gmap ptr pc) (l : ptr) (f : Functor) (todo : list Functor) (h : list ptr).
Context (Hpc : pcs !! l = Some (Running (f :: todo) h)).

Abbreviation pcs' := (<[l := Running todo h]> pcs).

Lemma popped_rest l' : to_handle pcs' l' = to_handle pcs l'.
Proof using Hpc.
  unfold to_handle. destruct (decide (l' = l)) as [->|Hne]; [|by rewrite pc_at_there].
  rewrite pc_at_here. unfold pc_at. by rewrite Hpc.
Qed.

(** *** connectEstablished *)

(** The channel of a new connection is enabled. *)
Lemma established_enabled_wp st x c y ch w :
  crewed (n + 1) pcs [] st x w → w_tid w = tid_of l → 0 ≤ n → st !! c = Some (Arriving l) →
  f = FnTcpConnection_connectEstablished c → w_conns w !! c = Some y →
  r_chans (w_r w) !! tc_channel y = Some ch →
  wp (enableReading (tc_channel y))
    (λ _ w', crewed n pcs' [] (<[c := Served]> st) x w' ∧ w_tid w' = tid_of l)
    (set_w_r (set_r_chans (<[tc_channel y := tie_channel c ch]> (r_chans (w_r w))) (w_r w))
       (set_w_conns (<[c := set_tc_state kConnected y]> (w_conns w)) w)).
Proof using Hpc EpollRoom0.
  intros Hw Ht Hn Hst Hf Hy Hch. set (w1 := set_w_r _ _). pose proof Hw as [H1 H2 [H3 H4 H5 H6]].
  destruct (roster_chan _ _ _ _ _ _ _ _ _ _ _ _ _ _ _ _ _ H6 Hy Hch) as (k & Hk & Hin & Hstand).
  assert (k = Arriving l) as -> by congruence.
  destruct Hstand as (Hh & Hstate & [P1 P2 P3 P4 P5 P6] & Hev & Hidx & Hup).
  assert (l ∈ lb :: ios) as Hin' by (right; congruence).
  destruct (crewed_here _ _ _ _ _ _ _ _ _ _ _ _ _ _ _ _ _ Hw Hin' Ht) as (p & Hok & Hnp & He).
  assert (loop_ok l p w1) as Hok1.
  { destruct Hok as [Hsy Hfds Hth].
    split; [|eapply fds_insert; [exact Hfds|exact Hch|done|done]|exact Hth].
    by eapply synced_touch_events; [exact Hsy|exact Hch|..]. }
  assert (r_chans (w_r w1) !! tc_channel y = Some (tie_channel c ch)) as Hch1 by (simpl; by rewrite lookup_insert_eq).
  assert (ch_loop (tie_channel c ch) = l) as Hl1 by congruence.
  assert (can_watch p (ch_fd (tie_channel c ch)) (io_k (w_io w1))) as Hcan
    by exact (crewed_can_watch _ _ _ _ _ _ _ _ _ _ _ _ _ _ _ _ l c y ch p Hw Hin' Hy P3 He).
  pose proof (run_interest_indexed_wp EnableReading _ _ l p w1 Hok1 Hch1 Hl1 (or_intror Hcan)) as Hwp.
  pose proof (fds_kept_run_interest EnableReading (tc_channel y) w1) as Hf1.
  pose proof (parted_run_interest _ _ _ EnableReading w1 (loop_ok_polling _ _ _ _ _ Hok1 Hch1 Hl1)) as Hpart.
  unfold wp, wlp in *. cbn [run_interest] in *.
  destruct (enableReading (tc_channel y) w1) as [[[] w']|]; [|done].
  cbv zeta in Hwp. destruct Hwp as (Hok' & Hch' & E). set (ch' := set_ch_index _ _) in Hch'.
  assert (ch_events ch' = kReadEvent) as Hev' by (unfold ch'; simpl; by rewrite Hev).
  assert (ch_index ch' = EPollPoller.kAdded) as Hidx'.
  { unfold ch'. simpl. unfold next_index. simpl. by rewrite Hev, Hidx. }
  assert (r_chans (w_r w') = <[tc_channel y := ch']> (r_chans (w_r w))) as Eq
    by (rewrite Hch'; simpl; by rewrite insert_insert_eq).
  split; [|by rewrite E].
  eapply (crewed_turn _ _ _ _ _ _ _ _ _ _ (n + 1) n pcs pcs' [] st x w w' l _ c y ch (set_tc_state kConnected y) ch'
    (Arriving l) Served); [exact Hw|by rewrite E|exact Hst|exact Hy|exact Hch|exact Hl1|exact Hl1|done|lia| | |by left
    |exact Hok'|exact Hnp|exact He| |exact Hf1|by rewrite E|exact Eq|by rewrite E|by rewrite E| |done].
  - rewrite E. eapply staffed_pop; [exact H2|exact Hpc|exact Hst| |done|apply H1]. by rewrite Hf.
  - intros l'. by rewrite popped_rest.
  - rewrite <- He. apply Hpart.
  - split_and!.
    + split; try done. by destruct P4.
    + eapply up_server; [eapply up_binding; [|exact Hup]; exact Hev'| |exact (up_entry _ _ _ _ _ _ _ _ Hup)].
      unfold event_bytes, sizeof_extrabuf. lia.
    + split; [|exact Hidx']. unfold isReading. by rewrite Hev'.
Qed.

(** The program's answer: [TCP_NODELAY]. *)
Lemma connectionCallback_wp m pcs0 st x c w l0 :
  crewed m pcs0 [] st x w → w_tid w = tid_of l0 → st !! c = Some Served →
  wp (run_connectionCallback server_user c) (λ _, afoot m pcs0 l0) w.
Proof.
  intros Hw Ht Hst. pose proof Hw as [_ _ [_ _ _ H6]].
  destruct (roster_at _ _ _ _ _ _ _ _ _ _ _ _ _ _ _ _ H6 Hst) as (y & ch & Hy & _ & _ & Hstand).
  destruct Hstand as (_ & [[Hstate _ _] Hcb _ _ _ _ _ _] & _).
  apply wp_bind. eapply get_conn_wp; [exact Hy|]. rewrite Hcb.
  apply wp_bind, wp_modify. set (w1 := set_w_calls _ w).
  assert (crewed m pcs0 [] st x w1) as Hw1 by (by apply crewed_calls).
  apply wp_bind, wp_bind. eapply get_conn_wp; [exact Hy|]. apply wp_ret. rewrite Hstate. cbn [when].
  rewrite bool_decide_true by done. apply wp_bind. eapply get_conn_wp; [exact Hy|].
  apply wp_bind, wp_bind, call_by_wp. intros io Hio. apply wp_ret, wp_ret. exists st, x. split; [|exact Ht].
  eapply crewed_by; [exact Hw1|exact Hio|]. by repeat constructor.
Qed.

Lemma established_wp st x c w :
  crewed (n + 1) pcs [] st x w → w_tid w = tid_of l → 0 ≤ n → st !! c = Some (Arriving l) →
  f = FnTcpConnection_connectEstablished c →
  wp (connectEstablished server_user c) (λ _, afoot n pcs' l) w.
Proof using Hpc EpollRoom0.
  intros Hw Ht Hn Hst Hf. pose proof Hw as [H1 H2 [_ _ _ H6]].
  destruct (roster_at _ _ _ _ _ _ _ _ _ _ _ _ _ _ _ _ H6 Hst) as (y & ch & Hy & Hch & Hin & Hstand).
  pose proof Hstand as (Hh & Hstate & _).
  destruct (staffed_threads _ _ _ _ _ _ _ _ _ _ H2 (tc_loop y)) as (lx & Hl & Hth); [by right|].
  destruct (connectEstablished_leads server_user c y ch lx
    (λ w', crewed n pcs' [] (<[c := Served]> st) x w' ∧ w_tid w' = tid_of l) w) as (w2 & [Hw2 Ht2] & E2);
    [exact Hy|exact Hstate|exact Hch|exact Hl|congruence|by eapply established_enabled_wp|].
  unfold wp. rewrite E2. change (wp (run_connectionCallback server_user c) (λ _, afoot n pcs' l) w2).
  eapply connectionCallback_wp; [exact Hw2|exact Ht2|apply lookup_insert_eq].
Qed.

(** *** removeConnectionInLoop *)

Lemma removed_wp st x c w :
  crewed (n + 1) pcs [] st x w → w_tid w = tid_of lb → l = lb → 0 ≤ n → st !! c = Some Parting →
  f = FnTcpServer_removeConnectionInLoop s c →
  wp (removeConnectionInLoop s c) (λ _, afoot n pcs' l) w.
Proof using Hpc.
  intros Hw Ht Hlb Hn Hst Hf. pose proof Hw as [H1 H2 [_ [G1 G2 _ _ _] _ H6]].
  destruct (roster_at _ _ _ _ _ _ _ _ _ _ _ _ _ _ _ _ H6 Hst) as (y & ch & Hy & Hch & Hin & (_ & _ & Hname)).
  destruct (staffed_threads _ _ _ _ _ _ _ _ _ _ H2 lb) as (bx & Hbx & Hth); [by left|].
  destruct (sf_duty _ _ _ _ _ _ _ _ _ _ H2 (tc_loop y)) as (hx & Hhx & _); [by right|].
  eapply (removeConnectionInLoop_wp s x c y bx hx); [exact Hy|rewrite G1; apply lookup_singleton_eq|exact Hname
    |by rewrite (es_loop _ _ _ _ G2)|congruence|exact Hhx|].
  intros io calls Hio Hall. exists (<[c := Dying (tc_loop y)]> st), (forget y x). split; [|by rewrite Hlb].
  assert (staffed pcs' [] (<[c := Dying (tc_loop y)]> st)
    (<[tc_loop y := set_el_pendingFunctors (el_pendingFunctors hx ++ [FnTcpConnection_connectDestroyed c]) hx]>
       (w_loops w)) (w_held w)) as Hs'.
  { eapply (staffed_pop _ _ _ _ _ _ _ _ _ _ l f todo h c Parting Served) in H2; [|exact Hpc|exact Hst| |done|apply H1].
    2:{ by rewrite Hf, Hlb. }
    eapply (staffed_push _ _ _ _ _ _ _ _ _ _ (tc_loop y) hx _ c (Dying (tc_loop y))) in H2; [|exact Hhx| |done].
    - by rewrite insert_insert_eq in H2.
    - rewrite lookup_insert_eq. by intros k [= <-]. }
  eapply crewed_forget in Hs'; [|exact Hw|exact Hst|exact Hy|intros l'; by rewrite popped_rest].
  eapply crewed_by in Hs'; [|exact Hio|exact Hall]. eapply crewed_less; [exact Hs'|lia].
Qed.

(** *** connectDestroyed *)

Lemma destroyed_wp st x c w :
  crewed (n + 1) pcs [] st x w → w_tid w = tid_of l → 0 ≤ n → st !! c = Some (Dying l) →
  f = FnTcpConnection_connectDestroyed c →
  wp (connectDestroyed server_user c) (λ _, afoot n pcs' l) w.
Proof using Hpc EpollRoom0.
  intros Hw Ht Hn Hst Hf. pose proof Hw as [H1 H2 [_ _ H5 H6]].
  destruct (roster_at _ _ _ _ _ _ _ _ _ _ _ _ _ _ _ _ H6 Hst) as (y & ch & Hy & Hch & Hin & (Hh & Hpl & Hdown)).
  rewrite <- Hh in Hpl, Hin.
  destruct (crewed_here _ _ _ _ _ _ _ _ _ _ _ _ _ _ _ _ l Hw) as (p & Hok & Hnp & He); [by right|exact Ht|].
  assert (down epoll_attached y ch) as Hdown' by (destruct Hdown as [D1 D2 D3]; split; [done|done|by right]).
  eapply wp_mono; [apply (destroy_down_wp l c y ch p w Hok Hy Hch Hpl Hdown')|].
  { intros lx Hl. eapply (od_handling _ _ l _ lx); [exact (staffed_loop _ _ _ _ _ _ _ _ _ _ _ _ H2 Hl)|].
    unfold pc_at. by rewrite Hpc. }
  intros [] w' (E & (m & Hok') & Hch' & Hfd & Hpart). pose proof Hpl as [P1 P2 P3 [] P5 P6].
  exists (<[c := Gone]> st), x. split; [|by rewrite E].
  eapply (crewed_turn _ _ _ _ _ _ _ _ _ _ (n + 1) n pcs pcs' [] st x w w' l _ c y ch y _ (Dying l) Gone);
    [exact Hw|by rewrite E|exact Hst|exact Hy|exact Hch|exact P2| |done|lia| | | |exact Hok'|exact Hnp|exact He| |exact Hfd
    | |exact Hch'|by rewrite E|by rewrite E| |done].
  - exact P2.
  - rewrite E. eapply staffed_pop; [exact H2|exact Hpc|exact Hst| |done|apply H1]. by rewrite Hf.
  - intros l'. by rewrite popped_rest.
  - right. intros l'. rewrite popped_rest. by eapply attended_served.
  - rewrite <- He. exact Hpart.
  - rewrite insert_id by exact Hy. by rewrite E.
  - destruct Hdown as [D1 D2 D3]. split; [rewrite P1; by split|by split].
Qed.

(** The next functor. *)
Lemma advance_running_wp w :
  afoot (n + 1) pcs l w → 0 ≤ n →
  wp (Interleaving.advance (invoke server_user) (run_functor server_user) l (Running (f :: todo) h))
    (λ t w', afoot n (<[l := t]> pcs) l w') w.
Proof using Hpc EpollRoom0.
  intros (st & x & Hw & Ht) Hn. pose proof Hw as [_ H2 _].
  destruct (staffed_due _ _ _ _ _ _ _ _ _ _ _ _ _ _ H2 Hpc) as (c & k & Hc & Hd & _).
  unfold Interleaving.advance. rewrite bool_decide_false by (by eapply due_not_empty). cbn [negb when].
  apply wp_bind. apply (wp_mono _ (λ _, afoot n pcs' l)); [|intros [] w' Hw'; by apply wp_ret].
  destruct k as [home| | |home|]; simpl in Hd; [| done | | |done]; injection Hd as El Ef; symmetry in Ef;
    rewrite Ef; cbn [run_functor].
  - eapply established_wp; [exact Hw|exact Ht|exact Hn|by rewrite <- El|exact Ef].
  - eapply removed_wp; [exact Hw|by rewrite El|by symmetry|exact Hn|exact Hc|exact Ef].
  - eapply destroyed_wp; [exact Hw|exact Ht|exact Hn|by rewrite <- El|exact Ef].
Qed.
End functors.

(** ** The end of a round *)

Lemma advance_ending_wp n pcs l h w :
  afoot n pcs l w → pcs !! l = Some (Running [] h) →
  wp (Interleaving.advance (invoke server_user) (run_functor server_user) l (Running [] h))
    (λ t w', afoot n (<[l := t]> pcs) l w') w.
Proof.
  intros (st & x & Hw & Ht) Hpc. assert (pc_at pcs l = Running [] h) as E by (unfold pc_at; by rewrite Hpc).
  assert (l ∈ lb :: ios) as Hin by (destruct Hw as [_ Hs _]; apply (sf_pcs _ _ _ _ _ _ _ _ _ _ Hs); by eexists).
  unfold Interleaving.advance. apply wp_bind.
  eapply (crewed_upd_wp _ n pcs [] st x l (Releasing h)); [exact Hw|exact Hin|exact Ht|by rewrite E|by rewrite E|apply reports_nil| |].
  { intros lx Hl. rewrite E. intros [D1 D2 D3 D4 D5]. split; [|done]. by split. }
  intros w1 Hw1 Ht1 _ _. apply wp_ret. by exists st, x.
Qed.

(** A place of the thread that differs only in what local variables are for. *)
Lemma crewed_moves n pcs extra extra' st x w l t' :
  crewed n pcs extra st x w → l ∈ lb :: ios →
  pc_todo t' = [] → pc_todo (pc_at pcs l) = [] → pc_rest t' = [] → is_handling (pc_at pcs l) = false →
  extra' ++ pc_held t' ≡ₚ extra ++ pc_held (pc_at pcs l) → crewed n (<[l := t']> pcs) extra' st x w.
Proof.
  intros Hw Hin T1 T2 T3 Hh Hp. pose proof Hw as [H1 H2 _].
  destruct (sf_duty _ _ _ _ _ _ _ _ _ _ H2 l Hin) as (lx & Hl & [D1 D2 D3 D4 D5]).
  assert (staffed (<[l := t']> pcs) extra' st (w_loops w) (w_held w)) as Hs'.
  { rewrite <- (insert_id (w_loops w) l lx) by done.
    eapply (staffed_turn _ _ _ _ _ _ _ _ _ _ (w_held w) _ l t' lx lx []); [exact H2|exact Hl| | | |apply H1|done|exact Hp|].
    - split; auto.
    - by rewrite T1, T2.
    - rewrite T1. by intros c ?%elem_of_nil.
    - by intros c ?%elem_of_nil. }
  destruct w. exact (crewed_staff _ _ _ _ _ _ _ _ _ _ _ _ _ _ _ _ _ _ _ _ Hw Hs' ltac:(intros l'; unfold to_handle;
    destruct (decide (l' = l)) as [->|Hne]; [rewrite pc_at_here, T3; apply sublist_nil_l|by rewrite pc_at_there])).
Qed.

Lemma advance_releasing_wp n pcs l h w :
  afoot n pcs l w → pcs !! l = Some (Releasing h) →
  wp (Interleaving.advance (invoke server_user) (run_functor server_user) l (Releasing h))
    (λ t w', afoot n (<[l := t]> pcs) l w') w.
Proof.
  intros (st & x & Hw & Ht) Hpc. assert (pc_at pcs l = Releasing h) as E by (unfold pc_at; by rewrite Hpc).
  assert (l ∈ lb :: ios) as Hin by (destruct Hw as [_ Hs _]; apply (sf_pcs _ _ _ _ _ _ _ _ _ _ Hs); by eexists).
  destruct h as [|c h]; unfold Interleaving.advance.
  - apply wp_ret. exists st, x. split; [|exact Ht]. by eapply crewed_moves; [exact Hw|..]; rewrite ?E.
  - assert (crewed n (<[l := Releasing h]> pcs) [c] st x w) as Hw1
      by (by eapply crewed_moves; [exact Hw|..]; rewrite ?E).
    apply wp_bind. eapply wp_mono; [by eapply (crewed_release_wp _ _ _ _ _ _ _ _ _ _ _ _ []); [exact Hw1|..]|].
    intros [] w' ([st' Hw'] & Ht'). apply wp_ret. by exists st', x.
Qed.

(** ** The start of [loop()] *)

Lemma advance_starting_wp n pcs l w :
  afoot n pcs l w → pcs !! l = Some Starting →
  wp (Interleaving.advance (invoke server_user) (run_functor server_user) l Starting)
    (λ t w', afoot n (<[l := t]> pcs) l w') w.
Proof.
  intros (st & x & Hw & Ht) Hpc. assert (pc_at pcs l = Starting) as E by (unfold pc_at; by rewrite Hpc).
  assert (l ∈ lb :: ios) as Hin by (destruct Hw as [_ Hs _]; apply (sf_pcs _ _ _ _ _ _ _ _ _ _ Hs); by eexists).
  unfold Interleaving.advance.
  apply wp_bind. eapply crewed_flag_wp; [exact Hw|exact Hpc|exact Ht|by intros ?; split_and!; try done; left|].
  intros w1 Hw1 Ht1 _ _. apply wp_bind.
  eapply (crewed_upd_wp _ n pcs [] st x l Waiting); [exact Hw1|exact Hin|exact Ht1|by rewrite E|by rewrite E|apply reports_nil| |].
  { intros lx Hl [D1 D2 D3 D4 D5]. split; [|done]. split; try done. intros _. apply D5. by rewrite E. }
  intros w2 Hw2 Ht2 _ _. assert (afoot n (<[l := Waiting]> pcs) l w2) as Hafoot by (by exists st, x).
  destruct (afoot_loop _ _ _ _ Hafoot Hin) as (lx & Hl & El).
  apply wp_bind. eapply assertInLoopThread_here; [exact Hl|exact El|]. by apply wp_ret.
Qed.

(** ** Any schedule *)

Lemma advance_wp n pcs l t w :
  afoot (n + 1) pcs l w → pcs !! l = Some t → 0 ≤ n →
  wpx closed_twice (Interleaving.advance (invoke server_user) (run_functor server_user) l t)
    (λ t' w', afoot n (<[l := t']> pcs) l w') w.
Proof.
  intros Hw Hpc Hn. assert (afoot n pcs l w) as Hw' by (eapply afoot_less; [exact Hw|lia]).
  destruct t as [| |[|q rest]|[|f todo] h|h].
  - by apply wpx_wp, advance_starting_wp.
  - by apply wpx_wp, advance_waiting_wp.
  - by apply wpx_wp, advance_taking_wp.
  - by apply advance_handling_wp.
  - by apply wpx_wp, advance_ending_wp.
  - by apply wpx_wp, advance_running_wp.
  - by apply wpx_wp, advance_releasing_wp.
Qed.

(** [n] steps are left. *)
Definition manned (n : Z) (pcs : gmap ptr pc) w : Prop := ∃ st x, crewed n pcs [] st x w.

Lemma step_thread_wp n pcs l w :
  manned (n + 1) pcs w → 0 ≤ n →
  wpx closed_twice (step_thread (invoke server_user) (run_functor server_user) l pcs) (λ pcs' w', manned n pcs' w') w.
Proof.
  intros (st & x & Hw) Hn. unfold step_thread. destruct (pcs !! l) as [t|] eqn:Hpc.
  - pose proof Hw as [_ H2 _]. assert (l ∈ lb :: ios) as Hin by (apply (sf_pcs _ _ _ _ _ _ _ _ _ _ H2); by eexists).
    destruct (staffed_threads _ _ _ _ _ _ _ _ _ _ H2 l Hin) as (lx & Hl & Ht).
    apply wpx_bind_wp, wp_bind. eapply get_loop_wp; [exact Hl|]. apply wp_modify. rewrite Ht.
    apply wpx_bind. eapply wpx_mono; [apply (advance_wp n pcs l t); [|exact Hpc|exact Hn]|].
    + exists st, x. split; [by apply crewed_tid|done].
    + intros t' w' (st' & x' & Hw' & _). apply wpx_ret. by exists st', x'.
  - apply wpx_ret. exists st, x. eapply crewed_less; [exact Hw|lia].
Qed.

(** What may stop the threads: a hang-up handled twice, or, if two of them [may] run at
    the same time, a race for a queue of functors. *)
Definition stopped_by (may : bool) (e : fault) : Prop :=
  closed_twice e ∨ e = DataRace "pendingFunctors_" ∧ may = true.

Lemma take_turn_wp may n pcs tn w :
  manned (n + Z.of_nat (turn_steps tn)) pcs w → 0 ≤ n → (overlaps tn = true → may = true) →
  wpx (stopped_by may) (take_turn (invoke server_user) (run_functor server_user) tn pcs)
    (λ pcs' w', manned n pcs' w') w.
Proof.
  intros Hw Hn Hmay. assert (∀ e, closed_twice e → stopped_by may e) as Hc by (by left).
  destruct tn as [l|l l']; cbn [take_turn turn_steps] in *.
  - eapply wpx_weaken; [by apply step_thread_wp|done].
  - apply wpx_bind_wp, wp_get.
    apply wpx_bind. eapply wpx_mono; [eapply wpx_weaken; [apply (step_thread_wp (n + 1)); [|lia]|exact Hc]|].
    { by replace (n + 1 + 1) with (n + Z.of_nat 2) by lia. }
    intros pcs1 w1 Hw1. apply wpx_bind_wp, wp_get.
    apply wpx_bind. eapply wpx_mono; [eapply wpx_weaken; [by apply (step_thread_wp n)|exact Hc]|].
    intros pcs2 w2 Hw2. apply wpx_bind_wp, wp_get.
    apply wpx_bind, wpx_when; [|by intros _; apply wpx_ret].
    intros [Ho _]%andb_true_iff. eapply wpx_fault; [done|]. right. split; [done|by apply Hmay].
Qed.

Lemma run_schedule_wp may schedule : ∀ n pcs w,
  manned (n + Z.of_nat (steps schedule)) pcs w → 0 ≤ n → (existsb overlaps schedule = true → may = true) →
  wpx (stopped_by may) (run_schedule (invoke server_user) (run_functor server_user) schedule pcs)
    (λ pcs' w', manned n pcs' w') w.
Proof.
  induction schedule as [|tn schedule IH]; intros n pcs w Hw Hn Hmay; cbn [run_schedule].
  - apply wpx_ret. by rewrite Z.add_0_r in Hw.
  - cbn [existsb] in Hmay.
    apply wpx_bind. eapply wpx_mono; [apply (take_turn_wp may (n + Z.of_nat (steps schedule))); [|lia|]|].
    + replace (n + Z.of_nat (steps schedule) + Z.of_nat (turn_steps tn))
        with (n + Z.of_nat (steps (tn :: schedule))); [done|].
      rewrite steps_cons. lia.
    + intros Ho. apply Hmay. by rewrite Ho.
    + intros pcs' w' Hw'. apply IH; [done..|]. intros Ho. apply Hmay. by rewrite Ho, orb_true_r.
Qed.

(** ** What there is, at any moment *)

(** A connection exists exactly as long as something has a pointer to it. *)
Lemma manned_owners n pcs w c : manned n pcs w → is_Some (w_conns w !! c) ↔ c ∈ owners w.
Proof.
  intros (st & x & Hw). pose proof Hw as [H1 H2 [_ [G1 _ _ _ _] _ H6]]. split.
  - intros [y Hy]. apply elem_of_owners.
    destruct (rs_conn _ _ _ _ _ _ _ _ _ _ _ _ _ _ H6 c y Hy) as (ch & k & _ & Hk & _ & Hst).
    destruct (decide (k = Gone)) as [->|Hne]; [left; by eapply sf_gone|].
    destruct (crewed_not_gone _ _ _ _ _ _ _ _ _ _ _ _ _ _ _ _ _ _ Hw Hk Hne) as [Hin|Hin]; [left|by right].
    by rewrite (sf_held _ _ _ _ _ _ _ _ _ _ H2).
  - intros Ho. assert (is_Some (st !! c)) as [k Hk]; [|by eapply rs_status].
    apply elem_of_owners in Ho as [Hin|Hin]; [by eapply sf_known|].
    destruct (crewed_kept _ _ _ _ _ _ _ _ _ _ _ _ _ _ _ _ _ Hw Hin) as (k & Hk & _). by eexists.
Qed.

(** Nobody is in the middle of something: the threads are about to poll, and no functor
    waits for them. *)
Definition quiet (pcs : gmap ptr pc) w : Prop :=
  (∀ l t, pcs !! l = Some t → t = Waiting)
  ∧ ∀ l lx, w_loops w !! l = Some lx → el_pendingFunctors lx = [].

Lemma quiet_at pcs w l : quiet pcs w → pc_at pcs l = Waiting.
Proof. intros [Hq _]. unfold pc_at. destruct (pcs !! l) eqn:E; [by apply Hq in E as ->|done]. Qed.

(** Then the connections are those of the server's map, and each is up. *)
Lemma manned_quiet n pcs w x :
  manned n pcs w → w_servers w = {[s := x]} → quiet pcs w →
  (∀ c, is_Some (w_conns w !! c) ↔ ∃ name, sv_connections x !! name = Some c)
  ∧ ∀ c y, w_conns w !! c = Some y → tc_state y = kConnected.
Proof.
  intros (st & x' & [_ H2 [_ [G1 _ _ _ _] _ H6]]) Hs Hq.
  rewrite Hs in G1. apply (inj2 _) in G1 as [_ G1]. rewrite G1. clear x Hs G1.
  assert (∀ c k, st !! c = Some k → k = Served) as Hserved.
  { intros c k Hk. destruct (due lb s c k) as [[l f]|] eqn:Hd.
    - assert (f ∈ waiting_on pcs (w_loops w) l) as Hin
        by (apply (sf_queues _ _ _ _ _ _ _ _ _ _ H2 l); by exists c, k).
      exfalso. unfold waiting_on in Hin. rewrite (quiet_at _ _ _ Hq) in Hin. simpl in Hin.
      destruct (w_loops w !! l) as [lx|] eqn:Hl; simpl in Hin; [rewrite (proj2 Hq _ _ Hl) in Hin|]; by apply elem_of_nil in Hin.
    - destruct k; try done. exfalso. apply (sf_gone _ _ _ _ _ _ _ _ _ _ H2) in Hk.
      rewrite (sf_held _ _ _ _ _ _ _ _ _ _ H2), holding_nil in Hk; [by apply elem_of_nil in Hk|].
      intros l. by rewrite (quiet_at _ _ _ Hq). }
  split.
  - intros c. split.
    + intros [y Hy]. destruct (rs_conn _ _ _ _ _ _ _ _ _ _ _ _ _ _ H6 c y Hy) as (ch & k & _ & Hk & _ & Hst).
      exists (tc_name y). eapply stands_listed; [exact Hst|]. by rewrite (Hserved _ _ Hk).
    + intros [name Hn]. destruct (rs_map _ _ _ _ _ _ _ _ _ _ _ _ _ _ H6 name c Hn) as (y & _ & Hy & _). by exists y.
  - intros c y Hy. destruct (rs_conn _ _ _ _ _ _ _ _ _ _ _ _ _ _ H6 c y Hy) as (ch & k & _ & Hk & _ & Hst).
    rewrite (Hserved _ _ Hk) in Hst. destruct Hst as (_ & Hup & _). apply (up_echo _ _ _ _ _ _ _ _ Hup).
Qed.

(** The server, and what is open. *)
Lemma manned_inventory n pcs w :
  manned n pcs w → ∃ x ac, w_servers w = {[s := x]} ∧ w_acceptors w !! a = Some ac
    ∧ (∀ c y, w_conns w !! c = Some y → tc_loop y ∈ ios
         ∧ (tc_state y = kDisconnected ∨ sv_connections x !! tc_name y = Some c))
    ∧ ∀ fd, fd ∈ open_fds (io_k (w_io w)) ↔ fd ∈ base ∨ (0 ≤ fd ∧ fd = ac_idleFd ac)
                                            ∨ ∃ c y, w_conns w !! c = Some y ∧ tc_socket y = fd.
Proof.
  intros (st & x & [_ _ [_ [G1 _ _ (ac & Hac & _ & _ & [Ho _ _]) _] _ H6]]).
  exists x, ac. split_and!; [exact G1|exact Hac| |exact Ho].
  intros c y Hy. destruct (rs_conn _ _ _ _ _ _ _ _ _ _ _ _ _ _ H6 c y Hy) as (ch & k & _ & _ & Hin & Hst).
  split; [exact Hin|]. destruct (decide (listed k = true)) as [Hl|Hl]; [right; by eapply stands_listed|left].
  destruct k; try done.
  - destruct Hst as (_ & _ & [? _ _]). done.
  - destruct Hst as (_ & [? _ _]). done.
Qed.
End rounds.
