(* ===== verification/Muster.v ===== *)
(** * Muster: loops and their threads, before they run

    Making loops, each in a thread of its own: what the constructor of EventLoop.v
    adds to a process that has loops already, [startLoop], and [start] of a pool
    (Threads.v).  [mustered] is what holds in between; Launch.v goes on from there. *)
From S2P Require Import Prelude Endian Buffer OS Descriptors Double Objects Poller LoopCore Channel TimerQueue Sockets Calls TcpConnection ByteStream Lifecycle EventLoop Threads Interleaving Acceptor Connector TcpServer TcpClient Program PingPong Serving Lifetimes Echo Isolation Running Startup Table Events Service Welcome Rounds Opening Handover Roster Crew CrewEvents CrewRounds.

Set Default Goal Selector "!".

(** ** Room for more descriptors *)

(** The calls by which [main] and its threads get descriptors before [loop.loop()]. *)
Definition makes (c : syscall) : bool :=
  match c with
  | SysEpollCreate | SysTimerfdCreate | SysEventfd | SysSocket _ | SysOpenDevNull => true
  | _ => false
  end.

Section room.
Context {K : Type} `{!OS K}.

(** Whatever the next [n] calls are, those that make a descriptor succeed. *)
Fixpoint roomy (n : nat) (k : K) : Prop :=
  match n with
  | O => True
  | S n => (∀ c, makes c = true → 0 ≤ ret (os_call c k).1) ∧ ∀ c, roomy n (os_call c k).2
  end.

Lemma roomy_less n m : ∀ k, roomy (n + m) k → roomy m k.
Proof.
  induction m as [|m IH]; intros k; [done|]. rewrite Nat.add_succ_r. cbn [roomy].
  intros [H1 H2]. split; [exact H1|]. intros c. apply IH, H2.
Qed.

Lemma roomy_replay n calls : ∀ k, roomy (length calls + n) k → roomy n (replay calls k).
Proof.
  unfold replay. induction calls as [|cr calls IH]; intros k; [done|]. intros [_ H]. apply IH, H.
Qed.

Lemma roomy_by n calls io io' : io_by calls io io' → roomy (length calls + n) (io_k io) → roomy n (io_k io').
Proof. intros [_ ->]. apply roomy_replay. Qed.
End room.

(** ** Loops that have not run yet *)

Section muster.
Context {K : Type} `{!OS K} `{!OSLaws K} `{!EpollLaws K} `{!FdLaws K} `{!EpollRoom K}.
Implicit Types w : World K.

(** The loops [ls], each as its constructor left it, in threads of their own; [base]
    are the descriptors that stay open, [aside] the others, and [spare] the channels
    that no loop made for itself. *)
Section ready.
Context (spare : gmap ptr Channel) (base aside : gset Z).

Record idle (lx : EventLoop) : Prop := {
  id_quit : el_quit lx = false;
  id_handling : el_eventHandling lx = false;
  id_timers : tq_timers (el_timerQueue lx) = [];
  id_pending : el_pendingFunctors lx = [];
  id_wakeup : el_wakeupFd lx ∈ base
}.

(** Its poller, as its thread sees it. *)
Definition berth (l : ptr) (t : tid) w : Prop :=
  ∃ p, loop_ok l p (set_w_tid t w) ∧ 0 < ep_nevents p ≤ 2 * NR_OPEN ∧ ep_epollfd p ∈ base.

Record mustered (ls : list ptr) w : Prop := {
  mu_nodup : NoDup ls;
  mu_loops : ∀ l, is_Some (w_loops w !! l) ↔ l ∈ ls;
  mu_idle : ∀ l lx, w_loops w !! l = Some lx → idle lx;
  mu_berth : ∀ l lx, w_loops w !! l = Some lx → berth l (el_threadId lx) w;
  mu_below : ∀ l lx, w_loops w !! l = Some lx → (l < w_next w)%nat ∧ (el_threadId lx < w_nextTid w)%nat;
  mu_tid : ∀ l l' lx lx', w_loops w !! l = Some lx → w_loops w !! l' = Some lx' →
    el_threadId lx = el_threadId lx' → l = l';
  mu_ep : ∀ l l' p p', l ∈ ls → l' ∈ ls → r_pollers (w_r w) !! l = Some p → r_pollers (w_r w) !! l' = Some p' →
    ep_epollfd p = ep_epollfd p' → l = l';
  mu_chans : ∀ q ch, r_chans (w_r w) !! q = Some ch → (q < w_next w)%nat ∧ ch_loop ch ∈ ls ∧ ch_fd ch ∈ base
    ∧ (own_channel (ch_loop ch) ch ∨ spare !! q = Some ch);
  mu_open : open_fds (io_k (w_io w)) = base ∪ aside;
  mu_aside : base ## aside;
  mu_conns : w_conns w = ∅;
  mu_clients : w_clients w = ∅;
  mu_held : w_held w = []
}.
End ready.

(** *** What keeps it *)

Lemma berth_frame base l t w w' :
  berth base l t w → r_chans (w_r w') = r_chans (w_r w) → r_pollers (w_r w') = r_pollers (w_r w) →
  (∀ ep, interest (io_k (w_io w')) ep = interest (io_k (w_io w)) ep) →
  w_loops w' = w_loops w → berth base l t w'.
Proof.
  intros (p & Hok & H) Ec Ep Ei El. exists p. split; [|exact H].
  eapply loop_ok_frame; [exact Hok|exact Ec|exact Ep|apply Ei|]. simpl. rewrite El. exact (lk_thread _ _ _ Hok).
Qed.

Lemma mustered_frame spare base aside ls w w' :
  mustered spare base aside ls w → r_chans (w_r w') = r_chans (w_r w) → r_pollers (w_r w') = r_pollers (w_r w) →
  (∀ ep, interest (io_k (w_io w')) ep = interest (io_k (w_io w)) ep) → same_fds (w_io w) (w_io w') →
  w_loops w' = w_loops w → (w_next w ≤ w_next w')%nat → (w_nextTid w ≤ w_nextTid w')%nat →
  (w_conns w', w_clients w', w_held w') = (w_conns w, w_clients w, w_held w) →
  mustered spare base aside ls w'.
Proof.
  intros [M1 M2 M3 M4 M5 M6 M7 M8 M9 M10 M11 M12 M13] Ec Ep Ei Ef El En Et [= E1 E2 E3].
  split; rewrite ?El, ?Ec, ?Ep, ?Ef, ?E1, ?E2, ?E3; try done.
  - intros l lx Hl. eapply berth_frame; [by apply M4|done..].
  - intros l lx Hl. destruct (M5 l lx Hl). lia.
  - intros q ch Hq. destruct (M8 q ch Hq) as (H1 & H2). split; [lia|done].
Qed.

(** ** A loop is made *)

Lemma roomy_loop n k c :
  roomy (5 + n) k → ∃ ep tfd efd, new_descriptors k c = (ep, tfd, efd) ∧ 0 ≤ ep ∧ 0 ≤ tfd ∧ 0 ≤ efd
    ∧ roomy n (kernel_with_loop k c).
Proof.
  intros [H1 R1]. unfold kernel_with_loop, kernel_with_timerfd, new_descriptors.
  specialize (H1 SysEpollCreate eq_refl). specialize (R1 SysEpollCreate).
  destruct (os_call SysEpollCreate k) as [r1 k1]. destruct R1 as [H2 R2].
  specialize (H2 SysTimerfdCreate eq_refl). specialize (R2 SysTimerfdCreate). cbn [fst snd] in *.
  destruct (os_call SysTimerfdCreate k1) as [r2 k2].
  destruct R2 as [_ R3]. specialize (R3 (SysEpollCtl (ret r1) EPOLL_CTL_ADD (ret r2) kReadEvent c)).
  cbn [fst snd] in *. destruct (os_call (SysEpollCtl _ _ _ _ _) k2) as [r3 k3]. destruct R3 as [H4 R4].
  specialize (H4 SysEventfd eq_refl). specialize (R4 SysEventfd). cbn [fst snd] in *.
  destruct (os_call SysEventfd k3) as [r4 k4]. destruct R4 as [_ R5]. cbn [fst snd] in *.
  exists (ret r1), (ret r2), (ret r4). split_and!; [done..|]. apply R5.
Qed.

Lemma mustered_chans_below spare base aside ls w : mustered spare base aside ls w → chans_below w.
Proof.
  intros Hm q ch Hq. destruct (mu_chans _ _ _ _ _ Hm q ch Hq) as (H1 & [lx Hl]%(mu_loops _ _ _ _ _ Hm) & _).
  split; [done|]. by destruct (mu_below _ _ _ _ _ Hm _ lx Hl).
Qed.

(** An idle loop whose poller nothing happened to. *)
Lemma berth_apart base base' l l0 t ep w w' :
  berth base l t w → base ⊆ base' → l ≠ l0 → ep ∉ base → parted l0 ep w w' →
  same_chans l (r_chans (w_r w)) (r_chans (w_r w')) →
  (∃ lx, w_loops w' !! l = Some lx ∧ el_threadId lx = t) → berth base' l t w'.
Proof.
  intros (p & Hok & Hn & He) Hsub Hne Hep [Hp Hk] Hch Ht. exists p. split; [|split; [exact Hn|by apply Hsub]].
  eapply loop_ok_others; [exact Hok|exact Hch|by apply Hp| |exact Ht].
  apply Hk. intros E. apply Hep. by rewrite <- E.
Qed.

(** Its epoll instance is nobody else's. *)
Lemma mustered_loop_ep spare base aside ls l ep q w w' :
  mustered spare base aside ls w → l ∉ ls → ep ∉ base → parted l ep w w' →
  r_pollers (w_r w') !! l = Some q → ep_epollfd q = ep →
  ∀ l1 l2 p1 p2, l1 ∈ ls ++ [l] → l2 ∈ ls ++ [l] →
    r_pollers (w_r w') !! l1 = Some p1 → r_pollers (w_r w') !! l2 = Some p2 →
    ep_epollfd p1 = ep_epollfd p2 → l1 = l2.
Proof.
  intros Hm Hnew Hep [Hap _] Hq Eq.
  assert (∀ l' p', l' ∈ ls → r_pollers (w_r w') !! l' = Some p' →
    r_pollers (w_r w) !! l' = Some p' ∧ ep_epollfd p' ≠ ep) as Hold.
  { intros l' p' Hin Hp'. rewrite Hap in Hp' by (by intros ->). split; [done|].
    apply (mu_loops _ _ _ _ _ Hm) in Hin as [x Hx].
    destruct (mu_berth _ _ _ _ _ Hm l' x Hx) as (p & Hok & _ & He).
    pose proof (sy_poller _ _ _ _ (lk_synced _ _ _ Hok)) as Hp. simpl in Hp. assert (p' = p) as -> by congruence.
    intros E. by rewrite E in He. }
  intros l1 l2 p1 p2 [H1|H1%list_elem_of_singleton]%elem_of_app [H2|H2%list_elem_of_singleton]%elem_of_app P1 P2 E.
  - destruct (Hold _ _ H1 P1), (Hold _ _ H2 P2). by eapply (mu_ep _ _ _ _ _ Hm).
  - destruct (Hold _ _ H1 P1) as [_ []]. congruence.
  - destruct (Hold _ _ H2 P2) as [_ []]. congruence.
  - congruence.
Qed.

(** Three new descriptors. *)
Lemma three_more (base aside : gset Z) ep tfd efd :
  ep ∉ base ∪ aside → tfd ∉ {[ep]} ∪ (base ∪ aside) → efd ∉ {[tfd]} ∪ ({[ep]} ∪ (base ∪ aside)) →
  base ## aside → let base' := {[efd]} ∪ ({[tfd]} ∪ ({[ep]} ∪ base)) in
  base ⊆ base' ∧ (ep ∈ base' ∧ tfd ∈ base' ∧ efd ∈ base') ∧ (ep ∉ base) ∧ efd ≠ tfd ∧ base' ## aside
  ∧ {[efd]} ∪ ({[tfd]} ∪ ({[ep]} ∪ (base ∪ aside))) = base' ∪ aside.
Proof. intros H1 H2 H3 H4 base'. unfold base'. clear base'. split_and!; set_unfold.
  - by intros x; tauto.
  - tauto.
  - tauto.
  - tauto.
  - tauto.
  - intros ->. tauto.
  - intros x [->|[->|[->|Hx]]]; [tauto..|by apply H4].
  - intros x. tauto.
Qed.

(** The new loop [l] among the others. *)
Lemma mustered_loop spare base aside ls ind ep tfd efd i j w w' :
  let l := w_next w in let c := S l in
  mustered spare base aside ls w →
  building w l (new_poller ep {[efd := S c; tfd := c]}) (new_loop (w_tid w) ind tfd efd l)
    (S (S (S l))) (kernel_with_loop (io_k (w_io w)) c) w' →
  r_chans (w_r w') = <[S c := reading_chan l efd (CbEventLoop_handleRead l) j]>
    (<[c := reading_chan l tfd (CbTimerQueue_handleRead l) i]> (r_chans (w_r w))) →
  ep ∉ base ∪ aside → tfd ∉ {[ep]} ∪ (base ∪ aside) → efd ∉ {[tfd]} ∪ ({[ep]} ∪ (base ∪ aside)) →
  open_fds (kernel_with_loop (io_k (w_io w)) c) = {[efd]} ∪ ({[tfd]} ∪ ({[ep]} ∪ open_fds (io_k (w_io w)))) →
  (∀ l lx, w_loops w !! l = Some lx → el_threadId lx ≠ w_tid w) → (w_tid w < w_nextTid w)%nat →
  mustered spare ({[efd]} ∪ ({[tfd]} ∪ ({[ep]} ∪ base))) aside (ls ++ [l]) w'.
Proof.
  intros l c Hm [Hok Hls Hn Hk Hrest Hap] Hch Hep Htfd Hefd Hopen Hthr Htid.
  pose proof Hm as [M1 M2 M3 M4 M5 M6 M7 M8 M9 M10 M11 M12 M13].
  destruct (three_more base aside ep tfd efd Hep Htfd Hefd M10) as (Hsub & (Iep & Itfd & Iefd) & Hep' & _ & Haside & Hall).
  set (base' := {[efd]} ∪ ({[tfd]} ∪ ({[ep]} ∪ base))) in *. set (lx := new_loop _ _ _ _ _) in *.
  assert (l ∉ ls) as Hnew. { intros [x Hx]%M2. destruct (M5 l x Hx). lia. }
  assert (∀ l' x, w_loops w !! l' = Some x → l' ≠ l) as Hne by (intros l' x Hx ->; by apply Hnew, M2; eexists).
  assert (∀ l', l' ≠ l → same_chans l' (r_chans (w_r w)) (r_chans (w_r w'))) as Hsame.
  { intros l' Hl'. rewrite Hch. intros q ch Hl0. rewrite !lookup_insert_Some. split.
    - intros [(_ & <-)|(_ & [(_ & <-)|(_ & ?)])]; done.
    - intros Hq. destruct (M8 q ch Hq). right. split; [lia|]. right. split; [lia|done]. }
  split.
  - apply NoDup_app. split_and!; [done| |apply NoDup_singleton]. by intros l' Hl' ->%list_elem_of_singleton.
  - intros l'. rewrite Hls, elem_of_app, list_elem_of_singleton. destruct (decide (l' = l)) as [->|Hl'].
    + rewrite lookup_insert_eq. split; [by right|by eexists].
    + rewrite lookup_insert_ne, M2 by done. tauto.
  - intros l' x Hx. rewrite Hls in Hx. apply lookup_insert_Some in Hx as [[<- <-]|[_ Hx]].
    + by split.
    + destruct (M3 l' x Hx). split; try done. by apply Hsub.
  - intros l' x Hx. rewrite Hls in Hx. apply lookup_insert_Some in Hx as [[<- <-]|[Hne' Hx]].
    + exists (new_poller ep {[efd := S c; tfd := c]}). split_and!; [|done..|exact Iep].
      eapply loop_ok_frame; [exact Hok|done..|]. exists lx. simpl. by rewrite Hls, lookup_insert_eq.
    + eapply (berth_apart base base' l' l _ ep w); [by apply M4|exact Hsub|done|exact Hep'|exact Hap|by apply Hsame|].
      exists x. by rewrite Hls, lookup_insert_ne.
  - intros l' x Hx. assert (w_nextTid w' = w_nextTid w) as -> by (by rewrite Hrest).
    rewrite Hls in Hx. rewrite Hn. apply lookup_insert_Some in Hx as [[<- <-]|[_ Hx]]; [split; simpl; lia|].
    destruct (M5 l' x Hx). lia.
  - intros l1 l2 x1 x2 H1 H2. rewrite Hls in H1, H2.
    apply lookup_insert_Some in H1 as [[<- <-]|[_ H1]]; apply lookup_insert_Some in H2 as [[<- <-]|[_ H2]]; [done| | |by eapply M6].
    + simpl. intros E. by destruct (Hthr _ _ H2).
    + simpl. intros E. by destruct (Hthr _ _ H1).
  - eapply (mustered_loop_ep spare base aside ls l ep (new_poller ep {[efd := S c; tfd := c]}));
      [exact Hm|exact Hnew|exact Hep'|exact Hap| |done].
    exact (sy_poller _ _ _ _ (lk_synced _ _ _ Hok)).
  - intros q ch Hq. rewrite Hch in Hq. rewrite Hn.
    apply lookup_insert_Some in Hq as [[<- <-]|[_ Hq]]; [|apply lookup_insert_Some in Hq as [[<- <-]|[_ Hq]]].
    + split_and!; [unfold c; lia|apply elem_of_app; right; by apply list_elem_of_singleton|done|].
      left. apply reading_chan_own. auto.
    + split_and!; [unfold c; lia|apply elem_of_app; right; by apply list_elem_of_singleton|done|].
      left. apply reading_chan_own. auto.
    + destruct (M8 q ch Hq) as (H1 & H2 & H3 & H4).
      split_and!; [lia|apply elem_of_app; by left|by apply Hsub|done].
  - by rewrite Hk, Hopen, M9.
  - exact Haside.
  - by rewrite Hrest.
  - by rewrite Hrest.
  - by rewrite Hrest.
Qed.

(** What goes on while [main] starts its threads: loops and channels come, and the
    servers and acceptors stay as they are. *)
Record kept w w' : Prop := {
  kp_tid : w_tid w' = w_tid w;
  kp_servers : w_servers w' = w_servers w;
  kp_acceptors : w_acceptors w' = w_acceptors w;
  kp_loops : w_loops w ⊆ w_loops w';
  kp_chans : r_chans (w_r w) ⊆ r_chans (w_r w')
}.

#[global] Instance kept_preorder : PreOrder kept.
Proof.
  split; [by split|]. intros w1 w2 w3 [A1 A2 A3 A4 A5] [B1 B2 B3 B4 B5].
  split; [congruence..|by trans (w_loops w2)|by trans (r_chans (w_r w2))].
Qed.

(** The constructor, in a thread that has no loop. *)
Lemma EventLoop_ctor_muster_wp spare base aside ls ind n w :
  mustered spare base aside ls w → roomy (5 + n) (io_k (w_io w)) →
  (∀ l lx, w_loops w !! l = Some lx → el_threadId lx ≠ w_tid w) → (w_tid w < w_nextTid w)%nat →
  wp (EventLoop_ctor ind) (λ l w', l = w_next w
    ∧ (∃ base', base ⊆ base' ∧ mustered spare base' aside (ls ++ [l]) w')
    ∧ roomy n (io_k (w_io w')) ∧ beside_loops w w' ∧ kept w w'
    ∧ ∃ lx, w_loops w' !! l = Some lx ∧ el_threadId lx = w_tid w') w.
Proof.
  intros Hm Hroom Hthr Htid. set (l := w_next w).
  destruct (roomy_loop n _ (S l) Hroom) as (ep & tfd & efd & Hfds & Hep & Htfd & Hefd & Hroom').
  destruct (loop_descriptors _ _ _ _ _ Hfds Hep Htfd Hefd) as (N1 & N2 & N3 & Hopen).
  rewrite (mu_open _ _ _ _ _ Hm) in N1, N2, N3.
  destruct (three_more _ _ _ _ _ N1 N2 N3 (mu_aside _ _ _ _ _ Hm)) as (Hsub & _ & _ & Hne & _).
  eapply wp_mono; [apply (EventLoop_ctor_wp ind ep tfd efd w);
    [by eapply mustered_chans_below|exact Hfds|done|done|done]|].
  intros l' w' (-> & i & j & Hb & Hch). fold l in Hb, Hch |- *. split; [done|]. split_and!.
  - eexists. split; [|eapply mustered_loop; [exact Hm|exact Hb|exact Hch|done..]]. exact Hsub.
  - by rewrite (bd_k _ _ _ _ _ _ _ Hb).
  - apply Hb.
  - pose proof Hb as [_ Hls _ _ Hrest _].
    assert (∀ q ch, r_chans (w_r w) !! q = Some ch → (q < l)%nat) as Hbelow
      by (intros q ch Hq; by destruct (mu_chans _ _ _ _ _ Hm q ch Hq)).
    split; [by rewrite Hrest..| |].
    + rewrite Hls. apply insert_subseteq, eq_None_not_Some. intros [lx Hl].
      destruct (mu_below _ _ _ _ _ Hm l lx Hl). lia.
    + rewrite Hch. apply map_subseteq_spec. intros q ch Hq. specialize (Hbelow q ch Hq).
      by rewrite !lookup_insert_ne by lia.
  - pose proof Hb as [_ Hls _ _ Hrest _]. eexists. rewrite Hls, lookup_insert_eq. split; [done|]. by rewrite Hrest.
Qed.

(** ** The pool's threads *)

(** A pool with more threads [ts] and their loops [ls]. *)
Definition pool_with (ts ls : list ptr) (pl : EventLoopThreadPool) : EventLoopThreadPool :=
  set_pl_loops (pl_loops pl ++ ls) (set_pl_threads (pl_threads pl ++ ts) pl).

Lemma pool_with_nil pl : pool_with [] [] pl = pl.
Proof. unfold pool_with. destruct pl. simpl. by rewrite !app_nil_r. Qed.

Lemma pool_with_app ts ts' ls ls' pl :
  pool_with ts' ls' (pool_with ts ls pl) = pool_with (ts ++ ts') (ls ++ ls') pl.
Proof. unfold pool_with. simpl. by rewrite !app_assoc. Qed.

Lemma get_thread_wp t x (Q : EventLoopThread → World K → Prop) w :
  w_threads w !! t = Some x → Q x w → wp (get_thread t) Q w.
Proof. intros H HQ. by eapply wp_gets_some. Qed.

Lemma upd_thread_wp t x f (Q : unit → World K → Prop) w :
  w_threads w !! t = Some x → Q tt (set_w_threads (<[t := f x]> (w_threads w)) w) → wp (upd_thread t f) Q w.
Proof. intros H HQ. apply wp_bind. eapply get_thread_wp; [done|]. by apply wp_modify. Qed.

(** [startLoop] of a new thread. *)
Lemma startLoop_muster_wp user spare base aside ls t ind n w :
  mustered spare base aside ls w → roomy (5 + n) (io_k (w_io w)) →
  w_threads w !! t = Some (mkEventLoopThread None false None None) →
  wp (startLoop user t ind) (λ l w',
    (∃ base', base ⊆ base' ∧ mustered spare base' aside (ls ++ [l]) w')
    ∧ roomy n (io_k (w_io w')) ∧ kept w w' ∧ w_pools w' = w_pools w) w.
Proof.
  intros Hm Hroom Ht. unfold startLoop.
  apply wp_bind. eapply get_thread_wp; [exact Ht|]. apply wp_bind, wp_assert; [done|].
  apply wp_bind. unfold new_thread, wp at 1.
  apply wp_bind. eapply upd_thread_wp; [exact Ht|]. cbn [w_nextTid w_threads set_w_nextTid].
  set (x1 := set_et_thread _ _). unfold in_thread. apply wp_bind, wp_bind, wp_gets, wp_bind, wp_modify.
  set (w1 := set_w_tid (w_nextTid w) _).
  assert (mustered spare base aside ls w1) as Hm1.
  { eapply mustered_frame; [exact Hm|done..|simpl; lia|simpl; lia|done]. }
  apply wp_bind. unfold threadFunc_start. apply wp_bind.
  eapply wp_mono; [eapply (EventLoop_ctor_muster_wp spare base aside ls ind n w1); [exact Hm1|exact Hroom| |simpl; lia]|].
  { intros l lx Hl E. destruct (mu_below _ _ _ _ _ Hm l lx Hl) as [_ Hlt]. rewrite E in Hlt. simpl in Hlt. lia. }
  intros l w2 (_ & (base' & Hsub & Hm2) & Hroom2 & Hrest & [_ K2 K3 K4 K5] & _).
  assert (w_threads w2 !! t = Some x1) as Ht2 by (rewrite Hrest; simpl; by rewrite lookup_insert_eq).
  assert (w_pools w2 = w_pools w) as Hp2 by (by rewrite Hrest).
  apply wp_bind. eapply get_thread_wp; [exact Ht2|]. cbn [run_threadInit et_callback set_et_thread x1].
  apply wp_bind, wp_ret. eapply upd_thread_wp; [exact Ht2|].
  apply wp_bind, wp_modify, wp_ret. apply wp_bind. eapply get_thread_wp; [simpl; by rewrite lookup_insert_eq|].
  cbn [et_loop set_et_loop]. eapply wp_gets_some; [done|]. split_and!; [|exact Hroom2| |exact Hp2].
  - exists base'. split; [exact Hsub|]. eapply mustered_frame; [exact Hm2|done..].
  - split; [done|exact K2|exact K3|exact K4|exact K5].
Qed.

Lemma pool_add_thread_wp user spare base aside ls p pl ind n w :
  mustered spare base aside ls w → roomy (5 + n) (io_k (w_io w)) → w_pools w !! p = Some pl →
  wp (pool_add_thread user p None ind) (λ _ w', ∃ base' t l, base ⊆ base'
    ∧ mustered spare base' aside (ls ++ [l]) w' ∧ roomy n (io_k (w_io w'))
    ∧ w_pools w' !! p = Some (pool_with [t] [l] pl) ∧ kept w w') w.
Proof.
  intros Hm Hroom Hp. unfold pool_add_thread. apply wp_bind. unfold EventLoopThread_ctor.
  apply wp_bind. unfold fresh, wp at 1. set (t := w_next w). apply wp_bind, wp_modify, wp_ret.
  apply wp_bind. eapply upd_pool_wp; [exact Hp|]. set (w1 := set_w_pools _ _).
  assert (mustered spare base aside ls w1) as Hm1 by (eapply mustered_frame; [exact Hm|done..|simpl; lia|done|done]).
  apply wp_bind. eapply wp_mono; [eapply (startLoop_muster_wp user spare base aside ls t ind n w1);
    [exact Hm1|exact Hroom|simpl; by rewrite lookup_insert_eq]|].
  intros l w2 ((base' & Hsub & Hm2) & Hroom2 & [K1 K2 K3 K4 K5] & Hp2).
  eapply upd_pool_wp; [rewrite Hp2; simpl; by rewrite lookup_insert_eq|].
  exists base', t, l. split_and!; [exact Hsub| |exact Hroom2|simpl; by rewrite lookup_insert_eq|by split].
  eapply mustered_frame; [exact Hm2|done..].
Qed.

Lemma pool_threads_wp user spare aside p ind turns : ∀ base ls pl n w,
  mustered spare base aside ls w → roomy (5 * length turns + n) (io_k (w_io w)) → w_pools w !! p = Some pl →
  wp (for_each turns (λ _ : nat, pool_add_thread user p None ind)) (λ _ w', ∃ base' ts new,
    length new = length turns ∧ base ⊆ base' ∧ mustered spare base' aside (ls ++ new) w'
    ∧ roomy n (io_k (w_io w')) ∧ w_pools w' !! p = Some (pool_with ts new pl) ∧ kept w w') w.
Proof.
  induction turns as [|i turns IH]; intros base ls pl n w Hm Hroom Hp; cbn [for_each].
  - apply wp_ret. exists base, [], []. rewrite app_nil_r, pool_with_nil. by split_and!.
  - apply wp_bind. eapply wp_mono; [eapply (pool_add_thread_wp user spare base aside ls p pl ind (5 * length turns + n));
      [exact Hm| |exact Hp]|].
    { by replace (5 + (5 * length turns + n))%nat with (5 * length (i :: turns) + n)%nat by (simpl; lia). }
    intros [] w1 (base1 & t & l & Hsub1 & Hm1 & Hroom1 & Hp1 & Hk1).
    eapply wp_mono; [by apply (IH base1 (ls ++ [l]) (pool_with [t] [l] pl) n)|].
    intros [] w2 (base2 & ts & new & Hlen & Hsub2 & Hm2 & Hroom2 & Hp2 & Hk2).
    exists base2, (t :: ts), (l :: new). rewrite pool_with_app in Hp2. rewrite <- app_assoc in Hm2.
    split_and!; [simpl; by rewrite Hlen|by trans base1|exact Hm2|exact Hroom2|exact Hp2|by trans w1].
Qed.

(** [start] of a pool with threads, in the thread of its base loop. *)
Lemma pool_start_wp user spare base aside ls p pl lx ind n w :
  mustered spare base aside ls w → roomy (5 * Z.to_nat (pl_numThreads pl) + n) (io_k (w_io w)) →
  w_pools w !! p = Some pl → pl_started pl = false → 0 < pl_numThreads pl →
  w_loops w !! pl_baseLoop pl = Some lx → el_threadId lx = w_tid w →
  wp (EventLoopThreadPool_start user p None ind) (λ _ w', ∃ base' ts new,
    length new = Z.to_nat (pl_numThreads pl) ∧ base ⊆ base' ∧ mustered spare base' aside (ls ++ new) w'
    ∧ roomy n (io_k (w_io w')) ∧ w_pools w' !! p = Some (pool_with ts new (set_pl_started true pl)) ∧ kept w w') w.
Proof.
  intros Hm Hroom Hp Hst Hn Hl Ht. unfold EventLoopThreadPool_start.
  apply wp_bind. eapply get_pool_wp; [exact Hp|]. apply wp_bind, wp_assert; [by rewrite Hst|].
  apply wp_bind. eapply assertInLoopThread_here; [exact Hl|exact Ht|].
  apply wp_bind. eapply upd_pool_wp; [exact Hp|]. set (w1 := set_w_pools _ _).
  assert (mustered spare base aside ls w1) as Hm1 by (eapply mustered_frame; [exact Hm|done..]).
  apply wp_bind. eapply wp_mono; [eapply (pool_threads_wp user spare aside p ind _ base ls _ n w1);
    [exact Hm1|by rewrite length_seq|simpl; by rewrite lookup_insert_eq]|].
  intros [] w2 (base2 & ts & new & Hlen & Hsub & Hm2 & Hroom2 & Hp2 & Hk). rewrite length_seq in Hlen.
  rewrite (proj2 (Z.eqb_neq _ _)) by lia. apply wp_ret. exists base2, ts, new. split_and!; try done.
  by destruct Hk; split.
Qed.
End muster.
