(* ===== verification/Launch.v ===== *)
(** * Launch: the echo server and its threads from their start

    [main] of example/pingpong/server.cc with more than one thread, up to
    [loop.loop()]: the loop and the server are made, the pool starts a thread for each
    of its loops (Muster.v), and the acceptor listens.  That leads to the state that
    CrewRounds.v starts from; with the theorem on what can stop the program, whichever
    threads take the next steps, and a run into the data race on a queue of functors. *)
From S2P Require Import Prelude Endian Buffer OS Descriptors Double Objects Poller LoopCore Channel TimerQueue Sockets Calls TcpConnection ByteStream Lifecycle EventLoop Threads Interleaving Acceptor Connector TcpServer TcpClient Program PingPong Serving Lifetimes Echo Isolation Running Startup Table Events Service Welcome Rounds Opening Handover Roster Crew CrewEvents CrewRounds Muster.

Set Default Goal Selector "!".

(** Every loop's thread is about to call [loop()]. *)
Definition at_start (loops : gmap ptr EventLoop) : gmap ptr pc := (λ _, Starting) <$> loops.

Lemma pc_at_start loops l : pc_at (at_start loops) l = Starting ∨ pc_at (at_start loops) l = Waiting.
Proof. unfold pc_at, at_start. rewrite lookup_fmap. destruct (loops !! l); simpl; auto. Qed.

Lemma at_start_quiet loops l :
  let t := pc_at (at_start loops) l in
  pc_todo t = [] ∧ pc_held t = [] ∧ pc_rest t = [] ∧ is_handling t = false.
Proof. by destruct (pc_at_start loops l) as [-> | ->]. Qed.

Lemma holding_start ls loops : holding ls (at_start loops) = [].
Proof. apply holding_nil. intros l. by destruct (at_start_quiet loops l) as (_ & -> & _). Qed.

Section launch.
Context {K : Type} `{!OS K} `{!OSLaws K} `{!EpollLaws K} `{!FdLaws K} `{!EpollRoom K} `{InetLaws}.
Implicit Types w : World K.

(** ** From loops that have not run to a crew *)

Section crew.
Context (lb s a achan : ptr) (ios : list ptr) (spare : gmap ptr Channel) (base aside : gset Z).

(** Whose thread and epoll instance a loop's are. *)
Definition thread_of w (l : ptr) : tid := from_option el_threadId 0%nat (w_loops w !! l).
Definition epoll_of w (l : ptr) : Z := from_option ep_epollfd 0 (r_pollers (w_r w) !! l).

Lemma mustered_thread w l : mustered spare base aside (lb :: ios) w → l ∈ lb :: ios →
  ∃ lx, w_loops w !! l = Some lx ∧ el_threadId lx = thread_of w l.
Proof.
  intros Hm [lx Hl]%(mu_loops _ _ _ _ _ Hm). exists lx. split; [done|]. unfold thread_of. by rewrite Hl.
Qed.

Lemma mustered_berth w l : mustered spare base aside (lb :: ios) w → l ∈ lb :: ios →
  ∃ p, loop_ok l p (set_w_tid (thread_of w l) w) ∧ 0 < ep_nevents p ≤ 2 * NR_OPEN
    ∧ ep_epollfd p = epoll_of w l ∧ epoll_of w l ∈ base.
Proof.
  intros Hm Hin. destruct (mustered_thread w l Hm Hin) as (lx & Hl & <-).
  destruct (mu_berth _ _ _ _ _ Hm l lx Hl) as (p & Hok & Hn & He). exists p. unfold epoll_of.
  pose proof (sy_poller _ _ _ _ (lk_synced _ _ _ Hok)) as E. simpl in E. rewrite E. split; [exact Hok|split; [exact Hn|by split]].
Qed.

Lemma crew_ok_start w :
  mustered spare base aside (lb :: ios) w → Z.of_nat (length ios) < 2 ^ 31 →
  crew_ok lb ios base (thread_of w) (epoll_of w).
Proof.
  intros Hm Hfew. split; [apply Hm|exact Hfew|..].
  - intros l l' Hl Hl' E. destruct (mustered_thread w l Hm Hl) as (lx & Hx & Ex), (mustered_thread w l' Hm Hl') as (lx' & Hx' & Ex').
    eapply (mu_tid _ _ _ _ _ Hm); [exact Hx|exact Hx'|congruence].
  - intros l l' Hl Hl' E. destruct (mustered_berth w l Hm Hl) as (p & Hok & _ & Ep & _), (mustered_berth w l' Hm Hl') as (p' & Hok' & _ & Ep' & _).
    eapply (mu_ep _ _ _ _ _ Hm l l' p p'); [done..|exact (sy_poller _ _ _ _ (lk_synced _ _ _ Hok))
      |exact (sy_poller _ _ _ _ (lk_synced _ _ _ Hok'))|congruence].
  - intros l Hl. by destruct (mustered_berth w l Hm Hl) as (_ & _ & _ & _ & ?).
Qed.

(** The poller of [lb] changes. *)
Lemma berths_start p w w' :
  mustered spare base aside (lb :: ios) w → Z.of_nat (length ios) < 2 ^ 31 →
  loop_ok lb p (set_w_tid (thread_of w lb) w') → 0 < ep_nevents p ≤ 2 * NR_OPEN → ep_epollfd p = epoll_of w lb →
  parted lb (epoll_of w lb) w w' →
  (∀ l, l ∈ lb :: ios → ∃ lx, w_loops w' !! l = Some lx ∧ el_threadId lx = thread_of w l) →
  (∀ l, l ≠ lb → same_chans l (r_chans (w_r w)) (r_chans (w_r w'))) →
  berths lb ios (thread_of w) (epoll_of w) w'.
Proof.
  intros Hm Hfew Hok Hn He Hap Hthr Hch. eapply (berths_one lb ios base (thread_of w) (epoll_of w) lb p w);
    [by apply crew_ok_start| |exact Hthr|by left|exact Hok|exact Hn|exact He|exact Hap|exact Hch].
  intros l Hl. destruct (mustered_berth w l Hm Hl) as (p' & H1 & H2 & H3 & _). by exists p'.
Qed.

Lemma staffed_start w :
  mustered spare base aside (lb :: ios) w →
  staffed lb s ios base (thread_of w) (at_start (w_loops w)) [] ∅ (w_loops w) [].
Proof.
  intros Hm. split.
  - intros l. unfold at_start. rewrite lookup_fmap, fmap_is_Some. apply (mu_loops _ _ _ _ _ Hm).
  - intros l. apply (mu_loops _ _ _ _ _ Hm).
  - intros l Hl. destruct (mustered_thread w l Hm Hl) as (lx & Hx & Ht). exists lx. split; [done|].
    destruct (mu_idle _ _ _ _ _ Hm l lx Hx). by split.
  - intros l. unfold waiting_on. destruct (at_start_quiet (w_loops w) l) as (-> & _). simpl.
    assert (from_option el_pendingFunctors [] (w_loops w !! l) = []) as ->.
    { destruct (w_loops w !! l) as [lx|] eqn:Hl; [|done]. by destruct (mu_idle _ _ _ _ _ Hm l lx Hl). }
    split; [constructor|]. intros f. split; [by intros ?%elem_of_nil|].
    intros (c & k & Hc & _). by rewrite lookup_empty in Hc.
  - by rewrite holding_start.
  - intros l c. destruct (at_start_quiet (w_loops w) l) as (-> & _). by intros ?%elem_of_nil.
  - by intros c ?%elem_of_nil.
  - intros c Hc. by rewrite lookup_empty in Hc.
Qed.

(** The server has no connection yet. *)
Lemma roster_start ch n x w :
  mustered spare base aside (lb :: ios) w → (∀ q ch', spare !! q = Some ch' → q = achan) →
  (∃ ch0, r_chans (w_r w) !! achan = Some ch0) →
  accepts a ch → ch_loop ch = lb → ch_fd ch ∈ base → sv_connections x = ∅ → sv_nextConnId x = 1 →
  0 ≤ n → 1 + n < 2 ^ 31 →
  roster lb s a achan ios s s base n ∅ x ∅ (<[achan := ch]> (r_chans (w_r w))) (w_next w).
Proof.
  intros Hm Hspare [ch0 Hch0] Hacc Hl Hfd Hconns Hid Hn Hmax.
  split; rewrite ?Hconns, ?Hid; try (intros ? ? Hy; by rewrite lookup_empty in Hy).
  - intros q ch' Hq. apply lookup_insert_Some in Hq as [[<- <-]|[Hne Hq]]; [by right; left|].
    destruct (mu_chans _ _ _ _ _ Hm q ch' Hq) as (_ & H1 & H2 & [H3|H3]); [by left|].
    by destruct Hne; rewrite (Hspare _ _ H3).
  - intros q Hq. split; [apply lookup_empty|]. apply lookup_insert_None. split.
    + destruct (r_chans (w_r w) !! q) as [ch'|] eqn:E; [|done].
      destruct (mu_chans _ _ _ _ _ Hm q ch' E). lia.
    + intros <-. destruct (mu_chans _ _ _ _ _ Hm _ _ Hch0). lia.
  - lia.
  - exists ch. by rewrite lookup_insert_eq.
Qed.
End crew.

(** ** The acceptor listens *)

Section listening.
Context (lb s a achan : ptr) (ios : list ptr) (base : gset Z) (lfd dfd : Z).
#[local] Abbreviation ch0 := (listening_chan lb a lfd).

(** The server with its loops and nothing else. *)
Record assembled (x : TcpServer) w : Prop := {
  as_muster : mustered {[achan := ch0]} base {[dfd]} (lb :: ios) w;
  as_thread : w_tid w = thread_of w lb;
  as_chan : r_chans (w_r w) !! achan = Some ch0;
  as_server : w_servers w = {[s := x]} ∧ echo_server lb s s x;
  as_new : sv_connections x = ∅ ∧ sv_nextConnId x = 1;
  as_pool : ∃ pl, w_pools w !! sv_threadPool x = Some pl ∧ pl_loops pl = ios ∧ pl_baseLoop pl = lb ∧ pl_next pl = 0;
  as_acceptor : ∃ ac, w_acceptors w !! a = Some ac ∧ ac_loop ac = lb ∧ ac_newConnectionCallback ac = Some s
    ∧ ac_idleFd ac = dfd;
  as_spare : 0 ≤ dfd;
  as_few : (0 < length ios)%nat ∧ Z.of_nat (length ios) < 2 ^ 31
}.

Lemma assembled_accounted x w : assembled x w → accounted base dfd (w_conns w) (open_fds (io_k (w_io w))).
Proof.
  intros Hw. pose proof (as_muster _ _ Hw) as Hm. rewrite (mu_conns _ _ _ _ _ Hm), (mu_open _ _ _ _ _ Hm).
  pose proof (mu_aside _ _ _ _ _ Hm) as Hd. pose proof (as_spare _ _ Hw). split.
  - intros fd. rewrite elem_of_union, elem_of_singleton. split.
    + intros [?| ->]; [by left|by right; left].
    + intros [?|[[_ ->]|(c & y & Hy & _)]]; [by left|by right|by rewrite lookup_empty in Hy].
  - split; [|by intros c y Hy; rewrite lookup_empty in Hy]. intros Hin. apply (Hd dfd Hin). by apply elem_of_singleton.
  - intros c c' y y' Hy. by rewrite lookup_empty in Hy.
Qed.

Lemma listening_crew_wp n x w :
  assembled x w → 0 ≤ n → 1 + n < 2 ^ 31 →
  wp (enableReading achan) (λ _ w',
    crewed lb s a achan ios s s base (thread_of w) (epoll_of w) n (at_start (w_loops w)) [] ∅ x w'
    ∧ w' = set_w_r (w_r w') w ∧ same_fds (w_io w) (w_io w')) w.
Proof.
  intros Hw Hn Hmax. pose proof (assembled_accounted x w Hw) as Hacc.
  destruct Hw as [Hm Ht Hch [Hs He] [Hmap Hid] (pl & Hp & Hpl & Hpb & Hpn) (ac & Ha & Hal & Has & Hai) Hdfd [Hpos Hfew]].
  assert (lb ∈ lb :: ios) as Hin by (by left).
  destruct (mustered_thread _ _ _ _ _ _ _ Hm Hin) as (lx & Hl & El).
  destruct (mustered_berth _ _ _ _ _ _ _ Hm Hin) as (p & Hok & Hnev & Eep & Hep).
  assert (loop_ok lb p w) as Hok0.
  { eapply loop_ok_frame; [exact Hok|done..|]. exists lx. split; [done|]. by rewrite Ht. }
  destruct (mu_chans _ _ _ _ _ Hm _ _ Hch) as (_ & _ & Hlfd & _).
  assert (can_watch p (ch_fd ch0) (io_k (w_io w))) as Hcan.
  { pose proof (ac_open _ _ _ _ Hacc) as Ho. split; apply Ho; left; [by rewrite Eep|exact Hlfd]. }
  pose proof (run_interest_wp EnableReading achan ch0 lb _ _ Hok0 Hch eq_refl (or_intror Hcan)) as Hwp.
  pose proof (fds_kept_run_interest EnableReading achan w) as Hf.
  pose proof (enableReading_parted lb p achan ch0 w Hok0 Hch eq_refl) as Hap.
  unfold wp, wlp in *. cbn [run_interest] in *. destruct (enableReading achan w) as [[[] w']|]; [|done].
  destruct Hwp as (i & Hok' & Hch' & E). set (ch := set_ch_index i _) in Hch'.
  split; [|split; [exact E|exact Hf]]. rewrite Eep in Hap.
  assert (w_loops w' = w_loops w ∧ w_conns w' = ∅ ∧ w_held w' = [] ∧ w_next w' = w_next w) as (EL & EC & EH & EN).
  { rewrite E. split_and!; [done|apply Hm|apply Hm|done]. }
  assert (∀ l, l ∈ lb :: ios → ∃ lx, w_loops w' !! l = Some lx ∧ el_threadId lx = thread_of w l) as Hthr.
  { intros l Hl'. rewrite EL. exact (mustered_thread _ _ _ _ _ _ _ Hm Hl'). }
  split.
  - by eapply crew_ok_start.
  - rewrite EL, EH. by eapply staffed_start.
  - split.
    + eapply (berths_start lb ios _ base _ (set_ep_channels (<[lfd := achan]> (ep_channels p)) p)); [exact Hm|exact Hfew| |exact Hnev|exact Eep|exact Hap|exact Hthr|].
      * eapply loop_ok_frame; [exact Hok'|done..|]. by apply Hthr.
      * intros l Hne. rewrite Hch'. apply same_chans_insert; [by intros <-|]. rewrite Hch. by intros ? [= <-] <-.
    + split; rewrite ?EC.
      * rewrite E. exact Hs.
      * exact He.
      * exists pl, 0%nat. rewrite E. by split_and!.
      * exists ac. rewrite (mu_conns _ _ _ _ _ Hm) in Hacc. unfold same_fds in Hf. rewrite Hf, Hai.
        rewrite E at 1. by split_and!.
      * rewrite E. apply Hm.
    + intros l. unfold to_handle. destruct (at_start_quiet (w_loops w) l) as (_ & _ & -> & _).
      split; [constructor|]. by intros q ?%elem_of_nil.
    + rewrite EC, EN, Hch'. eapply roster_start; [exact Hm| |by eexists|by split|done|exact Hlfd|done..].
      by intros q ch' [<- _]%lookup_singleton_Some.
Qed.
End listening.

(** ** The server is made *)

(** A listening channel among the loops' own. *)
Lemma mustered_listening base ls lb a achan lfd dfd w w' :
  let ch0 := listening_chan lb a lfd in
  mustered ∅ base ∅ ls w → lb ∈ ls → (w_next w ≤ achan < w_next w')%nat →
  lfd ∉ base → dfd ∉ {[lfd]} ∪ base →
  r_chans (w_r w') = <[achan := ch0]> (r_chans (w_r w)) → r_pollers (w_r w') = r_pollers (w_r w) →
  (∀ ep, interest (io_k (w_io w')) ep = interest (io_k (w_io w)) ep) →
  open_fds (io_k (w_io w')) = {[dfd]} ∪ ({[lfd]} ∪ open_fds (io_k (w_io w))) →
  (w_loops w', w_nextTid w', w_conns w', w_clients w', w_held w')
    = (w_loops w, w_nextTid w, w_conns w, w_clients w, w_held w) →
  mustered {[achan := ch0]} ({[lfd]} ∪ base) {[dfd]} ls w'.
Proof.
  intros ch0 Hm Hlb Hnext Hlfd Hdfd Ec Ep Ei Eo [= El Et E1 E2 E3].
  pose proof Hm as [M1 M2 M3 M4 M5 M6 M7 M8 M9 M10 M11 M12 M13].
  assert (∀ fd, fd ∈ base → fd ∈ {[lfd]} ∪ base) as Hsub by (intros fd ?; apply elem_of_union; by right).
  assert (r_chans (w_r w) !! achan = None) as Hfree.
  { destruct (r_chans (w_r w) !! achan) eqn:E; [|done]. destruct (M8 _ _ E). lia. }
  split; rewrite ?El, ?Et, ?Ep, ?E1, ?E2, ?E3; try done.
  - intros l lx Hl. destruct (M3 l lx Hl). split; auto.
  - intros l lx Hl. destruct (M4 l lx Hl) as (p & Hok & Hn & He). exists p. split; [|split; [exact Hn|by apply Hsub]].
    eapply (loop_ok_new l p achan ch0) in Hok as Hok'; [|exact Hfree|done|].
    + eapply loop_ok_frame; [exact Hok'|exact Ec|exact Ep|apply Ei|]. simpl. rewrite El. exact (lk_thread _ _ _ Hok).
    + intros q ch Hq _ E. destruct (M8 q ch Hq) as (_ & _ & Hfd & _). rewrite E in Hfd. by apply Hlfd.
  - intros l lx Hl. destruct (M5 l lx Hl). lia.
  - intros q ch Hq. rewrite Ec in Hq. apply lookup_insert_Some in Hq as [[<- <-]|[_ Hq]].
    + split_and!; [lia|done|apply elem_of_union; left; by apply elem_of_singleton|].
      right. apply lookup_singleton_eq.
    + destruct (M8 q ch Hq) as (H1 & H2 & H3 & [H4|H4]); [|by rewrite lookup_empty in H4].
      split_and!; [lia|done|by apply Hsub|by left].
  - rewrite Eo, M9. set_unfold. intros x. tauto.
  - intros fd H1 ->%elem_of_singleton. done.
Qed.

Lemma thread_of_here w l lx : w_loops w !! l = Some lx → thread_of w l = el_threadId lx.
Proof. intros Hl. unfold thread_of. by rewrite Hl. Qed.

Lemma TcpServer_ctor_muster_wp lb base ls addr name option text n w :
  mustered ∅ base ∅ ls w → lb ∈ ls → roomy (5 + n) (io_k (w_io w)) → toIpPort addr = Ok text →
  let s := w_next w in
  wp (TcpServer_ctor lb addr name option 0) (λ r w', r = s ∧ ∃ lfd dfd io,
    w' = with_io io (made_server lb name text lfd dfd 0 w) ∧ 0 ≤ dfd ∧ roomy n (io_k io)
    ∧ mustered {[S (S s) := listening_chan lb (S s) lfd]} ({[lfd]} ∪ base) {[dfd]} ls w') w.
Proof.
  intros Hm Hlb Hroom Htext s. pose proof Hroom as [H1 R1].
  specialize (H1 (SysSocket (family addr)) eq_refl). specialize (R1 (SysSocket (family addr))).
  pose proof (opens_done (SysSocket (family addr)) (io_k (w_io w)) eq_refl H1) as [N1 O1].
  pose proof R1 as [H2 R2]. specialize (H2 SysOpenDevNull eq_refl). specialize (R2 SysOpenDevNull).
  pose proof (opens_done SysOpenDevNull _ eq_refl H2) as [N2 O2]. rewrite O1 in N2, O2.
  eapply TcpServer_ctor_wp; [exact Htext|exact H2|].
  intros r1 r2 calls io Hio Hall Hfew Hr2. split; [done|]. exists (ret r1), (ret r2), io.
  pose proof Hio as [[_ (Ea & Eb & _)] Hk]. cbn [fst snd] in Ea, Eb. subst r1 r2.
  assert (open_fds (io_k (w_io w)) = base) as Eo
    by (by rewrite (mu_open _ _ _ _ _ Hm), (right_id_L ∅ (∪))).
  rewrite Eo in N1, N2, O2. split_and!; [done|exact Hr2| |].
  - rewrite Hk. unfold replay. cbn [foldl fst snd]. apply (roomy_replay n calls).
    eapply (roomy_less (3 - length calls)).
    by replace (3 - length calls + (length calls + n))%nat with (3 + n)%nat by lia.
  - eapply mustered_listening; [exact Hm|exact Hlb|simpl; unfold s; lia|exact N1|exact N2|done|done| | |done].
    + intros ep. change (w_io (with_io io _)) with io. rewrite Hk. unfold replay. cbn [foldl fst snd].
      etrans; [exact (replay_interest calls _ ep Hall)|]. by rewrite !interest_frame.
    + change (w_io (with_io io _)) with io. rewrite Hk. unfold replay. cbn [foldl fst snd].
      etrans; [exact (replay_fds calls _ Hall)|]. by rewrite O2, Eo.
Qed.

(** ** The server starts *)

(** The server [main] has made: [x] at [s] with the pool [pl]. *)
Lemma TcpServer_start_crew_wp lb s x pl lx ac base dfd threads n ind w :
  let a := sv_acceptor x in let ch0 := listening_chan lb a (ac_socket ac) in
  mustered {[S a := ch0]} base {[dfd]} [lb] w → roomy (5 * Z.to_nat threads) (io_k (w_io w)) →
  w_loops w !! lb = Some lx → el_threadId lx = w_tid w → r_chans (w_r w) !! S a = Some ch0 →
  w_servers w = {[s := x]} → echo_server lb s s x → sv_started x = 0 → sv_threadInitCallback x = None →
  sv_connections x = ∅ → sv_nextConnId x = 1 →
  w_pools w !! sv_threadPool x = Some pl → pl_loops pl = [] → pl_baseLoop pl = lb → pl_next pl = 0 →
  pl_started pl = false → pl_numThreads pl = threads →
  w_acceptors w !! a = Some ac → ac_loop ac = lb → ac_listening ac = false → ac_channel ac = S a →
  ac_newConnectionCallback ac = Some s → ac_idleFd ac = dfd → 0 ≤ dfd →
  0 < threads < 2 ^ 31 → 0 ≤ n → 1 + n < 2 ^ 31 →
  wp (TcpServer_start server_user s ind) (λ _ w', ∃ ios base' tid_of ep_of x',
    length ios = Z.to_nat threads
    ∧ crewed lb s a (S a) ios s s base' tid_of ep_of n (at_start (w_loops w')) [] ∅ x' w') w.
Proof.
  intros a ch0 Hm Hroom Hl Ht Hch Hs He Hst Hinit Hmap Hid Hp Hpl Hpb Hpn Hps Hthr Ha Hal Hali Hac Has Hai Hdfd Hthreads Hn Hmax.
  eapply TcpServer_start_pool_wp; [by rewrite Hs, lookup_singleton_eq|exact Hst|exact Hinit|].
  set (x1 := set_sv_started 1 x). set (w1 := set_w_servers _ w).
  assert (mustered {[S a := ch0]} base {[dfd]} [lb] w1) as Hm1 by (eapply mustered_frame; [exact Hm|done..]).
  eapply wp_mono; [eapply (pool_start_wp server_user _ base _ [lb] (sv_threadPool x) pl lx ind 0 w1);
    [exact Hm1|rewrite Hthr, Nat.add_0_r; exact Hroom|exact Hp|exact Hps|lia|rewrite Hpb; exact Hl|exact Ht]|].
  intros [] w2 (base2 & ts & ios & Hlen & Hsub & Hm2 & _ & Hp2 & [K1 K2 K3 K4 K5]). rewrite Hthr in Hlen.
  assert (w_loops w2 !! lb = Some lx) as Hl2 by (eapply lookup_weaken; [exact Hl|exact K4]).
  assert (sv_loop x = lb) as Hlb by apply He.
  exists ac, lx. rewrite Hlb. split_and!; [by rewrite K3|done..|exact Hl2|by rewrite K1|].
  intros r io Hio. rewrite Hac. set (w3 := with_io io _).
  assert (assembled lb s a (S a) ios base2 (ac_socket ac) dfd x1 w3) as Hw3.
  { split.
    - eapply mustered_frame; [exact Hm2|done|done| | |done..].
      + intros ep. change (w_io w3) with io. destruct Hio as [_ ->].
        apply (replay_interest [(SysListen (ac_socket ac), r)]). by repeat constructor.
      + unfold same_fds. change (w_io w3) with io. destruct Hio as [_ ->].
        apply (replay_fds [(SysListen (ac_socket ac), r)]). by repeat constructor.
    - rewrite (thread_of_here w3 lb lx) by exact Hl2. simpl. rewrite K1. by rewrite Ht.
    - eapply lookup_weaken; [exact Hch|exact K5].
    - split; [simpl; by rewrite K2; simpl; rewrite Hs, insert_singleton_eq|]. by destruct He; split.
    - by split.
    - eexists. split; [exact Hp2|]. unfold pool_with. simpl. by rewrite Hpl.
    - eexists. simpl. fold a. rewrite lookup_insert_eq. by split_and!.
    - done.
    - lia. }
  eapply wp_mono; [by apply (listening_crew_wp lb s a (S a) ios base2 (ac_socket ac) dfd n x1 w3 Hw3)|].
  intros [] w4 (Hw4 & E & _). exists ios, base2. do 2 eexists. exists x1. split; [exact Hlen|].
  assert (w_loops w4 = w_loops w3) as -> by (by rewrite E). exact Hw4.
Qed.

(** ** [main] up to [loop.loop()] *)

Lemma blank_mustered w : blank w → mustered ∅ (open_fds (io_k (w_io w))) ∅ [] w.
Proof.
  intros [B1 B2 B3 B4 B5 B6].
  split; rewrite ?B1, ?B2; try done; try (intros ? ? Hl; by rewrite lookup_empty in Hl).
  - constructor.
  - intros l. rewrite lookup_empty. split; [by intros []|by intros ?%elem_of_nil].
  - by intros l l' p p' ?%elem_of_nil.
  - by rewrite (right_id_L ∅ (∪)).
Qed.

Lemma atoi_range text n : atoi text = Ok n → - 2 ^ 31 ≤ n < 2 ^ 31.
Proof.
  unfold atoi. set (d := match skip_spaces text with String _ _ => _ | EmptyString => _ end). clearbody d.
  destruct (Z.leb_spec (- 2 ^ 31) d), (Z.ltb_spec d (2 ^ 31)); simpl; try done. intros [= <-]. lia.
Qed.

(** The server with its threads, none of which has run yet; [n] steps are left. *)
Definition launched (lb s : ptr) (threads n : Z) w : Prop :=
  ∃ ios base tid_of ep_of x, length ios = Z.to_nat threads
    ∧ crewed lb s (S s) (S (S s)) ios s s base tid_of ep_of n (at_start (w_loops w)) [] ∅ x w.

Lemma server_setup_wp before ind ip portText threadsText port threads n w :
  blank w → (w_tid w < w_nextTid w)%nat → length before = sizeof_sockaddr → has_colon ip = false →
  atoi portText = Ok port → atoi threadsText = Ok threads → 1 < threads →
  roomy (10 + 5 * Z.to_nat threads) (io_k (w_io w)) → 0 ≤ n → 1 + n < 2 ^ 31 →
  wp (server_setup before ind 0 ip portText threadsText)
    (λ r w', r.1 = w_next w ∧ launched r.1 r.2 threads n w') w.
Proof.
  intros Hblank Htid Hlen Hcol Hport Hthreads Hmany Hroom Hn Hmax.
  unfold server_setup. apply wp_bind. rewrite Hport. apply wp_ret.
  apply wp_bind, InetAddress_ipv4_wp; [done|done|]. intros addr io0 Hfam Hio.
  destruct (toIpPort_ipv4_short addr Hfam) as (text & Htext & Hshort).
  apply wp_bind. rewrite Hthreads. apply wp_ret. set (w0 := with_io io0 w).
  assert (io_k (w_io w0) = io_k (w_io w)) as E0 by (destruct Hio as [_ E]; exact E).
  pose proof (blank_mustered w Hblank) as Hm.
  assert (mustered ∅ (open_fds (io_k (w_io w))) ∅ [] w0) as Hm0.
  { eapply mustered_frame; [exact Hm|done|done| | |done..]; [intros ep|unfold same_fds]; by rewrite E0. }
  apply wp_bind. eapply wp_mono; [eapply (EventLoop_ctor_muster_wp _ _ _ _ ind (5 + 5 * Z.to_nat threads) w0);
    [exact Hm0|by rewrite E0| |exact Htid]|].
  { intros l lx Hl. simpl in Hl. by rewrite (bl_loops _ Hblank), lookup_empty in Hl. }
  intros lb w1 (El & (base & _ & Hm1) & Hroom1 & Hrest & _ & (lx & Hl & Ht)). simpl in Hm1.
  assert (w_servers w1 = ∅) as Hs1 by (rewrite Hrest; exact (bl_servers _ Hblank)).
  apply wp_bind. eapply wp_mono; [eapply (TcpServer_ctor_muster_wp lb base [lb] addr "PingPong" kNoReusePort text);
    [exact Hm1|by left|exact Hroom1|exact Htext]|].
  intros s w2 (-> & lfd & dfd & io & -> & Hdfd & Hroom2 & Hm2). set (s := w_next w1) in *.
  apply wp_bind. eapply upd_server_wp; [simpl; fold s; by rewrite lookup_insert_eq|].
  apply wp_bind. eapply upd_server_wp; [simpl; by rewrite lookup_insert_eq|].
  apply wp_bind. rewrite (proj2 (Z.ltb_lt _ _)) by done. cbn [when].
  unfold TcpServer_setThreadNum. apply wp_bind, wp_assert; [apply Z.leb_le; lia|].
  apply wp_bind. eapply get_server_wp; [simpl; by rewrite lookup_insert_eq|].
  eapply upd_pool_wp; [simpl; fold s; by rewrite lookup_insert_eq|].
  pose proof (atoi_range _ _ Hthreads). match goal with |- wp _ _ ?W => set (w3 := W) end.
  assert (mustered {[S (S s) := listening_chan lb (S s) lfd]} ({[lfd]} ∪ base) {[dfd]} [lb] w3) as Hm3
    by (eapply mustered_frame; [exact Hm2|done..]).
  apply wp_bind. eapply wp_mono; [eapply (TcpServer_start_crew_wp lb s
      (mkTcpServer lb text "PingPong" (S s) (S (S (S s))) (UserConnectionCallback s) (UserMessageCallback s) None None 0 1 ∅)
      (mkEventLoopThreadPool lb "PingPong" false threads 0 [] []) lx
      (mkAcceptor lb lfd (S (S s)) (Some s) false dfd) _ dfd threads n ind w3);
    [exact Hm3|exact Hroom2|exact Hl|exact Ht|..]|].
  all: try (simpl; fold s; by rewrite lookup_insert_eq).
  all: try done.
  - simpl. by rewrite Hs1, !insert_insert_eq.
  - lia.
Qed.
(** ** What is there when the threads begin *)

Section begin.
Context (lb s : ptr) (ios : list ptr) (base : gset Z) (tid_of : ptr → tid) (ep_of : ptr → Z).
#[local] Abbreviation crewed := (crewed lb s (S s) (S (S s)) ios s s base tid_of ep_of).

Lemma launched_loops n st x w : crewed n (at_start (w_loops w)) [] st x w →
  size (w_loops w) = S (length ios) ∧ (lb ∉ ios) ∧ ∀ l, l ∈ ios → is_Some (w_loops w !! l).
Proof.
  intros [H1 H2 _]. pose proof (ko_nodup _ _ _ _ _ H1) as [Hlb Hnd]%NoDup_cons. split_and!; [|exact Hlb|].
  - rewrite <- size_dom. assert (dom (w_loops w) = list_to_set (C := gset ptr) (lb :: ios)) as ->.
    { apply set_eq. intros l. rewrite elem_of_dom, elem_of_list_to_set. split; [apply (sf_loops _ _ _ _ _ _ _ _ _ _ H2)|].
      intros Hl. destruct (sf_duty _ _ _ _ _ _ _ _ _ _ H2 l Hl) as (lx & Hx & _). by exists lx. }
    rewrite size_list_to_set; [done|by constructor].
  - intros l Hl. destruct (sf_duty _ _ _ _ _ _ _ _ _ _ H2 l) as (lx & Hx & _); [by right|by exists lx].
Qed.

Lemma launched_open n pcs x w : crewed n pcs [] ∅ x w →
  ∃ ac, w_acceptors w !! S s = Some ac
    ∧ ∀ fd, fd ∈ base ↔ fd ∈ open_fds (io_k (w_io w)) ∧ fd ≠ ac_idleFd ac.
Proof.
  intros [_ _ [_ [_ _ _ (ac & Hac & _ & _ & [Ho [Hi _] _]) _] _ H6]]. exists ac. split; [exact Hac|].
  assert (∀ c y, w_conns w !! c = Some y → False) as Hnone.
  { intros c y Hy. destruct (rs_conn _ _ _ _ _ _ _ _ _ _ _ _ _ _ H6 c y Hy) as (_ & k & _ & Hk & _).
    by rewrite lookup_empty in Hk. }
  intros fd. rewrite Ho. split.
  - intros Hfd. split; [by left|]. by intros ->.
  - intros [[?|[[_ ?]|(c & y & Hy & _)]] Hne]; [done|done|by destruct (Hnone c y Hy)].
Qed.
End begin.

(** ** The theorem *)

(** C1: what can stop the echo server with threads of its own, and that nothing of it is
    lost.  Start the program of example/pingpong/server.cc with an IPv4 address and more
    than one thread, the kernel having the descriptors that takes and granting what is
    asked of [epoll_ctl] ([EpollRoom]): a loop for the listening socket and one in each
    thread are made.  Then let the threads take their steps (a poll, the events of one
    channel, taking the queued functors, one functor, dropping one pointer) in any order
    whatsoever, one after the other or two threads at the same time, with any result of
    any other system call, as long as the steps are fewer than the connection numbers
    there are.  There are four outcomes.  The server goes on: no assertion fails, no
    object is used after it is gone, no index is out of range; at any moment a connection
    exists exactly as long as something points to it, it belongs to the loop of one of the
    threads and, unless it is closed, it is in the server's map; what is open is what was
    open at first, the acceptor's spare descriptor, and one descriptor for each
    connection; and whenever no thread is in the middle of a round and no functor is
    queued, the connections are those of the map, all up.  Or two threads use a queue of
    functors at the same time, which [queueInLoop] does not prevent: the behaviour is
    undefined from there; never, if no two steps overlap.  Or SIGPIPE, which the code
    leaves at its default, ends the process.  Or a connection is closed twice, which an
    assertion finds; never, if the kernel reports no hang-up with PRI or RDHUP but
    without IN. *)
Theorem server_threads_keep_serving (d : disposition) (schedule : list turn) before ind ip portText threadsText
    port threads w
    (Hblank : blank w) (Htid : (w_tid w < w_nextTid w)%nat) (Hbefore : length before = sizeof_sockaddr)
    (Hip : has_colon ip = false) (Hport : atoi portText = Ok port) (Hthreads : atoi threadsText = Ok threads)
    (Hmany : 1 < threads) (Hroom : roomy (10 + 5 * Z.to_nat threads) (io_k (w_io w)))
    (Hsteps : 1 + Z.of_nat (steps schedule) < 2 ^ 31) :
  ∃ lb s w1 ac1,
    server_setup before ind 0 ip portText threadsText w = Ok ((lb, s), w1)
    ∧ size (w_loops w1) = S (Z.to_nat threads) ∧ w_acceptors w1 !! S s = Some ac1
    ∧ let run := as_process d
        (run_schedule (invoke server_user) (run_functor server_user) schedule (at_start (w_loops w1))) w1 in
      (∃ pcs w' x ac, run = Ok (pcs, w')
         ∧ w_servers w' = {[s := x]} ∧ w_acceptors w' !! S s = Some ac
         ∧ (∀ c, is_Some (w_conns w' !! c) ↔ c ∈ owners w')
         ∧ (∀ c y, w_conns w' !! c = Some y → (tc_loop y ≠ lb ∧ is_Some (w_loops w1 !! tc_loop y))
              ∧ (tc_state y = kDisconnected ∨ sv_connections x !! tc_name y = Some c))
         ∧ (∀ fd, fd ∈ open_fds (io_k (w_io w')) ↔
              (fd ∈ open_fds (io_k (w_io w1)) ∧ fd ≠ ac_idleFd ac1) ∨ (0 ≤ fd ∧ fd = ac_idleFd ac)
              ∨ ∃ c y, w_conns w' !! c = Some y ∧ tc_socket y = fd)
         ∧ (quiet pcs w' →
              (∀ c, is_Some (w_conns w' !! c) ↔ ∃ name, sv_connections x !! name = Some c)
              ∧ ∀ c y, w_conns w' !! c = Some y → tc_state y = kConnected))
      ∨ (run = Fault (DataRace "pendingFunctors_") ∧ existsb overlaps schedule = true)
      ∨ (run = Fault (Terminated "SIGPIPE") ∧ d = SIG_DFL)
      ∨ (run = Fault (AssertFailed "TcpConnection.cpp:198") ∧ mixed_hangups).
Proof.
  pose proof (server_setup_wp before ind ip portText threadsText port threads (Z.of_nat (steps schedule)) w
    Hblank Htid Hbefore Hip Hport Hthreads Hmany Hroom ltac:(lia) Hsteps) as ([lb s] & w1 & Hrun & _ & Hw1)%wp_run.
  destruct Hw1 as (ios & base & tid_of & ep_of & x1 & Hlen & Hw1). cbn [fst snd] in Hw1.
  destruct (launched_loops _ _ _ _ _ _ _ _ _ _ Hw1) as (Hsize & Hnd & Hios).
  destruct (launched_open _ _ _ _ _ _ _ _ _ _ Hw1) as (ac1 & Hac1 & Hbase).
  assert (manned lb s (S s) (S (S s)) ios s s base tid_of ep_of (0 + Z.of_nat (steps schedule)) (at_start (w_loops w1)) w1)
    as Hm1 by (by exists ∅, x1).
  pose proof (run_schedule_wp lb s (S s) (S (S s)) ios s s base tid_of ep_of (existsb overlaps schedule) schedule 0 _ w1
    Hm1 ltac:(lia) ltac:(done)) as Hwp.
  exists lb, s, w1, ac1. split_and!; [exact Hrun|by rewrite Hsize, Hlen|exact Hac1|]. cbv zeta.
  apply (as_process_wpx d) in Hwp.
  destruct Hwp as [(pcs & w' & Hrun' & Hm')|[(Hrun' & Hd)|(e & Hrun' & [[-> Hm]|[-> Ho]])]];
    [left|right; right; by left|right; right; by right|right; by left].
  destruct (manned_inventory _ _ _ _ _ _ _ _ _ _ _ _ _ Hm') as (x & ac & Hs & Hac & Hc & Ho).
  exists pcs, w', x, ac. split_and!; [exact Hrun'|exact Hs|exact Hac| | | |].
  - intros c. by eapply manned_owners.
  - intros c y Hy. destruct (Hc c y Hy) as [Hin Hst]. split; [split|exact Hst].
    + intros E. by rewrite E in Hin.
    + by apply Hios.
  - intros fd. by rewrite Ho, Hbase.
  - intros Hq. by eapply manned_quiet.
Qed.
End launch.

(** ** A kernel that counts *)

(** The results of the next [n] calls are [a], [a + 1] and so on. *)
Fixpoint numbered (a : Z) (n : nat) (rest : list sysres) : list sysres :=
  match n with O => rest | S n => plain a :: numbered (a + 1) n rest end.

Definition counting (n : nat) (a : Z) (k : fsim) : Prop :=
  (∃ rest, sim_script (fs_sim k) = numbered a n rest) ∧ ∀ fd, fd ∈ fs_open k → fd < a.

Lemma numbered_less n : ∀ a rest, ∃ rest', numbered a (S n) rest = numbered a n rest'.
Proof.
  induction n as [|n IH]; intros a rest; [by eexists|]. destruct (IH (a + 1) rest) as [rest' E].
  exists rest'. change (plain a :: numbered (a + 1) (S n) rest = plain a :: numbered (a + 1) n rest'). by rewrite E.
Qed.

(** Each call takes one of them, or none. *)
Lemma counting_opens c n a k : opens c = true → counting (S n) a k → counting n (a + 1) (os_call c k).2.
Proof.
  intros Hc [[rest Hs] Ho]. rewrite fsim_opens by done. destruct k as [[script m] open]. simpl in Hs, Ho. subst script.
  assert (∃ m', os_call c (mkSim (plain a :: numbered (a + 1) n rest) m)
    = (plain a, mkSim (numbered (a + 1) n rest) m')) as [m' E] by (destruct c; try done; by eexists).
  cbn [fs_sim]. rewrite E. cbn [fst snd ret plain].
  destruct (0 <=? a); [case_decide|]; (split; [by exists rest|]); cbn [snd fs_open]; intros fd.
  - intros Hfd. specialize (Ho fd Hfd). lia.
  - intros [->%elem_of_singleton|Hfd]%elem_of_union; [lia|]. specialize (Ho fd Hfd). lia.
  - intros Hfd. specialize (Ho fd Hfd). lia.
Qed.

Lemma counting_call c n a k : counting (S n) a k → counting n a (os_call c k).2 ∨ counting n (a + 1) (os_call c k).2.
Proof.
  intros Hk. destruct (opens c) eqn:Hc; [right; by apply counting_opens|].
  destruct Hk as [[rest Hs] Ho]. destruct k as [[script m] open]. simpl in Hs, Ho. subst script.
  assert (∀ fd, fd ∈ open → fd < a + 1) as Ho' by (intros fd Hfd; specialize (Ho fd Hfd); lia).
  destruct c; try done; try (right; split; [by exists rest|exact Ho']).
  - right. split; [by exists rest|]. by intros fd0 [Hfd _]%elem_of_difference; apply Ho'.
  - left. split; [|exact Ho]. destruct (numbered_less n a rest) as [rest' E]. exists rest'. rewrite <- E.
    unfold os_call, fsim_os. cbn [snd fs_sim]. unfold os_call, sim_os. repeat case_match; done.
Qed.

(** It has room for as many descriptors. *)
Lemma counting_roomy n : ∀ a k, counting n a k → 0 ≤ a → a + Z.of_nat n ≤ NR_OPEN → roomy n k.
Proof.
  induction n as [|n IH]; intros a k Hk Ha Hmax; [done|]. split.
  - intros c Hc. destruct Hk as [[rest Hs] Ho]. assert (opens c = true) as Hop by (by destruct c).
    rewrite fsim_opens by done. destruct k as [[script m] open]. simpl in Hs, Ho. subst script.
    assert ((os_call c (mkSim (plain a :: numbered (a + 1) n rest) m)).1 = plain a) as E by (by destruct c).
    cbv zeta. cbn [fs_sim]. rewrite E. cbn [ret plain].
    rewrite (proj2 (Z.leb_le _ _)), decide_False by (first [done|intros [Hin|?]; [specialize (Ho a Hin)|]; lia]).
    exact Ha.
  - intros c. destruct (counting_call c n a k Hk) as [H|H]; [apply (IH a)|apply (IH (a + 1))]; try done; lia.
Qed.

(** *** One connection, from thread to thread

    The loops are 10, in the main thread, and 18 and 22, in threads 50 and 51.  Thread
    7 accepts a client and hands it to 18, which makes a connection of it, at 25, and
    echoes half of "ab"; the client hangs up, and the connection goes back to 10, out
    of the server's map, and to 18 again, where it ends. *)

#[local] Existing Instance sample_inet.
#[local] Existing Instance sample_inet_laws.

Definition launch_script : list sysres := numbered 3 20
  [plain 0; event 15 POLLIN; plain 0; mkRes 30 0 client_addr []; mkRes 0 0 server_addr []; plain 0; plain 8;
   plain 0; event 26 POLLIN; plain 0; mkRes 2 0 [x61; x62] []; plain 1;
   event 26 (Z.lor POLLIN POLLOUT); plain 0; plain 0; plain 8;
   event 12 POLLIN; plain 0; plain 8; plain 8; event 20 POLLIN; plain 0; plain 8; plain 0].

Definition launch_world : World fsim :=
  with_io (mkIO (mkFsim (mkSim launch_script ∅) {[0; 1; 2]}) [] 0 []) opening_world.

Definition launch_schedule : list turn := One <$>
  [10; 18; 22; 18; 22]%nat ++ replicate 9 10%nat ++ replicate 15 18%nat ++ replicate 7 10%nat
  ++ replicate 7 18%nat ++ replicate 3 22%nat.

Definition launch_run (schedule : list turn) :=
  ('(lb, s) ← server_setup zero_addr false 0 "127.0.0.1" "8080" "2";
   loops ← gets w_loops;
   pcs ← run_schedule (invoke server_user) (run_functor server_user) schedule (at_start loops);
   mret (lb, s, pcs)) launch_world.

Example launch_scenario :
  match launch_run launch_schedule with
  | Ok ((lb, s, pcs), w') =>
      Some (lb, s, map_to_list pcs, w_calls w', size (w_conns w'), closed_fds (io_trace (w_io w')),
            elements (open_fds (io_k (w_io w'))))
  | Fault _ => None
  end = Some (10%nat, 13%nat, [(22%nat, Waiting); (18%nat, Waiting); (10%nat, Waiting)],
              [UcConnection 13 25 true; UcMessage 13 25 0; UcConnection 13 25 false], 0%nat, [30],
              [15; 11; 7; 13; 5; 3; 14; 6; 12; 16; 4; 2; 1; 0]).
Proof. by vm_compute. Qed.



Lemma server_threads_keep_serving_witness :
  ∃ lb s w1 pcs w',
    server_setup zero_addr false 0 "127.0.0.1" "8080" "2" launch_world = Ok ((lb, s), w1)
    ∧ as_process SIG_DFL
        (run_schedule (invoke server_user) (run_functor server_user) launch_schedule (at_start (w_loops w1))) w1
      = Ok (pcs, w')
    ∧ ∀ c, is_Some (w_conns w' !! c) ↔ c ∈ owners w'.
Proof.
  destruct (server_threads_keep_serving SIG_DFL launch_schedule zero_addr false "127.0.0.1" "8080" "2" 8080 2 launch_world)
    as (lb & s & w1 & ac1 & Hrun & _ & _ & Hend).
  - by split.
  - simpl. lia.
  - reflexivity.
  - reflexivity.
  - reflexivity.
  - reflexivity.
  - done.
  - apply (counting_roomy 20 3); [|done|by vm_compute]. split; [by eexists|].
    intros fd Hfd. simpl in Hfd. set_unfold in Hfd. lia.
  - by vm_compute.
  - exists lb, s, w1. cbv zeta in Hend.
    assert (match server_setup zero_addr false 0 "127.0.0.1" "8080" "2" launch_world with
            | Ok (_, w2) => match as_process SIG_DFL (run_schedule (invoke server_user) (run_functor server_user)
                                    launch_schedule (at_start (w_loops w2))) w2 with Ok _ => true | Fault _ => false end
            | Fault _ => false end = true) as Hok by (by vm_compute).
    rewrite Hrun in Hok.
    destruct Hend as [(pcs & w' & x & ac & Hend & _ & _ & Hown & _)|[[E _]|[[E _]|[E _]]]];
      [|by rewrite E in Hok..].
    exists pcs, w'. split_and!; [exact Hrun|exact Hend|exact Hown].
Defined.
