(* ===== verification/Monitor.v ===== *)
(** * Monitor: a mutex and a condition variable

    What the standard library gives a class whose members hold [std::mutex] for
    their whole body and wait on one [std::condition_variable] in a loop that
    tests the data again after every wake-up.  Such a member is a function of the
    data: it waits, or it returns with new data and notifies.  A system is one
    object and the threads that use it; its steps are what any thread may do next,
    so a run is an interleaving. *)
From S2P Require Import Prelude.

Set Default Goal Selector "!".

(** Whom a member notifies before it returns. *)
Inductive notify : Type := NotifyNone | NotifyOne | NotifyAll.

(** One turn of a member with the mutex held: [wait] on the condition variable,
    return, or undefined behaviour. *)
Inductive verdict (A R : Type) : Type :=
  | Waits
  | Returns (a : A) (r : R) (n : notify)
  | Undefined.
Arguments Waits {A R}.
Arguments Returns {A R} a r n.
Arguments Undefined {A R}.

Class Monitor (A Op R : Type) := critical : Op → A → verdict A R.

(** Where a thread is: outside the object, before the mutex (in a call, or woken in
    [wait]), holding it, or asleep in [wait]. *)
Inductive status (Op : Type) : Type :=
  | Outside
  | Entering (op : Op)
  | Inside (op : Op)
  | Asleep (op : Op).
Arguments Outside {Op}.
Arguments Entering {Op} op.
Arguments Inside {Op} op.
Arguments Asleep {Op} op.

(** The object's data, who holds its mutex, the threads, and the calls that have
    returned, in the order they held the mutex. *)
Record system (A Op R : Type) : Type := mkSystem {
  data : A;
  holder : option nat;
  threads : list (status Op);
  history : list (Op * R)
}.
Arguments mkSystem {A Op R} data holder threads history.
Arguments data {A Op R} _.
Arguments holder {A Op R} _.
Arguments threads {A Op R} _.
Arguments history {A Op R} _.

(** A step of thread [t]: call a member, take the mutex, run until the mutex is
    given back ([woken] is the sleeper that [notify_one] picks), wake up for no
    reason. *)
Inductive label (Op : Type) : Type :=
  | Call (t : nat) (op : Op)
  | Lock (t : nat)
  | Body (t woken : nat)
  | Spurious (t : nat).
Arguments Call {Op} t op.
Arguments Lock {Op} t.
Arguments Body {Op} t woken.
Arguments Spurious {Op} t.

Section monitor.
Context {A Op R : Type} `{!Monitor A Op R}.
Implicit Types (s : system A Op R) (ts : list (status Op)).

Definition asleep (x : status Op) : bool := match x with Asleep _ => true | _ => false end.
Definition wake (x : status Op) : status Op := match x with Asleep op => Entering op | _ => x end.

(** [notify_one] wakes one sleeper if there is one, [notify_all] all of them. *)
Definition notify_threads (n : notify) (woken : nat) ts : option (list (status Op)) :=
  match n with
  | NotifyNone => Some ts
  | NotifyAll => Some (wake <$> ts)
  | NotifyOne =>
      if existsb asleep ts
      then match ts !! woken with
           | Some (Asleep op) => Some (<[woken := Entering op]> ts)
           | _ => None
           end
      else Some ts
  end.

Lemma notify_one_cases woken ts ts' :
  notify_threads NotifyOne woken ts = Some ts' →
  (∃ op, ts !! woken = Some (Asleep op) ∧ ts' = <[woken := Entering op]> ts
     ∧ existsb asleep ts = true)
  ∨ (existsb asleep ts = false ∧ ts' = ts).
Proof.
  unfold notify_threads. destruct (existsb asleep ts); [|intros [= ->]; by right].
  destruct (ts !! woken) as [[| | |op]|]; intros H; try done. left. exists op. by simplify_eq.
Qed.

(** The system after a step, if the step is possible. *)
Definition step (l : label Op) s : option (system A Op R) :=
  match l with
  | Call t op =>
      match threads s !! t with
      | Some Outside => Some (mkSystem (data s) (holder s) (<[t := Entering op]> (threads s)) (history s))
      | _ => None
      end
  | Lock t =>
      match threads s !! t, holder s with
      | Some (Entering op), None =>
          Some (mkSystem (data s) (Some t) (<[t := Inside op]> (threads s)) (history s))
      | _, _ => None
      end
  | Body t woken =>
      match threads s !! t with
      | Some (Inside op) =>
          match critical op (data s) with
          | Waits => Some (mkSystem (data s) None (<[t := Asleep op]> (threads s)) (history s))
          | Returns a r n =>
              ts ← notify_threads n woken (<[t := Outside]> (threads s));
              Some (mkSystem a None ts (history s ++ [(op, r)]))
          | Undefined => None
          end
      | _ => None
      end
  | Spurious t =>
      match threads s !! t with
      | Some (Asleep op) =>
          Some (mkSystem (data s) (holder s) (<[t := Entering op]> (threads s)) (history s))
      | _ => None
      end
  end.

Fixpoint run (ls : list (label Op)) s : option (system A Op R) :=
  match ls with
  | [] => Some s
  | l :: ls => s' ← step l s; run ls s'
  end.

(** An object with data [a] and [n] threads outside it. *)
Definition start (a : A) (n : nat) : system A Op R := mkSystem a None (replicate n Outside) [].

Definition reached (a : A) (n : nat) s : Prop := ∃ ls, run ls (start a n) = Some s.

(** ** Invariants *)

(** The cases of a step, as far as an invariant is concerned. *)
Inductive moves s : system A Op R → Prop :=
  | moves_call t op : threads s !! t = Some Outside →
      moves s (mkSystem (data s) (holder s) (<[t := Entering op]> (threads s)) (history s))
  | moves_lock t op : threads s !! t = Some (Entering op) → holder s = None →
      moves s (mkSystem (data s) (Some t) (<[t := Inside op]> (threads s)) (history s))
  | moves_waits t op : threads s !! t = Some (Inside op) → critical op (data s) = Waits →
      moves s (mkSystem (data s) None (<[t := Asleep op]> (threads s)) (history s))
  | moves_returns t op a r n woken ts : threads s !! t = Some (Inside op) →
      critical op (data s) = Returns a r n →
      notify_threads n woken (<[t := Outside]> (threads s)) = Some ts →
      moves s (mkSystem a None ts (history s ++ [(op, r)]))
  | moves_spurious t op : threads s !! t = Some (Asleep op) →
      moves s (mkSystem (data s) (holder s) (<[t := Entering op]> (threads s)) (history s)).

Lemma step_moves l s s' : step l s = Some s' → moves s s'.
Proof.
  intros H. destruct l as [t op|t|t woken|t]; simpl in H.
  - destruct (threads s !! t) as [[]|] eqn:Ht; simplify_eq. by econstructor.
  - destruct (threads s !! t) as [[]|] eqn:Ht, (holder s) eqn:?; simplify_eq. by econstructor.
  - destruct (threads s !! t) as [[| |op|]|] eqn:Ht; simplify_eq.
    destruct (critical op (data s)) as [|a r n|] eqn:Hc; simplify_eq; [by econstructor|].
    destruct (notify_threads _ _ _) eqn:Hn; simplify_eq/=. by econstructor.
  - destruct (threads s !! t) as [[]|] eqn:Ht; simplify_eq. by econstructor.
Qed.

(** Rule induction over the runs of an object. *)
Lemma reached_ind (I : system A Op R → Prop) a n :
  I (start a n) → (∀ s s', I s → moves s s' → I s') → ∀ s, reached a n s → I s.
Proof.
  intros H0 Hstep s [ls Hrun]. revert H0 Hrun. generalize (start a n). induction ls as [|l ls IH].
  - intros s0 H0 [= <-]. done.
  - intros s0 H0 Hrun. simpl in Hrun. destruct (step l s0) as [s1|] eqn:Hs; [|done]. simpl in Hrun.
    apply (IH s1); [|done]. eapply Hstep; [exact H0|by eapply step_moves].
Qed.

(** *** Counting threads *)

Definition count (p : status Op → bool) ts : nat := length (filter p ts).

Lemma count_insert p ts t x y :
  ts !! t = Some x →
  (count p (<[t := y]> ts) + Nat.b2n (p x) = count p ts + Nat.b2n (p y))%nat.
Proof.
  revert t. induction ts as [|z ts IH]; intros [|t] H; simplify_eq/=; unfold count in *; simpl.
  - rewrite !filter_cons. do 2 case_decide; destruct (p x), (p y); simpl in *; try done; lia.
  - specialize (IH t H). rewrite !filter_cons. case_decide; simpl; lia.
Qed.

Lemma existsb_asleep ts : existsb asleep ts = false ↔ ∀ t op, ts !! t ≠ Some (Asleep op).
Proof.
  rewrite <- not_true_iff_false, existsb_exists. split.
  - intros H t op Ht. apply H. exists (Asleep op). split; [|done].
    apply list_elem_of_In. by eapply list_elem_of_lookup_2.
  - intros H (x & Hx & Hs). destruct x as [| | |op]; try done.
    apply list_elem_of_In, list_elem_of_lookup_1 in Hx as [t Ht]. by apply (H t op).
Qed.
End monitor.
