(* ===== verification/Base.v ===== *)
(** * Base: the thread utilities (CountDownLatch.h, CountDownLatch.cpp,
    BlockingQueue.h, Singleton.h)

    The members of the three classes as instances of [Monitor], and what holds however
    the threads that share an object are interleaved. *)
From S2P Require Import Prelude Monitor.

Set Default Goal Selector "!".

(** ** Sleepers *)

(** Setting a thread to something else than [Asleep] puts nobody to sleep. *)
Lemma insert_awake {Op} (ts : list (status Op)) t x u op :
  asleep x = false → <[t := x]> ts !! u = Some (Asleep op) → ts !! u = Some (Asleep op).
Proof.
  intros Hx H. destruct (decide (t = u)) as [->|Hne].
  - destruct (decide (u < length ts)%nat).
    + rewrite list_lookup_insert_eq in H by done. by simplify_eq.
    + rewrite list_insert_ge in H by lia. done.
  - by rewrite list_lookup_insert_ne in H.
Qed.

Lemma existsb_awake {Op} (ts : list (status Op)) t x :
  asleep x = false → existsb asleep (<[t := x]> ts) = true → existsb asleep ts = true.
Proof.
  intros Hx H. destruct (existsb asleep ts) eqn:E; [done|]. rewrite <- H. symmetry.
  apply existsb_asleep. intros u op Hu. apply insert_awake in Hu; [|done].
  by apply (proj1 (existsb_asleep ts) E u op).
Qed.

Lemma wake_awake {Op} (ts : list (status Op)) u op : (wake <$> ts) !! u ≠ Some (Asleep op).
Proof. rewrite list_lookup_fmap. by destruct (ts !! u) as [[]|]. Qed.

(** ** CountDownLatch *)

Inductive latch_op : Type := Latch_wait | Latch_countDown | Latch_getCount.

(** [wait()]: its [while], and the return. *)
Definition CountDownLatch_wait (count_ : Z) : verdict Z (option Z) :=
  if 0 <? count_ then Waits else Returns count_ None NotifyNone.

(** [countDown()]; [count_--] is undefined on the least [int]. *)
Definition CountDownLatch_countDown (count_ : Z) : verdict Z (option Z) :=
  if count_ =? - 2 ^ 31 then Undefined
  else let count_ := count_ - 1 in
    Returns count_ None (if count_ =? 0 then NotifyAll else NotifyNone).

Definition CountDownLatch_getCount (count_ : Z) : verdict Z (option Z) :=
  Returns count_ (Some count_) NotifyNone.

#[export] Instance CountDownLatch : Monitor Z latch_op (option Z) := λ op,
  match op with
  | Latch_wait => CountDownLatch_wait
  | Latch_countDown => CountDownLatch_countDown
  | Latch_getCount => CountDownLatch_getCount
  end.

Section latch.
Implicit Types s : system Z latch_op (option Z).

Definition is_countDown (e : latch_op * option Z) : bool :=
  match e.1 with Latch_countDown => true | _ => false end.

(** The number of completed calls of [countDown]. *)
Definition countDowns s : Z := Z.of_nat (length (filter is_countDown (history s))).

Definition has_waited s : Prop := (Latch_wait, None) ∈ history s.

(** Every thread asleep on the latch waits for a count that is still positive. *)
Record latch_ok (n : Z) s : Prop := {
  lo_count : data s = n - countDowns s;
  lo_asleep : data s ≤ 0 → ∀ t op, threads s !! t ≠ Some (Asleep op);
  lo_opened : has_waited s → data s ≤ 0
}.

Lemma latch_ok_start n k : latch_ok n (start n k).
Proof.
  split.
  - unfold countDowns. simpl. lia.
  - intros _ t op H. apply lookup_replicate in H as [? _]. done.
  - intros H. by apply not_elem_of_nil in H.
Qed.

Lemma countDowns_app s a ts op r : countDowns (mkSystem a None ts (history s ++ [(op, r)]))
  = countDowns s + (if is_countDown (op, r) then 1 else 0).
Proof.
  unfold countDowns. simpl. rewrite filter_app, length_app, filter_cons, filter_nil.
  case_decide; destruct op; simpl in *; try done; lia.
Qed.

(** What a member does, as far as the count is concerned. *)
Lemma latch_verdict op count_ :
  match critical op count_ with
  | Waits => 0 < count_
  | Returns a r m =>
      (a = count_ ∧ m = NotifyNone ∧ op ≠ Latch_countDown ∧ (op = Latch_wait → count_ ≤ 0))
      ∨ (op = Latch_countDown ∧ a = count_ - 1 ∧ m = if a =? 0 then NotifyAll else NotifyNone)
  | Undefined => True
  end.
Proof.
  destruct op; cbv [critical CountDownLatch CountDownLatch_wait CountDownLatch_countDown
    CountDownLatch_getCount].
  - destruct (Z.ltb_spec 0 count_); [done|]. left. done.
  - destruct (count_ =? _); [done|]. by right.
  - left. done.
Qed.

Lemma latch_ok_moves n s s' : latch_ok n s → moves s s' → latch_ok n s'.
Proof.
  intros [Hc Ha Ho] Hm.
  inversion Hm as [t op Ht|t op Ht Hl|t op Ht Hcr|t op a r m woken ts Ht Hcr Hn|t op Ht]; subst; clear Hm.
  - split; [done| |done]. intros H0 u op' Hu. by eapply (Ha H0), insert_awake, Hu.
  - split; [done| |done]. intros H0 u op' Hu. by eapply (Ha H0), insert_awake, Hu.
  - pose proof (latch_verdict op (data s)) as Hv. rewrite Hcr in Hv.
    split; [done|simpl; lia|done].
  - pose proof (latch_verdict op (data s)) as Hv. rewrite Hcr in Hv.
    pose proof (countDowns_app s a ts op r) as Hcd.
    assert (has_waited (mkSystem a None ts (history s ++ [(op, r)])) → has_waited s ∨ op = Latch_wait)
      as Hw.
    { unfold has_waited. simpl. rewrite elem_of_app, list_elem_of_singleton. intros [?|[=]]; eauto. }
    destruct Hv as [(-> & -> & Hne & Hop)|(-> & -> & ->)].
    + simpl in Hn. simplify_eq. split.
      * rewrite Hcd. simpl. destruct op; try done; simpl; lia.
      * intros H0 u op' Hu. by eapply (Ha H0), insert_awake, Hu.
      * intros [H|H]%Hw; simpl; auto.
    + split.
      * rewrite Hcd. simpl. lia.
      * simpl. intros H0 u op' Hu. destruct (Z.eqb_spec (data s - 1) 0); simpl in Hn; simplify_eq.
        -- by eapply wake_awake.
        -- assert (data s ≤ 0) as H1 by lia. by eapply (Ha H1), insert_awake, Hu.
      * simpl. intros [H|H]%Hw; [apply Ho in H; lia|done].
  - split; [done| |done]. intros H0 u op' Hu. by eapply (Ha H0), insert_awake, Hu.
Qed.

Lemma reached_latch_ok n k s : reached n k s → latch_ok n s.
Proof. apply reached_ind; [apply latch_ok_start|]. intros s1 s2. apply latch_ok_moves. Qed.

(** C33: a latch opens at its count and stays open.  However the threads that share
    it are interleaved, the count is the initial one less the calls of
    [countDown]; [wait] has returned to nobody before that many calls; from then
    on no thread is asleep in [wait], and one that gets the mutex returns. *)
Theorem CountDownLatch_opens (n : Z) (k : nat) s (Hs : reached n k s) :
  data s = n - countDowns s
  ∧ (has_waited s → n ≤ countDowns s)
  ∧ (n ≤ countDowns s →
       (∀ t op, threads s !! t ≠ Some (Asleep op))
       ∧ ∀ t, holder s = None → threads s !! t = Some (Entering Latch_wait) →
           run [Lock t; Body t 0%nat] s
           = Some (mkSystem (data s) None (<[t := Outside]> (threads s))
               (history s ++ [(Latch_wait, None)]))).
Proof.
  destruct (reached_latch_ok n k s Hs) as [Hc Ha Ho]. split_and!; [done| |].
  - intros H. apply Ho in H. lia.
  - intros Hn. assert (data s ≤ 0) as H0 by lia. split; [by apply Ha|].
    intros t Hl Ht. pose proof (lookup_lt_Some _ _ _ Ht) as Hlt.
    cbn [run step]. rewrite Ht, Hl. cbn [mbind option_bind threads data holder history].
    rewrite list_lookup_insert_eq by done.
    cbv [critical CountDownLatch CountDownLatch_wait]. destruct (Z.ltb_spec 0 (data s)); [lia|].
    cbn [mbind option_bind notify_threads]. by rewrite list_insert_insert_eq.
Qed.
End latch.

(** *** Two threads wait for one countDown *)

Definition latch_run : list (label latch_op) :=
  [Call 0 Latch_wait; Lock 0; Call 1 Latch_wait; Body 0 0; Lock 1; Body 1 0; Call 2 Latch_countDown;
   Lock 2; Body 2 0; Lock 1; Body 1 0]%nat.

Lemma CountDownLatch_opens_witness :
  ∃ s, run latch_run (start 1 3) = Some s ∧ data s = 0 ∧ 1 ≤ countDowns s
    ∧ ∀ t op, threads s !! t ≠ Some (Asleep op).
Proof.
  eexists. split; [by vm_compute|]. 
  destruct (CountDownLatch_opens 1 3 (mkSystem 0 None [Entering Latch_wait; Outside; Outside]
    [(Latch_countDown, None); (Latch_wait, None)])) as (Hc & Hw & Ho).
  - exists latch_run. by vm_compute.
  - assert (1 ≤ countDowns (mkSystem 0 None [Entering Latch_wait; Outside; Outside]
      [(Latch_countDown, None); (Latch_wait, None)])) as H1 by (apply Hw; right; left).
    split_and!; [done|exact H1|apply (Ho H1)].
Defined.

(** ** BlockingQueue *)

Section blocking_queue.
Context {T : Type}.

Inductive queue_op : Type := Queue_put (x : T) | Queue_take | Queue_drain | Queue_size.

(** What a member returns. *)
Inductive queue_ret : Type := Rvoid | Rtaken (x : T) | Rdrained (xs : list T) | Rsize (n : nat).

(** Both overloads of [put] leave the same queue. *)
Definition BlockingQueue_put (x : T) (queue_ : list T) : verdict (list T) queue_ret :=
  Returns (queue_ ++ [x]) Rvoid NotifyOne.

Definition BlockingQueue_take (queue_ : list T) : verdict (list T) queue_ret :=
  match queue_ with
  | [] => Waits
  | front :: queue_ => Returns queue_ (Rtaken front) NotifyNone
  end.

(** [drain()]: a deque that was moved from is empty. *)
Definition BlockingQueue_drain (queue_ : list T) : verdict (list T) queue_ret :=
  Returns [] (Rdrained queue_) NotifyNone.

Definition BlockingQueue_size (queue_ : list T) : verdict (list T) queue_ret :=
  Returns queue_ (Rsize (length queue_)) NotifyNone.

#[export] Instance BlockingQueue : Monitor (list T) queue_op queue_ret := λ op,
  match op with
  | Queue_put x => BlockingQueue_put x
  | Queue_take => BlockingQueue_take
  | Queue_drain => BlockingQueue_drain
  | Queue_size => BlockingQueue_size
  end.

Implicit Types s : system (list T) queue_op queue_ret.

(** The values put, and the values handed out, in order. *)
Definition put_values (h : list (queue_op * queue_ret)) : list T :=
  flat_map (λ e, match e.1 with Queue_put x => [x] | _ => [] end) h.
Definition got_values (h : list (queue_op * queue_ret)) : list T :=
  flat_map (λ e, match e.2 with Rtaken x => [x] | Rdrained xs => xs | _ => [] end) h.

(** A thread on its way to take something, awake. *)
Definition taking (x : status queue_op) : bool :=
  match x with Entering Queue_take | Inside Queue_take => true | _ => false end.

(** Nothing is lost or reordered; only takers sleep; and while a taker sleeps
    there are as many takers awake as there are values. *)
Record queue_inv s : Prop := {
  qi_fifo : put_values (history s) = got_values (history s) ++ data s;
  qi_takers : ∀ t op, threads s !! t = Some (Asleep op) → op = Queue_take;
  qi_awake : existsb asleep (threads s) = true → (length (data s) ≤ count taking (threads s))%nat
}.

Lemma queue_inv_start k : queue_inv (start [] k).
Proof.
  split.
  - done.
  - intros t op H. apply lookup_replicate in H as [? _]. done.
  - simpl. lia.
Qed.

(** A thread that moves on without changing the data. *)
Lemma queue_inv_move s t x y h :
  threads s !! t = Some x → asleep y = false → (taking x → taking y) → queue_inv s →
  queue_inv (mkSystem (data s) h (<[t := y]> (threads s)) (history s)).
Proof.
  intros Ht Hy Hxy [Hf Hk Ha]. split; simpl; [done|by intros u op' Hu%insert_awake; eauto|].
  intros H%existsb_awake; [|done]. specialize (Ha H).
  pose proof (count_insert taking _ _ _ y Ht). destruct (taking x), (taking y); simpl in *; lia.
Qed.

Lemma put_values_app h e : put_values (h ++ [e]) = put_values h ++ put_values [e].
Proof. apply flat_map_app. Qed.
Lemma got_values_app h e : got_values (h ++ [e]) = got_values h ++ got_values [e].
Proof. apply flat_map_app. Qed.

(** [put] with the thread that it wakes, if one sleeps. *)
Lemma queue_inv_put s t x woken ts :
  threads s !! t = Some (Inside (Queue_put x)) → queue_inv s →
  notify_threads NotifyOne woken (<[t := Outside]> (threads s)) = Some ts →
  queue_inv (mkSystem (data s ++ [x]) None ts (history s ++ [(Queue_put x, Rvoid)])).
Proof.
  intros Ht [Hf Hk Ha] Hn. pose proof (count_insert taking _ _ _ Outside Ht) as Hcount.
  assert (∀ u op, <[t:=Outside]> (threads s) !! u = Some (Asleep op) → op = Queue_take) as Hk'
    by (intros u op Hu%insert_awake; eauto).
  assert (put_values (history s ++ [(Queue_put x, Rvoid)])
    = got_values (history s ++ [(Queue_put x, Rvoid)]) ++ data s ++ [x]) as Hf'.
  { rewrite put_values_app, got_values_app, Hf. simpl. by rewrite app_nil_r, <- app_assoc. }
  apply notify_one_cases in Hn as [(op & Hw & -> & He)|[He ->]].
  - pose proof (Hk' _ _ Hw) as ->. apply existsb_awake in He; [|done]. specialize (Ha He).
    pose proof (count_insert taking _ _ _ (Entering Queue_take) Hw) as Hcount'.
    split; simpl; [exact Hf'|by intros u op Hu%insert_awake; eauto|].
    intros _. rewrite length_app. simpl in *. lia.
  - split; simpl; [exact Hf'|exact Hk'|]. by rewrite He.
Qed.

Lemma queue_inv_moves s s' : queue_inv s → moves s s' → queue_inv s'.
Proof.
  intros Hi Hm.
  inversion Hm as [t op Ht|t op Ht Hl|t op Ht Hcr|t op a r m woken ts Ht Hcr Hn|t op Ht]; subst; clear Hm.
  - by eapply queue_inv_move.
  - eapply queue_inv_move; [done..|by destruct op|done].
  - destruct Hi as [Hf Hk Ha]. destruct op; try done. cbv [critical BlockingQueue BlockingQueue_take] in Hcr.
    destruct (data s) eqn:Hd; [|done]. split; simpl; [done| |lia].
    intros u op Hu. destruct (decide (t = u)) as [->|Hne].
    + apply list_lookup_insert_Some in Hu as [(_ & [= <-] & _)|[? _]]; done.
    + rewrite list_lookup_insert_ne in Hu by done. by eapply Hk.
  - pose proof (count_insert taking _ _ _ Outside Ht) as Hcount.
    pose proof Hi as [Hf Hk Ha].
    assert (∀ u op', <[t:=Outside]> (threads s) !! u = Some (Asleep op') → op' = Queue_take) as Hk'
      by (intros u op' Hu%insert_awake; eauto).
    destruct op as [x| | |]; cbv [critical BlockingQueue BlockingQueue_put BlockingQueue_take
      BlockingQueue_drain BlockingQueue_size] in Hcr.
    + simplify_eq. by eapply queue_inv_put.
    + destruct (data s) as [|front rest] eqn:Hd; simplify_eq/=. split; simpl.
      * rewrite put_values_app, got_values_app, Hf. simpl. by rewrite app_nil_r, <- app_assoc.
      * done.
      * intros H%existsb_awake; [|done]. specialize (Ha H). simpl in *. lia.
    + simplify_eq/=. split; simpl; [|done|lia].
      rewrite put_values_app, got_values_app, Hf. simpl. by rewrite !app_nil_r.
    + simplify_eq/=. split; simpl; [|done|].
      * rewrite put_values_app, got_values_app, Hf. simpl. by rewrite !app_nil_r.
      * intros H%existsb_awake; [|done]. specialize (Ha H). simpl in *. lia.
  - eapply queue_inv_move; [done..|by destruct op|done].
Qed.

Lemma reached_queue_inv k s : reached [] k s → queue_inv s.
Proof. apply reached_ind; [apply queue_inv_start|]. intros s1 s2. apply queue_inv_moves. Qed.

(** C34: a blocking queue is first in, first out, and loses no wake-up.  However the
    threads that share it are interleaved, the values handed out by [take] and
    [drain] followed by those still queued are the values put, in order; and while
    any thread is asleep in [take], at least as many others are in [take] awake, on
    their way to the queue, as there are values in it. *)
Theorem BlockingQueue_fifo_no_lost_wakeup (k : nat) s (Hs : reached [] k s) :
  put_values (history s) = got_values (history s) ++ data s
  ∧ ∀ t op, threads s !! t = Some (Asleep op) →
      op = Queue_take ∧ (length (data s) ≤ count taking (threads s))%nat.
Proof.
  destruct (reached_queue_inv k s Hs) as [Hf Hk Ha]. split; [done|]. intros t op Ht.
  split; [by eapply Hk|]. apply Ha. destruct (existsb asleep (threads s)) eqn:He; [done|].
  by destruct (proj1 (existsb_asleep _) He t op).
Qed.
End blocking_queue.
Arguments queue_op T : clear implicits.
Arguments queue_ret T : clear implicits.

(** *** Two takers asleep, then a value *)

Definition queue_run : list (label (queue_op nat)) :=
  [Call 0 Queue_take; Lock 0; Body 0 0; Call 1 Queue_take; Lock 1; Body 1 0;
   Call 2 (Queue_put 5); Lock 2; Body 2 1]%nat.

Lemma BlockingQueue_fifo_no_lost_wakeup_witness :
  ∃ s, run queue_run (start [] 3) = Some s ∧ data s = [5]%nat
    ∧ put_values (history s) = got_values (history s) ++ data s
    ∧ (1 ≤ count taking (threads s))%nat.
Proof.
  destruct (run queue_run (start [] 3)) as [s|] eqn:Hrun; [|by vm_compute in Hrun].
  destruct (BlockingQueue_fifo_no_lost_wakeup 3 s) as [Hf Hw]; [by exists queue_run|].
  assert (data s = [5]%nat ∧ threads s !! 0%nat = Some (Asleep Queue_take)) as [Hd Ht]
    by (vm_compute in Hrun; by simplify_eq).
  exists s. split_and!; [done..|]. destruct (Hw _ _ Ht) as [_ H]. by rewrite Hd in H.
Defined.

(** ** Singleton (Singleton.h)

    [std::call_once] runs [init] in one of the threads that come first and lets none
    of them through before it is done: a critical section.  The objects that
    [new T()] makes are numbered; [si_live] are those not yet deleted. *)

Record Singleton : Type := mkSingleton {
  flag_ : bool;
  value_ : option nat;
  si_live : gset nat;
  si_next : nat
}.

Inductive singleton_op : Type := Singleton_op_instance | Singleton_op_destroy.

(** [value_ = new T();] *)
Definition Singleton_init (d : Singleton) : Singleton :=
  mkSingleton (flag_ d) (Some (si_next d)) ({[si_next d]} ∪ si_live d) (S (si_next d)).

Definition Singleton_instance (d : Singleton) : verdict Singleton (option nat) :=
  let d := if flag_ d then d
           else let d := Singleton_init d in mkSingleton true (value_ d) (si_live d) (si_next d) in
  match value_ d with
  | Some p => Returns d (Some p) NotifyNone
  | None => Undefined
  end.

(** [delete value_;], and the comparison [value_ == nullptr;], which does nothing. *)
Definition Singleton_destroy (d : Singleton) : verdict Singleton (option nat) :=
  match value_ d with
  | None => Returns d None NotifyNone
  | Some p =>
      if decide (p ∈ si_live d)
      then Returns (mkSingleton (flag_ d) (Some p) (si_live d ∖ {[p]}) (si_next d)) None NotifyNone
      else Undefined
  end.

#[export] Instance Singleton_monitor : Monitor Singleton singleton_op (option nat) := λ op,
  match op with
  | Singleton_op_instance => Singleton_instance
  | Singleton_op_destroy => Singleton_destroy
  end.

Section singleton.
Implicit Types (s : system Singleton singleton_op (option nat)) (h : list (singleton_op * option nat)).

Definition no_object : Singleton := mkSingleton false None ∅ 0.

(** Every call of [instance] returns the first object, and no other is ever made;
    as long as nobody called [destroy] it is there. *)
Record singleton_ok s : Prop := {
  so_returned : ∀ e, e ∈ history s → e.1 = Singleton_op_instance → e.2 = Some 0%nat ∧ flag_ (data s) = true;
  so_made : if flag_ (data s) then value_ (data s) = Some 0%nat ∧ si_next (data s) = 1%nat
            else data s = no_object;
  so_live : flag_ (data s) = true →
    si_live (data s) = {[0%nat]}
    ∨ si_live (data s) = ∅ ∧ ∃ r, (Singleton_op_destroy, r) ∈ history s
}.

Lemma singleton_ok_start k : singleton_ok (start no_object k).
Proof. split; [by intros e He%elem_of_nil|done|done]. Qed.

(** Only the data and the history matter. *)
Lemma singleton_ok_same s s' :
  data s' = data s → history s' = history s → singleton_ok s → singleton_ok s'.
Proof. intros Ed Eh [H1 H2 H3]. by split; rewrite ?Ed, ?Eh. Qed.

Lemma singleton_ok_instance s h' a r n holder' ts :
  singleton_ok s → Singleton_instance (data s) = Returns a r n →
  h' = history s ++ [(Singleton_op_instance, r)] → singleton_ok (mkSystem a holder' ts h').
Proof.
  intros [H1 H2 H3] Hcr ->. unfold Singleton_instance in Hcr.
  destruct (flag_ (data s)) eqn:Hf; [destruct H2 as [Hv Hn]; rewrite Hv in Hcr|rewrite H2 in Hcr];
    injection Hcr as <- <- <-.
  - split; simpl; [|by rewrite Hf|].
    + intros e [He| ->%list_elem_of_singleton]%elem_of_app Hop; [|done].
      split; [by apply H1|exact Hf].
    + intros _. destruct (H3 eq_refl) as [?|[? [r Hr]]]; [by left|right]. split; [done|]. exists r.
      apply elem_of_app. by left.
  - split; simpl; [|done|].
    + intros e [He| ->%list_elem_of_singleton]%elem_of_app Hop; [|done]. by destruct (H1 e He Hop).
    + intros _. left. by rewrite union_empty_r_L.
Qed.

Lemma singleton_ok_destroy s h' a r n holder' ts :
  singleton_ok s → Singleton_destroy (data s) = Returns a r n →
  h' = history s ++ [(Singleton_op_destroy, r)] → singleton_ok (mkSystem a holder' ts h').
Proof.
  intros [H1 H2 H3] Hcr ->. unfold Singleton_destroy in Hcr.
  assert (∀ e, e ∈ history s ++ [(Singleton_op_destroy, r)] → e.1 = Singleton_op_instance →
    e.2 = Some 0%nat ∧ flag_ (data s) = true) as H1'.
  { intros e [He| ->%list_elem_of_singleton]%elem_of_app Hop; [by apply H1|done]. }
  destruct (flag_ (data s)) eqn:Hf.
  - destruct H2 as [Hv Hn]. rewrite Hv in Hcr. case_decide as Hp; [|done]. injection Hcr as <- <- <-.
    split; simpl; [exact H1'|done|]. intros _. right. split; [|exists None; apply elem_of_app; right; by left].
    destruct (H3 eq_refl) as [->|[-> _]]; [|done]. by rewrite difference_diag_L.
  - rewrite H2 in Hcr. injection Hcr as <- <- <-. split; simpl; [|done|done].
    intros e He Hop. destruct (H1' e He Hop). done.
Qed.

Lemma singleton_ok_moves s s' : singleton_ok s → moves s s' → singleton_ok s'.
Proof.
  intros Hs Hm.
  inversion Hm as [| | |t op a r n woken ts _ Hcr _|]; subst; try by apply (singleton_ok_same s).
  destruct op; [by eapply singleton_ok_instance|by eapply singleton_ok_destroy].
Qed.

(** However the threads are interleaved, every call of [instance] returns the same
    object, the only one ever made; until somebody calls [destroy] it is alive. *)
Theorem Singleton_is_single (k : nat) s (Hs : reached no_object k s) :
  (∀ r, (Singleton_op_instance, r) ∈ history s → r = Some 0%nat)
  ∧ (si_next (data s) ≤ 1)%nat
  ∧ ((∀ r, (Singleton_op_destroy, r) ∉ history s) →
       ∀ r, (Singleton_op_instance, r) ∈ history s → si_live (data s) = {[0%nat]}).
Proof.
  assert (singleton_ok s) as [H1 H2 H3].
  { revert s Hs. apply reached_ind; [apply singleton_ok_start|]. intros s1 s2. apply singleton_ok_moves. }
  split_and!.
  - intros r Hr. by destruct (H1 _ Hr eq_refl).
  - destruct (flag_ (data s)); [by destruct H2 as [_ ->]|rewrite H2; simpl; lia].
  - intros Hd r Hr. destruct (H1 _ Hr eq_refl) as [_ Hf].
    destruct (H3 Hf) as [?|[_ [r' Hr']]]; [done|by destruct (Hd r')].
Qed.

(** After [destroy] the pointer stays, since [value_] is compared and not assigned:
    [instance] goes on returning an object that is gone, and a second [destroy]
    deletes it again. *)
Theorem Singleton_destroy_leaves_the_pointer (d : Singleton) (p : nat)
    (Hf : flag_ d = true) (Hv : value_ d = Some p) (Hp : p ∈ si_live d) :
  ∃ d', Singleton_destroy d = Returns d' None NotifyNone
    ∧ Singleton_instance d' = Returns d' (Some p) NotifyNone ∧ (p ∉ si_live d')
    ∧ Singleton_destroy d' = Undefined.
Proof.
  assert (p ∉ si_live d ∖ {[p]}) as Hgone by (intros [_ H]%elem_of_difference; by apply H, elem_of_singleton).
  eexists. unfold Singleton_destroy at 1. rewrite Hv, decide_True by done. split; [done|].
  unfold Singleton_instance, Singleton_destroy. simpl. by rewrite Hf, decide_False.
Qed.
End singleton.

(** Two threads ask, the second before the first was served. *)
Example singleton_run :
  history <$> run [Call 0 Singleton_op_instance; Call 1 Singleton_op_instance; Lock 1; Body 1 0; Lock 0; Body 0 0]%nat
    (start no_object 2)
  = Some [(Singleton_op_instance, Some 0%nat); (Singleton_op_instance, Some 0%nat)].
Proof. by vm_compute. Qed.
